(* ===== verification/_CoqProject ===== *)
-Q . S2P
Prelude.v
Double.v
Dyadic.v
Events.v
SpscRing.v
SpscRingFacts.v
SpscRingProps.v
SpscViews.v
Queue.v
ObjectPool.v
Text.v
LatencyHistogram.v
Metrics.v
OrderBook.v
OrderManager.v
AsyncLogger.v
MockExchange.v
Persister.v
Config.v
MarketMaker.v
MarketMakerFacts.v
StrategySteps.v
StrategyDemo.v
StrategyProps.v
DecisionProps.v
Ledger.v
FixApp.v
FixProps.v
Typing.v
Storage.v
Platform.v
Main.v
Bench.v
Startup.v
MetricsServer.v
System.v
BenchSystem.v
BenchTick.v
SystemTypes.v
SystemProps.v
OrderFlow.v
ClosedLoop.v
ClosedLoopDemo.v
ClosedLoopProps.v
Agreement.v
Records.v
Registry.v
Liveness.v
Shutdown.v
Layout.v
Dump.v
