(* ===== verification/Prelude.v ===== *)
(** * mm-engine: a verification library for the market-making engine

    ** The program

    mm-engine quotes futures on the ROFEX exchange over FIX 5.0 SP2.  It is a
    set of threads that exchange fixed-size events over single-producer
    single-consumer rings (src/src/main.cpp draws the picture):

    - the QuickFIX reader thread runs the callbacks of [FixApp]
      (fix/fix_app.hpp): a market-data snapshot becomes an [MdEvent], an
      execution report an [ExecEvent], each pushed into its ring;
    - the strategy thread runs [MarketMaker::run] (strategy/market_maker.hpp):
      it drains the reports into the order manager (oms/order_manager.hpp),
      takes one snapshot, refreshes the book of its instrument
      (book/order_book.hpp), decides, and pushes [OrderCmd]s;
    - the sender thread (main.cpp) pops commands and hands the FIX messages of
      [FixApp::send_order_cmd] to the session;
    - the logger thread (common/async_logger.hpp) writes the operations log,
      the persister thread (storage/lmdb_persister.hpp) the LMDB history, the
      metrics thread (metrics/metrics_server.hpp) publishes the registry
      (metrics/metrics.hpp, common/latency_histogram.hpp).

    For tests without the real exchange the repository has a stand-in for it,
    src/scripts/mock_exchange.py: a FIX acceptor that fills or acknowledges the
    orders and confirms the cancels.

    src/scripts/dump_lmdb.py prints the LMDB history.

    All source paths below are relative to src/src/, those of the scripts to
    src/.

    ** The files

    - Prelude: faults ([Res]: a value, undefined behaviour, or a C++
      exception), the state-and-fault monad [M], arithmetic at machine width,
      arrays with bounds ([array_read], [array_write], [zget2], [zset2]), runs
      of labelled transition systems.
    - Double: binary64 on the Standard Library's [SpecFloat] (round to nearest
      even).  Dyadic: the lemmas that make sums, products and comparisons exact
      on numbers of the form m * 2^e, and bound a sum that is rounded.
    - Events: common/events.hpp.
    - SpscRing, SpscRingFacts, SpscRingProps: common/spsc_ring.hpp, once as the
      member functions on one memory ([try_push], [try_pop], [size_approx]) and
      once as a two-thread machine ([cstep]) that interleaves at every shared
      access and lets an acquire load return any value coherence allows.
      SpscViews: that machine against one without indices or buffer, a list of
      items and how far each side's view of the other lags.
    - Queue: the interface of a ring to its two users, a class of operations
      ([QueueOps]) with the laws of a bounded queue ([QueueLaws]); the ring is
      an instance ([spsc_ops]), and so is a plain list.  All the files below are
      written and proved against the class.
    - ObjectPool: common/object_pool.hpp.
    - Text: the parts of C text handling the program uses: decimal printing and
      [strtoull], [%010llu], [snprintf] truncation, [strncpy].
    - LatencyHistogram, Metrics: common/latency_histogram.hpp, metrics/metrics.hpp.
    - OrderBook, OrderManager: book/order_book.hpp, oms/order_manager.hpp.
    - MockExchange: scripts/mock_exchange.py, its wire format, the framing of
      the received bytes ([received_raws]) and the handler of a message.
    - AsyncLogger, Persister: common/async_logger.hpp, storage/lmdb_persister.hpp;
      LMDB is a class [LmdbOps] whose puts and commits may fail, with the laws
      [LmdbLaws] of those that succeed, of which finite maps are an instance and
      so is a map that is full ([full_db]).
    - Config: common/config.hpp.
    - MarketMaker: strategy/market_maker.hpp, each method as a program of the
      monad [M] on the record [Engine].  The method [decide] is
      [decide_quotes] here.  MarketMakerFacts: the invariant [engine_ok] and
      the effect of each method.  StrategySteps: the loop as a step relation
      [strat_step] under interference.  StrategyDemo: concrete runs.
      StrategyProps, DecisionProps: the properties.  Ledger: a program logic for
      the methods, [leaves P m], that says what a method enters into the rings,
      the log, the history and the histograms, with one rule per construct of
      the monad and one lemma per method.
    - FixApp, FixProps: fix/fix_app.hpp; the QuickFIX messages are a class
      [QuickFix] of field accessors that may throw.
    - Typing: the range or shape that each struct's declaration implies, as the
      instances of one class ([CppType]), and that every operation keeps it.
    - Storage: LmdbPersister::open, put, the final sync and the destructor as
      sequences of LMDB calls with arbitrary return codes, against the order of
      calls that lmdb.h allows ([lmdb_step]).  [unguarded_put] is the one call
      out of order there is: [put] does not look at the result of mdb_dbi_open.
    - Platform: common/timestamp.hpp and common/affinity.hpp; the clocks and the
      answers of the operating system are parameters.
    - Main: the loops of main.cpp that handle data (sender, load-test sink and
      generator, [read_password]).  Bench: the producer loop and the report of
      [run_bench].  Startup: [main] and [run_bench] as the main thread sees
      them, every answer of the outside world a field of [World]; an exception
      keeps the state it left ([Act]), since the destructors decide how the
      program ends.  The configuration is part of the state, as the application
      holds a reference to it.  In live mode the bodies of the threads are those
      of System; in the load test the persister's is run here
      ([persister_thread]), since [open] may have failed.
    - MetricsServer: metrics/metrics_server.hpp over a class [Prometheus].
    - System, SystemTypes, SystemProps: the threads of main.cpp around their
      shared objects, as one transition system whose steps are the functions of
      the files above; [sys_fault] is a thread that ends in an exception or in
      undefined behaviour instead of a step; [System.sys_inv] shows that what the other threads do is
      an [env_step] of the strategy and that what the FIX side queues is what
      the strategy assumes.  Liveness: the measure of the backlog and what
      follows from it.  Shutdown: the last phase, from the cleared flag to the
      last join, as a transition system around that of System, in which a fault
      of a thread ends the program ([Aborted]).
    - OrderFlow, ClosedLoop, ClosedLoopDemo, ClosedLoopProps: the system with
      the stand-in at the other end of the connection.  OrderFlow is the
      abstract specification: commands wait until they are handled or lost,
      handled ones become reports, and a book of working orders follows
      ([flow_move]).  ClosedLoop is the detailed system ([loop_step]), whose
      exchange runs the handler of MockExchange on the texts that QuickFIX's wire
      format (a class, [FixWire]) makes of the messages, and shows that each of its steps is
      moves of the flow.  ClosedLoopDemo: a concrete wire format and scripts.
      Agreement: the slots of the order manager against the exchange's book.
    - Records, Registry: what the trace of a run says should be in the operations
      log, the trade history, the registry and on the dashboard, and that it is.
    - Layout, Dump: scripts/dump_lmdb.py.  Layout has the bytes of the stored
      structs (alignment, byte order, binary64) and Python's [struct] formats;
      Dump the walk over the records, for an LMDB cursor ([LmdbCursor]).
    - BenchSystem: the threads of the load test as a second transition system,
      of the same functions.  BenchTick: its prices, computed with rounding,
      against the tick of the configuration.

    ** What the theorems show

    - The whole engine (SystemProps): under any interleaving of the threads and
      whatever the session answers, every thread has its next step or one of two
      faults ends the program, an exception that the sender lets escape or a
      report on an unknown instrument ([engine_progress]); such a report does
      reach an out-of-bounds access ([unknown_symbol_report_is_ub]); all values stay in their C++ types
      ([values_stay_in_type]); commands reach the session once and in order
      ([commands_reach_session]); a second order for an instrument and side
      leaves only after a terminal report of the first has arrived
      ([wire_one_working_order]); a dry run sends no order
      ([dry_run_never_trades]).
    - Engine and exchange (ClosedLoopProps, Agreement, MockExchange): over a connection
      that may lose messages and be re-established, the exchange has at most one
      working order per instrument and side ([exchange_one_working_order]), and
      an instrument and side whose quote waits for its cancel stays silent for
      good, unless a fill is on its way ([canceled_side_goes_dark]), since the
      stand-in confirms the cancel under another id; while nothing is lost, the
      order manager agrees with the exchange's book, whose orders are the texts
      the exchange has read from the tags of the messages, whenever no message is
      under way ([books_agree_when_quiet]); the exchange reads the
      messages that were sent, however the bytes are cut into segments
      ([stream_reassembled]).
    - Progress (Liveness, Shutdown): once the exchange is silent every run with
      enough strategy steps empties the input rings ([pipeline_drains]), a
      bounded schedule empties all three ([pipeline_quiesces]), and the shutdown
      joins every thread under every interleaving, unless one of the two faults
      ends the program before ([shutdown_joins_all]).
    - Records of a run (Records): the log has a line for every command and fill
      ([ops_log_complete]), the database every fill under its own key
      ([fills_reach_history]), unless the ring in between has been full or an
      LMDB call of a cycle has failed ([cycle_failed]; the code ignores the codes
      of mdb_put and mdb_txn_commit, and [full_map_loses_batch] shows what a full
      map costs); and dump_lmdb.py lists these fills in the order they were handled
      ([dump_lists_fills]).
    - Measurements of a run (Registry): the counters and percentiles are those
      of the trace ([registry_counts_traffic]), and so is what the metrics
      thread exports, whenever it looks ([dashboard_shows_traffic]).
    - The load test (BenchSystem): without reports an instrument and side is
      ordered at most once ([bench_orders_once]), and with a tick of an eighth
      or more, such as the shipped one, not at all ([coarse_tick_never_orders],
      [shipped_load_test_never_orders]).
    - Start and end (Startup, Bench): the outcome of [main] for every failure
      ([live_outcome], [bench_outcome]; a load test on an environment that could
      not be opened misuses LMDB), the credentials of the logon, with the
      SenderCompID that [main] has put in the configuration
      ([logon_credentials]), and what the load test feeds
      ([bench_feed_complete]).
    - The ring (SpscRingProps): under every interleaving items are delivered
      once and in order ([spsc_fifo]), without data races ([spsc_race_free]),
      without waiting ([spsc_wait_free]), with truthful failures
      ([spsc_failure_honest]) and bounded size readings
      ([size_approx_bounded]); called one at a time the operations refine a
      bounded queue ([spsc_refines_queue]).  Interleaved they refine the queue
      with views ([spsc_refines_views]); that is an atomic bounded queue as long
      as failing answers are current ([spsc_linearizes]), and is not one when
      they are stale ([failures_can_cross]).
    - Orders (OrderManager, StrategyProps): [on_exec] refines a table of
      working orders keyed by ClOrdID; whatever the other threads do there is
      at most one working order per instrument and side, cancels name the
      engine's own orders, ids increase, and a slot in flight waits for its
      answer.
    - The decision (DecisionProps): the commands of [decide] are those of a
      table; a narrow market is left; DRY_RUN is silent; on a price grid the
      binary64 comparison is the one of integers; an iteration handles all
      reports before one snapshot; the loop clears its backlog.
    - The FIX boundary (FixProps, Main): no message makes [fromApp] fault; a
      snapshot is queued with its first five levels a side; what it queues is
      within bounds but for reports on unknown instruments ([fromApp_total]); ids
      survive the wire; a command becomes one message, in order.
    - Storage and logs (Persister, Storage, AsyncLogger, Config): keys are sound,
      cycles whose calls
      succeed store their batch, the persister thread ends ([persist_run_stops]),
      the LMDB calls are as lmdb.h asks but for the put after a failed
      mdb_dbi_open ([db_life_legal]), the log is
      complete and its lines parse, the
      configuration round-trips.
    - Measurements (LatencyHistogram, MetricsServer): percentiles are the
      bucket bounds of the order statistics, within one part in 32 from 32 ns
      on; the exported metrics show the registry; the calibration of the time
      stamp counter ends with a positive factor ([calibrate_returns]).

    ** Conventions of the model

    - Machine integers are [Z] with the wrap-around written out ([u16], [u32],
      [u64]); signed overflow is undefined behaviour ([checked64]) where
      differences of clock readings are formed.  An enumeration that the code
      zero-initialises below its first constructor has a constructor for it
      ([SideZero]).  A NaN has no sign.
    - A method that runs in one thread is one function: between two of its own
      steps the other threads may only push into or pop from the rings, which
      is what [env_step] lets happen between the steps of the loop.  Calls of a
      ring that are cut in the middle are the subject of SpscRing only.  There a
      full or empty answer may be stale; in System and BenchSystem it is current.
      For one consumer an answer given too early is a push that arrives later,
      which the steps allow; a push refused although there is room is not a step
      of theirs.
    - The metrics thread reads the registry in one state per iteration; its
      iterations fall between any two steps of the others ([watched]).
    - The load test's system ends with its last message; what happens then is in
      Startup.
    - A loop that drains a ring has as fuel the number of queued items plus one
      ([drain_fuel]): the pop that fails ends it, and the theorems that state
      what a drain leaves show that the fuel is enough.  Items that a producer
      adds while a drain is running are those of a later step.  Printing a
      64-bit number has fuel for 20 digits, a binary64 number in fixed notation
      for 320.
    - The registry is read in one state by a snapshot; the compare-exchange
      loops are modelled with interference ([cas_max_loop]) and used with their
      result.
    - The exchange's working orders are not data of mock_exchange.py, which
      keeps none: [lp_book] is what it has read and what its answers say (an order
      acknowledged New works, with the texts of its tags, until a cancel that
      names it in tag 41 is acknowledged), so fills are orders that never rest in it.
    - [ts::now_ns] is a function of the number of readings made so far.
    - The busy-wait of the calibration has as fuel a number of clock readings;
      [calibrate_returns] shows that any number after which the clock has
      advanced by 50 ms is enough.  The other loops of the threads are step
      relations, whose runs need no fuel.
    - Code outside the repository is a parameter: LMDB (a store with laws in
      Persister, return codes in Storage), QuickFIX, the Prometheus client, the
      operating system.  An out-parameter of a failed LMDB call is taken to be
      left as it was.

    ** Not modelled

    The HTTP exposer and the internals of QuickFIX, LMDB and the C++ runtime;
    the registration of the signal handler (that the flag is cleared is the
    step [MWaitSignal]); printed text, sleeps and cache-line padding, which have
    no effect on the state; the Windows branch of [boost_priority]; the sockets
    and threads of mock_exchange.py, of which only what they carry is modelled;
    the formatting of what dump_lmdb.py prints; and the deployment files. *)
From Stdlib Require Export ZArith Lia.
From stdpp Require Export base tactics list gmap strings numbers.

Declare Scope mm_scope.
Delimit Scope mm_scope with mm.
#[global] Open Scope Z_scope.

(** ** Faults: what a C++ execution step can end in besides a value *)

(** Undefined behaviour the model makes visible, and the exceptions the code
    can see from the standard library and from QuickFIX. *)
Inductive ub_kind :=
| OutOfBounds
| IndeterminateRead
| DivideByZero
| SignedOverflow
| BadConversion
| BadShift
| EndDereference
| LibraryMisuse.

Inductive cxx_exception :=
| FieldNotFound
| FieldConvertError
| UnsupportedMessageType
| InvalidArgument
| OutOfRange
| SessionNotFound
| ConfigError
| RuntimeError
| SystemError.

Inductive fault :=
| UB (k : ub_kind)
| Throw (x : cxx_exception).

#[export] Instance ub_kind_eq_dec : EqDecision ub_kind.
Proof. solve_decision. Defined.
#[export] Instance cxx_exception_eq_dec : EqDecision cxx_exception.
Proof. solve_decision. Defined.
#[export] Instance fault_eq_dec : EqDecision fault.
Proof. solve_decision. Defined.

Inductive Res (A : Type) :=
| Ok (a : A)
| Err (f : fault).
Arguments Ok {A} a.
Arguments Err {A} f.

#[export] Instance Ok_inj A : Inj (=) (=) (@Ok A).
Proof. by intros x y [=]. Qed.

Definition res_bind {A B} (m : Res A) (f : A -> Res B) : Res B :=
  match m with
  | Ok a => f a
  | Err e => Err e
  end.

(** The state-and-fault monad in which the stateful code is written. *)
Definition M (S A : Type) : Type := S -> Res (A * S).

Definition ret {S A} (a : A) : M S A := fun s => Ok (a, s).
Definition bind {S A B} (m : M S A) (f : A -> M S B) : M S B :=
  fun s => res_bind (m s) (fun '(a, s') => f a s').
Definition fail {S A} (e : fault) : M S A := fun _ => Err e.
Definition get {S} : M S S := fun s => Ok (s, s).
Definition gets {S A} (f : S -> A) : M S A := fun s => Ok (f s, s).
Definition modify {S} (f : S -> S) : M S unit := fun s => Ok (tt, f s).
Definition lift {S A} (r : Res A) : M S A := fun s => res_bind r (fun a => Ok (a, s)).

Notation "'let!' x ':=' c 'in' k" := (bind c (fun x => k))
  (at level 10, x pattern, c at level 100, k at level 200,
   format "'[v' 'let!'  x  ':='  c  'in' '/' k ']'") : mm_scope.
Notation "c ';;;' k" := (bind c (fun _ => k))
  (at level 199, k at level 200, right associativity,
   format "'[v' c  ';;;' '/' k ']'") : mm_scope.
#[global] Open Scope mm_scope.

Definition when {S} (b : bool) (m : M S unit) : M S unit :=
  if b then m else ret tt.

Lemma bind_ok {S A B} (m : M S A) (f : A -> M S B) s a s' :
  m s = Ok (a, s') -> bind m f s = f a s'.
Proof. intros H. unfold bind. by rewrite H. Qed.

Lemma bind_inv {S A B} (m : M S A) (f : A -> M S B) s b s'' :
  bind m f s = Ok (b, s'') -> exists a s', m s = Ok (a, s') /\ f a s' = Ok (b, s'').
Proof. unfold bind, res_bind. destruct (m s) as [[a s']|]; naive_solver. Qed.

(** A loop over the elements of a list that threads a state and may fault. *)
Fixpoint res_fold {A B} (f : B -> A -> Res A) (l : list B) (a : A) : Res A :=
  match l with
  | [] => Ok a
  | x :: l => res_bind (f x a) (res_fold f l)
  end.

Lemma res_bind_inv {A B} (m : Res A) (f : A -> Res B) b :
  res_bind m f = Ok b -> exists a, m = Ok a /\ f a = Ok b.
Proof. destruct m; [eauto|done]. Qed.

Lemma res_fold_app {A B} (f : B -> A -> Res A) l1 l2 a :
  res_fold f (l1 ++ l2) a = res_bind (res_fold f l1 a) (res_fold f l2).
Proof.
  revert a. induction l1 as [|x l1 IH]; intros a; simpl; [done|].
  destruct (f x a); simpl; [apply IH|done].
Qed.

(** Invariants and totality of such a loop. *)
Lemma res_fold_total {A B} (f : B -> A -> Res A) (I : A -> Prop) (P : B -> Prop) l a :
  (forall x a, P x -> I a -> exists a', f x a = Ok a' /\ I a') ->
  Forall P l -> I a -> exists a', res_fold f l a = Ok a' /\ I a'.
Proof.
  intros Hf HP. revert a. induction HP as [|x l Hx HP IH]; intros a Ha; simpl; [eauto|].
  destruct (Hf x a Hx Ha) as (a1 & -> & Ha1). simpl. by apply IH.
Qed.

(** ** Machine-width integers, as Z with the wrap written out *)

Definition u8 (z : Z) : Z := z mod 2 ^ 8.
Definition u16 (z : Z) : Z := z mod 2 ^ 16.
Definition u32 (z : Z) : Z := z mod 2 ^ 32.
Definition u64 (z : Z) : Z := z mod 2 ^ 64.
Definition UINT32_MAX : Z := 2 ^ 32 - 1.
Definition UINT64_MAX : Z := 2 ^ 64 - 1.
Definition INT64_MAX : Z := 2 ^ 63 - 1.

Lemma pow2_between a b : 0 <= a <= b -> 1 <= 2 ^ a <= 2 ^ b.
Proof.
  intros H. pose proof (Z.pow_pos_nonneg 2 a ltac:(lia) ltac:(lia)).
  split; [lia|apply Z.pow_le_mono_r; lia].
Qed.

(** Conversion to a signed 64-bit integer (two's complement). *)
Definition i64 (z : Z) : Z := (z + 2 ^ 63) mod 2 ^ 64 - 2 ^ 63.

Definition in_u64 (z : Z) : Prop := 0 <= z < 2 ^ 64.
Definition in_u32 (z : Z) : Prop := 0 <= z < 2 ^ 32.
Definition in_i64 (z : Z) : Prop := - 2 ^ 63 <= z < 2 ^ 63.

Lemma u64_range z : in_u64 (u64 z).
Proof. apply Z.mod_pos_bound. lia. Qed.

Lemma u64_id z : in_u64 z -> u64 z = z.
Proof. intros H. apply Z.mod_small, H. Qed.

Lemma u32_id z : in_u32 z -> u32 z = z.
Proof. intros H. apply Z.mod_small, H. Qed.

Lemma u32_range z : in_u32 (u32 z).
Proof. apply Z.mod_pos_bound. lia. Qed.

Lemma u64_u64 z : u64 (u64 z) = u64 z.
Proof. apply u64_id, u64_range. Qed.

Lemma u64_add_l a b : u64 (u64 a + b) = u64 (a + b).
Proof. apply Zplus_mod_idemp_l. Qed.

Lemma u64_sub a b : u64 (u64 a - u64 b) = u64 (a - b).
Proof. unfold u64. symmetry. apply Zminus_mod. Qed.

Lemma i64_id z : in_i64 z -> i64 z = z.
Proof. unfold in_i64, i64. intros H. rewrite Z.mod_small; lia. Qed.

(** ** Arrays: bounds-checked access by a Z index *)

(** The test comes before [Z.to_nat], so an out-of-range index such as
    UINT32_MAX is rejected without being turned into a unary number. *)
Definition in_bounds {A} (l : list A) (i : Z) : bool :=
  (0 <=? i) && (i <? Z.of_nat (length l)).

Definition zget {A} (l : list A) (i : Z) : option A :=
  if in_bounds l i then l !! Z.to_nat i else None.

Definition zset {A} (l : list A) (i : Z) (x : A) : list A :=
  if in_bounds l i then <[Z.to_nat i := x]> l else l.

Definition array_read {A} (l : list A) (i : Z) : Res A :=
  match zget l i with
  | Some a => Ok a
  | None => Err (UB OutOfBounds)
  end.

Definition array_write {A} (l : list A) (i : Z) (x : A) : Res (list A) :=
  if in_bounds l i then Ok (<[Z.to_nat i := x]> l) else Err (UB OutOfBounds).

Lemma in_bounds_spec {A} (l : list A) i :
  in_bounds l i = true <-> 0 <= i < Z.of_nat (length l).
Proof. unfold in_bounds. rewrite andb_true_iff. lia. Qed.

Lemma in_bounds_false {A} (l : list A) i :
  in_bounds l i = false <-> ~ (0 <= i < Z.of_nat (length l)).
Proof. rewrite <- in_bounds_spec. by destruct (in_bounds l i). Qed.

Lemma zget_Some {A} (l : list A) i x :
  zget l i = Some x <-> 0 <= i /\ l !! Z.to_nat i = Some x.
Proof.
  unfold zget. destruct (in_bounds l i) eqn:E.
  - apply in_bounds_spec in E. split; [intros H; split; [lia|done]|by intros [? ?]].
  - apply in_bounds_false in E. split; [done|]. intros [? Hl%lookup_lt_Some]. lia.
Qed.

Lemma zget_nat {A} (l : list A) (i : nat) : zget l (Z.of_nat i) = l !! i.
Proof.
  destruct (l !! i) as [x|] eqn:E.
  - apply zget_Some. rewrite Nat2Z.id. split; [lia|done].
  - destruct (zget l (Z.of_nat i)) as [y|] eqn:F; [|done].
    apply zget_Some in F as [_ F]. rewrite Nat2Z.id in F. congruence.
Qed.

Lemma zget_to_nat {A} (l : list A) i : 0 <= i -> zget l i = l !! Z.to_nat i.
Proof. intros H. rewrite <- zget_nat. f_equal. lia. Qed.

Lemma zget_is_Some {A} (l : list A) i :
  0 <= i < Z.of_nat (length l) -> exists x, zget l i = Some x.
Proof.
  intros H. destruct (lookup_lt_is_Some_2 l (Z.to_nat i)) as [x Hx]; [lia|].
  exists x. apply zget_Some. split; [lia|done].
Qed.

Lemma zget_oob {A} (l : list A) i :
  ~ (0 <= i < Z.of_nat (length l)) -> zget l i = None.
Proof. intros H. unfold zget. by rewrite (proj2 (in_bounds_false _ _) H). Qed.

Lemma length_zset {A} (l : list A) i x : length (zset l i x) = length l.
Proof. unfold zset. destruct (in_bounds l i); [apply length_insert|done]. Qed.

Lemma zget_zset_eq {A} (l : list A) i x :
  0 <= i < Z.of_nat (length l) -> zget (zset l i x) i = Some x.
Proof.
  intros H. apply zget_Some. split; [lia|]. unfold zset.
  rewrite (proj2 (in_bounds_spec _ _) H). apply list_lookup_insert_eq. lia.
Qed.

Lemma zget_zset_ne {A} (l : list A) i j x :
  i <> j -> zget (zset l i x) j = zget l j.
Proof.
  intros H. unfold zget, in_bounds. rewrite length_zset.
  destruct ((0 <=? j) && (j <? Z.of_nat (length l))) eqn:E; [|done].
  unfold zset. destruct (in_bounds l i) eqn:F; [|done].
  apply in_bounds_spec in F. apply andb_true_iff in E.
  apply list_lookup_insert_ne. lia.
Qed.

Lemma array_write_ok {A} (l : list A) i x :
  0 <= i < Z.of_nat (length l) -> array_write l i x = Ok (zset l i x).
Proof.
  intros H. unfold array_write, zset. by rewrite (proj2 (in_bounds_spec _ _) H).
Qed.

Lemma array_read_ok {A} (l : list A) i x :
  zget l i = Some x -> array_read l i = Ok x.
Proof. intros H. unfold array_read. by rewrite H. Qed.

(** Equal under the coarser function only if equal under the finer one. *)
Lemma NoDup_map_coarser {A B C} (f : A -> B) (g : A -> C) (l : list A) :
  (forall x y, x ∈ l -> y ∈ l -> g x = g y -> f x = f y) -> NoDup (map f l) -> NoDup (map g l).
Proof.
  induction l as [|x l IH]; cbn [map]; intros H Hf; [constructor|]. apply list.NoDup_cons in Hf as [Hx Hl].
  apply list.NoDup_cons. split; [|apply IH; [intros y z; intros; apply H; by try right|done]].
  intros (y & E & Hy)%list_elem_of_In%in_map_iff. apply Hx. apply list_elem_of_In, in_map_iff. exists y.
  split; [|done]. apply H; [right; by apply list_elem_of_In|left|done].
Qed.

(** ** Two-dimensional arrays, [T a[n][m]] *)

Definition zget2 {A} (l : list (list A)) (i j : Z) : option A :=
  match zget l i with
  | Some r => zget r j
  | None => None
  end.

Definition zset2 {A} (l : list (list A)) (i j : Z) (x : A) : list (list A) :=
  match zget l i with
  | Some r => zset l i (zset r j x)
  | None => l
  end.

(** Every row has [m] cells and there are [n] rows. *)
Definition is_matrix {A} (n m : nat) (l : list (list A)) : Prop :=
  length l = n /\ Forall (fun r => length r = m) l.

Lemma is_matrix_row {A} n m (l : list (list A)) i r :
  is_matrix n m l -> zget l i = Some r -> length r = m.
Proof.
  intros [_ HF] [_ Hr]%zget_Some. by eapply Forall_lookup_1 in HF; [|exact Hr].
Qed.

Lemma zget2_is_Some {A} n m (l : list (list A)) i j :
  is_matrix n m l -> 0 <= i < Z.of_nat n -> 0 <= j < Z.of_nat m ->
  exists x, zget2 l i j = Some x.
Proof.
  intros Hm Hi Hj. unfold zget2.
  destruct (zget_is_Some l i) as [r Hr]; [destruct Hm; lia|]. rewrite Hr.
  apply zget_is_Some. rewrite (is_matrix_row _ _ _ _ _ Hm Hr). lia.
Qed.

Lemma is_matrix_zset2 {A} n m (l : list (list A)) i j x :
  is_matrix n m l -> is_matrix n m (zset2 l i j x).
Proof.
  intros Hm. unfold zset2. destruct (zget l i) as [r|] eqn:Hr; [|done].
  pose proof (is_matrix_row _ _ _ _ _ Hm Hr) as Hlen. destruct Hm as [Hn HF].
  split; [by rewrite length_zset|]. unfold zset.
  destruct (in_bounds l i); [|done].
  apply Forall_insert; [done|]. by rewrite <- Hlen, <- (length_zset r j x).
Qed.

Lemma zget2_zset2_eq {A} n m (l : list (list A)) i j x :
  is_matrix n m l -> 0 <= i < Z.of_nat n -> 0 <= j < Z.of_nat m ->
  zget2 (zset2 l i j x) i j = Some x.
Proof.
  intros Hm Hi Hj. unfold zset2.
  destruct (zget_is_Some l i) as [r Hr]; [destruct Hm; lia|]. rewrite Hr.
  unfold zget2. rewrite zget_zset_eq by (destruct Hm; lia).
  apply zget_zset_eq. rewrite (is_matrix_row _ _ _ _ _ Hm Hr). lia.
Qed.

Lemma zget2_zset2_ne {A} (l : list (list A)) i j i' j' x :
  (i, j) <> (i', j') -> zget2 (zset2 l i j x) i' j' = zget2 l i' j'.
Proof.
  intros Hne. unfold zset2. destruct (zget l i) as [r|] eqn:Hr; [|done].
  unfold zget2. destruct (decide (i = i')) as [<-|Hi].
  - pose proof (proj1 (zget_Some _ _ _) Hr) as [H0 Hl%lookup_lt_Some].
    rewrite zget_zset_eq by lia. rewrite Hr. apply zget_zset_ne. congruence.
  - by rewrite zget_zset_ne.
Qed.

(** ** Automation *)

Create HintDb mm discriminated.
Create Rewrite HintDb mm.
#[export] Hint Resolve u64_range u32_range is_matrix_zset2 : mm.
#[export] Hint Rewrite @length_zset u64_u64 u64_add_l u64_sub : mm.

(** Invert a monadic computation that ended in [Ok]. *)
Ltac monad_inv :=
  repeat match goal with
  | H : Ok _ = Ok _ |- _ => injection H as H; subst
  | H : Err _ = Ok _ |- _ => discriminate H
  | H : Ok _ = Err _ |- _ => discriminate H
  | H : (_, _) = (_, _) |- _ => injection H as H; subst
  | H : bind _ _ _ = Ok (_, _) |- _ =>
      let a := fresh "a" in let s := fresh "s" in
      let H1 := fresh "H" in let H2 := fresh "H" in
      apply bind_inv in H as (a & s & H1 & H2)
  | H : ret _ _ = Ok _ |- _ => unfold ret in H
  | H : gets _ _ = Ok _ |- _ => unfold gets in H
  | H : modify _ _ = Ok _ |- _ => unfold modify in H
  | H : fail _ _ = Ok _ |- _ => unfold fail in H
  | H : res_bind _ _ = Ok _ |- _ =>
      let a := fresh "a" in let H1 := fresh "H" in let H2 := fresh "H" in
      apply res_bind_inv in H as (a & H1 & H2)
  end.

(** Case analysis on the scrutinee of a match or if of the goal. *)
Ltac split_match :=
  match goal with
  | |- context [match ?x with _ => _ end] => destruct x eqn:?
  end.

(** Boolean comparisons on Z to propositions, everywhere. *)
Ltac zbool :=
  repeat match goal with
  | H : (_ <? _) = true |- _ => apply Z.ltb_lt in H
  | H : (_ <? _) = false |- _ => apply Z.ltb_ge in H
  | H : (_ <=? _) = true |- _ => apply Z.leb_le in H
  | H : (_ <=? _) = false |- _ => apply Z.leb_gt in H
  | H : (_ =? _) = true |- _ => apply Z.eqb_eq in H
  | H : (_ =? _) = false |- _ => apply Z.eqb_neq in H
  | H : (_ >? _) = true |- _ => rewrite Z.gtb_ltb in H
  | H : (_ >? _) = false |- _ => rewrite Z.gtb_ltb in H
  end.

(** [lia] over quotients and remainders too. *)
Ltac zdiv_lia := Z.to_euclidean_division_equations; lia.

(** ** Reflexive transitive closure of a step relation, with its trace *)
Section Runs.
Context {S L : Type} (step : S -> L -> S -> Prop).

Inductive run : S -> list L -> S -> Prop :=
| run_nil s : run s [] s
| run_snoc s1 tr s2 l s3 : run s1 tr s2 -> step s2 l s3 -> run s1 (tr ++ [l]) s3.

(** Rule induction for an invariant of the reachable states. *)
Lemma run_invariant (I : S -> Prop) s0 tr s :
  I s0 -> (forall a l b, I a -> step a l b -> I b) -> run s0 tr s -> I s.
Proof. intros H0 Hstep. induction 1; eauto. Qed.

Lemma run_app s1 tr1 s2 tr2 s3 : run s1 tr1 s2 -> run s2 tr2 s3 -> run s1 (tr1 ++ tr2) s3.
Proof.
  intros H1 H2. revert H1. induction H2 as [|a t b l c H IH Hs]; intros H1.
  - by rewrite app_nil_r.
  - rewrite app_assoc. econstructor; eauto.
Qed.

Lemma run_one a l b : step a l b -> run a [l] b.
Proof. intros H. apply (run_snoc a [] a l b); [constructor|done]. Qed.
End Runs.
