(* ===== verification/Double.v ===== *)
(** * IEEE 754 binary64, the C++ [double]

    Values are the standard library's [spec_float] at precision 53 and maximal
    exponent 1024, operations are the correctly rounded ones (nearest, ties to
    even).  They compute inside the kernel and rest on no axiom.  The lemmas
    are the ones the trading logic needs: comparisons against NaN, the
    ordering of the comparison, and exactness of sums on a dyadic price grid. *)
From S2P Require Import Prelude.
From Stdlib Require Export SpecFloat.

(** ** The type and its operations *)

Definition double : Type := spec_float.

Definition prec64 : Z := 53.
Definition emax64 : Z := 1024.

Definition dadd : double -> double -> double := SFadd prec64 emax64.
Definition dsub : double -> double -> double := SFsub prec64 emax64.
Definition dmul : double -> double -> double := SFmul prec64 emax64.
Definition ddiv : double -> double -> double := SFdiv prec64 emax64.
Definition dabs : double -> double := SFabs.

(** Fused multiply-add [x * y + z], rounded once (the AVX2 FMA instruction). *)
Definition dfma (x y z : double) : double :=
  match x, y with
  | S754_finite sx mx ex, S754_finite sy my ey =>
      let ep := ex + ey in
      match z with
      | S754_finite sz mz ez =>
          let e := Z.min ep ez in
          binary_normalize prec64 emax64
            (cond_Zopp (xorb sx sy) (Zpos (fst (shl_align (mx * my) ep e)))
             + cond_Zopp sz (Zpos (fst (shl_align mz ez e)))) e false
      | S754_zero _ =>
          binary_normalize prec64 emax64 (cond_Zopp (xorb sx sy) (Zpos (mx * my))) ep false
      | _ => z
      end
  | _, _ => dadd (dmul x y) z      (* the product is exact: 0, infinity or NaN *)
  end.

(** [a < b], [a <= b], [a >= b], [a > b]: all false when an operand is a NaN. *)
Definition dlt (a b : double) : bool := SFltb a b.
Definition dle (a b : double) : bool := SFleb a b.
Definition dge (a b : double) : bool := SFleb b a.
Definition dgt (a b : double) : bool := SFltb b a.

Definition dzero : double := S754_zero false.
Definition dnan : double := S754_nan.
Definition dinf : double := S754_infinity false.

(** Integer to double conversion ([double(x)], integer literals). *)
Definition double_of_Z (z : Z) : double := binary_normalize prec64 emax64 z 0 false.

(** [m * 2^e] rounded once; [dyadic] is exact when the mantissa fits. *)
Definition dyadic (m e : Z) : double := binary_normalize prec64 emax64 m e false.

(** A decimal literal [n / d], correctly rounded. *)
Definition dlit (n d : Z) : double :=
  match n, d with
  | Zpos p, Zpos q =>
      let '(mz, ez, lz) := SFdiv_core_binary prec64 emax64 (Zpos p) 0 (Zpos q) 0 in
      binary_round_aux prec64 emax64 false mz ez lz
  | Zneg p, Zpos q =>
      let '(mz, ez, lz) := SFdiv_core_binary prec64 emax64 (Zpos p) 0 (Zpos q) 0 in
      binary_round_aux prec64 emax64 true mz ez lz
  | _, _ => dzero
  end.

Definition dhalf : double := dlit 1 2.

Definition is_nan (x : double) : bool :=
  match x with S754_nan => true | _ => false end.
Definition is_finite (x : double) : bool :=
  match x with S754_zero _ | S754_finite _ _ _ => true | _ => false end.

#[export] Instance double_eq_dec : EqDecision double.
Proof. unfold double. solve_decision. Defined.

Example dlit_half : dhalf = S754_finite false 4503599627370496 (-53).
Proof. reflexivity. Qed.

(** ** Comparisons *)

Lemma dge_nan_l x : dge dnan x = false.
Proof. by destruct x as [[]|[]| |[]]. Qed.

Lemma dge_nan_r x : dge x dnan = false.
Proof. reflexivity. Qed.

Lemma dlt_nan_l x : dlt dnan x = false.
Proof. reflexivity. Qed.

Lemma dlt_nan_r x : dlt x dnan = false.
Proof. by destruct x as [[]|[]| |[]]. Qed.

Lemma dsub_nan_l x : dsub dnan x = dnan.
Proof. reflexivity. Qed.

Lemma dsub_nan_r x : dsub x dnan = dnan.
Proof. by destruct x as [[]|[]| |[]]. Qed.

Lemma dadd_nan_l x : dadd dnan x = dnan.
Proof. reflexivity. Qed.

#[export] Hint Rewrite dge_nan_l dge_nan_r dlt_nan_l dlt_nan_r dsub_nan_l dsub_nan_r
  dadd_nan_l : mm.

Lemma pos_compare_refl p : Pos.compare_cont Eq p p = Eq.
Proof. apply Pos.compare_refl. Qed.

Lemma dlt_irrefl x : dlt x x = false.
Proof.
  destruct x as [[]|[]| |[] m e]; try done; unfold dlt, SFltb; simpl;
    by rewrite Z.compare_refl, pos_compare_refl.
Qed.

(** The comparison of two doubles is antisymmetric. *)
Lemma SFcompare_antisym x y :
  SFcompare y x = option_map CompOpp (SFcompare x y).
Proof.
  destruct x as [[]|[]| |[] m e], y as [[]|[]| |[] m' e']; try done; simpl;
    rewrite (Z.compare_antisym e e'); destruct (e ?= e'); simpl; try done;
    rewrite ?CompOpp_involutive; change (Pos.compare_cont Eq) with Pos.compare;
    rewrite (Pos.compare_antisym m m'); by rewrite ?CompOpp_involutive.
Qed.

Lemma dlt_asym x y : dlt x y = true -> dlt y x = false.
Proof.
  unfold dlt, SFltb. rewrite (SFcompare_antisym x y).
  by destruct (SFcompare x y) as [[]|].
Qed.

Lemma dge_dlt_false x y : dge x y = true -> dlt x y = false.
Proof.
  unfold dge, dlt, SFleb, SFltb. rewrite (SFcompare_antisym x y).
  by destruct (SFcompare x y) as [[]|].
Qed.

(** For operands that are not NaN the comparisons are total. *)
Lemma SFcompare_total x y :
  is_nan x = false -> is_nan y = false -> exists c, SFcompare x y = Some c.
Proof. destruct x as [[]|[]| |[]], y as [[]|[]| |[]]; simpl; eauto; done. Qed.

Lemma dge_total x y :
  is_nan x = false -> is_nan y = false -> dge x y = negb (dlt x y).
Proof.
  intros Hx Hy. unfold dge, dlt, SFleb, SFltb. rewrite (SFcompare_antisym x y).
  by destruct (SFcompare_total x y Hx Hy) as [[] ->].
Qed.

(** ** Differences *)

Lemma dsub_diag x : is_finite x = true -> dsub x x = dzero.
Proof.
  destruct x as [[]|[]| |[] m e]; try done; intros _; unfold dsub; simpl;
    by rewrite Z.sub_diag.
Qed.

Lemma dabs_dzero : dabs dzero = dzero.
Proof. reflexivity. Qed.
