(* ===== verification/Dyadic.v ===== *)
(** * Exact double arithmetic on a dyadic price grid

    A price that is a multiple [m * 2^e] of a power of two, with a mantissa
    below 2^53, is represented exactly, and sums, differences, halves and
    comparisons of such prices are the ones of the integers.  DLR futures
    trade on such a grid (tick 0.5), so these lemmas turn the strategy's
    floating-point decisions into integer ones.  Off the grid a sum is rounded;
    the last lemmas bound the result by the two grid values around it. *)
From S2P Require Import Prelude.
From S2P Require Import Double.

(** The exponents at which every 53-bit mantissa is representable. *)
Definition grid_exp (e : Z) : Prop := -1074 <= e <= 971.
Definition fits53 (m : Z) : Prop := - 2 ^ 53 < m < 2 ^ 53.

(** Exponent of the canonical representation of [m * 2^e]. *)
Definition canon_exp (m : Z) (e : Z) : Z := fexp prec64 emax64 (Z.log2 m + 1 + e).

(** ** Digits and shifts of positives *)

Lemma digits2_log2 p : Zpos (digits2_pos p) = Z.log2 (Zpos p) + 1.
Proof.
  induction p as [p IH|p IH|]; simpl digits2_pos; [| |done];
    rewrite Pos2Z.inj_succ, IH.
  - rewrite (Pos2Z.inj_xI p), Z.log2_succ_double by lia. lia.
  - rewrite (Pos2Z.inj_xO p), Z.log2_double by lia. lia.
Qed.

Lemma Zpos_iter_xO p n : Zpos (Pos.iter xO p n) = Zpos p * 2 ^ Zpos n.
Proof.
  induction n as [|n IH] using Pos.peano_ind; [simpl; lia|].
  rewrite Pos.iter_succ, Pos2Z.inj_xO, IH, Pos2Z.inj_succ, Z.pow_succ_r; lia.
Qed.

Lemma iter_pos_iter {A} (f : A -> A) n x : iter_pos f n x = Pos.iter f x n.
Proof.
  revert x. induction n as [n IH|n IH|]; intros x; simpl; [| |done]; rewrite !IH.
  - by rewrite !Pos.iter_swap.
  - done.
Qed.

(** Shifting right by [n] a multiple of [2^n] loses nothing. *)
Lemma shr_exact p n :
  iter_pos shr_1 n (Build_shr_record (Zpos p * 2 ^ Zpos n) false false)
  = Build_shr_record (Zpos p) false false.
Proof.
  rewrite iter_pos_iter. induction n as [|n IH] using Pos.peano_ind.
  - simpl. by rewrite Pos.mul_comm.
  - rewrite Pos.iter_succ_r, Pos2Z.inj_succ, Z.pow_succ_r by lia.
    replace (Zpos p * (2 * 2 ^ Zpos n)) with (2 * (Zpos p * 2 ^ Zpos n)) by lia.
    rewrite <- IH. f_equal. assert (0 < Zpos p * 2 ^ Zpos n) by lia.
    by destruct (Zpos p * 2 ^ Zpos n) as [|q|q] eqn:E; [lia| |lia].
Qed.

(** ** Canonical representation of a grid value *)

Lemma fexp_le m e :
  0 < m < 2 ^ 53 -> -1074 <= e -> canon_exp m e <= e.
Proof.
  intros Hm He. unfold canon_exp, fexp, emin, prec64, emax64.
  assert (Z.log2 m < 53) by (apply Z.log2_lt_pow2; lia). lia.
Qed.

Lemma fexp_top m e :
  0 < m < 2 ^ 53 -> grid_exp e -> canon_exp m e <= emax64 - prec64.
Proof.
  unfold grid_exp, emax64, prec64. intros Hm He.
  pose proof (fexp_le m e Hm ltac:(lia)). lia.
Qed.

(** Canonical exponents do not depend on how the value is scaled. *)
Lemma canon_exp_scale m e k :
  0 < m -> 0 <= k -> canon_exp (m * 2 ^ k) (e - k) = canon_exp m e.
Proof.
  intros Hm Hk. unfold canon_exp. rewrite Z.log2_mul_pow2 by lia. f_equal. lia.
Qed.

Lemma shr_fexp_id p e :
  canon_exp (Zpos p) e = e ->
  shr_fexp prec64 emax64 (Zpos p) e loc_Exact = (Build_shr_record (Zpos p) false false, e).
Proof.
  intros H. unfold shr_fexp. simpl Zdigits2. rewrite digits2_log2.
  unfold canon_exp in H. rewrite H, Z.sub_diag. done.
Qed.

(** Rounding an exact value with trailing zeros drops only these zeros. *)
Lemma binary_round_aux_exact s p q k e :
  Zpos p < 2 ^ 53 -> grid_exp e -> 0 <= k ->
  e - k <= canon_exp (Zpos p) e ->
  Zpos q = Zpos p * 2 ^ k ->
  exists r, Zpos r = Zpos p * 2 ^ (e - canon_exp (Zpos p) e) /\
  binary_round_aux prec64 emax64 s (Zpos q) (e - k) loc_Exact
  = S754_finite s r (canon_exp (Zpos p) e).
Proof.
  intros Hp He Hk Hlow Hq. set (c := canon_exp (Zpos p) e) in *.
  assert (Hce : c <= e) by (apply fexp_le; unfold grid_exp in He; lia).
  assert (Hct : c <= emax64 - prec64) by (apply fexp_top; [lia|done]).
  destruct (Zpos p * 2 ^ (e - c)) as [|r|r] eqn:Hr; [lia| |lia].
  exists r. split; [done|].
  assert (Hcr : canon_exp (Zpos r) c = c).
  { rewrite <- Hr. replace c with (e - (e - c)) at 2 by lia.
    by rewrite canon_exp_scale by lia. }
  assert (Hfst : shr_fexp prec64 emax64 (Zpos q) (e - k) loc_Exact
                 = (Build_shr_record (Zpos r) false false, c)).
  { unfold shr_fexp. simpl Zdigits2. rewrite digits2_log2.
    change (fexp prec64 emax64 (Z.log2 (Zpos q) + 1 + (e - k)))
      with (canon_exp (Zpos q) (e - k)).
    rewrite Hq, canon_exp_scale by lia. fold c. unfold shr, shr_record_of_loc.
    destruct (c - (e - k)) as [|n|n] eqn:Hn; [| |lia].
    - f_equal; [|lia]. f_equal. rewrite <- Hr. f_equal. f_equal. lia.
    - f_equal; [|lia]. replace (Zpos p * 2 ^ k) with (Zpos r * 2 ^ Zpos n).
      { apply shr_exact. }
      rewrite <- Hr, <- Z.mul_assoc, <- Z.pow_add_r by lia. do 2 f_equal. lia. }
  unfold binary_round_aux. rewrite Hfst. simpl shr_m. simpl loc_of_shr_record.
  simpl round_nearest_even. rewrite (shr_fexp_id r c Hcr). simpl shr_m.
  cbv iota. by rewrite (proj2 (Z.leb_le _ _) Hct).
Qed.

(** [m * 2^k] at exponent [e - k] rounds to the canonical form of [m * 2^e]. *)
Lemma binary_round_exact s p q k e :
  Zpos p < 2 ^ 53 -> grid_exp e -> 0 <= k -> Zpos q = Zpos p * 2 ^ k ->
  exists r, Zpos r = Zpos p * 2 ^ (e - canon_exp (Zpos p) e) /\
  binary_round prec64 emax64 s q (e - k) = S754_finite s r (canon_exp (Zpos p) e).
Proof.
  intros Hp He Hk Hq. unfold binary_round. rewrite digits2_log2.
  change (fexp prec64 emax64 (Z.log2 (Zpos q) + 1 + (e - k)))
    with (canon_exp (Zpos q) (e - k)).
  rewrite Hq, canon_exp_scale by lia. set (c := canon_exp (Zpos p) e).
  assert (Hce : c <= e) by (apply fexp_le; unfold grid_exp in He; lia).
  unfold shl_align. destruct (c - (e - k)) as [|n|n] eqn:Hn.
  1,2: apply binary_round_aux_exact; try done; fold c; lia.
  pose proof (binary_round_aux_exact s p (Pos.iter xO q n) (e - c) e Hp He) as H.
  fold c in H. replace (e - (e - c)) with c in H by lia.
  apply H; [lia|lia|].
  rewrite Zpos_iter_xO, Hq, <- Z.mul_assoc, <- Z.pow_add_r by lia. do 2 f_equal. lia.
Qed.

(** The scaled value normalises to the unscaled one. *)
Lemma dyadic_scale m k e :
  fits53 m -> grid_exp e -> 0 <= k -> dyadic (m * 2 ^ k) (e - k) = dyadic m e.
Proof.
  intros Hm He Hk. assert (0 < 2 ^ k) by lia. unfold fits53 in Hm. unfold dyadic.
  destruct m as [|p|p]; [done| |].
  - destruct (Zpos p * 2 ^ k) as [|q|q] eqn:Hq; [lia| |lia]. simpl.
    destruct (binary_round_exact false p q k e) as (r & Hr & ->); [lia|done..|].
    destruct (binary_round_exact false p p 0 e) as (r' & Hr' & Hb); [lia|done..|lia|].
    rewrite Z.sub_0_r in Hb. rewrite Hb. f_equal. lia.
  - destruct (Zneg p * 2 ^ k) as [|q|q] eqn:Hq; [lia|lia|]. simpl.
    destruct (binary_round_exact true p q k e) as (r & Hr & ->); [lia|done..|lia|].
    destruct (binary_round_exact true p p 0 e) as (r' & Hr' & Hb); [lia|done..|lia|].
    rewrite Z.sub_0_r in Hb. rewrite Hb. f_equal. lia.
Qed.

(** Shape of a grid value: sign, and a canonical mantissa. *)
Inductive dyadic_shape (m e : Z) : double -> Prop :=
| shape_zero : m = 0 -> dyadic_shape m e (S754_zero false)
| shape_finite (r : positive) :
    m <> 0 ->
    Zpos r = Z.abs m * 2 ^ (e - canon_exp (Z.abs m) e) ->
    canon_exp (Z.abs m) e <= e ->
    dyadic_shape m e (S754_finite (m <? 0) r (canon_exp (Z.abs m) e)).

Lemma dyadic_has_shape m e : fits53 m -> grid_exp e -> dyadic_shape m e (dyadic m e).
Proof.
  intros Hm He. unfold fits53 in Hm. unfold dyadic.
  destruct m as [|p|p]; [by constructor| |]; simpl;
    [destruct (binary_round_exact false p p 0 e) as (r & Hr & Hb)
    |destruct (binary_round_exact true p p 0 e) as (r & Hr & Hb)]; try lia; try done;
    rewrite Z.sub_0_r in Hb; rewrite Hb;
    [apply (shape_finite (Zpos p) e r)|apply (shape_finite (Zneg p) e r)];
    try done; apply fexp_le; unfold grid_exp in He; simpl Z.abs; lia.
Qed.

Lemma dyadic_0 e : dyadic 0 e = dzero.
Proof. reflexivity. Qed.

Lemma dyadic_is_nan m e : fits53 m -> grid_exp e -> is_nan (dyadic m e) = false.
Proof. intros Hm He. by destruct (dyadic_has_shape m e Hm He). Qed.

Lemma dyadic_is_finite m e : fits53 m -> grid_exp e -> is_finite (dyadic m e) = true.
Proof. intros Hm He. by destruct (dyadic_has_shape m e Hm He). Qed.

(** ** Sums and differences *)

Lemma shl_align_value p e ez :
  ez <= e -> Zpos (fst (shl_align p e ez)) = Zpos p * 2 ^ (e - ez).
Proof.
  intros H. unfold shl_align. destruct (ez - e) as [|n|n] eqn:Hn; [|lia|].
  - replace (e - ez) with 0 by lia. simpl. lia.
  - cbn [fst]. rewrite Zpos_iter_xO. do 2 f_equal. lia.
Qed.

Lemma cond_Zopp_abs m : cond_Zopp (m <? 0) (Z.abs m) = m.
Proof. unfold cond_Zopp. destruct (Z.ltb_spec m 0); lia. Qed.

Lemma cond_Zopp_mul b x y : cond_Zopp b (x * y) = cond_Zopp b x * y.
Proof. destruct b; simpl; lia. Qed.

(** The aligned, signed mantissa of a grid value at a smaller exponent. *)
Lemma aligned_mantissa m e r ez :
  Zpos r = Z.abs m * 2 ^ (e - canon_exp (Z.abs m) e) ->
  canon_exp (Z.abs m) e <= e -> ez <= canon_exp (Z.abs m) e ->
  cond_Zopp (m <? 0) (Zpos (fst (shl_align r (canon_exp (Z.abs m) e) ez)))
  = m * 2 ^ (e - ez).
Proof.
  intros Hr Hc Hz. rewrite shl_align_value by done.
  rewrite Hr, <- Z.mul_assoc, <- Z.pow_add_r by lia.
  rewrite cond_Zopp_mul, cond_Zopp_abs. do 2 f_equal. lia.
Qed.

Lemma dadd_dyadic a b e :
  fits53 a -> fits53 b -> fits53 (a + b) -> grid_exp e ->
  dadd (dyadic a e) (dyadic b e) = dyadic (a + b) e.
Proof.
  intros Ha Hb Hab He.
  pose proof (dyadic_has_shape a e Ha He) as Sa.
  pose proof (dyadic_has_shape b e Hb He) as Sb.
  inversion Sa as [Ea Eda|r Na Hr Hca Eda]; inversion Sb as [Eb Edb|r' Nb Hr' Hcb Edb]; subst.
  - reflexivity.
  - rewrite Z.add_0_l, <- Edb. reflexivity.
  - rewrite Z.add_0_r. rewrite <- Eda. reflexivity.
  - unfold dadd, SFadd. set (ez := Z.min _ _).
    rewrite (aligned_mantissa a e r ez), (aligned_mantissa b e r' ez) by (done || lia).
    rewrite <- Z.mul_add_distr_r. replace ez with (e - (e - ez)) at 2 by lia.
    apply dyadic_scale; [done..|lia].
Qed.

Lemma dsub_dyadic a b e :
  fits53 a -> fits53 b -> fits53 (a - b) -> grid_exp e ->
  dsub (dyadic a e) (dyadic b e) = dyadic (a - b) e.
Proof.
  intros Ha Hb Hab He.
  pose proof (dyadic_has_shape a e Ha He) as Sa.
  pose proof (dyadic_has_shape b e Hb He) as Sb.
  inversion Sa as [Ea Eda|r Na Hr Hca Eda]; inversion Sb as [Eb Edb|r' Nb Hr' Hcb Edb]; subst;
    [reflexivity| |by rewrite Z.sub_0_r, <- Eda|].
  - rewrite Z.sub_0_l. 
    pose proof (dyadic_has_shape (- b) e ltac:(unfold fits53 in *; lia) He) as Sn.
    inversion Sn as [En Edn|r'' Nn Hrn Hcn Edn]; [lia|].
    unfold dsub, SFsub. rewrite Z.abs_opp in Hrn |- *. f_equal; [|lia].
    destruct (Z.ltb_spec b 0), (Z.ltb_spec (- b) 0); simpl; lia.
  - unfold dsub, SFsub. set (ez := Z.min _ _).
    rewrite (aligned_mantissa a e r ez), (aligned_mantissa b e r' ez) by (done || lia).
    rewrite <- Z.mul_sub_distr_r. replace ez with (e - (e - ez)) at 2 by lia.
    apply dyadic_scale; [done..|lia].
Qed.

(** ** Comparisons *)

(** Comparing exponents first and mantissas second, as the hardware (and
    [SFcompare]) does, orders canonical positive grid values like integers. *)
Lemma canon_compare x y e rx ry :
  0 < x -> 0 < y ->
  Zpos rx = x * 2 ^ (e - canon_exp x e) -> Zpos ry = y * 2 ^ (e - canon_exp y e) ->
  canon_exp x e <= e -> canon_exp y e <= e ->
  match canon_exp x e ?= canon_exp y e with
  | Eq => Pos.compare_cont Eq rx ry
  | c => c
  end = (x ?= y).
Proof.
  intros Hx Hy Hrx Hry Hcx Hcy.
  assert (Hmono : forall u v, canon_exp u e < canon_exp v e -> u < v).
  { intros u v H. unfold canon_exp, fexp in H. apply Z.log2_lt_cancel. lia. }
  destruct (Z.compare_spec (canon_exp x e) (canon_exp y e)) as [Hc|Hc|Hc].
  - change (Pos.compare_cont Eq rx ry) with (Zpos rx ?= Zpos ry).
    rewrite Hrx, Hry, <- Hc.
    destruct (Z.compare_spec x y) as [->|H|H]; [by apply Z.compare_eq_iff| |].
    + apply Z.compare_lt_iff, Z.mul_lt_mono_pos_r; lia.
    + apply Z.compare_gt_iff, Z.mul_lt_mono_pos_r; lia.
  - symmetry. by apply Z.compare_lt_iff, Hmono.
  - symmetry. by apply Z.compare_gt_iff, Hmono.
Qed.

Lemma SFcompare_dyadic a b e :
  fits53 a -> fits53 b -> grid_exp e ->
  SFcompare (dyadic a e) (dyadic b e) = Some (a ?= b).
Proof.
  intros Ha Hb He.
  destruct (dyadic_has_shape a e Ha He) as [Ea|r Na Hr Hca];
  destruct (dyadic_has_shape b e Hb He) as [Eb|r' Nb Hr' Hcb]; subst; cbn [SFcompare].
  - reflexivity.
  - destruct (Z.ltb_spec b 0); f_equal; symmetry;
      [apply Z.compare_gt_iff|apply Z.compare_lt_iff]; lia.
  - destruct (Z.ltb_spec a 0); f_equal; symmetry;
      [apply Z.compare_lt_iff|apply Z.compare_gt_iff]; lia.
  - f_equal. destruct (Z.ltb_spec a 0), (Z.ltb_spec b 0).
    + transitivity (Z.abs b ?= Z.abs a).
      2: { rewrite !Z.abs_neq by lia. apply Z.compare_opp. }
      rewrite <- (canon_compare (Z.abs b) (Z.abs a) e r' r) by (done || lia).
      rewrite (Z.compare_antisym (canon_exp (Z.abs b) e)).
      change (Pos.compare_cont Eq) with Pos.compare. rewrite (Pos.compare_antisym r' r).
      rewrite CompOpp_involutive.
      by destruct (canon_exp (Z.abs b) e ?= canon_exp (Z.abs a) e).
    + symmetry. apply Z.compare_lt_iff. lia.
    + symmetry. apply Z.compare_gt_iff. lia.
    + transitivity (Z.abs a ?= Z.abs b); [|by rewrite !Z.abs_eq by lia].
      rewrite <- (canon_compare (Z.abs a) (Z.abs b) e r r') by (done || lia).
      by destruct (canon_exp (Z.abs a) e ?= canon_exp (Z.abs b) e).
Qed.

Lemma dlt_dyadic a b e :
  fits53 a -> fits53 b -> grid_exp e -> dlt (dyadic a e) (dyadic b e) = (a <? b).
Proof.
  intros Ha Hb He. unfold dlt, SFltb. rewrite SFcompare_dyadic by done.
  unfold Z.ltb. by destruct (a ?= b).
Qed.

Lemma dge_dyadic a b e :
  fits53 a -> fits53 b -> grid_exp e -> dge (dyadic a e) (dyadic b e) = (b <=? a).
Proof.
  intros Ha Hb He. unfold dge, SFleb. rewrite SFcompare_dyadic by done.
  unfold Z.leb. by destruct (b ?= a).
Qed.

Lemma dabs_dyadic a e : fits53 a -> grid_exp e -> dabs (dyadic a e) = dyadic (Z.abs a) e.
Proof.
  intros Ha He.
  pose proof (dyadic_has_shape a e Ha He) as Sa.
  pose proof (dyadic_has_shape (Z.abs a) e ltac:(unfold fits53 in *; lia) He) as Sb.
  inversion Sa as [Ea Eda|r Na Hr Hca Eda]; inversion Sb as [Eb Edb|r' Nb Hr' Hcb Edb];
    try lia; [reflexivity|].
  rewrite Z.abs_idemp in *. simpl. f_equal; [|congruence].
  symmetry. by apply Z.ltb_ge, Z.abs_nonneg.
Qed.

(** ** Products *)

Lemma log2_mul_ge a b : 0 < a -> 0 < b -> Z.log2 a + Z.log2 b <= Z.log2 (a * b).
Proof. intros. apply Z.log2_mul_below; lia. Qed.

(** The canonical exponents of the factors never sum above the one of the
    product, so multiplying the mantissas only adds trailing zeros. *)
Lemma canon_exp_mul a b ea eb :
  0 < a < 2 ^ 53 -> 0 < b < 2 ^ 53 -> grid_exp ea -> grid_exp eb ->
  canon_exp a ea + canon_exp b eb <= canon_exp (a * b) (ea + eb).
Proof.
  intros Ha Hb He He'. pose proof (log2_mul_ge a b ltac:(lia) ltac:(lia)).
  pose proof (Z.log2_nonneg a). pose proof (Z.log2_nonneg b).
  assert (Z.log2 a < 53) by (apply Z.log2_lt_pow2; lia).
  assert (Z.log2 b < 53) by (apply Z.log2_lt_pow2; lia).
  unfold grid_exp, canon_exp, fexp, emin, prec64, emax64 in *. lia.
Qed.

(** The product of two canonical mantissas, as a scaled exact product. *)
Lemma mantissa_mul a b ea eb r r' :
  Zpos r = Z.abs a * 2 ^ (ea - canon_exp (Z.abs a) ea) ->
  Zpos r' = Z.abs b * 2 ^ (eb - canon_exp (Z.abs b) eb) ->
  canon_exp (Z.abs a) ea <= ea -> canon_exp (Z.abs b) eb <= eb ->
  Zpos (r * r') = Z.abs (a * b) *
    2 ^ (ea + eb - (canon_exp (Z.abs a) ea + canon_exp (Z.abs b) eb)).
Proof.
  intros Hr Hr' Hc Hc'. rewrite Pos2Z.inj_mul, Hr, Hr', Z.abs_mul.
  replace (ea + eb - _) with
    ((ea - canon_exp (Z.abs a) ea) + (eb - canon_exp (Z.abs b) eb)) by lia.
  rewrite Z.pow_add_r by lia. lia.
Qed.

Lemma ltb_mul_sign a b : a <> 0 -> b <> 0 -> (a * b <? 0) = xorb (a <? 0) (b <? 0).
Proof.
  intros Ha Hb. destruct (Z.ltb_spec a 0), (Z.ltb_spec b 0); simpl;
    destruct (Z.ltb_spec (a * b) 0); nia.
Qed.

Lemma dmul_dyadic a b ea eb :
  0 <= a -> 0 <= b -> fits53 a -> fits53 b -> fits53 (a * b) ->
  grid_exp ea -> grid_exp eb -> grid_exp (ea + eb) ->
  dmul (dyadic a ea) (dyadic b eb) = dyadic (a * b) (ea + eb).
Proof.
  intros Ha0 Hb0 Ha Hb Hab Hea Heb He.
  pose proof (dyadic_has_shape a ea Ha Hea) as Sa.
  pose proof (dyadic_has_shape b eb Hb Heb) as Sb.
  inversion Sa as [Ea Eda|r Na Hr Hca Eda]; inversion Sb as [Eb Edb|r' Nb Hr' Hcb Edb]; subst;
    rewrite ?Z.mul_0_l, ?Z.mul_0_r; try reflexivity.
  - simpl. by rewrite (proj2 (Z.ltb_ge b 0)) by lia.
  - simpl. by rewrite (proj2 (Z.ltb_ge a 0)) by lia.
  - pose proof (mantissa_mul a b ea eb r r' Hr Hr' Hca Hcb) as Hm.
    pose proof (dyadic_has_shape (a * b) (ea + eb) Hab He) as Sab.
    inversion Sab as [E Ed|q Nq Hq Hcq Ed]; [nia|].
    unfold dmul, SFmul. rewrite <- ltb_mul_sign by done. unfold fits53 in *.
    destruct (Z.abs (a * b)) as [|p|p] eqn:Ep; [lia| |lia].
    destruct (binary_round_aux_exact (a * b <? 0) p (r * r')
      (ea + eb - (canon_exp (Z.abs a) ea + canon_exp (Z.abs b) eb)) (ea + eb)) as (q' & Hq' & Hb');
      [lia|done|lia| |done|].
    { pose proof (canon_exp_mul (Z.abs a) (Z.abs b) ea eb) as Hc.
      rewrite <- Z.abs_mul, Ep in Hc. specialize (Hc ltac:(lia) ltac:(lia) Hea Heb). lia. }
    replace (ea + eb - (ea + eb - (canon_exp (Z.abs a) ea + canon_exp (Z.abs b) eb)))
      with (canon_exp (Z.abs a) ea + canon_exp (Z.abs b) eb) in Hb' by lia.
    rewrite Hb'. f_equal. lia.
Qed.

(** Halving: [x * 0.5]. *)
Lemma dmul_dhalf m e :
  0 <= m -> fits53 m -> grid_exp e -> grid_exp (e - 1) ->
  dmul (dyadic m e) dhalf = dyadic m (e - 1).
Proof.
  intros H0 Hm He He'. change dhalf with (dyadic 1 (-1)).
  rewrite dmul_dyadic; rewrite ?Z.mul_1_r; try done; unfold grid_exp in *; lia.
Qed.

(** Fused multiply-add: one rounding, so exact as well. *)
Lemma dfma_dyadic a b c ea eb :
  0 <= a -> 0 <= b -> 0 <= c -> fits53 a -> fits53 b -> fits53 (a * b + c) ->
  grid_exp ea -> grid_exp eb -> grid_exp (ea + eb) ->
  dfma (dyadic a ea) (dyadic b eb) (dyadic c (ea + eb)) = dyadic (a * b + c) (ea + eb).
Proof.
  intros Ha0 Hb0 Hc0 Ha Hb Habc Hea Heb He.
  assert (Hab : fits53 (a * b)) by (unfold fits53 in *; nia).
  assert (Hc : fits53 c) by (unfold fits53 in *; nia).
  pose proof (dyadic_has_shape a ea Ha Hea) as Sa.
  pose proof (dyadic_has_shape b eb Hb Heb) as Sb.
  pose proof (dyadic_has_shape c (ea + eb) Hc He) as Sc.
  pose proof (dmul_dyadic a b ea eb Ha0 Hb0 Ha Hb Hab Hea Heb He) as Hmul.
  pose proof (dadd_dyadic (a * b) c (ea + eb) Hab Hc Habc He) as Hadd.
  rewrite <- Hmul in Hadd.
  inversion Sa as [Ea Eda|r Na Hr Hca Eda]; [subst; exact Hadd|].
  inversion Sb as [Eb Edb|r' Nb Hr' Hcb Edb];
    [subst; rewrite <- Eda in Hadd; exact Hadd|].
  pose proof (mantissa_mul a b ea eb r r' Hr Hr' Hca Hcb) as Hm.
  unfold dfma. rewrite <- ltb_mul_sign by done.
  set (ep := canon_exp (Z.abs a) ea + canon_exp (Z.abs b) eb) in *.
  inversion Sc as [Ec Edc|r'' Nc Hr'' Hcc Edc].
  - rewrite Hm, cond_Zopp_mul, cond_Zopp_abs, Ec, Z.add_0_r in *.
    replace ep with (ea + eb - (ea + eb - ep)) at 2 by lia. apply dyadic_scale; [done..|lia].
  - set (ez := Z.min _ _). rewrite (aligned_mantissa c (ea + eb) r'' ez) by (done || lia).
    rewrite shl_align_value by lia. rewrite Hm, <- Z.mul_assoc, <- Z.pow_add_r by lia.
    rewrite cond_Zopp_mul, cond_Zopp_abs.
    replace (ea + eb - ep + (ep - ez)) with (ea + eb - ez) by lia.
    rewrite <- Z.mul_add_distr_r. replace ez with (ea + eb - (ea + eb - ez)) at 2 by lia.
    apply dyadic_scale; [done..|lia].
Qed.

(** ** Results that do not fit: the neighbour above or below

    A sum whose exact value has more than 53 significant bits is rounded to one
    of the two multiples of the last place around it. *)

Lemma shr_m_div p r : 0 <= shr_m r -> shr_m (iter_pos shr_1 p r) = shr_m r / 2 ^ Zpos p.
Proof.
  assert (H1 : forall r, 0 <= shr_m r -> shr_m (shr_1 r) = shr_m r / 2).
  { clear. intros [[|[q|q|]|q] b c]; simpl; intros H; try done.
    - rewrite Pos2Z.inj_xI, Z.add_comm, Z.mul_comm, Z.div_add by lia. done.
    - by rewrite Pos2Z.inj_xO, Z.mul_comm, Z.div_mul by lia. }
  intros Hr. rewrite iter_pos_iter. revert r Hr.
  induction p as [|p IH] using Pos.peano_ind; intros r Hr; [by apply H1|].
  rewrite Pos.iter_succ_r, IH by (rewrite H1 by done; apply Z.div_pos; lia).
  rewrite H1, Z.div_div by (done || lia). f_equal. rewrite Pos2Z.inj_succ, Z.pow_succ_r; lia.
Qed.

Lemma round_nearest_even_near m l : m <= round_nearest_even m l <= m + 1.
Proof. destruct l as [|[]]; simpl; try lia; destruct (Z.even m); lia. Qed.

(** A mantissa of 53 bits is in canonical form. *)
Lemma canon_exp_top m e : 2 ^ 52 <= m < 2 ^ 53 -> -1074 <= e -> canon_exp m e = e.
Proof.
  intros Hm He. unfold canon_exp, fexp, emin, prec64, emax64.
  assert (Z.log2 m = 52) as -> by (apply Z.log2_unique; lia). lia.
Qed.

Lemma dyadic_top r e : 2 ^ 52 <= Zpos r < 2 ^ 53 -> grid_exp e -> dyadic (Zpos r) e = S754_finite false r e.
Proof.
  intros Hr He. pose proof (canon_exp_top (Zpos r) e Hr ltac:(unfold grid_exp in He; lia)) as Hc.
  destruct (dyadic_has_shape (Zpos r) e) as [?|r' _ Hr' _]; [unfold fits53; lia|done|lia|].
  change (Z.abs (Zpos r)) with (Zpos r) in *. rewrite Hc, Z.sub_diag in Hr'. rewrite Hc. f_equal. lia.
Qed.

(** [q] at exponent [e - k] has 53 bits above [e]: it rounds to [q / 2^k] or the next. *)
Lemma dyadic_near q e k :
  grid_exp e -> 0 <= k -> 2 ^ 52 <= q / 2 ^ k -> q / 2 ^ k + 1 < 2 ^ 53 ->
  exists r, dyadic q (e - k) = dyadic r e /\ q / 2 ^ k <= r <= q / 2 ^ k + 1.
Proof.
  intros He Hk Hlo Hhi. assert (H2k : 0 < 2 ^ k) by lia.
  assert (Hqk : 2 ^ 52 * 2 ^ k <= q < 2 ^ 53 * 2 ^ k).
  { pose proof (Z.div_mod q (2 ^ k) ltac:(lia)). pose proof (Z.mod_pos_bound q (2 ^ k) H2k). nia. }
  destruct q as [|q|q]; [lia| |lia].
  assert (Hlog : Z.log2 (Zpos q) = 52 + k).
  { apply Z.log2_unique; [lia|]. rewrite <- Z.add_succ_l, !Z.pow_add_r by lia. exact Hqk. }
  assert (Hc : fexp prec64 emax64 (Zpos (digits2_pos q) + (e - k)) = e).
  { rewrite digits2_log2, Hlog. unfold fexp, emin, prec64, emax64, grid_exp in *. lia. }
  set (l0 := loc_of_shr_record (fst (shr (Build_shr_record (Zpos q) false false) (e - k) k))).
  set (r := round_nearest_even (Zpos q / 2 ^ k) l0).
  pose proof (round_nearest_even_near (Zpos q / 2 ^ k) l0) as Hr. fold r in Hr.
  assert (Hfst : exists mrs, shr_fexp prec64 emax64 (Zpos q) (e - k) loc_Exact = (mrs, e) /\
            shr_m mrs = Zpos q / 2 ^ k /\ loc_of_shr_record mrs = l0).
  { unfold shr_fexp. cbn [Zdigits2]. rewrite Hc. replace (e - (e - k)) with k by lia.
    unfold l0, shr, shr_record_of_loc. destruct k as [|k|k]; [| |lia].
    - eexists. split; [f_equal; lia|]. split; [cbn [shr_m]; by rewrite Z.pow_0_r, Z.div_1_r|done].
    - eexists. split; [f_equal; lia|]. split; [by apply shr_m_div|done]. }
  destruct Hfst as (mrs & Hfst & Hm & Hl). exists r. split; [|exact Hr].
  assert (Er : r = round_nearest_even (shr_m mrs) (loc_of_shr_record mrs)) by (by rewrite Hm, Hl).
  clearbody r. destruct r as [|r|r]; [lia| |lia].
  rewrite (dyadic_top r e) by (done || lia). unfold dyadic, binary_normalize, binary_round.
  rewrite Hc. unfold shl_align. replace (e - (e - k)) with k by lia.
  transitivity (binary_round_aux prec64 emax64 false (Zpos q) (e - k) loc_Exact); [by destruct k|].
  unfold binary_round_aux. rewrite Hfst, <- Er, shr_fexp_id by (apply canon_exp_top; [lia|apply He]).
  cbn [shr_m]. by rewrite (proj2 (Z.leb_le e (emax64 - prec64))) by apply He.
Qed.

(** The aligned sum of two grid values, whatever exponent they are aligned at. *)
Lemma dyadic_near_scaled x e k ez :
  grid_exp e -> 0 <= k -> ez <= e - k ->
  2 ^ 52 <= x / 2 ^ k -> x / 2 ^ k + 1 < 2 ^ 53 ->
  exists r, dyadic (x * 2 ^ (e - k - ez)) ez = dyadic r e /\ x / 2 ^ k <= r <= x / 2 ^ k + 1.
Proof.
  intros He Hk Hz Hlo Hhi.
  assert (E : x * 2 ^ (e - k - ez) / 2 ^ (e - ez) = x / 2 ^ k).
  { replace (e - ez) with (k + (e - k - ez)) by lia. rewrite (Z.pow_add_r 2 k) by lia.
    apply Z.div_mul_cancel_r; lia. }
  pose proof (dyadic_near (x * 2 ^ (e - k - ez)) e (e - ez)) as H.
  replace (e - (e - ez)) with ez in H by lia. rewrite E in H. apply H; (done || lia).
Qed.

Section Near.
Context (n h e k : Z) (He : grid_exp e) (Hk : 0 <= k) (Hek : grid_exp (e - k)).
Context (Hn : 0 < n < 2 ^ 53) (Hh : 0 < h < 2 ^ 53).

(** [n * 2^e] and [h * 2^(e - k)], aligned. *)
Lemma aligned_scaled r ez :
  Zpos r = Z.abs n * 2 ^ (e - canon_exp (Z.abs n) e) -> canon_exp (Z.abs n) e <= e ->
  ez <= canon_exp (Z.abs n) e -> ez <= e - k ->
  cond_Zopp (n <? 0) (Zpos (fst (shl_align r (canon_exp (Z.abs n) e) ez))) = n * 2 ^ k * 2 ^ (e - k - ez).
Proof.
  intros Hr Hc Hz Hz'. rewrite (aligned_mantissa n e r ez) by done.
  rewrite <- Z.mul_assoc, <- Z.pow_add_r by lia. do 2 f_equal. lia.
Qed.

Lemma dadd_near :
  2 ^ 52 <= (n * 2 ^ k + h) / 2 ^ k -> (n * 2 ^ k + h) / 2 ^ k + 1 < 2 ^ 53 ->
  exists r, dadd (dyadic n e) (dyadic h (e - k)) = dyadic r e /\
    (n * 2 ^ k + h) / 2 ^ k <= r <= (n * 2 ^ k + h) / 2 ^ k + 1.
Proof.
  intros Hlo Hhi.
  destruct (dyadic_has_shape n e) as [?|r _ Hr Hc]; [unfold fits53; lia|done|lia|].
  destruct (dyadic_has_shape h (e - k)) as [?|r' _ Hr' Hc']; [unfold fits53; lia|done|lia|].
  unfold dadd, SFadd. set (ez := Z.min _ _).
  rewrite aligned_scaled, (aligned_mantissa h (e - k) r' ez) by (done || lia).
  rewrite <- Z.mul_add_distr_r. apply dyadic_near_scaled; try done; lia.
Qed.

Lemma dsub_near :
  2 ^ 52 <= (n * 2 ^ k - h) / 2 ^ k -> (n * 2 ^ k - h) / 2 ^ k + 1 < 2 ^ 53 ->
  exists r, dsub (dyadic n e) (dyadic h (e - k)) = dyadic r e /\
    (n * 2 ^ k - h) / 2 ^ k <= r <= (n * 2 ^ k - h) / 2 ^ k + 1.
Proof.
  intros Hlo Hhi.
  destruct (dyadic_has_shape n e) as [?|r _ Hr Hc]; [unfold fits53; lia|done|lia|].
  destruct (dyadic_has_shape h (e - k)) as [?|r' _ Hr' Hc']; [unfold fits53; lia|done|lia|].
  unfold dsub, SFsub. set (ez := Z.min _ _).
  rewrite aligned_scaled, (aligned_mantissa h (e - k) r' ez) by (done || lia).
  rewrite <- Z.mul_sub_distr_r. apply dyadic_near_scaled; try done; lia.
Qed.
End Near.

(** A coarser grid embeds in the next finer one. *)
Lemma dyadic_refine m e : fits53 m -> grid_exp e -> dyadic m e = dyadic (2 * m) (e - 1).
Proof.
  intros Hm He. rewrite <- (dyadic_scale m 1 e) by (done || lia). f_equal. lia.
Qed.

Lemma dyadic_int z : double_of_Z z = dyadic z 0.
Proof. reflexivity. Qed.
