(* ===== verification/Events.v ===== *)
(** * POD event types (src/src/common/events.hpp)

    Every struct that crosses a thread boundary, with the source's field
    names, prefixed by the struct where two structs share a name.  Integers
    are Z at the width the struct declares, fixed arrays are lists, enums are
    inductive types with the source's numeric values.  Padding fields carry no
    information and are left out. *)
From S2P Require Import Prelude.
From S2P Require Import Double.

(** ** Constants *)

Definition kMaxSymbols : Z := 8.
Definition kMaxDepth : Z := 5.
Definition kSymbolLen : Z := 16.

(** A zero-initialised price or quantity array. *)
Definition zero_levels : list double := replicate (Z.to_nat kMaxDepth) dzero.

(** ** Market data *)

Record MdEvent := mkMdEvent {
  md_t_recv_ns : Z;
  md_symbol_id : Z;
  md_n_bids : Z;
  md_n_asks : Z;
  md_bid_px : list double;
  md_bid_qty : list double;
  md_ask_px : list double;
  md_ask_qty : list double;
  md_last_px : double;
  md_seq : Z
}.

(** [MdEvent ev{}]: value-initialised. *)
Definition MdEvent_zero : MdEvent :=
  mkMdEvent 0 0 0 0 zero_levels zero_levels zero_levels zero_levels dzero 0.

(** ** Order commands *)

Inductive OrdCmdType := CmdNew | CmdCancel.

(** [SideZero] is the value 0 that value-initialisation ([ExecEvent ev{}],
    [LogRecord r{}]) leaves in a side that is never assigned: the enumerators
    are 1 and 2. *)
Inductive OrdSide := SideZero | Buy | Sell.

Record OrderCmd := mkOrderCmd {
  c_type : OrdCmdType;
  c_side : OrdSide;
  c_symbol_id : Z;
  c_price : double;
  c_qty : double;
  c_cl_ord_id : Z;
  c_orig_cl_ord_id : Z;
  c_t_md_ns : Z;
  c_t_decided_ns : Z
}.

(** ** Execution events *)

Inductive ExecKind :=
| ExNew | ExCanceled | ExFilled | ExPartFill | ExRejected | ExReplaced | ExOther.

Record ExecEvent := mkExecEvent {
  x_t_recv_ns : Z;
  x_cl_ord_id : Z;
  x_kind : ExecKind;
  x_side : OrdSide;
  x_symbol_id : Z;
  x_last_px : double;
  x_last_qty : double;
  x_leaves_qty : double;
  x_order_id : list Ascii.ascii
}.

(** A zero-filled [char a[n]]. *)
Definition zero_chars (n : Z) : list Ascii.ascii := replicate (Z.to_nat n) Ascii.zero.

Definition order_id_size : Z := 24.
Definition text_size : Z := 48.

(** [ExecEvent ev{}]: kind New (0) and side 0. *)
Definition ExecEvent_zero : ExecEvent :=
  mkExecEvent 0 0 ExNew SideZero 0 dzero dzero dzero (zero_chars order_id_size).

(** ** Log records *)

Inductive LogKind := LkMdTick | LkOrderNew | LkOrderCxl | LkExec | LkInfo.

Record LogRecord := mkLogRecord {
  l_t_ns : Z;
  l_kind : LogKind;
  l_side : OrdSide;
  l_symbol_id : Z;
  l_px : double;
  l_qty : double;
  l_cl_ord_id : Z;
  l_text : list Ascii.ascii
}.

(** [LogRecord r{}]. *)
Definition LogRecord_zero : LogRecord :=
  mkLogRecord 0 LkMdTick SideZero 0 dzero dzero 0 (zero_chars text_size).

(** ** Book snapshots *)

Record BookSnapshot := mkBookSnapshot {
  s_t_ns : Z;
  s_symbol_id : Z;
  s_n_bids : Z;
  s_n_asks : Z;
  s_bid_px : list double;
  s_bid_qty : list double;
  s_ask_px : list double;
  s_ask_qty : list double
}.

(** ** Numeric values of the enums *)

Definition OrdCmdType_code (t : OrdCmdType) : Z :=
  match t with CmdNew => 0 | CmdCancel => 1 end.
Definition OrdSide_code (s : OrdSide) : Z :=
  match s with SideZero => 0 | Buy => 1 | Sell => 2 end.
Definition ExecKind_code (k : ExecKind) : Z :=
  match k with
  | ExNew => 0 | ExCanceled => 1 | ExFilled => 2 | ExPartFill => 3
  | ExRejected => 4 | ExReplaced => 5 | ExOther => 6
  end.
Definition LogKind_code (k : LogKind) : Z :=
  match k with
  | LkMdTick => 0 | LkOrderNew => 1 | LkOrderCxl => 2 | LkExec => 3 | LkInfo => 4
  end.

(** ** Decidable equality *)

#[export] Instance OrdCmdType_eq_dec : EqDecision OrdCmdType.
Proof. solve_decision. Defined.
#[export] Instance OrdSide_eq_dec : EqDecision OrdSide.
Proof. solve_decision. Defined.
#[export] Instance ExecKind_eq_dec : EqDecision ExecKind.
Proof. solve_decision. Defined.
#[export] Instance LogKind_eq_dec : EqDecision LogKind.
Proof. solve_decision. Defined.
#[export] Instance OrderCmd_eq_dec : EqDecision OrderCmd.
Proof. solve_decision. Defined.
#[export] Instance ExecEvent_eq_dec : EqDecision ExecEvent.
Proof. solve_decision. Defined.

(** ** Well-formedness: what the C types guarantee of a value *)

Definition levels_ok (l : list double) : Prop := length l = Z.to_nat kMaxDepth.

Record MdEvent_wf (e : MdEvent) : Prop := {
  mdwf_sym : in_u32 (md_symbol_id e);
  mdwf_nb : 0 <= md_n_bids e < 2 ^ 16;
  mdwf_na : 0 <= md_n_asks e < 2 ^ 16;
  mdwf_bp : levels_ok (md_bid_px e);
  mdwf_bq : levels_ok (md_bid_qty e);
  mdwf_ap : levels_ok (md_ask_px e);
  mdwf_aq : levels_ok (md_ask_qty e)
}.
