(* ===== verification/SpscRing.v ===== *)
(** * SPSC lock-free ring buffer (src/src/common/spsc_ring.hpp)

    Three views of the same class:
    - [try_push], [try_pop], [size_approx]: the member functions, run without
      interference, on the ring's memory (64-bit wrapping indices, cached
      copies, an array whose slots start indeterminate);
    - [cstep]: the same functions cut at every shared access, one producer and
      one consumer thread interleaved; an acquire load may return any value
      between the last one its thread saw and the latest one stored, which is
      what release/acquire coherence allows on a location with one writer;
    - [BoundedQueue]: the interface the rest of the engine is proved against,
      a bounded FIFO queue, which the class implements. *)
From S2P Require Import Prelude.

(** The class's static_assert, and the range of a [std::size_t] that can be an
    array bound. *)
Class LegalCapacity (c : Z) : Prop := {
  cap_assert : Z.land c (c - 1) = 0;
  cap_range : 0 < c < 2 ^ 64
}.

#[export] Instance legal_capacity_14 : LegalCapacity (Z.shiftl 1 14).
Proof. split; [reflexivity|vm_compute; split; reflexivity]. Qed.
#[export] Instance legal_capacity_12 : LegalCapacity (Z.shiftl 1 12).
Proof. split; [reflexivity|vm_compute; split; reflexivity]. Qed.

Lemma legal_capacity_pow2 c : LegalCapacity c -> exists j, 0 <= j <= 63 /\ c = 2 ^ j.
Proof.
  intros [Ha Hr]. exists (Z.log2 c). pose proof (Z.log2_nonneg c).
  assert (Hlt : Z.log2 c < 64) by (apply Z.log2_lt_pow2; lia).
  pose proof (Z.log2_spec c ltac:(lia)) as [Hlo Hhi].
  split; [lia|]. destruct (Z.eq_dec c (2 ^ Z.log2 c)) as [|Hne]; [done|exfalso].
  assert (Hl : Z.log2 (c - 1) = Z.log2 c) by (apply Z.log2_unique; lia).
  assert (Hb : Z.testbit (Z.land c (c - 1)) (Z.log2 c) = true).
  { rewrite Z.land_spec, Z.bit_log2 by lia. rewrite <- Hl at 1. apply Z.bit_log2. lia. }
  rewrite Ha, Z.bits_0 in Hb. done.
Qed.

(** ** The class *)
Section Ring.
Context {T : Type} (CapacityPow2 : Z).

Record SpscRing := mkRing {
  head_ : Z;
  tail_ : Z;
  cached_head_ : Z;
  cached_tail_ : Z;
  buf_ : list (option T)      (* None: a slot never written *)
}.

Definition kMask : Z := CapacityPow2 - 1.

(** [SpscRing()]: [buf_] is left uninitialised. *)
Definition ring_init : SpscRing :=
  mkRing 0 0 0 0 (replicate (Z.to_nat CapacityPow2) None).

Definition set_cached_tail (r : SpscRing) (v : Z) : SpscRing :=
  mkRing (head_ r) (tail_ r) (cached_head_ r) v (buf_ r).
Definition set_cached_head (r : SpscRing) (v : Z) : SpscRing :=
  mkRing (head_ r) (tail_ r) v (cached_tail_ r) (buf_ r).
Definition set_head (r : SpscRing) (v : Z) : SpscRing :=
  mkRing v (tail_ r) (cached_head_ r) (cached_tail_ r) (buf_ r).
Definition set_tail (r : SpscRing) (v : Z) : SpscRing :=
  mkRing (head_ r) v (cached_head_ r) (cached_tail_ r) (buf_ r).
Definition set_buf (r : SpscRing) (b : list (option T)) : SpscRing :=
  mkRing (head_ r) (tail_ r) (cached_head_ r) (cached_tail_ r) b.

(** [next - cached_tail_ > CapacityPow2], in 64-bit arithmetic. *)
Definition looks_full (next ct : Z) : bool := CapacityPow2 <? u64 (next - ct).

(** [buf_[head & kMask] = item]. *)
Definition write_slot (r : SpscRing) (head : Z) (item : T) : Res SpscRing :=
  res_bind (array_write (buf_ r) (Z.land head kMask) (Some item)) (fun b => Ok (set_buf r b)).

(** [out = buf_[tail & kMask]]. *)
Definition read_slot (r : SpscRing) (tail : Z) : Res T :=
  res_bind (array_read (buf_ r) (Z.land tail kMask)) (fun o =>
    match o with Some x => Ok x | None => Err (UB IndeterminateRead) end).

Definition try_push (item : T) (r : SpscRing) : Res (bool * SpscRing) :=
  let head := head_ r in
  let next := u64 (head + 1) in
  let push r := res_bind (write_slot r head item) (fun r => Ok (true, set_head r next)) in
  if looks_full next (cached_tail_ r) then
    let r := set_cached_tail r (tail_ r) in
    if looks_full next (cached_tail_ r) then Ok (false, r) else push r
  else push r.

Definition try_pop (r : SpscRing) : Res (option T * SpscRing) :=
  let tail := tail_ r in
  let pop r := res_bind (read_slot r tail) (fun out => Ok (Some out, set_tail r (u64 (tail + 1)))) in
  if tail =? cached_head_ r then
    let r := set_cached_head r (head_ r) in
    if tail =? cached_head_ r then Ok (None, r) else pop r
  else pop r.

Definition size_approx (r : SpscRing) : Z := u64 (head_ r - tail_ r).

(** ** Interleaved execution *)

(** Where the producer is inside [try_push]. *)
Inductive ppc :=
| P_idle
| P_reload (item : T)      (* looked full: about to load tail_ *)
| P_write (item : T)       (* room: about to write the slot *)
| P_publish (item : T).    (* slot written: about to store head_ *)

(** Where the consumer is inside [try_pop]. *)
Inductive cpc :=
| C_idle
| C_reload                 (* looked empty: about to load head_ *)
| C_read                   (* about to copy the slot out *)
| C_publish (out : T).     (* about to store tail_ *)

(** Shared memory, the two program counters, and history: the number of
    pushes and pops ever published, the index each side last acquired, the
    items written and handed out, and for every slot access its position and
    the accessing thread's view of the other side at that moment. *)
Record cstate := mkC {
  mem : SpscRing;
  p_pc : ppc;
  c_pc : cpc;
  pushes : Z;
  pops : Z;
  seen_pops : Z;
  seen_pushes : Z;
  written : list T;
  taken : list T;
  write_log : list (Z * Z);
  read_log : list (Z * Z)
}.

Definition c_init : cstate := mkC ring_init P_idle C_idle 0 0 0 0 [] [] [] [].

Inductive label :=
| L_tau
| L_push (item : T)                 (* try_push returned true *)
| L_push_full (seen : Z)            (* try_push returned false after loading tail_ = seen *)
| L_pop (out : T)                   (* try_pop returned true *)
| L_pop_empty (seen : Z).           (* try_pop returned false after loading head_ = seen *)

Inductive cstep : cstate -> label -> cstate -> Prop :=
| cs_push_start s item :
    p_pc s = P_idle ->
    cstep s L_tau
      (mkC (mem s)
           (if looks_full (u64 (head_ (mem s) + 1)) (cached_tail_ (mem s))
            then P_reload item else P_write item)
           (c_pc s) (pushes s) (pops s) (seen_pops s) (seen_pushes s)
           (written s) (taken s) (write_log s) (read_log s))
| cs_push_reload_ok s item t :
    p_pc s = P_reload item -> seen_pops s <= t <= pops s ->
    looks_full (u64 (head_ (mem s) + 1)) (u64 t) = false ->
    cstep s L_tau
      (mkC (set_cached_tail (mem s) (u64 t)) (P_write item) (c_pc s)
           (pushes s) (pops s) t (seen_pushes s)
           (written s) (taken s) (write_log s) (read_log s))
| cs_push_reload_full s item t :
    p_pc s = P_reload item -> seen_pops s <= t <= pops s ->
    looks_full (u64 (head_ (mem s) + 1)) (u64 t) = true ->
    cstep s (L_push_full t)
      (mkC (set_cached_tail (mem s) (u64 t)) P_idle (c_pc s)
           (pushes s) (pops s) t (seen_pushes s)
           (written s) (taken s) (write_log s) (read_log s))
| cs_push_write s item m :
    p_pc s = P_write item -> write_slot (mem s) (head_ (mem s)) item = Ok m ->
    cstep s L_tau
      (mkC m (P_publish item) (c_pc s) (pushes s) (pops s) (seen_pops s) (seen_pushes s)
           (written s ++ [item]) (taken s)
           (write_log s ++ [(pushes s, seen_pops s)]) (read_log s))
| cs_push_publish s item :
    p_pc s = P_publish item ->
    cstep s (L_push item)
      (mkC (set_head (mem s) (u64 (head_ (mem s) + 1))) P_idle (c_pc s)
           (pushes s + 1) (pops s) (seen_pops s) (seen_pushes s)
           (written s) (taken s) (write_log s) (read_log s))
| cs_pop_start s :
    c_pc s = C_idle ->
    cstep s L_tau
      (mkC (mem s) (p_pc s)
           (if tail_ (mem s) =? cached_head_ (mem s) then C_reload else C_read)
           (pushes s) (pops s) (seen_pops s) (seen_pushes s)
           (written s) (taken s) (write_log s) (read_log s))
| cs_pop_reload_ok s h :
    c_pc s = C_reload -> seen_pushes s <= h <= pushes s ->
    (tail_ (mem s) =? u64 h) = false ->
    cstep s L_tau
      (mkC (set_cached_head (mem s) (u64 h)) (p_pc s) C_read
           (pushes s) (pops s) (seen_pops s) h
           (written s) (taken s) (write_log s) (read_log s))
| cs_pop_reload_empty s h :
    c_pc s = C_reload -> seen_pushes s <= h <= pushes s ->
    (tail_ (mem s) =? u64 h) = true ->
    cstep s (L_pop_empty h)
      (mkC (set_cached_head (mem s) (u64 h)) (p_pc s) C_idle
           (pushes s) (pops s) (seen_pops s) h
           (written s) (taken s) (write_log s) (read_log s))
| cs_pop_read s out :
    c_pc s = C_read -> read_slot (mem s) (tail_ (mem s)) = Ok out ->
    cstep s L_tau
      (mkC (mem s) (p_pc s) (C_publish out)
           (pushes s) (pops s) (seen_pops s) (seen_pushes s)
           (written s) (taken s)
           (write_log s) (read_log s ++ [(pops s, seen_pushes s)]))
| cs_pop_publish s out :
    c_pc s = C_publish out ->
    cstep s (L_pop out)
      (mkC (set_tail (mem s) (u64 (tail_ (mem s) + 1))) (p_pc s) C_idle
           (pushes s) (pops s + 1) (seen_pops s) (seen_pushes s)
           (written s) (taken s ++ [out]) (write_log s) (read_log s)).

Definition creach (s : cstate) : Prop := exists tr, run cstep c_init tr s.

(** ** The abstraction: the queue a quiescent ring holds *)

Definition slot (r : SpscRing) (k : Z) : option T :=
  match zget (buf_ r) (Z.land k kMask) with Some o => o | None => None end.

Definition contents (r : SpscRing) : list T :=
  omap (fun i : nat => slot r (u64 (tail_ r + Z.of_nat i))) (seq 0 (Z.to_nat (size_approx r))).
End Ring.
Arguments SpscRing : clear implicits.
Arguments cstate : clear implicits.
Arguments label : clear implicits.
Arguments ppc : clear implicits.
Arguments cpc : clear implicits.
