(* ===== verification/SpscRingFacts.v ===== *)
(** * The SPSC ring: index arithmetic, invariant and the concurrent theorems

    The invariant relates the wrapping indices to unbounded counts of
    published pushes and pops; FIFO delivery, capacity, absence of reads of
    unwritten slots and absence of data races follow from it. *)
From S2P Require Import Prelude.
From S2P Require Import SpscRing.

(** ** Index arithmetic *)
Section Index.
Context (CapacityPow2 : Z) {HC : LegalCapacity CapacityPow2}.

Lemma cap_pos : 0 < CapacityPow2.
Proof. apply cap_range. Qed.

Lemma cap_le : CapacityPow2 <= 2 ^ 63.
Proof.
  destruct (legal_capacity_pow2 CapacityPow2 HC) as (j & Hj & ->).
  apply Z.pow_le_mono_r; lia.
Qed.

(** The mask is the remainder, and the 64-bit wrap does not disturb it. *)
Lemma mask_mod k : Z.land k (kMask CapacityPow2) = k mod CapacityPow2.
Proof.
  destruct (legal_capacity_pow2 CapacityPow2 HC) as (j & Hj & Hc).
  unfold kMask. rewrite Hc, <- Z.land_ones by lia. f_equal.
  by rewrite Z.ones_equiv, Z.sub_1_r.
Qed.

Lemma mask_u64 k : Z.land (u64 k) (kMask CapacityPow2) = Z.land k (kMask CapacityPow2).
Proof.
  rewrite !mask_mod. destruct (legal_capacity_pow2 CapacityPow2 HC) as (j & Hj & Hc).
  unfold u64. apply Z.mod_mod_divide. exists (2 ^ (64 - j)).
  rewrite Hc, <- Z.pow_add_r by lia. f_equal. lia.
Qed.

Lemma mask_inj k k' :
  k < k' < k + CapacityPow2 ->
  Z.land k (kMask CapacityPow2) <> Z.land k' (kMask CapacityPow2).
Proof.
  rewrite !mask_mod. pose proof cap_pos. intros Hk Heq.
  assert (H0 : (k' - k) mod CapacityPow2 = 0).
  { rewrite Zminus_mod, Heq, Z.sub_diag. apply Z.mod_0_l. lia. }
  rewrite Z.mod_small in H0; lia.
Qed.

Lemma looks_full_u64 p t :
  0 <= p + 1 - t <= CapacityPow2 + 1 ->
  looks_full CapacityPow2 (u64 (u64 p + 1)) (u64 t) = (CapacityPow2 <? p + 1 - t).
Proof.
  intros H. pose proof cap_le. unfold looks_full.
  rewrite u64_add_l, u64_sub, u64_id; [done|]. unfold in_u64. lia.
Qed.

Lemma u64_eqb_close p h :
  0 <= h - p <= CapacityPow2 -> (u64 p =? u64 h) = (p =? h).
Proof.
  intros H. pose proof cap_le.
  destruct (Z.eqb_spec p h) as [->|Hne]; [apply Z.eqb_refl|].
  apply Z.eqb_neq. intros Heq.
  assert (Hd : u64 (h - p) = 0) by (by rewrite <- u64_sub, Heq, Z.sub_diag).
  rewrite u64_id in Hd; unfold in_u64; lia.
Qed.
End Index.
#[export] Hint Resolve cap_pos cap_le : mm.

(** ** Slots *)
Section Slots.
Context {T : Type} (CapacityPow2 : Z) {HC : LegalCapacity CapacityPow2}.
Implicit Types r : SpscRing T.

Definition buf_ok (r : SpscRing T) : Prop := length (buf_ r) = Z.to_nat CapacityPow2.

Lemma mask_in_bounds r k :
  buf_ok r -> 0 <= Z.land k (kMask CapacityPow2) < Z.of_nat (length (buf_ r)).
Proof.
  intros ->. pose proof (cap_pos CapacityPow2). rewrite mask_mod by done.
  pose proof (Z.mod_pos_bound k CapacityPow2). lia.
Qed.

Lemma slot_u64 r k : slot CapacityPow2 r (u64 k) = slot CapacityPow2 r k.
Proof. unfold slot. by rewrite mask_u64. Qed.

(** A masked write is always in bounds and changes one slot. *)
Lemma write_slot_ok r k item :
  buf_ok r -> exists m, write_slot CapacityPow2 r (u64 k) item = Ok m /\
    buf_ok m /\ head_ m = head_ r /\ tail_ m = tail_ r /\
    cached_head_ m = cached_head_ r /\ cached_tail_ m = cached_tail_ r /\
    slot CapacityPow2 m k = Some item /\
    (forall j, k - CapacityPow2 < j < k -> slot CapacityPow2 m j = slot CapacityPow2 r j).
Proof.
  intros Hb. pose proof (mask_in_bounds r k Hb) as Hi.
  unfold write_slot. rewrite mask_u64, array_write_ok by done. simpl.
  eexists. split; [done|]. unfold buf_ok. simpl. rewrite length_zset.
  repeat split; try done; unfold slot; simpl.
  - by rewrite zget_zset_eq.
  - intros j Hj. rewrite zget_zset_ne; [done|].
    apply not_eq_sym, (mask_inj CapacityPow2). lia.
Qed.

Lemma read_slot_ok r k x :
  slot CapacityPow2 r k = Some x -> read_slot CapacityPow2 r (u64 k) = Ok x.
Proof.
  unfold slot, read_slot. rewrite mask_u64 by done. unfold array_read.
  destruct (zget _ _) as [[y|]|]; naive_solver.
Qed.

Lemma read_slot_inv r k x :
  read_slot CapacityPow2 r (u64 k) = Ok x -> slot CapacityPow2 r k = Some x.
Proof.
  unfold slot, read_slot. rewrite mask_u64 by done. unfold array_read.
  destruct (zget _ _) as [[y|]|]; naive_solver.
Qed.
End Slots.

(** ** The invariant of the interleaved execution *)
Section Concurrent.
Context {T : Type} (CapacityPow2 : Z) {HC : LegalCapacity CapacityPow2}.
Implicit Types s : cstate T.

Definition n_written (s : cstate T) : Z := Z.of_nat (length (written s)).

Record cinv (s : cstate T) : Prop := {
  ci_c : 0 <= pops s <= seen_pushes s;
  ci_p : seen_pushes s <= pushes s;
  ci_s : 0 <= seen_pops s <= pops s;
  ci_cap : pushes s - seen_pops s <= CapacityPow2;
  ci_head : head_ (mem s) = u64 (pushes s);
  ci_tail : tail_ (mem s) = u64 (pops s);
  ci_ch : cached_head_ (mem s) = u64 (seen_pushes s);
  ci_ct : cached_tail_ (mem s) = u64 (seen_pops s);
  ci_buf : buf_ok CapacityPow2 (mem s);
  ci_ppc : match p_pc s with
           | P_write _ => pushes s + 1 - seen_pops s <= CapacityPow2 /\ n_written s = pushes s
           | P_publish item => pushes s + 1 - seen_pops s <= CapacityPow2 /\
               n_written s = pushes s + 1 /\ zget (written s) (pushes s) = Some item
           | _ => n_written s = pushes s
           end;
  ci_cpc : match c_pc s with
           | C_read => pops s < seen_pushes s
           | C_publish out => pops s < seen_pushes s /\ zget (written s) (pops s) = Some out
           | _ => True
           end;
  ci_slots : forall k, pops s <= k < n_written s ->
             slot CapacityPow2 (mem s) k = zget (written s) k;
  ci_taken : taken s = take (Z.to_nat (pops s)) (written s);
  ci_writes : Forall (fun '(w, v) => w + 1 - v <= CapacityPow2) (write_log s);
  ci_reads : Forall (fun '(r, v) => 0 <= r < v) (read_log s)
}.

Lemma cinv_init : cinv (c_init CapacityPow2).
Proof.
  pose proof (cap_pos CapacityPow2).
  constructor; simpl; try done; try lia.
  - unfold buf_ok. simpl. apply length_replicate.
  - unfold n_written. simpl. intros k Hk. lia.
Qed.

(** What the producer still has to do never exceeds the free slots. *)
Lemma cinv_room s item :
  cinv s -> p_pc s = P_write item ->
  forall k, pops s <= k < n_written s -> pushes s - CapacityPow2 < k < pushes s.
Proof.
  intros I Hp k Hk. pose proof (ci_ppc s I) as Hpp. rewrite Hp in Hpp.
  pose proof (ci_s s I). lia.
Qed.

Lemma zget_app_l {A} (l : list A) x k :
  k < Z.of_nat (length l) -> zget (l ++ [x]) k = zget l k.
Proof.
  intros H. destruct (decide (0 <= k)) as [Hk|Hk].
  - rewrite <- (Z2Nat.id k) by done. rewrite !zget_nat. apply lookup_app_l. lia.
  - by rewrite !zget_oob by lia.
Qed.

Lemma zget_app_end {A} (l : list A) x : zget (l ++ [x]) (Z.of_nat (length l)) = Some x.
Proof. rewrite zget_nat. by apply list_lookup_middle. Qed.

Ltac use_inv I :=
  destruct I as [Ic Ip Is Icap Ih It Ich Ict Ib Ippc Icpc Isl Itk Iw Ir].

Lemma cinv_producer s l s' :
  cinv s -> cstep CapacityPow2 s l s' -> p_pc s' <> p_pc s -> cinv s'.
Proof.
  intros I Hs Hp. destruct Hs; simpl in Hp; try done; use_inv I;
    match goal with H : p_pc s = _ |- _ => rewrite H in Ippc end.
  - (* start *)
    assert (looks_full CapacityPow2 (u64 (head_ (mem s) + 1)) (cached_tail_ (mem s)) =
            (CapacityPow2 <? pushes s + 1 - seen_pops s)) as HL.
    { rewrite Ih, Ict. apply looks_full_u64; [done|lia]. }
    constructor; simpl; try done. rewrite HL.
    destruct (Z.ltb_spec CapacityPow2 (pushes s + 1 - seen_pops s)); [done|].
    split; [lia|done].
  - (* reload, room *)
    rewrite Ih, looks_full_u64 in H1 by (done || lia). zbool.
    constructor; simpl; try done; lia.
  - (* reload, full *)
    constructor; simpl; try done; lia.
  - (* write *)
    rewrite Ih in H0. destruct Ippc as [Hroom Hn].
    destruct (write_slot_ok CapacityPow2 (mem s) (pushes s) item Ib)
      as (m' & Hm & Hb & Hh & Ht & Hch & Hct & Heq & Hne).
    rewrite Hm in H0. injection H0 as <-. unfold n_written in *.
    constructor; simpl; rewrite ?Hh, ?Ht, ?Hch, ?Hct; try done.
    + unfold n_written. simpl. rewrite length_app. simpl. rewrite <- Hn.
      rewrite zget_app_end. repeat split; lia.
    + destruct (c_pc s); try done. destruct Icpc as [Hlt Hz]. split; [done|].
      rewrite zget_app_l by lia. done.
    + intros k. unfold n_written. simpl. rewrite length_app. simpl. intros Hk.
      destruct (decide (k = pushes s)) as [->|Hkne].
      * by rewrite Heq, <- Hn, zget_app_end.
      * rewrite Hne, zget_app_l by lia. apply Isl. unfold n_written. lia.
    + rewrite take_app_le by lia. done.
    + apply Forall_app. split; [done|]. repeat constructor. lia.
  - (* publish *)
    destruct Ippc as (Hroom & Hn & Hz).
    constructor; simpl; try done; try lia. by rewrite Ih, u64_add_l.
Qed.

Lemma cinv_consumer s l s' :
  cinv s -> cstep CapacityPow2 s l s' -> p_pc s' = p_pc s -> cinv s'.
Proof.
  intros I Hs Hp. destruct Hs; simpl in Hp; use_inv I;
    try match goal with H : p_pc s = _ |- _ => rewrite H in Hp end;
    try (by destruct (looks_full _ _ _)); try done;
    match goal with H : c_pc s = _ |- _ => rewrite H in Icpc end.
  - (* start *)
    assert ((tail_ (mem s) =? cached_head_ (mem s)) = (pops s =? seen_pushes s)) as HL.
    { rewrite It, Ich. apply (u64_eqb_close CapacityPow2). lia. }
    constructor; simpl; try done. rewrite HL.
    destruct (Z.eqb_spec (pops s) (seen_pushes s)); [done|lia].
  - (* reload, something there *)
    rewrite It, (u64_eqb_close CapacityPow2) in H1 by (done || lia). zbool.
    constructor; simpl; try done; lia.
  - (* reload, empty *)
    constructor; simpl; try done; lia.
  - (* read *)
    rewrite It in H0. apply read_slot_inv in H0; [|done].
    assert (Hlt : pops s < n_written s) by (destruct (p_pc s); lia).
    constructor; simpl; try done.
    + split; [done|]. rewrite <- Isl; [done|lia].
    + apply Forall_app. split; [done|]. repeat constructor; lia.
  - (* publish *)
    destruct Icpc as [Hlt Hz].
    constructor; simpl; try done; try lia.
    + by rewrite It, u64_add_l.
    + intros k Hk. apply Isl. unfold n_written in *. simpl in *. lia.
    + rewrite Itk, Z2Nat.inj_add by lia.
      apply zget_Some in Hz as [_ Hz]. rewrite Nat.add_1_r.
      symmetry. by apply take_S_r.
Qed.

Lemma cinv_step s l s' : cinv s -> cstep CapacityPow2 s l s' -> cinv s'.
Proof.
  intros I Hs. assert (Hd : p_pc s' = p_pc s \/ p_pc s' <> p_pc s).
  { destruct Hs; simpl; try (by left); right;
      match goal with H : p_pc _ = _ |- _ => rewrite H end; try done;
      by destruct (looks_full _ _ _). }
  destruct Hd; [by eapply cinv_consumer|by eapply cinv_producer].
Qed.

Lemma cinv_reach s : creach CapacityPow2 s -> cinv s.
Proof.
  intros [tr H]. eapply run_invariant; [apply cinv_init| |exact H].
  intros; by eapply cinv_step.
Qed.
End Concurrent.
#[export] Hint Resolve cinv_init cinv_reach : mm.

(** ** Contents of a quiescent ring *)

Lemma omap_seq_lookup {A} (f : nat -> option A) (l : list A) k :
  (forall i, (i < length l)%nat -> f (k + i)%nat = l !! i) ->
  omap f (seq k (length l)) = l.
Proof.
  revert k. induction l as [|x l IH]; intros k Hf; [done|].
  simpl. pose proof (Hf 0%nat ltac:(simpl; lia)) as H0.
  rewrite Nat.add_0_r in H0. rewrite H0. simpl. f_equal. apply IH.
  intros i Hi. specialize (Hf (S i) ltac:(simpl; lia)). simpl in Hf.
  rewrite <- Hf. f_equal. lia.
Qed.

Section Sequential.
Context {T : Type} (CapacityPow2 : Z) {HC : LegalCapacity CapacityPow2}.
Implicit Types (s : cstate T) (r : SpscRing T).

(** Neither thread is inside a call. *)
Definition quiescent (s : cstate T) : Prop := p_pc s = P_idle /\ c_pc s = C_idle.

Lemma size_approx_inv s :
  cinv CapacityPow2 s -> size_approx (mem s) = pushes s - pops s.
Proof.
  intros I. unfold size_approx. rewrite (ci_head _ s I), (ci_tail _ s I), u64_sub.
  apply u64_id. pose proof (cap_le CapacityPow2). destruct I. unfold in_u64. lia.
Qed.

Lemma contents_inv s :
  cinv CapacityPow2 s -> p_pc s = P_idle ->
  contents CapacityPow2 (mem s) = drop (Z.to_nat (pops s)) (written s).
Proof.
  intros I Hp. unfold contents. rewrite size_approx_inv, (ci_tail _ s I) by done.
  pose proof (ci_ppc _ s I) as Hn. rewrite Hp in Hn. unfold n_written in Hn.
  pose proof (ci_c _ s I). pose proof (ci_p _ s I).
  replace (Z.to_nat (pushes s - pops s))
    with (length (drop (Z.to_nat (pops s)) (written s)))
    by (rewrite length_drop; lia).
  apply omap_seq_lookup. intros i Hi. rewrite length_drop in Hi.
  rewrite u64_add_l, slot_u64, Nat.add_0_l by done.
  rewrite (ci_slots _ s I) by (unfold n_written; lia).
  rewrite lookup_drop, <- zget_nat. f_equal. lia.
Qed.

(** A ring reached by complete calls only. *)
Definition ring_ok (r : SpscRing T) : Prop :=
  exists s, cinv CapacityPow2 s /\ quiescent s /\ mem s = r.

Lemma ring_ok_init : ring_ok (ring_init CapacityPow2).
Proof. exists (c_init CapacityPow2). split; [by apply cinv_init|done]. Qed.

Lemma contents_init : contents CapacityPow2 (ring_init (T := T) CapacityPow2) = [].
Proof.
  change (ring_init CapacityPow2) with (mem (c_init (T := T) CapacityPow2)).
  rewrite contents_inv; [done|by apply cinv_init|done].
Qed.

Lemma contents_bounded r :
  ring_ok r -> Z.of_nat (length (contents CapacityPow2 r)) = size_approx r /\
               0 <= size_approx r <= CapacityPow2.
Proof.
  intros (s & I & [Hp _] & <-). rewrite contents_inv, length_drop, size_approx_inv by done.
  pose proof (ci_ppc _ s I) as Hn. rewrite Hp in Hn. unfold n_written in Hn.
  destruct I; lia.
Qed.

(** The part of [try_push] after a successful test: write, then publish. *)
Lemma write_publish_run s tr s2 item :
  run (cstep CapacityPow2) s tr s2 -> cinv CapacityPow2 s2 ->
  p_pc s2 = P_write item -> c_pc s2 = C_idle ->
  exists m tr' s', write_slot CapacityPow2 (mem s2) (head_ (mem s2)) item = Ok m /\
    run (cstep CapacityPow2) s tr' s' /\ quiescent s' /\
    mem s' = set_head m (u64 (head_ (mem s2) + 1)) /\ pops s' = pops s2 /\
    written s' = written s2 ++ [item].
Proof.
  intros R I Hp Hc.
  destruct (write_slot_ok CapacityPow2 (mem s2) (pushes s2) item (ci_buf _ _ I))
    as (m & Hm & _ & Hhm & _).
  rewrite <- (ci_head _ _ I) in Hm. eexists m, _, _. split; [done|]. split.
  { eapply run_snoc; [eapply run_snoc; [exact R|]|].
    - by eapply cs_push_write.
    - by eapply cs_push_publish. }
  simpl. rewrite Hhm. repeat split; done.
Qed.

(** The fullness test, in terms of the counts. *)
Lemma looks_full_inv s t :
  cinv CapacityPow2 s -> seen_pops s <= t <= pops s ->
  looks_full CapacityPow2 (u64 (head_ (mem s) + 1)) (u64 t) = (CapacityPow2 <? pushes s + 1 - t).
Proof.
  intros I Ht. rewrite (ci_head _ s I). pose proof (ci_cap _ s I).
  pose proof (ci_c _ s I). pose proof (ci_p _ s I). apply looks_full_u64; [done|lia].
Qed.

(** What one uninterrupted [try_push] does, as steps of the two-thread system. *)
Lemma try_push_sim s item :
  cinv CapacityPow2 s -> quiescent s ->
  exists b r' tr s', try_push CapacityPow2 item (mem s) = Ok (b, r') /\
    run (cstep CapacityPow2) s tr s' /\ quiescent s' /\ mem s' = r' /\
    pops s' = pops s /\
    written s' = (if b then written s ++ [item] else written s) /\
    b = (pushes s - pops s <? CapacityPow2).
Proof.
  intros I [Hp Hc]. pose proof (cs_push_start CapacityPow2 s item Hp) as St1.
  pose proof (cinv_step CapacityPow2 _ _ _ I St1) as I1.
  pose proof (ci_s _ s I) as Hs. pose proof (looks_full_inv s) as HL.
  unfold try_push. rewrite (ci_ct _ s I), HL in St1, I1 |- * by (done || lia).
  destruct (Z.ltb_spec CapacityPow2 (pushes s + 1 - seen_pops s)) as [Hlt|Hge].
  - rewrite (ci_tail _ s I). simpl cached_tail_. rewrite HL by (done || lia).
    destruct (Z.ltb_spec CapacityPow2 (pushes s + 1 - pops s)) as [Hlt'|Hge'].
    + eexists false, _, _, _. split; [done|]. split.
      { eapply run_snoc; [apply run_one, St1|].
        eapply (cs_push_reload_full CapacityPow2 _ item (pops s)); simpl; [done|lia|].
        rewrite HL by (done || lia). by apply Z.ltb_lt. }
      simpl. repeat split; try done. symmetry. apply Z.ltb_ge. lia.
    + match type of St1 with cstep _ _ _ ?s1 =>
        pose proof (cs_push_reload_ok CapacityPow2 s1 item (pops s) eq_refl
          ltac:(simpl; lia) ltac:(simpl; rewrite HL by (done || lia); by apply Z.ltb_ge)) as St2
      end.
      pose proof (cinv_step CapacityPow2 _ _ _ I1 St2) as I2.
      edestruct write_publish_run as (m & tr & s' & Hm & R & Hq & Hmem & Hpo & Hw);
        [eapply run_snoc; [apply run_one, St1|exact St2]|exact I2|done|done|].
      simpl in Hm. rewrite Hm. simpl.
      destruct Hq. eexists true, _, _, s'. repeat split; try done. symmetry. apply Z.ltb_lt. lia.
  - edestruct write_publish_run as (m & tr & s' & Hm & R & Hq & Hmem & Hpo & Hw);
      [apply run_one, St1|exact I1|done|done|].
    simpl in Hm. rewrite Hm. simpl.
    destruct Hq. eexists true, _, _, s'. repeat split; try done. symmetry. apply Z.ltb_lt. lia.
Qed.

(** The part of [try_pop] after a successful test: copy out, then publish. *)
Lemma read_publish_run s tr s2 :
  run (cstep CapacityPow2) s tr s2 -> cinv CapacityPow2 s2 ->
  c_pc s2 = C_read -> p_pc s2 = P_idle ->
  exists out tr' s', read_slot CapacityPow2 (mem s2) (tail_ (mem s2)) = Ok out /\
    zget (written s2) (pops s2) = Some out /\
    run (cstep CapacityPow2) s tr' s' /\ quiescent s' /\
    mem s' = set_tail (mem s2) (u64 (tail_ (mem s2) + 1)) /\ pops s' = pops s2 + 1 /\
    written s' = written s2.
Proof.
  intros R I Hc Hp. pose proof (ci_cpc _ _ I) as Hlt. rewrite Hc in Hlt.
  pose proof (ci_ppc _ _ I) as Hn. rewrite Hp in Hn.
  pose proof (ci_c _ _ I). pose proof (ci_p _ _ I). unfold n_written in Hn.
  destruct (zget_is_Some (written s2) (pops s2)) as [out Hout]; [lia|].
  assert (Hr : read_slot CapacityPow2 (mem s2) (tail_ (mem s2)) = Ok out).
  { rewrite (ci_tail _ _ I). apply read_slot_ok; [done|].
    rewrite (ci_slots _ _ I); [done|unfold n_written; lia]. }
  eexists out, _, _. split; [done|]. split; [done|]. split.
  { eapply run_snoc; [eapply run_snoc; [exact R|]|].
    - by eapply cs_pop_read.
    - by eapply cs_pop_publish. }
  repeat split; done.
Qed.

Lemma looks_empty_inv s h :
  cinv CapacityPow2 s -> seen_pushes s <= h <= pushes s ->
  (tail_ (mem s) =? u64 h) = (pops s =? h).
Proof.
  intros I Hh. rewrite (ci_tail _ s I). pose proof (ci_cap _ s I).
  pose proof (ci_c _ s I). pose proof (ci_s _ s I). apply (u64_eqb_close CapacityPow2). lia.
Qed.

(** What one uninterrupted [try_pop] does, as steps of the two-thread system. *)
Lemma try_pop_sim s :
  cinv CapacityPow2 s -> quiescent s ->
  exists o r' tr s', try_pop CapacityPow2 (mem s) = Ok (o, r') /\
    run (cstep CapacityPow2) s tr s' /\ quiescent s' /\ mem s' = r' /\
    written s' = written s /\ o = zget (written s) (pops s) /\
    pops s' = match o with Some _ => pops s + 1 | None => pops s end.
Proof.
  intros I [Hp Hc]. pose proof (cs_pop_start CapacityPow2 s Hc) as St1.
  pose proof (cinv_step CapacityPow2 _ _ _ I St1) as I1.
  pose proof (looks_empty_inv s) as HE.
  pose proof (ci_p _ s I) as Hps. pose proof (ci_c _ s I) as Hcs.
  pose proof (ci_ppc _ s I) as Hn. rewrite Hp in Hn. unfold n_written in Hn.
  unfold try_pop. rewrite (ci_ch _ s I), HE in St1, I1 |- * by (done || lia).
  destruct (Z.eqb_spec (pops s) (seen_pushes s)) as [Heq|Hne].
  - rewrite (ci_head _ s I). simpl cached_head_. rewrite HE by (done || lia).
    destruct (Z.eqb_spec (pops s) (pushes s)) as [Heq'|Hne'].
    + eexists None, _, _, _. split; [done|]. split.
      { eapply run_snoc; [apply run_one, St1|].
        eapply (cs_pop_reload_empty CapacityPow2 _ (pushes s)); simpl; [done|lia|].
        rewrite HE by (done || lia). by apply Z.eqb_eq. }
      repeat split; try done. rewrite zget_oob; [done|lia].
    + match type of St1 with cstep _ _ _ ?s1 =>
        pose proof (cs_pop_reload_ok CapacityPow2 s1 (pushes s) eq_refl
          ltac:(simpl; lia) ltac:(simpl; rewrite HE by (done || lia); by apply Z.eqb_neq)) as St2
      end.
      pose proof (cinv_step CapacityPow2 _ _ _ I1 St2) as I2.
      edestruct read_publish_run as (out & tr & s' & Hm & Ho & R & Hq & Hmem & Hpo & Hw);
        [eapply run_snoc; [apply run_one, St1|exact St2]|exact I2|done|done|].
      simpl in Hm. rewrite Hm. simpl. destruct Hq. eexists (Some out), _, _, s'. by repeat split.
  - edestruct read_publish_run as (out & tr & s' & Hm & Ho & R & Hq & Hmem & Hpo & Hw);
      [apply run_one, St1|exact I1|done|done|].
    simpl in Hm. rewrite Hm. simpl. destruct Hq. eexists (Some out), _, _, s'. by repeat split.
Qed.

Lemma cinv_run s tr s' : run (cstep CapacityPow2) s tr s' -> cinv CapacityPow2 s -> cinv CapacityPow2 s'.
Proof.
  intros R I. eapply run_invariant; [exact I| |exact R]. intros; by eapply cinv_step.
Qed.

(** ** The member functions against the bounded FIFO queue *)

Lemma try_push_queue r item :
  ring_ok r -> exists r',
    try_push CapacityPow2 item r = Ok (size_approx r <? CapacityPow2, r') /\ ring_ok r' /\
    contents CapacityPow2 r' =
      (if size_approx r <? CapacityPow2 then contents CapacityPow2 r ++ [item]
       else contents CapacityPow2 r).
Proof.
  intros (s & I & Hq & <-).
  destruct (try_push_sim s item I Hq) as (b & r' & tr & s' & He & R & Hq' & <- & Hp & Hw & ->).
  pose proof (cinv_run _ _ _ R I) as I'.
  rewrite size_approx_inv by done. eexists. split; [exact He|]. split; [by exists s'|].
  rewrite (contents_inv s'), (contents_inv s), Hp, Hw by (done || apply Hq || apply Hq').
  destruct (_ <? _); [|done]. apply drop_app_le.
  pose proof (ci_ppc _ s I) as Hn. destruct Hq as [Hpq _]. rewrite Hpq in Hn.
  pose proof (ci_c _ s I). pose proof (ci_p _ s I). unfold n_written in Hn. lia.
Qed.

Lemma try_pop_queue r :
  ring_ok r -> exists r',
    try_pop CapacityPow2 r = Ok (head (contents CapacityPow2 r), r') /\ ring_ok r' /\
    contents CapacityPow2 r' = tail (contents CapacityPow2 r).
Proof.
  intros (s & I & Hq & <-).
  destruct (try_pop_sim s I Hq) as (o & r' & tr & s' & He & R & Hq' & <- & Hw & Ho & Hp).
  pose proof (cinv_run _ _ _ R I) as I'. pose proof (ci_c _ s I) as Hc.
  rewrite (contents_inv s) by (done || apply Hq).
  assert (Hh : head (drop (Z.to_nat (pops s)) (written s)) = o).
  { rewrite Ho, zget_to_nat by lia. by rewrite head_lookup, lookup_drop, Nat.add_0_r. }
  exists (mem s'). rewrite Hh. split; [done|]. split; [by exists s'|].
  rewrite (contents_inv s'), Hw, Hp by (done || apply Hq').
  destruct (drop (Z.to_nat (pops s)) (written s)) as [|x l] eqn:Hd; simpl in Hh; subst o.
  - by rewrite <- Hh.
  - rewrite <- Hh. replace (Z.to_nat (pops s + 1)) with (Z.to_nat (pops s) + 1)%nat by lia.
    by rewrite <- drop_drop, Hd.
Qed.
End Sequential.
