(* ===== verification/SpscRingProps.v ===== *)
(** * The SPSC ring: the properties the engine relies on

    FIFO delivery and capacity under any interleaving, freedom from data
    races and from stuck or unbounded calls, honesty of the full and empty
    answers, the bounds of [size_approx], and the refinement of the
    uninterrupted member functions to a bounded queue. *)
From S2P Require Import Prelude.
From S2P Require Import SpscRing.
From S2P Require Import SpscRingFacts.

(** ** Observations *)
Section Observations.
Context {T : Type} (CapacityPow2 : Z).

(** Items accepted and delivered by a run, in order. *)
Definition pushes_of (tr : list (label T)) : list T :=
  omap (fun l => match l with L_push x => Some x | _ => None end) tr.
Definition pops_of (tr : list (label T)) : list T :=
  omap (fun l => match l with L_pop x => Some x | _ => None end) tr.

(** Two accesses, with the accessing thread's view of the other side, are
    ordered by happens-before: the write at position [w] precedes a read whose
    thread has acquired more than [w] pushes, and conversely. *)
Definition hb_write_read (w : Z * Z) (r : Z * Z) : Prop := fst w < snd r.
Definition hb_read_write (r : Z * Z) (w : Z * Z) : Prop := fst r < snd w.

(** Steps left before the call in progress returns. *)
Definition p_steps (p : ppc T) : nat :=
  match p with P_idle => 0 | P_reload _ => 3 | P_write _ => 2 | P_publish _ => 1 end.
Definition c_steps (p : cpc T) : nat :=
  match p with C_idle => 0 | C_reload => 3 | C_read => 2 | C_publish _ => 1 end.

(** [size_approx] when head_ is loaded as [h] and then tail_ as [t]. *)
Definition size_approx_split (h t : Z) : Z := u64 (u64 h - u64 t).

(** Sequences of complete calls, on the ring and on the specification queue. *)
Inductive ring_op := OpPush (item : T) | OpPop | OpSize.
Inductive ring_res := RPush (ok : bool) | RPop (o : option T) | RSize (n : Z).

Definition exec_op (o : ring_op) (r : SpscRing T) : Res (ring_res * SpscRing T) :=
  match o with
  | OpPush x => res_bind (try_push CapacityPow2 x r) (fun '(b, r') => Ok (RPush b, r'))
  | OpPop => res_bind (try_pop CapacityPow2 r) (fun '(x, r') => Ok (RPop x, r'))
  | OpSize => Ok (RSize (size_approx r), r)
  end.

Fixpoint exec_ring (ops : list ring_op) (r : SpscRing T) : Res (list ring_res) :=
  match ops with
  | [] => Ok []
  | o :: ops =>
      res_bind (exec_op o r) (fun '(a, r') =>
      res_bind (exec_ring ops r') (fun l => Ok (a :: l)))
  end.

Definition spec_op (o : ring_op) (q : list T) : ring_res * list T :=
  match o with
  | OpPush x => if Z.of_nat (length q) <? CapacityPow2 then (RPush true, q ++ [x]) else (RPush false, q)
  | OpPop => (RPop (head q), tail q)
  | OpSize => (RSize (Z.of_nat (length q)), q)
  end.

Fixpoint exec_queue (ops : list ring_op) (q : list T) : list ring_res :=
  match ops with
  | [] => []
  | o :: ops => let '(a, q') := spec_op o q in a :: exec_queue ops q'
  end.
End Observations.
Arguments ring_op : clear implicits.
Arguments ring_res : clear implicits.

(** ** Lemmas *)
Section Lemmas.
Context {T : Type} (CapacityPow2 : Z) {HC : LegalCapacity CapacityPow2}.
Implicit Types s : cstate T.

Lemma run_observed tr s :
  run (cstep CapacityPow2) (c_init CapacityPow2) tr s ->
  pushes_of tr = take (Z.to_nat (pushes s)) (written s) /\ pops_of tr = taken s.
Proof.
  intros R. remember (c_init CapacityPow2) as s0 eqn:E.
  induction R as [s0|s0 tr s1 l s2 R IH St]; [by subst|].
  specialize (IH E). destruct IH as [IH1 IH2]. subst s0.
  assert (I : cinv CapacityPow2 s1) by (apply cinv_reach; [done|by exists tr]).
  unfold pushes_of, pops_of in *. rewrite !omap_app, IH1, IH2.
  pose proof (ci_c _ _ I). pose proof (ci_p _ _ I). pose proof (ci_ppc _ _ I) as Hn.
  destruct St; simpl; rewrite ?app_nil_r; try done;
    match goal with H : p_pc _ = _ |- _ => rewrite H in Hn | _ => idtac end;
    unfold n_written in Hn; split; try done.
  - rewrite take_app_le; [done|lia].
  - destruct Hn as (_ & Hn & Hz). apply zget_Some in Hz as [_ Hz].
    rewrite Z2Nat.inj_add, Nat.add_1_r by lia. symmetry. by apply take_S_r.
Qed.

Lemma exec_ring_queue ops (r : SpscRing T) :
  ring_ok CapacityPow2 r ->
  exec_ring CapacityPow2 ops r = Ok (exec_queue CapacityPow2 ops (contents CapacityPow2 r)).
Proof.
  revert r. induction ops as [|o ops IH]; intros r Hr; [done|]. simpl.
  pose proof (contents_bounded CapacityPow2 r Hr) as [Hlen _].
  destruct o as [x| |]; simpl.
  - destruct (try_push_queue CapacityPow2 r x Hr) as (r' & -> & Hr' & Hc). simpl.
    rewrite IH, Hlen by done. rewrite Hc. by destruct (_ <? _).
  - destruct (try_pop_queue CapacityPow2 r Hr) as (r' & -> & Hr' & Hc). simpl.
    by rewrite IH, Hc.
  - by rewrite IH, Hlen.
Qed.
End Lemmas.

(** ** An executable scheduler for the interleaved system *)
Section Scheduler.
Context {T : Type} (CapacityPow2 : Z).

(** One scheduling decision: start a call, or let a thread take its next step;
    the argument of the latter is the index value its acquire load returns. *)
Inductive move :=
| MPush (item : T) | MProd (load : Z) | MPop | MCons (load : Z).

Definition cnext (m : move) (s : cstate T) : option (label T * cstate T) :=
  match m with
  | MPush item =>
      match p_pc s with
      | P_idle => Some (L_tau, mkC (mem s)
           (if looks_full CapacityPow2 (u64 (head_ (mem s) + 1)) (cached_tail_ (mem s))
            then P_reload item else P_write item)
           (c_pc s) (pushes s) (pops s) (seen_pops s) (seen_pushes s)
           (written s) (taken s) (write_log s) (read_log s))
      | _ => None
      end
  | MProd t =>
      match p_pc s with
      | P_idle => None
      | P_reload item =>
          if (seen_pops s <=? t) && (t <=? pops s) then
            if looks_full CapacityPow2 (u64 (head_ (mem s) + 1)) (u64 t)
            then Some (L_push_full t, mkC (set_cached_tail (mem s) (u64 t)) P_idle (c_pc s)
                   (pushes s) (pops s) t (seen_pushes s)
                   (written s) (taken s) (write_log s) (read_log s))
            else Some (L_tau, mkC (set_cached_tail (mem s) (u64 t)) (P_write item) (c_pc s)
                   (pushes s) (pops s) t (seen_pushes s)
                   (written s) (taken s) (write_log s) (read_log s))
          else None
      | P_write item =>
          match write_slot CapacityPow2 (mem s) (head_ (mem s)) item with
          | Ok m' => Some (L_tau, mkC m' (P_publish item) (c_pc s) (pushes s) (pops s)
                   (seen_pops s) (seen_pushes s) (written s ++ [item]) (taken s)
                   (write_log s ++ [(pushes s, seen_pops s)]) (read_log s))
          | Err _ => None
          end
      | P_publish item =>
          Some (L_push item, mkC (set_head (mem s) (u64 (head_ (mem s) + 1))) P_idle (c_pc s)
                   (pushes s + 1) (pops s) (seen_pops s) (seen_pushes s)
                   (written s) (taken s) (write_log s) (read_log s))
      end
  | MPop =>
      match c_pc s with
      | C_idle => Some (L_tau, mkC (mem s) (p_pc s)
           (if tail_ (mem s) =? cached_head_ (mem s) then C_reload else C_read)
           (pushes s) (pops s) (seen_pops s) (seen_pushes s)
           (written s) (taken s) (write_log s) (read_log s))
      | _ => None
      end
  | MCons h =>
      match c_pc s with
      | C_idle => None
      | C_reload =>
          if (seen_pushes s <=? h) && (h <=? pushes s) then
            if tail_ (mem s) =? u64 h
            then Some (L_pop_empty h, mkC (set_cached_head (mem s) (u64 h)) (p_pc s) C_idle
                   (pushes s) (pops s) (seen_pops s) h
                   (written s) (taken s) (write_log s) (read_log s))
            else Some (L_tau, mkC (set_cached_head (mem s) (u64 h)) (p_pc s) C_read
                   (pushes s) (pops s) (seen_pops s) h
                   (written s) (taken s) (write_log s) (read_log s))
          else None
      | C_read =>
          match read_slot CapacityPow2 (mem s) (tail_ (mem s)) with
          | Ok out => Some (L_tau, mkC (mem s) (p_pc s) (C_publish out) (pushes s) (pops s)
                   (seen_pops s) (seen_pushes s) (written s) (taken s)
                   (write_log s) (read_log s ++ [(pops s, seen_pushes s)]))
          | Err _ => None
          end
      | C_publish out =>
          Some (L_pop out, mkC (set_tail (mem s) (u64 (tail_ (mem s) + 1))) (p_pc s) C_idle
                   (pushes s) (pops s + 1) (seen_pops s) (seen_pushes s)
                   (written s) (taken s ++ [out]) (write_log s) (read_log s))
      end
  end.

Fixpoint schedule (ms : list move) (s : cstate T) : option (list (label T) * cstate T) :=
  match ms with
  | [] => Some ([], s)
  | m :: ms =>
      match cnext m s with
      | Some (l, s1) =>
          match schedule ms s1 with
          | Some (tr, s2) => Some (l :: tr, s2)
          | None => None
          end
      | None => None
      end
  end.

Lemma cnext_sound m s l s' : cnext m s = Some (l, s') -> cstep CapacityPow2 s l s'.
Proof.
  destruct m; simpl; intros H;
    repeat match type of H with
    | match ?x with _ => _ end = _ => destruct x eqn:?
    end; try done; injection H as <- <-;
    repeat match goal with H : _ && _ = true |- _ => apply andb_true_iff in H as [? ?] end;
    zbool; try (econstructor; (done || lia)).
Qed.

Lemma schedule_sound ms s tr s' : schedule ms s = Some (tr, s') -> run (cstep CapacityPow2) s tr s'.
Proof.
  revert s tr. induction ms as [|m ms IH]; simpl; intros s tr H.
  - injection H as <- <-. constructor.
  - destruct (cnext m s) as [[l s1]|] eqn:E; [|done].
    destruct (schedule ms s1) as [[tr' s2]|] eqn:E2; [|done]. injection H as <- <-.
    apply (run_app _ s [l] s1 tr' s2); [|by apply IH].
    by apply run_one, (cnext_sound m).
Qed.

Lemma schedule_reach ms tr s :
  schedule ms (c_init CapacityPow2) = Some (tr, s) -> creach CapacityPow2 s.
Proof. intros H. exists tr. by eapply schedule_sound. Qed.
End Scheduler.
Arguments move : clear implicits.

(** A two-slot ring of numbers for the witnesses. *)
#[export] Instance legal_capacity_2 : LegalCapacity 2.
Proof. split; [reflexivity|lia]. Qed.

(** Fill the ring while the consumer takes one item out in between; the last
    push is answered from a stale tail. *)
Definition demo_moves : list (move Z) :=
  [MPush 7; MProd 0; MPop; MProd 0; MCons 1; MPush 8; MCons 0; MProd 0; MProd 0;
   MCons 0; MPush 9; MProd 0].

(** Both threads inside a call. *)
Definition busy_moves : list (move Z) := [MPush 7; MPop].

(** The state and trace a schedule leads to, from the constructed ring. *)
Definition demo_state (ms : list (move Z)) : cstate Z :=
  match schedule 2 ms (c_init 2) with Some (_, s) => s | None => c_init 2 end.
Definition demo_trace (ms : list (move Z)) : list (label Z) :=
  match schedule 2 ms (c_init 2) with Some (tr, _) => tr | None => [] end.

Lemma demo_run ms :
  run (cstep 2) (c_init 2) (demo_trace ms) (demo_state ms).
Proof.
  unfold demo_trace, demo_state. destruct (schedule 2 ms (c_init 2)) as [[tr s]|] eqn:E.
  - by eapply schedule_sound.
  - constructor.
Qed.

Lemma demo_reach ms : creach 2 (demo_state ms).
Proof. exists (demo_trace ms). apply demo_run. Qed.

Example demo_observed :
  pushes_of (demo_trace demo_moves) = [7; 8] /\ pops_of (demo_trace demo_moves) = [7].
Proof. vm_compute. split; reflexivity. Qed.

(** ** Properties *)
Section Properties.
Context {T : Type} (CapacityPow2 : Z) {HC : LegalCapacity CapacityPow2}.

(** C8: under every interleaving of one producer and one consumer, with
    acquire loads that may be stale, the items delivered are exactly the first
    items accepted, in order, none lost or duplicated, and the ring never
    holds more than its capacity. *)
Theorem spsc_fifo (tr : list (label T)) s :
  run (cstep CapacityPow2) (c_init CapacityPow2) tr s ->
  (pops_of tr `prefix_of` pushes_of tr) /\
  Z.of_nat (length (pushes_of tr)) - Z.of_nat (length (pops_of tr)) <= CapacityPow2.
Proof.
  intros R. destruct (run_observed CapacityPow2 tr s R) as [-> ->].
  assert (I : cinv CapacityPow2 s) by (apply cinv_reach; [done|by exists tr]).
  rewrite (ci_taken _ _ I), !length_take.
  pose proof (ci_c _ _ I). pose proof (ci_p _ _ I).
  pose proof (ci_s _ _ I). pose proof (ci_cap _ _ I).
  split; [|lia]. exists (drop (Z.to_nat (pops s)) (take (Z.to_nat (pushes s)) (written s))).
  rewrite <- (take_drop (Z.to_nat (pops s)) (take (Z.to_nat (pushes s)) (written s))) at 1.
  rewrite take_take. do 2 f_equal. lia.
Qed.

(** C22: no data race on the slots: whenever the producer wrote and the
    consumer read the same slot, one of the two accesses happens before the
    other through the release store and acquire load of the index between
    them. *)
Theorem spsc_race_free (s : cstate T) w r :
  creach CapacityPow2 s -> w ∈ write_log s -> r ∈ read_log s ->
  Z.land (fst w) (kMask CapacityPow2) = Z.land (fst r) (kMask CapacityPow2) ->
  hb_write_read w r \/ hb_read_write r w.
Proof.
  intros Hs Hw%list_elem_of_In Hr%list_elem_of_In Heq. pose proof (cinv_reach _ s Hs) as I.
  pose proof (proj1 (Forall_forall _ _) (ci_writes _ _ I) w Hw) as H1.
  pose proof (proj1 (Forall_forall _ _) (ci_reads _ _ I) r Hr) as H2.
  destruct w as [w v], r as [r u]. unfold hb_write_read, hb_read_write. simpl in *.
  destruct (decide (w <= r)) as [Hle|Hgt]; [left; lia|right].
  destruct (decide (w < r + CapacityPow2)) as [Hlt|]; [|lia].
  exfalso. apply (mask_inj CapacityPow2 r w); [lia|done].
Qed.

(** A call answers false only when the ring really was full (resp. empty)
    at the moment whose index it loaded: exactly [CapacityPow2] items not yet
    popped, resp. none. *)
Theorem spsc_failure_honest (s s' : cstate T) :
  creach CapacityPow2 s ->
  (forall t, cstep CapacityPow2 s (L_push_full t) s' -> pushes s - t = CapacityPow2) /\
  (forall h, cstep CapacityPow2 s (L_pop_empty h) s' -> h = pops s).
Proof.
  intros Hs. pose proof (cinv_reach _ s Hs) as I. pose proof (ci_cap _ _ I).
  split; intros x St; inversion St; subst;
    match goal with
    | H : looks_full _ _ _ = true |- _ => rewrite (looks_full_inv CapacityPow2 s) in H by done
    | H : (tail_ _ =? _) = true |- _ => rewrite (looks_empty_inv CapacityPow2 s) in H by done
    end; zbool; lia.
Qed.

(** C31: no call gets stuck, faults or loops: a thread inside [try_push] or
    [try_pop] can always take its next step, whatever the other thread does,
    and is at most three of its own steps from returning. *)
Theorem spsc_wait_free (s : cstate T) :
  creach CapacityPow2 s ->
  (p_pc s <> P_idle -> exists l s', cstep CapacityPow2 s l s' /\ c_pc s' = c_pc s /\
     (p_steps (p_pc s') < p_steps (p_pc s) <= 3)%nat) /\
  (c_pc s <> C_idle -> exists l s', cstep CapacityPow2 s l s' /\ p_pc s' = p_pc s /\
     (c_steps (c_pc s') < c_steps (c_pc s) <= 3)%nat).
Proof.
  intros Hs. pose proof (cinv_reach _ s Hs) as I.
  pose proof (ci_c _ _ I). pose proof (ci_p _ _ I). pose proof (ci_s _ _ I).
  split; intros Hne.
  - destruct (p_pc s) as [|item|item|item] eqn:Hp; [done|..].
    + destruct (looks_full CapacityPow2 (u64 (head_ (mem s) + 1)) (u64 (pops s))) eqn:Hf;
        eexists _, _; split; [eapply (cs_push_reload_full _ s item (pops s)); (done || lia)| |
          eapply (cs_push_reload_ok _ s item (pops s)); (done || lia)| ]; simpl; split; (done || lia).
    + destruct (write_slot_ok CapacityPow2 (mem s) (pushes s) item (ci_buf _ _ I)) as (m & Hm & _).
      rewrite <- (ci_head _ _ I) in Hm.
      eexists _, _. split; [by eapply cs_push_write|]. simpl. split; (done || lia).
    + eexists _, _. split; [by eapply cs_push_publish|]. simpl. split; (done || lia).
  - pose proof (ci_cpc _ _ I) as Hcp. destruct (c_pc s) as [| | |out] eqn:Hc; [done|..].
    + destruct (tail_ (mem s) =? u64 (pushes s)) eqn:Hf;
        eexists _, _; split; [eapply (cs_pop_reload_empty _ s (pushes s)); (done || lia)| |
          eapply (cs_pop_reload_ok _ s (pushes s)); (done || lia)| ]; simpl; split; (done || lia).
    + assert (Hn : pushes s <= n_written s)
        by (pose proof (ci_ppc _ _ I) as Hn; destruct (p_pc s); lia).
      destruct (zget_is_Some (written s) (pops s)) as [out Ho]; [unfold n_written in Hn; lia|].
      eexists _, _. split.
      { eapply cs_pop_read; [done|]. rewrite (ci_tail _ _ I). apply read_slot_ok; [done|].
        rewrite (ci_slots _ _ I); [exact Ho|lia]. }
      simpl. split; (done || lia).
    + eexists _, _. split; [by eapply cs_pop_publish|]. simpl. split; (done || lia).
Qed.

(** [size_approx] called from the producer or from the consumer thread is
    between 0 and the capacity, whatever stale index of the other side it
    loads: the producer sees its own head exactly, the consumer its own tail. *)
Theorem size_approx_bounded (s : cstate T) i :
  creach CapacityPow2 s ->
  (seen_pops s <= i <= pops s -> 0 <= size_approx_split (pushes s) i <= CapacityPow2) /\
  (seen_pushes s <= i <= pushes s -> 0 <= size_approx_split i (pops s) <= CapacityPow2).
Proof.
  intros Hs. pose proof (cinv_reach _ s Hs) as I. pose proof (cap_le CapacityPow2).
  pose proof (ci_c _ _ I). pose proof (ci_p _ _ I). pose proof (ci_s _ _ I).
  pose proof (ci_cap _ _ I). unfold size_approx_split.
  split; intros Hi; rewrite u64_sub, u64_id by (unfold in_u64; lia); lia.
Qed.

(** The member functions, called one after the other, are observably a
    bounded FIFO queue: from the constructed ring, every sequence of pushes,
    pops and size queries runs without fault (no slot out of bounds, no
    uninitialised slot read) and returns what the queue returns, for as many
    calls as one likes, so also after the 64-bit indices wrap. *)
Theorem spsc_refines_queue (ops : list (ring_op T)) :
  exec_ring CapacityPow2 ops (ring_init CapacityPow2) = Ok (exec_queue CapacityPow2 ops []).
Proof.
  rewrite exec_ring_queue by (done || by apply ring_ok_init). by rewrite contents_init.
Qed.
End Properties.

(** ** Witnesses *)

Lemma spsc_fifo_witness :
  pops_of (demo_trace demo_moves) = [7] /\
  (pops_of (demo_trace demo_moves) `prefix_of` pushes_of (demo_trace demo_moves)) /\
  Z.of_nat (length (pushes_of (demo_trace demo_moves))) -
  Z.of_nat (length (pops_of (demo_trace demo_moves))) <= 2.
Proof.
  split; [vm_compute; reflexivity|].
  exact (spsc_fifo 2 (demo_trace demo_moves) (demo_state demo_moves) (demo_run demo_moves)).
Defined.

Lemma spsc_race_free_witness :
  hb_write_read (0, 0) (0, 1) \/ hb_read_write (0, 1) (0, 0).
Proof.
  apply (spsc_race_free 2 (demo_state demo_moves) (0, 0) (0, 1));
    [apply demo_reach| | |reflexivity]; vm_compute; constructor.
Defined.

Lemma spsc_failure_honest_witness :
  pushes (demo_state (take 11 demo_moves)) - 0 = 2.
Proof.
  apply (proj1 (spsc_failure_honest 2 (demo_state (take 11 demo_moves)) (demo_state demo_moves)
    (demo_reach _)) 0).
  apply (cnext_sound 2 (MProd 0)). vm_compute. reflexivity.
Defined.

Lemma spsc_wait_free_witness :
  p_pc (demo_state busy_moves) = P_write 7 /\ c_pc (demo_state busy_moves) = C_reload /\
  exists l s', cstep 2 (demo_state busy_moves) l s' /\ c_pc s' = c_pc (demo_state busy_moves) /\
     (p_steps (p_pc s') < p_steps (p_pc (demo_state busy_moves)) <= 3)%nat.
Proof.
  split; [reflexivity|]. split; [reflexivity|].
  apply (proj1 (spsc_wait_free 2 (demo_state busy_moves) (demo_reach _))). vm_compute. discriminate.
Defined.

Lemma size_approx_bounded_witness :
  0 <= size_approx_split (pushes (demo_state demo_moves)) 0 <= 2.
Proof.
  apply (proj1 (size_approx_bounded 2 (demo_state demo_moves) 0 (demo_reach _))).
  vm_compute. split; discriminate.
Defined.

Lemma spsc_refines_queue_witness :
  exec_ring 2 [OpPush 7; OpPush 8; OpPush 9; OpPop; OpSize; OpPush 9; OpPop; OpPop; OpPop]
    (ring_init 2) =
  Ok [RPush true; RPush true; RPush false; RPop (Some 7); RSize 1; RPush true;
      RPop (Some 8); RPop (Some 9); RPop None].
Proof. exact (spsc_refines_queue 2 _). Defined.
