(* ===== verification/SpscViews.v ===== *)
(** * The SPSC ring as an abstract queue with views (src/src/common/spsc_ring.hpp)

    The specification machine has no indices, no buffer and no caches: a list
    of items, and for each side how many of the other side's operations it has
    not noticed yet.  The interleaved execution of the class refines it, step
    by step; when no load is stale it refines the plain bounded queue; and with
    stale loads it does not: there is an execution whose failing answers no
    sequential order of the calls explains. *)
From S2P Require Import Prelude.
From S2P Require Import SpscRing.
From S2P Require Import SpscRingFacts.
From S2P Require Import SpscRingProps.

(** ** The specification machines *)

(** What a caller observes. *)
Inductive obs (T : Type) := OPush (x : T) | OFull | OPop (x : T) | OEmpty.
Arguments OPush {T} x.
Arguments OFull {T}.
Arguments OPop {T} x.
Arguments OEmpty {T}.

Section Spec.
Context {T : Type} (cap : nat).

Record ViewQueue := mkVQ {
  vq_items : list T;       (* accepted and not yet handed out *)
  vq_unseen_pops : nat;    (* pops the producer has not noticed *)
  vq_unseen_pushes : nat   (* pushes the consumer has not noticed *)
}.

(** A side succeeds on what it has noticed; it fails on what it knows after
    noticing any number of the other side's operations, perhaps none. *)
Inductive vstep : ViewQueue -> option (obs T) -> ViewQueue -> Prop :=
| vs_push items p c x :
    (length items + p < cap)%nat -> vstep (mkVQ items p c) (Some (OPush x)) (mkVQ (items ++ [x]) p (S c))
| vs_full items p p' c :
    (p' <= p)%nat -> (length items + p' = cap)%nat -> vstep (mkVQ items p c) (Some OFull) (mkVQ items p' c)
| vs_pop x items p c :
    (c < length (x :: items))%nat -> vstep (mkVQ (x :: items) p c) (Some (OPop x)) (mkVQ items (S p) c)
| vs_empty items p c c' :
    (c' <= c)%nat -> length items = c' -> vstep (mkVQ items p c) (Some OEmpty) (mkVQ items p c')
| vs_notice items p p' c c' :
    (p' <= p)%nat -> (c' <= c)%nat -> vstep (mkVQ items p c) None (mkVQ items p' c').

(** Runs, with what is observed of them. *)
Inductive vrun : ViewQueue -> list (obs T) -> ViewQueue -> Prop :=
| vr_nil q : vrun q [] q
| vr_snoc q tr q1 o q2 : vrun q tr q1 -> vstep q1 o q2 -> vrun q (tr ++ option_list o) q2.

(** The plain bounded queue: every answer is about the current content; None
    when it could not have been given. *)
Definition atomic_step `{!EqDecision T} (q : list T) (o : obs T) : option (list T) :=
  match o with
  | OPush x => if (length q <? cap)%nat then Some (q ++ [x]) else None
  | OFull => if (length q =? cap)%nat then Some q else None
  | OPop y => match q with x :: q => if decide (x = y) then Some q else None | [] => None end
  | OEmpty => match q with [] => Some [] | _ => None end
  end.

Fixpoint atomic_run `{!EqDecision T} (tr : list (obs T)) (q : list T) : option (list T) :=
  match tr with
  | [] => Some q
  | o :: tr => match atomic_step q o with Some q => atomic_run tr q | None => None end
  end.

(** The calls of the two sides, and their interleavings. *)
Definition by_producer (o : obs T) : bool := match o with OPush _ | OFull => true | _ => false end.
Definition producer_calls (tr : list (obs T)) : list (obs T) := List.filter by_producer tr.
Definition consumer_calls (tr : list (obs T)) : list (obs T) := List.filter (fun o => negb (by_producer o)) tr.

Fixpoint interleavings {A} (n : nat) (a b : list A) : list (list A) :=
  match n with
  | O => [[]]
  | S n =>
      match a, b with
      | [], _ => [b]
      | _, [] => [a]
      | x :: a', y :: b' => map (cons x) (interleavings n a' b) ++ map (cons y) (interleavings n a b')
      end
  end.
End Spec.
Arguments ViewQueue : clear implicits.

Definition obs_of {T} (l : label T) : option (obs T) :=
  match l with
  | L_tau => None
  | L_push x => Some (OPush x)
  | L_push_full _ => Some OFull
  | L_pop x => Some (OPop x)
  | L_pop_empty _ => Some OEmpty
  end.

Definition observed {T} (tr : list (label T)) : list (obs T) := omap obs_of tr.

(** ** Refinement *)
Section Refinement.
Context {T : Type} (CapacityPow2 : Z) {HC : LegalCapacity CapacityPow2}.
Implicit Types s : cstate T.

Abbreviation cap := (Z.to_nat CapacityPow2).

(** The abstract state of a concrete one: the items between the two published
    counts, and the lag of each side's last acquired index. *)
Definition view_of (s : cstate T) : ViewQueue T :=
  mkVQ (drop (Z.to_nat (pops s)) (take (Z.to_nat (pushes s)) (written s)))
    (Z.to_nat (pops s - seen_pops s)) (Z.to_nat (pushes s - seen_pushes s)).

Lemma view_length s :
  cinv CapacityPow2 s -> length (vq_items (view_of s)) = Z.to_nat (pushes s - pops s).
Proof.
  intros I. cbn [view_of vq_items]. rewrite length_drop, length_take.
  assert (pushes s <= n_written s) by (pose proof (ci_ppc _ s I); destruct (p_pc s); lia).
  pose proof (ci_c _ s I). pose proof (ci_p _ s I). unfold n_written in *. lia.
Qed.

Lemma notice_refl (q : ViewQueue T) : vstep cap q None q.
Proof. destruct q. by apply vs_notice. Qed.

(** Every step of the class is a step of the specification. *)
Lemma view_step s l s' :
  cinv CapacityPow2 s -> cstep CapacityPow2 s l s' -> vstep cap (view_of s) (obs_of l) (view_of s').
Proof.
  intros I Hst. pose proof (view_length s I) as Hlen. cbn [view_of vq_items] in Hlen.
  pose proof (cap_pos CapacityPow2) as Hcap.
  pose proof (ci_c _ s I). pose proof (ci_p _ s I). pose proof (ci_s _ s I). pose proof (ci_cap _ s I).
  pose proof (ci_ppc _ s I) as Hp. pose proof (ci_cpc _ s I) as Hc.
  destruct Hst; cbn [obs_of view_of pushes pops seen_pops seen_pushes written]; unfold view_of;
    try apply notice_refl; cbn [pushes pops seen_pops seen_pushes written].
  - apply vs_notice; lia.
  - rewrite (ci_head _ s I), looks_full_u64 in H5 by (done || lia). zbool. apply vs_full; lia.
  - (* the slot being written is not published yet *)
    rewrite H3 in Hp. destruct Hp as [_ Hn]. unfold n_written in Hn.
    rewrite (take_app_le (written s)) by lia. apply notice_refl.
  - (* published *)
    rewrite H3 in Hp. destruct Hp as (Hroom & Hn & Hz). unfold n_written in Hn.
    apply zget_Some in Hz as [_ Hz].
    replace (Z.to_nat (pushes s + 1)) with (S (Z.to_nat (pushes s))) by lia.
    rewrite (take_S_r _ _ item Hz), drop_app_le by (rewrite length_take; lia).
    replace (Z.to_nat (pushes s + 1 - seen_pushes s)) with (S (Z.to_nat (pushes s - seen_pushes s))) by lia.
    apply vs_push. lia.
  - apply vs_notice; lia.
  - rewrite (ci_tail _ s I), (u64_eqb_close CapacityPow2) in H5 by (done || lia). zbool. apply vs_empty; lia.
  - (* handed out *)
    rewrite H3 in Hc. destruct Hc as [Hlt Hz]. apply zget_Some in Hz as [_ Hz].
    replace (Z.to_nat (pops s + 1)) with (S (Z.to_nat (pops s))) by lia.
    assert (Hd : drop (Z.to_nat (pops s)) (take (Z.to_nat (pushes s)) (written s)) =
      out :: drop (S (Z.to_nat (pops s))) (take (Z.to_nat (pushes s)) (written s))).
    { apply drop_S. rewrite lookup_take_lt by lia. done. }
    rewrite Hd in *. replace (Z.to_nat (pops s + 1 - seen_pops s)) with (S (Z.to_nat (pops s - seen_pops s))) by lia.
    apply vs_pop. rewrite Hlen. lia.
Qed.

(** C23: the class refines the queue with views.  Every interleaved execution,
    whatever values its acquire loads return, observes what some run of the
    specification machine observes, and ends in its state: the items accepted
    and not handed out, and how far each side's view lags behind. *)
Theorem spsc_refines_views (tr : list (label T)) s :
  run (cstep CapacityPow2) (c_init CapacityPow2) tr s ->
  vrun cap (mkVQ [] 0 0) (observed tr) (view_of s).
Proof.
  intros H. remember (c_init CapacityPow2) as s0 eqn:E. induction H as [|a t b l d H IH Hst]; subst.
  - apply vr_nil.
  - unfold observed. rewrite omap_app. specialize (IH eq_refl).
    replace (omap obs_of [l]) with (option_list (obs_of l)) by (cbn; by destruct (obs_of l)).
    eapply vr_snoc; [exact IH|]. apply view_step; [|done]. eapply cinv_reach; [done|by exists t].
Qed.

(** *** Without stale answers *)

(** A failing answer was given on the current index of the other side. *)
Definition answered_currently (s : cstate T) (l : label T) : Prop :=
  match l with
  | L_push_full t => t = pops s
  | L_pop_empty h => h = pushes s
  | _ => True
  end.

Context `{!EqDecision T}.

Lemma atomic_run_app tr tr' (q : list T) :
  atomic_run cap (tr ++ tr') q =
  match atomic_run cap tr q with Some q => atomic_run cap tr' q | None => None end.
Proof.
  revert q. induction tr as [|o tr IH]; intros q; cbn [app atomic_run]; [done|].
  destruct (atomic_step cap q o); [apply IH|done].
Qed.

Lemma current_step s l s' :
  cinv CapacityPow2 s -> cstep CapacityPow2 s l s' -> answered_currently s l ->
  atomic_run cap (option_list (obs_of l)) (vq_items (view_of s)) = Some (vq_items (view_of s')).
Proof.
  intros I Hst Hcur. pose proof (view_length s I) as Hlen. pose proof (view_step s l s' I Hst) as Hv.
  pose proof (cap_pos CapacityPow2). pose proof (ci_c _ s I). pose proof (ci_p _ s I).
  pose proof (ci_s _ s I).
  assert (Hfull : forall t, l = L_push_full t -> vq_unseen_pops (view_of s') = Z.to_nat (pops s - t)).
  { intros t ->. by inversion Hst. }
  assert (Hempty : forall h, l = L_pop_empty h -> vq_unseen_pushes (view_of s') = Z.to_nat (pushes s - h)).
  { intros h ->. by inversion Hst. }
  destruct (view_of s) as [items p c], (view_of s') as [items' p' c']. cbn [vq_items vq_unseen_pops vq_unseen_pushes] in *.
  destruct l as [|x|t|x|h]; cbn [obs_of option_list option_rect atomic_run atomic_step answered_currently] in *;
    inversion Hv; subst.
  - done.
  - destruct (Nat.ltb_spec (length items) cap); [done|lia].
  - specialize (Hfull _ eq_refl). rewrite Z.sub_diag in Hfull. subst.
    destruct (Nat.eqb_spec (length items') cap); [done|lia].
  - by rewrite decide_True.
  - specialize (Hempty _ eq_refl). rewrite Z.sub_diag in Hempty. by destruct items'.
Qed.

(** As long as failing answers are given on current indices, the
    interleaved class is a plain bounded queue whose calls take effect one at a
    time, in the order they publish or fail. *)
Theorem spsc_linearizes (tr : list (label T)) s :
  run (fun a l b => cstep CapacityPow2 a l b /\ answered_currently a l) (c_init CapacityPow2) tr s ->
  atomic_run cap (observed tr) [] = Some (vq_items (view_of s)).
Proof.
  intros H. remember (c_init CapacityPow2) as s0 eqn:E.
  assert (Hr : forall a t b, run (fun a l b => cstep CapacityPow2 a l b /\ answered_currently a l) a t b ->
    run (cstep CapacityPow2) a t b).
  { induction 1 as [|? ? ? ? ? ? IH [? _]]; [constructor|by eapply run_snoc]. }
  induction H as [|a t b l d H IH [Hst Hcur]]; subst.
  - done.
  - unfold observed. rewrite omap_app, atomic_run_app. specialize (IH eq_refl). unfold observed in IH. rewrite IH.
    replace (omap obs_of [l]) with (option_list (obs_of l)) by (cbn; by destruct (obs_of l)).
    apply current_step; try done. eapply cinv_reach; [done|]. exists t. by apply Hr.
Qed.
End Refinement.

(** ** With stale answers it is not a queue *)

(** Two pushes, a pop; then the producer, which has not noticed the pop, finds
    the ring full, and the consumer, which has not noticed the second push,
    finds it empty. *)
Definition crossing : list (move Z) :=
  [MPush 10; MProd 0; MProd 0; MPop; MCons 1; MPush 11; MProd 0; MProd 0; MCons 0; MCons 0;
   MPush 12; MPop; MProd 0; MCons 1].

(** A full and an empty answer can cross.  There is an execution of a
    two-slot ring whose answers no order of the two threads' calls explains:
    the acquire loads of both indices may be stale at once. *)
Theorem failures_can_cross :
  exists tr s, run (cstep 2) (c_init (T := Z) 2) tr s /\
    producer_calls (observed tr) = [OPush 10; OPush 11; OFull] /\
    consumer_calls (observed tr) = [OPop 10; OEmpty] /\
    Forall (fun tr' => atomic_run 2 tr' [] = None)
      (interleavings 5 (producer_calls (observed tr)) (consumer_calls (observed tr))).
Proof.
  exists (demo_trace crossing), (demo_state crossing). split; [apply demo_run|].
  split; [vm_compute; reflexivity|]. split; [vm_compute; reflexivity|].
  vm_compute. repeat constructor.
Qed.

(** ** Witnesses *)

Lemma spsc_refines_views_witness :
  observed (demo_trace crossing) = [OPush 10; OPush 11; OPop 10; OFull; OEmpty] /\
  vrun 2 (mkVQ [] 0 0) [OPush 10; OPush 11; OPop 10; OFull; OEmpty] (view_of (demo_state crossing)).
Proof.
  assert (E : observed (demo_trace crossing) = [OPush 10; OPush 11; OPop 10; OFull; OEmpty]) by (vm_compute; reflexivity).
  split; [exact E|]. rewrite <- E.
  exact (spsc_refines_views 2 (demo_trace crossing) (demo_state crossing) (demo_run crossing)).
Defined.
