(* ===== verification/Queue.v ===== *)
(** * The queue interface between pipeline stages

    Every stage of the engine talks to the next one through a ring.  The
    stages are written against [QueueOps] and their theorems against
    [QueueLaws]; the SPSC ring is the implementation the program uses. *)
From S2P Require Import Prelude.
From S2P Require Import SpscRing.
From S2P Require Import SpscRingFacts.

(** The operations a stage calls on a ring of capacity [c]. *)
Class QueueOps := {
  Queue : Z -> Type -> Type;
  q_init : forall c T, Queue c T;
  q_push : forall {c T}, T -> Queue c T -> Res (bool * Queue c T);
  q_pop : forall {c T}, Queue c T -> Res (option T * Queue c T);
  q_size : forall {c T}, Queue c T -> Z
}.

(** What they promise: a FIFO list bounded by the capacity. *)
Class QueueLaws `{!QueueOps} := {
  q_ok : forall {c T}, Queue c T -> Prop;
  q_contents : forall {c T}, Queue c T -> list T;
  q_init_ok : forall c T, LegalCapacity c -> q_ok (q_init c T);
  q_init_empty : forall c T, LegalCapacity c -> q_contents (q_init c T) = [];
  q_push_law : forall c T (q : Queue c T) x, LegalCapacity c -> q_ok q ->
    exists q', q_push x q = Ok (Z.of_nat (length (q_contents q)) <? c, q') /\ q_ok q' /\
      q_contents q' = if Z.of_nat (length (q_contents q)) <? c
                      then q_contents q ++ [x] else q_contents q;
  q_pop_law : forall c T (q : Queue c T), LegalCapacity c -> q_ok q ->
    exists q', q_pop q = Ok (head (q_contents q), q') /\ q_ok q' /\
      q_contents q' = tail (q_contents q);
  q_size_law : forall c T (q : Queue c T), LegalCapacity c -> q_ok q ->
    q_size q = Z.of_nat (length (q_contents q)) /\ q_size q <= c
}.

(** The program's implementation. *)
#[export] Instance spsc_ops : QueueOps := {|
  Queue := fun _ T => SpscRing T;
  q_init := fun c T => ring_init c;
  q_push := fun c T x r => try_push c x r;
  q_pop := fun c T r => try_pop c r;
  q_size := fun c T r => size_approx r
|}.

#[export] Program Instance spsc_laws : @QueueLaws spsc_ops := {|
  q_ok := fun c T r => ring_ok c r;
  q_contents := fun c T r => contents c r
|}.
Next Obligation. intros c T HC. by apply ring_ok_init. Qed.
Next Obligation. intros c T HC. by apply contents_init. Qed.
Next Obligation.
  intros c T q x HC Hq. destruct (contents_bounded c q Hq) as [-> _].
  by apply try_push_queue.
Qed.
Next Obligation. intros c T q HC Hq. by apply try_pop_queue. Qed.
Next Obligation.
  intros c T q HC Hq. destruct (contents_bounded c q Hq) as [Hs Hb]. simpl. lia.
Qed.

Section Derived.
Context {QO : QueueOps} {QL : QueueLaws}.

(** A push that answers true, or false, and what it leaves. *)
Lemma q_push_inv {c T} {HC : LegalCapacity c} (q : Queue c T) x b q' :
  q_ok q -> q_push x q = Ok (b, q') ->
  q_ok q' /\ q_contents q' = (if b then q_contents q ++ [x] else q_contents q) /\
  b = (Z.of_nat (length (q_contents q)) <? c).
Proof.
  intros Hq H. destruct (q_push_law c T q x HC Hq) as (q2 & H2 & Hok & Hc).
  rewrite H2 in H. by injection H as <- <-.
Qed.

Lemma q_pop_inv {c T} {HC : LegalCapacity c} (q : Queue c T) o q' :
  q_ok q -> q_pop q = Ok (o, q') ->
  q_ok q' /\ o = head (q_contents q) /\ q_contents q' = tail (q_contents q).
Proof.
  intros Hq H. destruct (q_pop_law c T q HC Hq) as (q2 & H2 & Hok & Hc).
  rewrite H2 in H. by injection H as <- <-.
Qed.
End Derived.

(** ** Draining: [while (q.try_pop(x)) body(x);] *)

Section Drain.
Context {QO : QueueOps}.

(** The pops come from one consumer, so a fuel above the number of queued
    elements ends with the pop that finds the queue empty. *)
Fixpoint q_drain {c T A} (fuel : nat) (body : T -> A -> Res A) (q : Queue c T) (a : A)
    : Res (A * Queue c T) :=
  match fuel with
  | O => Ok (a, q)
  | S fuel =>
      res_bind (q_pop q) (fun '(o, q) =>
      match o with
      | None => Ok (a, q)
      | Some x => res_bind (body x a) (q_drain fuel body q)
      end)
  end.

(** Enough iterations for what is queued, and the pop that fails. *)
Definition drain_fuel {c T} (q : Queue c T) : nat := S (Z.to_nat (q_size q)).

Context {QL : QueueLaws}.

(** The loop runs the body over the queued elements in order, and ends because
    the queue is empty. *)
Lemma q_drain_fold {c T A} {HC : LegalCapacity c} (body : T -> A -> Res A) fuel (q : Queue c T) a :
  q_ok q -> (length (q_contents q) < fuel)%nat ->
  exists q', q_ok q' /\ q_contents q' = [] /\
    q_drain fuel body q a = res_bind (res_fold body (q_contents q) a) (fun a' => Ok (a', q')).
Proof.
  revert q a. induction fuel as [|fuel IH]; intros q a Hq Hf; [lia|].
  destruct (q_pop_law c T q HC Hq) as (q1 & Hp & Hq1 & Hc1). cbn [q_drain]. rewrite Hp. cbn [res_bind].
  destruct (q_contents q) as [|x l] eqn:E; cbn [head tail] in *.
  - exists q1. by rewrite Hc1.
  - simpl in Hf.
    destruct (body x a) as [a'|f] eqn:Eb; cbn [res_bind].
    + destruct (IH q1 a' Hq1) as (q2 & Hq2 & Hc2 & Hd); [rewrite Hc1; lia|].
      exists q2. split; [done|]. split; [done|]. rewrite Hd. cbn [res_fold]. rewrite Eb. by rewrite Hc1.
    + destruct (IH q1 a Hq1) as (q2 & Hq2 & Hc2 & Hd); [rewrite Hc1; lia|].
      exists q2. cbn [res_fold]. by rewrite Eb.
Qed.

Lemma q_drain_all {c T A} {HC : LegalCapacity c} (body : T -> A -> Res A) (q : Queue c T) a :
  q_ok q ->
  exists q', q_ok q' /\ q_contents q' = [] /\
    q_drain (drain_fuel q) body q a = res_bind (res_fold body (q_contents q) a) (fun a' => Ok (a', q')).
Proof.
  intros Hq. apply q_drain_fold; [done|]. unfold drain_fuel.
  destruct (q_size_law c T q HC Hq) as [-> _]. rewrite Nat2Z.id. lia.
Qed.
End Drain.

(** ** The reference implementation: a bounded list *)

Definition list_ops : QueueOps := {|
  Queue := fun _ T => list T;
  q_init := fun _ _ => [];
  q_push := fun c T x q => Ok (if Z.of_nat (length q) <? c then (true, q ++ [x]) else (false, q));
  q_pop := fun c T q => Ok (head q, tail q);
  q_size := fun c T q => Z.of_nat (length q)
|}.

#[program] Definition list_laws : @QueueLaws list_ops := {|
  q_ok := fun c T q => Z.of_nat (length q) <= c;
  q_contents := fun c T q => q
|}.
Next Obligation. intros c T [? [Hc _]]. cbn. lia. Qed.
Next Obligation. done. Qed.
Next Obligation.
  intros c T q x HC Hq. cbn in *. destruct (Z.ltb_spec (Z.of_nat (length q)) c) as [H|H].
  - exists (q ++ [x]). rewrite length_app. cbn. split; [done|]. split; [lia|done].
  - by exists q.
Qed.
Next Obligation.
  intros c T q HC Hq. cbn in *. exists (tail q). split; [done|].
  split; [destruct q; cbn in *; lia|done].
Qed.
Next Obligation. intros c T q HC Hq. cbn in *. split; [done|lia]. Qed.
