(* ===== verification/ObjectPool.v ===== *)
(** * Fixed-size object pool (src/src/common/object_pool.hpp)

    A free list of indices into preallocated storage.  A pointer into the
    storage is its index; the constructed pool hands the objects out from
    index 0 up. *)
From S2P Require Import Prelude.

Section Pool.
Context (N : Z).

Record ObjectPool := mkPool {
  free_ : list Z;      (* std::array<uint32_t, N> *)
  top_ : Z
}.

(** The constructor's loop: [free_[i] = N - 1 - i]. *)
Definition pool_init : ObjectPool :=
  mkPool (map (fun i : nat => u32 (N - 1 - Z.of_nat i)) (seq 0 (Z.to_nat N))) N.

(** [acquire]: None is the null pointer. *)
Definition acquire (p : ObjectPool) : Res (option Z * ObjectPool) :=
  if top_ p =? 0 then Ok (None, p)
  else
    let top := top_ p - 1 in
    res_bind (array_read (free_ p) top) (fun idx => Ok (Some idx, mkPool (free_ p) top)).

(** [release] of the object at index [idx], as compiled with NDEBUG (the
    [assert] only checks that the pointer is one of the storage). *)
Definition release (p : ObjectPool) (ptr : Z) : Res ObjectPool :=
  let idx := u32 ptr in
  res_bind (array_write (free_ p) (top_ p) idx) (fun f => Ok (mkPool f (top_ p + 1))).

Definition available (p : ObjectPool) : Z := top_ p.

(** The indices that can be handed out, topmost last. *)
Definition free_list (p : ObjectPool) : list Z := take (Z.to_nat (top_ p)) (free_ p).

(** The pool and its clients together own every object exactly once. *)
Record pool_inv (p : ObjectPool) (held : list Z) : Prop := {
  pi_size : length (free_ p) = Z.to_nat N;
  pi_top : 0 <= top_ p <= N;
  pi_part : free_list p ++ held ≡ₚ map Z.of_nat (seq 0 (Z.to_nat N))
}.

(** A client's session: acquire, or give back an object it holds. *)
Inductive pool_step : ObjectPool * list Z -> option Z -> ObjectPool * list Z -> Prop :=
| ps_acquire p held i p' :
    acquire p = Ok (Some i, p') -> pool_step (p, held) (Some i) (p', i :: held)
| ps_exhausted p held p' :
    acquire p = Ok (None, p') -> pool_step (p, held) None (p', held)
| ps_release p held h1 i h2 p' :
    held = h1 ++ i :: h2 -> release p i = Ok p' ->
    pool_step (p, held) None (p', h1 ++ h2).
End Pool.

Section PoolFacts.
Context (N : Z) (HN : 0 <= N < 2 ^ 32).

Lemma range_list_elem i : i ∈ map Z.of_nat (seq 0 (Z.to_nat N)) <-> 0 <= i < N.
Proof.
  rewrite list_elem_of_In, in_map_iff. setoid_rewrite in_seq. split.
  - intros (k & <- & Hk). lia.
  - intros Hi. exists (Z.to_nat i). lia.
Qed.

Lemma range_list_NoDup : NoDup (map Z.of_nat (seq 0 (Z.to_nat N))).
Proof. apply NoDup_fmap_2; [intros ???; lia|apply NoDup_seq]. Qed.

Lemma pool_init_inv : pool_inv N (pool_init N) [].
Proof.
  constructor; simpl; [by rewrite length_map, length_seq|lia|].
  rewrite app_nil_r. unfold free_list. simpl.
  rewrite take_ge by (rewrite length_map, length_seq; lia).
  apply NoDup_Permutation; [|apply range_list_NoDup|].
  - apply NoDup_alt. intros i j x Hi Hj.
    rewrite list_lookup_fmap in Hi, Hj.
    destruct (seq 0 (Z.to_nat N) !! i) as [a|] eqn:Ea; [|done].
    destruct (seq 0 (Z.to_nat N) !! j) as [b|] eqn:Eb; [|done].
    simpl in Hi, Hj. apply lookup_seq in Ea as [-> Ha]. apply lookup_seq in Eb as [-> Hb].
    rewrite !u32_id in * by (unfold in_u32; lia). simplify_eq. lia.
  - intros x. rewrite range_list_elem, list_elem_of_In, in_map_iff. setoid_rewrite in_seq.
    split.
    + intros (k & <- & Hk). rewrite u32_id by (unfold in_u32; lia). lia.
    + intros Hx. exists (Z.to_nat (N - 1 - x)). rewrite u32_id by (unfold in_u32; lia). lia.
Qed.

Lemma held_in_range p held i : pool_inv N p held -> i ∈ held -> 0 <= i < N.
Proof.
  intros I Hi. apply range_list_elem. rewrite <- (pi_part _ _ _ I).
  apply elem_of_app. by right.
Qed.

Lemma pool_sizes p held : pool_inv N p held -> top_ p + Z.of_nat (length held) = N.
Proof.
  intros I. pose proof (Permutation_length (pi_part _ _ _ I)) as H.
  rewrite length_app, length_map, length_seq in H. unfold free_list in H.
  rewrite length_take, (pi_size _ _ _ I) in H. pose proof (pi_top _ _ _ I). lia.
Qed.

Lemma acquire_inv p held :
  pool_inv N p held ->
  (top_ p = 0 /\ acquire p = Ok (None, p)) \/
  (exists i p', acquire p = Ok (Some i, p') /\ 0 <= i < N /\ (i ∉ held) /\
     top_ p' = top_ p - 1 /\ pool_inv N p' (i :: held)).
Proof.
  intros I. pose proof (pi_top _ _ _ I) as Ht. unfold acquire.
  destruct (Z.eqb_spec (top_ p) 0) as [H0|H0]; [by left|right].
  destruct (zget_is_Some (free_ p) (top_ p - 1)) as [i Hi]; [rewrite (pi_size _ _ _ I); lia|].
  rewrite (array_read_ok _ _ _ Hi). simpl. exists i, (mkPool (free_ p) (top_ p - 1)).
  assert (Hfl : free_list p = take (Z.to_nat (top_ p - 1)) (free_ p) ++ [i]).
  { unfold free_list. replace (Z.to_nat (top_ p)) with (S (Z.to_nat (top_ p - 1))) by lia.
    apply take_S_r. by apply zget_Some in Hi as [_ Hi]. }
  pose proof (pi_part _ _ _ I) as HP. rewrite Hfl, <- app_assoc in HP. simpl in HP.
  assert (Hnd : NoDup (take (Z.to_nat (top_ p - 1)) (free_ p) ++ i :: held)).
  { rewrite HP. apply range_list_NoDup. }
  split; [done|]. split.
  { apply range_list_elem. rewrite <- HP. apply elem_of_app. right. constructor. }
  split.
  { apply list.NoDup_app in Hnd as (_ & _ & Hnd). by apply list.NoDup_cons in Hnd as [? _]. }
  split; [done|]. constructor; simpl; [apply I|lia|]. exact HP.
Qed.

Lemma release_inv p h1 i h2 :
  pool_inv N p (h1 ++ i :: h2) ->
  exists p', release p i = Ok p' /\ top_ p' = top_ p + 1 /\ pool_inv N p' (h1 ++ h2).
Proof.
  intros I. pose proof (pool_sizes _ _ I) as Hs. rewrite length_app in Hs. simpl in Hs.
  pose proof (pi_top _ _ _ I) as Ht.
  assert (Hi : 0 <= i < N).
  { apply (held_in_range _ _ _ I), elem_of_app. right. constructor. }
  unfold release. rewrite u32_id by (unfold in_u32; lia).
  rewrite array_write_ok by (rewrite (pi_size _ _ _ I); lia). simpl.
  eexists. split; [done|]. split; [done|]. constructor; simpl.
  - rewrite length_zset. apply I.
  - lia.
  - unfold free_list. simpl. unfold zset.
    rewrite (proj2 (in_bounds_spec _ _)) by (rewrite (pi_size _ _ _ I); lia).
    replace (Z.to_nat (top_ p + 1)) with (S (Z.to_nat (top_ p))) by lia.
    rewrite (take_S_r _ _ i) by (apply list_lookup_insert_eq; rewrite (pi_size _ _ _ I); lia).
    rewrite take_insert_ge by lia. fold (free_list p).
    rewrite <- (pi_part _ _ _ I), <- app_assoc. apply Permutation_app_head.
    simpl. apply Permutation_middle.
Qed.
End PoolFacts.

(** In every session of acquisitions and releases the pool hands out each
    object at most once at a time, only valid ones, and answers null exactly
    when all N are out; nothing is lost: available plus held is always N. *)
Theorem object_pool_exclusive (N : Z) tr p held :
  0 <= N < 2 ^ 32 -> run pool_step (pool_init N, []) tr (p, held) ->
  NoDup held /\ (forall i, i ∈ held -> 0 <= i < N) /\
  available p + Z.of_nat (length held) = N /\
  (exists o p', acquire p = Ok (o, p') /\
     match o with
     | Some i => i ∉ held
     | None => Z.of_nat (length held) = N
     end).
Proof.
  intros HN R.
  assert (I : (fun s => pool_inv N (fst s) (snd s)) (p, held)).
  { apply (run_invariant pool_step (fun s => pool_inv N (fst s) (snd s)) (pool_init N, []) tr);
      [exact (pool_init_inv N HN)| |exact R].
    intros [a ha] l [b hb] Ia St; simpl in *. inversion St; subst.
    - destruct (acquire_inv N a ha Ia) as [[_ H]|(j & p' & H & _ & _ & _ & Ib)]; congruence.
    - destruct (acquire_inv N a hb Ia) as [[_ H]|(j & p' & H & _ & _ & _ & Ib)]; congruence.
    - destruct (release_inv N HN a _ _ _ Ia) as (p' & H & _ & Ib). congruence. }
  simpl in I. pose proof (pool_sizes N HN p held I) as Hs. split.
  { assert (Hnd : NoDup (free_list p ++ held)).
    { rewrite (pi_part _ _ _ I). apply range_list_NoDup. }
    by apply list.NoDup_app in Hnd as (_ & _ & ?). }
  split; [intros i; by eapply held_in_range|]. split; [done|].
  destruct (acquire_inv N p held I) as [[H0 H]|(i & p' & H & _ & Hni & _)];
    eexists _, _; (split; [exact H|]); simpl; [lia|done].
Qed.

Lemma object_pool_exclusive_witness :
  NoDup [1; 0] /\ available (mkPool [2; 1; 0] 1) + 2 = 3.
Proof.
  assert (R : run pool_step (pool_init 3, []) [Some 0; Some 1]
                (mkPool [2; 1; 0] 1, [1; 0])).
  { apply (run_app _ _ [Some 0] (mkPool [2; 1; 0] 2, [0]) [Some 1]);
      apply run_one; by constructor. }
  destruct (object_pool_exclusive 3 _ _ _ ltac:(lia) R) as (H1 & _ & H2 & _).
  exact (conj H1 H2).
Defined.
