(* ===== verification/Text.v ===== *)
(** * C strings and number formatting used by the engine

    The standard-library text functions the code calls, on lists of
    characters: [snprintf] with %u, %llu and %010llu, [strtoull] in base 10,
    [strncpy] into a fixed array, and byte-wise comparison of keys. *)
From S2P Require Import Prelude.
From Stdlib Require Import Ascii.

Abbreviation chars := (list ascii).

(** Character codes. *)
Definition code (c : ascii) : Z := Z.of_nat (nat_of_ascii c).
Definition chr (z : Z) : ascii := ascii_of_nat (Z.to_nat z).

(** String literals as characters. *)
Fixpoint chars_of_string (s : string) : chars :=
  match s with
  | EmptyString => []
  | String c s => c :: chars_of_string s
  end.
Fixpoint string_of_chars (l : chars) : string :=
  match l with
  | [] => EmptyString
  | c :: l => String c (string_of_chars l)
  end.

(** ** Decimal formatting *)

Definition digit_char (d : Z) : ascii := chr (48 + d).

(** Most significant digit first; [fuel] bounds the number of digits. *)
Fixpoint to_digits (fuel : nat) (n : Z) : list Z :=
  match fuel with
  | O => []
  | S fuel => if n <? 10 then [n] else to_digits fuel (n / 10) ++ [n mod 10]
  end.

(** [%llu] of a 64-bit value (20 digits always suffice), and [%u]. *)
Definition fmt_llu (n : Z) : chars := map digit_char (to_digits 20 n).
Definition fmt_u (n : Z) : chars := fmt_llu n.

(** [%010llu]: padded with zeros to ten digits. *)
Definition zero_pad (w : nat) (s : chars) : chars :=
  replicate (w - length s) (digit_char 0) ++ s.
Definition fmt_010llu (n : Z) : chars := zero_pad 10 (fmt_llu n).

(** [snprintf(buf, size, ...)]: what the buffer holds up to its terminator,
    and the returned length, which counts the characters not stored too. *)
Definition snprintf (size : Z) (s : chars) : chars * Z :=
  (take (Z.to_nat (size - 1)) s, Z.of_nat (length s)).

(** ** Parsing *)

Definition is_digit (c : ascii) : bool := (48 <=? code c) && (code c <=? 57).
Definition is_space (c : ascii) : bool :=
  (code c =? 32) || ((9 <=? code c) && (code c <=? 13)).

Fixpoint skip_spaces (s : chars) : chars :=
  match s with
  | c :: r => if is_space c then skip_spaces r else s
  | [] => []
  end.

Fixpoint take_digits (s : chars) : list Z :=
  match s with
  | c :: r => if is_digit c then (code c - 48) :: take_digits r else []
  | [] => []
  end.

Definition digits_value (l : list Z) : Z := fold_left (fun a d => 10 * a + d) l 0.

(** Optional sign: true for a minus. *)
Definition take_sign (s : chars) : bool * chars :=
  match s with
  | c :: r => if code c =? 45 then (true, r) else if code c =? 43 then (false, r) else (false, s)
  | [] => (false, [])
  end.

(** [strtoull(s, nullptr, 10)]: 0 without digits, ULLONG_MAX on overflow, the
    negation modulo 2^64 after a minus sign. *)
Definition strtoull (s : chars) : Z :=
  let '(neg, r) := take_sign (skip_spaces s) in
  let v := digits_value (take_digits r) in
  if UINT64_MAX <? v then UINT64_MAX else if neg then u64 (- v) else v.

(** ** Fixed arrays *)

(** The characters before the terminator. *)
Fixpoint c_str (s : chars) : chars :=
  match s with
  | [] => []
  | c :: r => if code c =? 0 then [] else c :: c_str r
  end.

(** [strncpy(dst, src, n)]: at most [n] characters, zero-filled up to [n];
    the rest of [dst] is untouched. *)
Definition strncpy (dst src : chars) (n : nat) : chars :=
  take n (c_str src ++ replicate n zero) ++ drop n dst.

(** ** Byte order of keys (memcmp) *)

Fixpoint bytes_lt (a b : chars) : bool :=
  match a, b with
  | _, [] => false
  | [], _ :: _ => true
  | x :: a, y :: b => (code x <? code y) || ((code x =? code y) && bytes_lt a b)
  end.

(** ** Lemmas: characters and digits *)

Lemma code_chr z : 0 <= z < 256 -> code (chr z) = z.
Proof. intros H. unfold code, chr. rewrite nat_ascii_embedding; lia. Qed.

Lemma chr_code c : chr (code c) = c.
Proof. unfold chr, code. rewrite Nat2Z.id. apply ascii_nat_embedding. Qed.

Definition digit (d : Z) : Prop := 0 <= d <= 9.

Lemma code_digit_char d : digit d -> code (digit_char d) = 48 + d.
Proof. intros H. unfold digit_char, digit in *. apply code_chr. lia. Qed.

Lemma is_digit_digit_char d : digit d -> is_digit (digit_char d) = true.
Proof.
  intros H. unfold is_digit. rewrite code_digit_char by done. unfold digit in H.
  apply andb_true_iff. lia.
Qed.

Lemma to_digits_digit fuel n : 0 <= n -> Forall digit (to_digits fuel n).
Proof.
  revert n. induction fuel as [|fuel IH]; intros n Hn; simpl; [constructor|].
  destruct (Z.ltb_spec n 10).
  - constructor; [unfold digit; lia|constructor].
  - apply Forall_app. split; [apply IH; zdiv_lia|].
    constructor; [unfold digit; zdiv_lia|constructor].
Qed.

Lemma digits_value_snoc l d : digits_value (l ++ [d]) = 10 * digits_value l + d.
Proof. unfold digits_value. by rewrite fold_left_app. Qed.

Lemma to_digits_value fuel n :
  0 <= n < 10 ^ Z.of_nat fuel -> digits_value (to_digits fuel n) = n.
Proof.
  revert n. induction fuel as [|fuel IH]; intros n Hn; simpl.
  - simpl in Hn. unfold digits_value. simpl. lia.
  - rewrite Nat2Z.inj_succ, Z.pow_succ_r in Hn by lia.
    destruct (Z.ltb_spec n 10); [unfold digits_value; simpl; lia|].
    rewrite digits_value_snoc, IH by zdiv_lia. zdiv_lia.
Qed.

Lemma to_digits_length fuel n w :
  0 <= n < 10 ^ Z.of_nat w -> (0 < w)%nat -> (length (to_digits fuel n) <= w)%nat.
Proof.
  revert n w. induction fuel as [|fuel IH]; intros n w Hn Hw; simpl; [lia|].
  destruct (Z.ltb_spec n 10); [simpl; lia|]. rewrite length_app. simpl.
  destruct w as [|[|w]]; [lia|simpl in Hn; lia|].
  assert ((length (to_digits fuel (n / 10)) <= S w)%nat); [|lia].
  apply IH; [|lia].
  rewrite Nat2Z.inj_succ, Z.pow_succ_r in Hn by lia. zdiv_lia.
Qed.

Lemma take_digits_digits l s :
  Forall digit l -> match s with c :: _ => is_digit c = false | [] => True end ->
  take_digits (map digit_char l ++ s) = l.
Proof.
  induction 1 as [|d l Hd Hl IH]; intros Hs; simpl.
  - destruct s as [|c s]; [done|]. simpl. by rewrite Hs.
  - rewrite is_digit_digit_char, code_digit_char, IH by done. f_equal. lia.
Qed.

(** A formatted number starts with a digit, so neither spaces nor a sign are
    skipped in front of it. *)
Lemma fmt_llu_head n : 0 <= n -> exists d l, fmt_llu n = digit_char d :: l /\ digit d.
Proof.
  intros Hn. unfold fmt_llu. pose proof (to_digits_digit 20 n Hn) as HF.
  destruct (to_digits 20 n) as [|d l] eqn:E.
  - exfalso. cbn in E. destruct (n <? 10); [done|].
    by apply app_eq_nil in E as [_ E].
  - inversion HF; subst. by exists d, (map digit_char l).
Qed.

Lemma skip_prefix d l :
  digit d -> take_sign (skip_spaces (digit_char d :: l)) = (false, digit_char d :: l).
Proof.
  intros Hd. simpl. unfold is_space. rewrite code_digit_char by done. unfold digit in Hd.
  destruct (Z.eqb_spec (48 + d) 32); [lia|]. destruct (Z.leb_spec (48 + d) 13); [lia|].
  rewrite andb_false_r. simpl. rewrite code_digit_char by (unfold digit; lia).
  destruct (Z.eqb_spec (48 + d) 45); [lia|]. by destruct (Z.eqb_spec (48 + d) 43); [lia|].
Qed.

Lemma strtoull_fmt n s :
  in_u64 n -> match s with c :: _ => is_digit c = false | [] => True end ->
  strtoull (fmt_llu n ++ s) = n.
Proof.
  intros Hn Hs. unfold in_u64 in Hn.
  destruct (fmt_llu_head n) as (d & l & E & Hd); [lia|].
  unfold strtoull. rewrite E. simpl app. rewrite skip_prefix by done.
  rewrite app_comm_cons, <- E. unfold fmt_llu.
  rewrite take_digits_digits by (done || apply to_digits_digit; lia).
  rewrite to_digits_value by (change (10 ^ Z.of_nat 20) with 100000000000000000000; lia).
  unfold UINT64_MAX. destruct (Z.ltb_spec (2 ^ 64 - 1) n); [lia|done].
Qed.

(** ** Lemmas: width and order *)

Lemma fmt_llu_length n : in_u64 n -> (length (fmt_llu n) <= 20)%nat.
Proof.
  intros Hn. unfold fmt_llu. rewrite length_map. apply to_digits_length; [|lia].
  unfold in_u64 in Hn. change (10 ^ Z.of_nat 20) with 100000000000000000000. lia.
Qed.

Lemma fmt_u_length n : in_u32 n -> (length (fmt_u n) <= 10)%nat.
Proof.
  intros Hn. unfold fmt_u, fmt_llu. rewrite length_map. apply to_digits_length; [|lia].
  unfold in_u32 in Hn. change (10 ^ Z.of_nat 10) with 10000000000. lia.
Qed.

(** The digits a padded number shows. *)
Definition padded_digits (w : nat) (n : Z) : list Z :=
  replicate (w - length (to_digits 20 n)) 0 ++ to_digits 20 n.

Lemma zero_pad_digits w n : zero_pad w (fmt_llu n) = map digit_char (padded_digits w n).
Proof.
  unfold zero_pad, padded_digits, fmt_llu. rewrite length_map, map_app. f_equal.
  by induction (w - length (to_digits 20 n))%nat; simpl; f_equal.
Qed.

Lemma digits_value_zeros k l : digits_value (replicate k 0 ++ l) = digits_value l.
Proof. unfold digits_value. rewrite fold_left_app. f_equal. by induction k. Qed.

Lemma padded_digits_value w n : in_u64 n -> digits_value (padded_digits w n) = n.
Proof.
  intros Hn. unfold padded_digits. rewrite digits_value_zeros.
  apply to_digits_value. unfold in_u64 in Hn.
  change (10 ^ Z.of_nat 20) with 100000000000000000000. lia.
Qed.

Lemma padded_digits_digit w n : 0 <= n -> Forall digit (padded_digits w n).
Proof.
  intros Hn. apply Forall_app. split; [|by apply to_digits_digit].
  apply Forall_replicate. unfold digit. lia.
Qed.

Lemma padded_digits_length w n :
  0 <= n < 10 ^ Z.of_nat w -> (0 < w)%nat -> length (padded_digits w n) = w.
Proof.
  intros Hn Hw. pose proof (to_digits_length 20 n w Hn Hw).
  unfold padded_digits. rewrite length_app, length_replicate. lia.
Qed.

Lemma digits_value_app l1 l2 :
  digits_value (l1 ++ l2) = digits_value l1 * 10 ^ Z.of_nat (length l2) + digits_value l2.
Proof.
  induction l2 as [|d l2 IH] using rev_ind.
  - rewrite app_nil_r. simpl. unfold digits_value at 3. simpl. lia.
  - rewrite app_assoc, !digits_value_snoc, IH, length_app. simpl.
    rewrite Nat2Z.inj_add, Z.pow_add_r by lia. change (10 ^ Z.of_nat 1) with 10. lia.
Qed.

Lemma digits_value_cons d l :
  digits_value (d :: l) = d * 10 ^ Z.of_nat (length l) + digits_value l.
Proof.
  change (d :: l) with ([d] ++ l). rewrite digits_value_app.
  unfold digits_value at 1. simpl. lia.
Qed.

Lemma digits_value_bound l :
  Forall digit l -> 0 <= digits_value l < 10 ^ Z.of_nat (length l).
Proof.
  induction 1 as [|d l Hd Hl IH]; [unfold digits_value; simpl; lia|].
  rewrite digits_value_cons. simpl length. rewrite Nat2Z.inj_succ, Z.pow_succ_r by lia.
  unfold digit in Hd. nia.
Qed.

(** Digit strings of one length are ordered byte-wise as the numbers they
    denote. *)
Lemma bytes_lt_digits l1 l2 s1 s2 :
  length l1 = length l2 -> Forall digit l1 -> Forall digit l2 ->
  digits_value l1 < digits_value l2 ->
  bytes_lt (map digit_char l1 ++ s1) (map digit_char l2 ++ s2) = true.
Proof.
  revert l2. induction l1 as [|d1 l1 IH]; intros [|d2 l2] Hlen H1 H2 Hv;
    try done.
  apply Forall_cons_iff in H1 as [Hd1 Hl1]. apply Forall_cons_iff in H2 as [Hd2 Hl2].
  simpl. rewrite !code_digit_char by done. rewrite !digits_value_cons in Hv.
  simpl in Hlen. assert (El : length l1 = length l2) by lia.
  pose proof (digits_value_bound l1 Hl1) as B1. pose proof (digits_value_bound l2 Hl2) as B2.
  rewrite El in *. apply orb_true_iff.
  destruct (Z.ltb_spec (48 + d1) (48 + d2)); [by left|right].
  assert (d1 = d2) as -> by nia. rewrite Z.eqb_refl. simpl. apply IH; (done || lia).
Qed.

Lemma bytes_lt_app p a b : bytes_lt (p ++ a) (p ++ b) = bytes_lt a b.
Proof.
  induction p as [|c p IH]; [done|]. simpl. by rewrite Z.ltb_irrefl, Z.eqb_refl, IH.
Qed.

(** ** Lemmas: fixed arrays *)

Lemma strncpy_length dst src n :
  (n <= length dst)%nat -> length (strncpy dst src n) = length dst.
Proof.
  intros H. unfold strncpy. rewrite length_app, length_take, length_app, length_replicate,
    length_drop. lia.
Qed.

Lemma c_str_no_zero s : c_str s = s <-> Forall (fun c => code c <> 0) s.
Proof.
  induction s as [|c s IH]; [split; [constructor|done]|]. simpl.
  destruct (Z.eqb_spec (code c) 0) as [E|E].
  - split; [done|]. inversion 1; subst. done.
  - rewrite Forall_cons_iff, <- IH. split; [intros H; by injection H|]. intros [_ ->]. done.
Qed.

Lemma c_str_app s t : Forall (fun c => code c <> 0) s -> c_str (s ++ t) = s ++ c_str t.
Proof.
  induction 1 as [|c s Hc Hs IH]; [done|]. simpl.
  destruct (Z.eqb_spec (code c) 0); [done|]. by rewrite IH.
Qed.

Lemma c_str_Forall s : Forall (fun c => code c <> 0) (c_str s).
Proof.
  induction s as [|c s IH]; simpl; [constructor|].
  destruct (Z.eqb_spec (code c) 0); constructor; done.
Qed.

Lemma c_str_zeros k : c_str (replicate k zero) = [].
Proof. by destruct k. Qed.

Lemma fmt_llu_no_zero n : 0 <= n -> Forall (fun c => code c <> 0) (fmt_llu n).
Proof.
  intros Hn. unfold fmt_llu. apply Forall_forall. intros c Hc.
  apply in_map_iff in Hc as (d & <- & Hd).
  pose proof (to_digits_digit 20 n Hn) as HF. rewrite List.Forall_forall in HF.
  rewrite code_digit_char by (apply HF, Hd). specialize (HF d Hd). unfold digit in HF. lia.
Qed.

(** ** Joining and splitting at a separator *)

Fixpoint join (sep : ascii) (l : list chars) : chars :=
  match l with
  | [] => []
  | [x] => x
  | x :: l => x ++ sep :: join sep l
  end.

(** Reading a line back: the pieces between separators. *)
Fixpoint split_on (sep : ascii) (s : chars) : list chars :=
  match s with
  | [] => [[]]
  | c :: s =>
      if decide (c = sep) then [] :: split_on sep s
      else match split_on sep s with
           | [] => [[c]]
           | w :: ws => (c :: w) :: ws
           end
  end.

Lemma split_on_clean sep s :
  Forall (fun c => c <> sep) s -> split_on sep s = [s].
Proof.
  induction 1 as [|c s Hc Hs IH]; simpl; [done|]. by rewrite decide_False, IH.
Qed.

Lemma split_on_app sep x s :
  Forall (fun c => c <> sep) x -> split_on sep (x ++ sep :: s) = x :: split_on sep s.
Proof.
  induction 1 as [|c x Hc Hx IH]; simpl.
  - by rewrite decide_True.
  - by rewrite decide_False, IH.
Qed.

Lemma split_join sep l :
  l <> [] -> Forall (Forall (fun c => c <> sep)) l -> split_on sep (join sep l) = l.
Proof.
  intros Hne HF. induction HF as [|x l Hx Hl IH]; [done|]. destruct l as [|y l].
  - by apply split_on_clean.
  - change (join sep (x :: y :: l)) with (x ++ sep :: join sep (y :: l)).
    rewrite split_on_app by done. f_equal. by apply IH.
Qed.

(** ** Reading padded numbers back *)

Lemma strtoull_digits l :
  l <> [] -> Forall digit l -> digits_value l <= UINT64_MAX -> strtoull (map digit_char l) = digits_value l.
Proof.
  intros Hne HF Hv. destruct HF as [|d l Hd HF]; [done|]. unfold strtoull. cbn [map].
  rewrite skip_prefix by done. change (digit_char d :: map digit_char l) with (map digit_char (d :: l)).
  rewrite <- (app_nil_r (map digit_char (d :: l))), take_digits_digits by (done || by constructor).
  by rewrite (proj2 (Z.ltb_ge _ _) Hv).
Qed.

Lemma strtoull_padded n : in_u64 n -> strtoull (fmt_010llu n) = n.
Proof.
  intros Hn. unfold fmt_010llu. rewrite zero_pad_digits, strtoull_digits.
  - by apply padded_digits_value.
  - intros E. unfold padded_digits in E. apply app_eq_nil in E as [_ E].
    destruct (fmt_llu_head n) as (d & l & H & _); [unfold in_u64 in Hn; lia|].
    unfold fmt_llu in H. by rewrite E in H.
  - apply padded_digits_digit. unfold in_u64 in Hn. lia.
  - rewrite padded_digits_value by done. unfold in_u64, UINT64_MAX in *. lia.
Qed.

Lemma zero_pad_length w s : length (zero_pad w s) = Nat.max w (length s).
Proof. unfold zero_pad. rewrite length_app, length_replicate. lia. Qed.

(** The C string of a [strncpy] that leaves room for the terminator. *)
Lemma c_str_strncpy k src n :
  (n < k)%nat -> c_str (strncpy (replicate k zero) src n) = take n (c_str src).
Proof.
  intros Hk. unfold strncpy. rewrite drop_replicate.
  assert (Hz : take n (c_str src ++ replicate n zero)
               = take n (c_str src) ++ replicate (n - length (c_str src)) zero).
  { rewrite take_app, take_replicate. do 2 f_equal. lia. }
  rewrite Hz, <- app_assoc, <- replicate_add, c_str_app, c_str_zeros, app_nil_r; [done|].
  apply Forall_take, c_str_Forall.
Qed.

(** ** Lemmas: what [strtoull] can return *)

Lemma take_digits_value s : 0 <= digits_value (take_digits s).
Proof.
  induction s as [|c s IH]; cbn [take_digits]; [done|].
  destruct (is_digit c) eqn:E; [|done]. rewrite digits_value_cons. unfold is_digit in E.
  apply andb_true_iff in E as [E%Z.leb_le _]. apply Z.add_nonneg_nonneg; [|done].
  apply Z.mul_nonneg_nonneg; [lia|apply Z.pow_nonneg; lia].
Qed.

Lemma strtoull_u64 s : in_u64 (strtoull s).
Proof.
  unfold strtoull. destruct (take_sign _) as [neg r]. pose proof (take_digits_value r).
  destruct (Z.ltb_spec UINT64_MAX (digits_value (take_digits r))); [unfold in_u64, UINT64_MAX; lia|].
  destruct neg; [apply u64_range|]. unfold in_u64, UINT64_MAX in *. lia.
Qed.
