(* ===== verification/LatencyHistogram.v ===== *)
(** * Latency histogram and atomic maxima
    (src/src/common/latency_histogram.hpp)

    Log2-bucketed counts with 32 sub-buckets per power of two.  The theorems
    relate a percentile read from the buckets to the order statistics of the
    recorded samples, and say where the bucket bounds are off. *)
From S2P Require Import Prelude.
From stdpp Require Import sorting.
#[local] Open Scope Z_scope.

(** ** The compare-exchange loop that tracks a maximum *)

(** One attempt of [compare_exchange_weak]: the value other threads have
    raised the variable to meanwhile, and whether the attempt fails
    spuriously. *)
Definition attempt : Type := Z * bool.

(** [while (v > cur && !m.compare_exchange_weak(cur, v)) {}]: [mem] is the
    variable, [cur] the local copy; None when the attempts given run out. *)
Fixpoint cas_max_loop (os : list attempt) (v cur mem : Z) : option Z :=
  if v <=? cur then Some mem
  else
    match os with
    | [] => None
    | (m, spurious) :: os =>
        let mem := Z.max mem m in
        if negb spurious && (mem =? cur) then Some v
        else cas_max_loop os v mem mem
    end.

(** The loop without interference. *)
Definition cas_max (v mem : Z) : Z := if v <=? mem then mem else v.

(** ** The class *)
Module LatencyHistogram.

Definition kMajor : Z := 64.
Definition kSub : Z := 32.
Definition kSubBits : Z := 5.
Definition nBuckets : nat := 2048.

(** Index of the highest set bit of [v | 1] (63 - clz, or BitScanReverse). *)
Definition log2_floor (v : Z) : Z := Z.log2 (Z.lor v 1).

Record t := mkHist {
  buckets_ : list Z;
  count_ : Z;
  max_ : Z
}.

Definition init : t := mkHist (replicate nBuckets 0) 0 0.

(** The array index [record] computes from a duration. *)
Definition bucket_of (ns : Z) : Z :=
  let ns := if ns <? 0 then 0 else ns in
  let v := Z.lor (u64 ns) 1 in
  let maj := log2_floor v in
  let sub :=
    if kSubBits <=? maj then Z.land (Z.shiftr v (maj - kSubBits)) (kSub - 1)
    else Z.land v (kSub - 1) in
  maj * kSub + sub.

Definition record (ns : Z) (h : t) : Res t :=
  let i := bucket_of ns in
  let ns := if ns <? 0 then 0 else ns in
  res_bind (array_read (buckets_ h) i) (fun b =>
  res_bind (array_write (buckets_ h) i (u64 (b + 1))) (fun bs =>
  Ok (mkHist bs (u64 (count_ h + 1)) (cas_max ns (max_ h))))).

Definition bucket_upper (idx : Z) : Z :=
  let maj := idx / kSub in
  let sub := idx mod kSub in
  if maj <? kSubBits then i64 (Z.shiftl 1 maj + sub)
  else i64 (Z.shiftl (Z.shiftl 1 kSubBits + sub + 1) (maj - kSubBits)).

Record Percentiles := mkPerc { p50 : Z; p90 : Z; p99 : Z; pmax : Z; pcount : Z }.

(** The second loop of [snapshot], from index [i] on. *)
Fixpoint scan (t50 t90 t99 : Z) (i cum : Z) (local : list Z) (q50 q90 q99 : Z) : Z * Z * Z :=
  match local with
  | [] => (q50, q90, q99)
  | b :: local =>
      let cum := u64 (cum + b) in
      let v := bucket_upper i in
      let q50 := if (q50 =? 0) && (t50 <=? cum) then v else q50 in
      let q90 := if (q90 =? 0) && (t90 <=? cum) then v else q90 in
      if (q99 =? 0) && (t99 <=? cum) then (q50, q90, v)
      else scan t50 t90 t99 (i + 1) cum local q50 q90 q99
  end.

(** [(total * p + 99) / 100] in 64-bit arithmetic. *)
Definition threshold (p total : Z) : Z := u64 (u64 (total * p) + 99) / 100.

Definition snapshot (h : t) : Percentiles :=
  let total := fold_left (fun a b => u64 (a + b)) (buckets_ h) 0 in
  if total =? 0 then mkPerc 0 0 0 (max_ h) total
  else
    let '(q50, q90, q99) :=
      scan (threshold 50 total) (threshold 90 total) (threshold 99 total) 0 0 (buckets_ h) 0 0 0 in
    mkPerc q50 q90 q99 (max_ h) total.

Definition reset (h : t) : t := mkHist (map (fun _ => 0) (buckets_ h)) 0 0.

(** Recording a sequence of samples. *)
Fixpoint record_all (samples : list Z) (h : t) : Res t :=
  match samples with
  | [] => Ok h
  | ns :: l => res_bind (record ns h) (record_all l)
  end.

(** Samples falling in bucket [i], and in the buckets up to [i]. *)
Definition in_bucket (samples : list Z) (i : Z) : Z :=
  Z.of_nat (length (filter (fun ns => bucket_of ns = i) samples)).
Definition up_to_bucket (samples : list Z) (i : Z) : Z :=
  Z.of_nat (length (filter (fun ns => bucket_of ns <= i) samples)).

(** The sample of rank [t] (from 1) in increasing order. *)
Definition order_stat (samples : list Z) (t : Z) : option Z :=
  zget (merge_sort Z.le samples) (t - 1).
End LatencyHistogram.

(** ** The compare-exchange loop *)

Lemma cas_max_loop_bound os v cur mem r :
  cur <= mem -> cas_max_loop os v cur mem = Some r -> Z.max mem v <= r.
Proof.
  revert cur mem. induction os as [|[m sp] os IH]; simpl; intros cur mem Hc H;
    destruct (Z.leb_spec v cur); simplify_eq; try lia.
  destruct (negb sp && (Z.max mem m =? cur)) eqn:E.
  - apply andb_true_iff in E as [_ E]. zbool. simplify_eq. lia.
  - apply IH in H; lia.
Qed.

(** Quiet attempts (no interference, no spurious failure) end the loop: the
    first may still compare against a stale copy, the second cannot. *)
Lemma cas_max_loop_quiet v cur mem m1 m2 os :
  m1 <= mem -> m2 <= mem -> cur <= mem ->
  exists r, cas_max_loop ((m1, false) :: (m2, false) :: os) v cur mem = Some r.
Proof.
  intros H1 H2 Hc. simpl. rewrite !Z.max_l by lia.
  destruct (v <=? cur); [eauto|]. destruct (mem =? cur); simpl; [eauto|].
  destruct (v <=? mem); [eauto|]. rewrite Z.eqb_refl. eauto.
Qed.

(** ** Bucket indices *)
Module HistogramFacts.
Import LatencyHistogram.

Lemma lor_1_eq v : 0 <= v -> Z.lor v 1 = 2 * (v / 2) + 1.
Proof.
  intros Hv. rewrite (Z.div_mod v 2) at 1 by lia.
  apply Z.bits_inj'. intros n Hn. rewrite Z.lor_spec.
  destruct (Z.eq_dec n 0) as [->|Hn0].
  - rewrite !Z.bit0_odd, orb_true_r. by rewrite Z.odd_add, Z.odd_mul.
  - rewrite (Z.bits_above_log2 1 n) by (simpl; lia). rewrite orb_false_r.
    replace n with (Z.succ (n - 1)) by lia.
    rewrite Z.testbit_odd_succ by lia.
    destruct (Z.mod_pos_bound v 2 ltac:(lia)) as [H0 H2].
    assert (v mod 2 = 0 \/ v mod 2 = 1) as [->| ->] by lia.
    + rewrite Z.add_0_r, Z.testbit_even_succ by lia. done.
    + rewrite Z.testbit_odd_succ by lia. done.
Qed.

Lemma lor_1_mono a b : 0 <= a <= b -> Z.lor a 1 <= Z.lor b 1.
Proof. intros H. rewrite !lor_1_eq by lia. zdiv_lia. Qed.
Lemma log2_floor_lor v : 0 <= v -> log2_floor (Z.lor v 1) = Z.log2 (Z.lor v 1).
Proof. intros H. unfold log2_floor. by rewrite <- Z.lor_assoc, Z.lor_diag. Qed.

(** [bucket_of] by division, on the odd number [w = v | 1]. *)
Definition index_of (w : Z) : Z :=
  let m := Z.log2 w in
  if kSubBits <=? m then (m - 1) * kSub + w / 2 ^ (m - kSubBits) else m * kSub + w.

(** The five bits below and including the leading one. *)
Lemma top_bits w : 0 < w -> kSubBits <= Z.log2 w -> 32 <= w / 2 ^ (Z.log2 w - kSubBits) < 64.
Proof.
  unfold kSubBits. intros Hw Hm. pose proof (Z.log2_spec w Hw) as [Hlo Hhi].
  assert (Hp : 0 < 2 ^ (Z.log2 w - 5)) by (apply Z.pow_pos_nonneg; lia).
  replace (2 ^ Z.log2 w) with (32 * 2 ^ (Z.log2 w - 5)) in Hlo.
  2: { change 32 with (2 ^ 5). rewrite <- Z.pow_add_r by lia. f_equal. lia. }
  replace (2 ^ Z.succ (Z.log2 w)) with (64 * 2 ^ (Z.log2 w - 5)) in Hhi.
  2: { change 64 with (2 ^ 6). rewrite <- Z.pow_add_r by lia. f_equal. lia. }
  split; [apply Z.div_le_lower_bound; lia|apply Z.div_lt_upper_bound; lia].
Qed.

Lemma small_width w : 0 < w -> Z.log2 w < 5 -> w < 32.
Proof. intros Hw Hm. apply (Z.log2_lt_pow2 w 5) in Hm; lia. Qed.

Lemma bucket_of_index ns :
  0 <= ns < 2 ^ 63 -> bucket_of ns = index_of (Z.lor ns 1).
Proof.
  intros H. unfold bucket_of. destruct (Z.ltb_spec ns 0); [lia|].
  rewrite u64_id by (unfold in_u64; lia). rewrite log2_floor_lor by lia.
  set (w := Z.lor ns 1). unfold index_of.
  assert (Hw : 0 < w) by (unfold w; rewrite lor_1_eq by lia; zdiv_lia).
  change (kSub - 1) with (Z.ones 5).
  destruct (Z.leb_spec kSubBits (Z.log2 w)) as [Hm|Hm].
  - rewrite Z.land_ones, Z.shiftr_div_pow2 by (unfold kSubBits in *; lia).
    pose proof (top_bits w Hw Hm) as Ht.
    rewrite <- (Z.mod_unique (w / 2 ^ (Z.log2 w - kSubBits)) (2 ^ 5) 1
      (w / 2 ^ (Z.log2 w - kSubBits) - 32)) by lia.
    unfold kSub. lia.
  - rewrite Z.land_ones by lia. unfold kSubBits in Hm.
    pose proof (small_width w Hw Hm). rewrite Z.mod_small by lia. done.
Qed.

Lemma index_of_bounds w :
  0 < w -> Z.log2 w * kSub <= index_of w < (Z.log2 w + 1) * kSub.
Proof.
  intros Hw. unfold index_of, kSub. pose proof (Z.log2_nonneg w).
  destruct (Z.leb_spec kSubBits (Z.log2 w)) as [Hm|Hm].
  - pose proof (top_bits w Hw Hm). lia.
  - unfold kSubBits in Hm. pose proof (small_width w Hw Hm). lia.
Qed.

Lemma index_of_mono w w' : 0 < w <= w' -> index_of w <= index_of w'.
Proof.
  intros H. pose proof (Z.log2_le_mono w w' ltac:(lia)) as Hl.
  destruct (Z.eq_dec (Z.log2 w) (Z.log2 w')) as [E|E].
  - unfold index_of. rewrite <- E. destruct (Z.leb_spec kSubBits (Z.log2 w)) as [Hm|Hm]; [|lia].
    apply Z.add_le_mono_l, Z.div_le_mono; [|lia]. apply Z.pow_pos_nonneg; unfold kSubBits in *; lia.
  - pose proof (index_of_bounds w ltac:(lia)). pose proof (index_of_bounds w' ltac:(lia)).
    unfold kSub in *. lia.
Qed.

Lemma bucket_of_neg ns : ns < 0 -> bucket_of ns = bucket_of 0.
Proof. intros H. unfold bucket_of. by destruct (Z.ltb_spec ns 0); [|lia]. Qed.

(** The last major bucket is never used: a duration is an int64. *)
Lemma bucket_of_range63 ns : ns < 2 ^ 63 -> 0 <= bucket_of ns < 63 * kSub.
Proof.
  intros H. destruct (decide (ns < 0)) as [Hn|Hn].
  { rewrite bucket_of_neg by done. vm_compute. split; [discriminate|reflexivity]. }
  rewrite bucket_of_index by lia. set (w := Z.lor ns 1).
  assert (Hw : 0 < w < 2 ^ 63) by (unfold w; rewrite lor_1_eq by lia; zdiv_lia).
  assert (Z.log2 w < 63) by (apply Z.log2_lt_pow2; lia).
  pose proof (index_of_bounds w ltac:(lia)). pose proof (Z.log2_nonneg w).
  unfold kSub in *. lia.
Qed.

Lemma bucket_of_range ns : ns < 2 ^ 63 -> 0 <= bucket_of ns < Z.of_nat nBuckets.
Proof. intros H%bucket_of_range63. unfold nBuckets, kSub in *. lia. Qed.

Lemma bucket_of_mono a b : a <= b -> b < 2 ^ 63 -> bucket_of a <= bucket_of b.
Proof.
  intros Hab Hb. destruct (decide (b < 0)) as [Hn|Hn].
  { rewrite (bucket_of_neg a), (bucket_of_neg b) by lia. lia. }
  destruct (decide (a < 0)) as [Ha|Ha].
  - rewrite (bucket_of_neg a), !bucket_of_index by lia. apply index_of_mono.
    rewrite !lor_1_eq by lia. zdiv_lia.
  - rewrite !bucket_of_index by lia. apply index_of_mono.
    rewrite !lor_1_eq by lia. zdiv_lia.
Qed.

(** ** Counts *)

Implicit Types samples : list Z.

Lemma in_bucket_cons ns samples i :
  in_bucket (ns :: samples) i = in_bucket samples i + (if decide (bucket_of ns = i) then 1 else 0).
Proof.
  unfold in_bucket. rewrite filter_cons. destruct (decide _); simpl; lia.
Qed.

Lemma up_to_bucket_succ samples i :
  up_to_bucket samples i = up_to_bucket samples (i - 1) + in_bucket samples i.
Proof.
  unfold up_to_bucket, in_bucket. induction samples as [|x l IH]; [done|].
  rewrite !filter_cons. repeat destruct (decide _); simpl; lia.
Qed.

Lemma up_to_bucket_bounds samples i :
  0 <= up_to_bucket samples i <= Z.of_nat (length samples).
Proof. unfold up_to_bucket. pose proof (length_filter (fun ns => bucket_of ns <= i) samples). lia. Qed.

Lemma in_bucket_bounds samples i :
  0 <= in_bucket samples i <= Z.of_nat (length samples).
Proof. unfold in_bucket. pose proof (length_filter (fun ns => bucket_of ns = i) samples). lia. Qed.

Lemma up_to_bucket_none samples i :
  Forall (fun ns => ns < 2 ^ 63) samples -> i < 0 -> up_to_bucket samples i = 0.
Proof.
  intros H Hi. unfold up_to_bucket. induction H as [|x l Hx Hl IH]; [done|].
  rewrite filter_cons. destruct (decide _) as [Hd|]; [|done].
  pose proof (bucket_of_range x Hx). lia.
Qed.

Lemma up_to_bucket_all samples i :
  Forall (fun ns => ns < 2 ^ 63) samples -> Z.of_nat nBuckets <= i + 1 ->
  up_to_bucket samples i = Z.of_nat (length samples).
Proof.
  intros H Hi. unfold up_to_bucket. induction H as [|x l Hx Hl IH]; [done|].
  rewrite filter_cons. destruct (decide _) as [Hd|Hd]; simpl; [lia|].
  pose proof (bucket_of_range x Hx). lia.
Qed.

(** What a histogram holds after recording [samples]. *)
Record holds (h : t) samples : Prop := {
  hd_len : length (buckets_ h) = nBuckets;
  hd_bucket : forall i, 0 <= i < Z.of_nat nBuckets -> zget (buckets_ h) i = Some (in_bucket samples i);
  hd_count : count_ h = Z.of_nat (length samples);
  hd_max : max_ h = fold_right Z.max 0 samples
}.

Lemma holds_init : holds init [].
Proof.
  unfold init. constructor; cbn [buckets_ count_ max_]; [apply length_replicate| |done|done].
  intros i Hi.
  apply zget_Some. split; [lia|]. apply lookup_replicate. unfold in_bucket. simpl. split; [done|lia].
Qed.

Lemma fold_max_nonneg l : 0 <= fold_right Z.max 0 l.
Proof. induction l; simpl; lia. Qed.

Lemma record_holds h samples ns :
  holds h samples -> ns < 2 ^ 63 -> Z.of_nat (length samples) + 1 < 2 ^ 64 ->
  exists h', record ns h = Ok h' /\ holds h' (ns :: samples).
Proof.
  intros H Hns Hn. pose proof (bucket_of_range ns Hns) as Hr.
  unfold record. rewrite (array_read_ok _ _ _ (hd_bucket _ _ H _ Hr)). simpl res_bind.
  rewrite array_write_ok by (rewrite (hd_len _ _ H); done).
  pose proof (in_bucket_bounds samples (bucket_of ns)).
  eexists. split; [done|]. constructor; simpl.
  - rewrite length_zset. apply H.
  - intros i Hi. rewrite in_bucket_cons. destruct (decide (bucket_of ns = i)) as [<-|Hne].
    + rewrite zget_zset_eq by (rewrite (hd_len _ _ H); done).
      rewrite u64_id by (unfold in_u64; lia). done.
    + rewrite zget_zset_ne, (hd_bucket _ _ H) by done. f_equal. lia.
  - rewrite (hd_count _ _ H), u64_id by (unfold in_u64; lia). lia.
  - rewrite (hd_max _ _ H). pose proof (fold_max_nonneg samples). unfold cas_max.
    destruct (Z.ltb_spec ns 0);
      match goal with |- (if ?b then _ else _) = _ => destruct b eqn:E end; zbool; lia.
Qed.

Lemma in_bucket_perm l l' i : l ≡ₚ l' -> in_bucket l i = in_bucket l' i.
Proof. intros H. unfold in_bucket. by rewrite H. Qed.

Lemma up_to_bucket_perm l l' i : l ≡ₚ l' -> up_to_bucket l i = up_to_bucket l' i.
Proof. intros H. unfold up_to_bucket. by rewrite H. Qed.

Lemma fold_max_perm l l' : l ≡ₚ l' -> fold_right Z.max 0 l = fold_right Z.max 0 l'.
Proof. induction 1; simpl; lia. Qed.

Lemma record_all_holds samples h done_ :
  holds h done_ -> Forall (fun ns => ns < 2 ^ 63) samples ->
  Z.of_nat (length done_) + Z.of_nat (length samples) < 2 ^ 64 ->
  exists h', record_all samples h = Ok h' /\ holds h' (rev samples ++ done_).
Proof.
  intros H HF. revert h done_ H. induction HF as [|ns l Hns Hl IH]; intros h d H Hn; simpl.
  - by exists h.
  - simpl in Hn. destruct (record_holds h d ns H Hns) as (h1 & -> & H1); [lia|]. simpl.
    destruct (IH h1 (ns :: d) H1) as (h2 & -> & H2); [simpl; lia|].
    exists h2. split; [done|]. by rewrite <- app_assoc.
Qed.

(** ** Order statistics *)

Lemma filter_none (P : Z -> Prop) `{forall x, Decision (P x)} (l : list Z) :
  (forall z, z ∈ l -> ~ P z) -> filter P l = [].
Proof.
  induction l as [|z l IH]; intros Hn; [done|]. rewrite filter_cons.
  destruct (decide (P z)) as [Pz|_]; [exfalso; apply (Hn z); [left|done]|].
  apply IH. intros y Hy. apply Hn. by right.
Qed.

(** In a sorted list a downward-closed predicate holds of the element at
    position [t - 1] exactly when it holds of at least [t] elements. *)
Lemma sorted_count (P : Z -> Prop) `{forall x, Decision (P x)} (l : list Z) k x :
  StronglySorted Z.le l -> (forall a b, a ∈ l -> b ∈ l -> a <= b -> P b -> P a) ->
  l !! k = Some x -> (k < length (filter P l))%nat <-> P x.
Proof.
  intros Hs. revert k. induction Hs as [|y l Hs IH Hy]; intros k HP Hk; [done|].
  rewrite filter_cons. rewrite List.Forall_forall in Hy.
  assert (Hyx : y <= x).
  { destruct k; simpl in Hk; [simplify_eq; lia|].
    apply Hy, list_elem_of_In. by eapply list_elem_of_lookup_2. }
  assert (Hx : x ∈ y :: l) by (by eapply list_elem_of_lookup_2).
  destruct (decide (P y)) as [Py|Ny].
  - destruct k as [|k]; simpl in Hk |- *; [simplify_eq; split; [done|lia]|].
    rewrite <- (IH k); [lia| |done].
    intros a b Ha Hb. apply HP; by right.
  - assert (Hnone : filter P l = []).
    { apply filter_none. intros z Hz Pz. apply Ny, (HP y z); [left|by right| |done].
      by apply Hy, list_elem_of_In. }
    rewrite Hnone. simpl. split; [lia|]. intros Px. exfalso. apply Ny, (HP y x); [left|done..].
Qed.

Lemma order_stat_some samples k :
  1 <= k <= Z.of_nat (length samples) -> exists x, order_stat samples k = Some x.
Proof.
  intros H. apply zget_is_Some. rewrite (Permutation_length (merge_sort_Permutation _ samples)). lia.
Qed.

Lemma order_stat_in samples k x : order_stat samples k = Some x -> x ∈ samples.
Proof.
  intros [_ H]%zget_Some. rewrite <- (merge_sort_Permutation Z.le samples).
  by eapply list_elem_of_lookup_2.
Qed.

(** Bucket [i] has reached rank [k] exactly when the sample of rank [k] is in
    bucket [i] or below. *)
Lemma reached samples k x i :
  Forall (fun ns => ns < 2 ^ 63) samples -> order_stat samples k = Some x ->
  k <= up_to_bucket samples i <-> bucket_of x <= i.
Proof.
  intros HF Hx. pose proof (proj1 (zget_Some _ _ _) Hx) as [Hk Hl].
  rewrite <- (up_to_bucket_perm _ _ i (merge_sort_Permutation Z.le samples)).
  unfold up_to_bucket.
  rewrite <- (sorted_count (fun ns => bucket_of ns <= i) (merge_sort Z.le samples)
    (Z.to_nat (k - 1)) x); [lia| | |done].
  - apply (StronglySorted_merge_sort Z.le).
  - intros a b Ha Hb Hab Hbi. rewrite (merge_sort_Permutation Z.le samples) in Hb.
    apply list_elem_of_In in Hb. rewrite List.Forall_forall in HF.
    pose proof (bucket_of_mono a b Hab (HF b Hb)). lia.
Qed.

(** ** The scan of [snapshot] *)

Lemma bucket_upper_nonzero i : 0 <= i < 63 * kSub -> bucket_upper i <> 0.
Proof.
  intros Hi. unfold bucket_upper, kSubBits. unfold kSub in *.
  assert (Hm : 0 <= i / 32 < 63) by zdiv_lia. assert (Hs : 0 <= i mod 32 < 32) by zdiv_lia.
  set (m := i / 32) in *. set (r := i mod 32) in *. clearbody m r. clear Hi.
  destruct (Z.ltb_spec m 5).
  - rewrite Z.shiftl_mul_pow2, Z.mul_1_l by lia.
    pose proof (pow2_between m 4 ltac:(lia)).
    rewrite i64_id; unfold in_i64; lia.
  - rewrite Z.shiftl_mul_pow2 by lia. change (Z.shiftl 1 5) with 32. unfold i64.
    pose proof (pow2_between (m - 5) 57 ltac:(lia)) as Hq.
    generalize dependent (2 ^ (m - 5)). intros q Hq.
    assert (Hx : 0 < (32 + r + 1) * q < 2 ^ 64) by nia.
    generalize dependent ((32 + r + 1) * q). intros x Hx. zdiv_lia.
Qed.

(** The scan, started at bucket [i] with the counts below it already added,
    stops at the buckets [j50 <= j90 <= j99] where the ranks are reached. *)
Lemma scan_spec samples t50 t90 t99 j50 j90 j99 local i q50 q90 :
  Z.of_nat (length samples) < 2 ^ 64 ->
  (forall k, t50 <= up_to_bucket samples k <-> j50 <= k) ->
  (forall k, t90 <= up_to_bucket samples k <-> j90 <= k) ->
  (forall k, t99 <= up_to_bucket samples k <-> j99 <= k) ->
  0 <= j50 <= j90 -> j90 <= j99 < 63 * kSub -> 0 <= i <= j99 ->
  i + Z.of_nat (length local) = Z.of_nat nBuckets ->
  (forall k, (k < length local)%nat -> local !! k = Some (in_bucket samples (i + Z.of_nat k))) ->
  q50 = (if decide (j50 < i) then bucket_upper j50 else 0) ->
  q90 = (if decide (j90 < i) then bucket_upper j90 else 0) ->
  scan t50 t90 t99 i (up_to_bucket samples (i - 1)) local q50 q90 0
  = (bucket_upper j50, bucket_upper j90, bucket_upper j99).
Proof.
  intros Hn H50 H90 H99 Hj1 Hj2.
  revert i q50 q90. induction local as [|b local IH]; intros i q50 q90 Hi Hlen Hloc Hq50 Hq90;
    [unfold kSub, nBuckets in *; simpl in Hlen; lia|].
  simpl in Hlen. pose proof (Hloc 0%nat ltac:(simpl; lia)) as Hb. simpl in Hb.
  injection Hb as ->. rewrite Z.add_0_r. cbn [scan].
  rewrite <- up_to_bucket_succ. pose proof (up_to_bucket_bounds samples i).
  rewrite u64_id by (unfold in_u64; lia).
  assert (Hstep : forall q tq j, 0 <= j <= j99 ->
    (forall k, tq <= up_to_bucket samples k <-> j <= k) ->
    q = (if decide (j < i) then bucket_upper j else 0) ->
    (if (q =? 0) && (tq <=? up_to_bucket samples i) then bucket_upper i else q)
    = (if decide (j < i + 1) then bucket_upper j else 0)).
  { intros q tq j Hj Ht ->. destruct (decide (j < i)) as [Hlt|Hge].
    - rewrite (proj2 (Z.eqb_neq _ _)) by (apply bucket_upper_nonzero; lia). simpl.
      by destruct (decide (j < i + 1)); [|lia].
    - simpl. destruct (Z.leb_spec tq (up_to_bucket samples i)) as [Hr|Hr].
      + apply Ht in Hr. destruct (decide (j < i + 1)); [|lia]. f_equal. lia.
      + destruct (decide (j < i + 1)); [|done]. assert (j <= i) as Hle by lia.
        apply Ht in Hle. lia. }
  rewrite (Hstep q50 t50 j50), (Hstep q90 t90 j90) by (done || lia).
  simpl (0 =? 0). simpl andb.
  destruct (Z.leb_spec t99 (up_to_bucket samples i)) as [Hr|Hr].
  - apply H99 in Hr. assert (i = j99) as -> by lia.
    destruct (decide (j50 < j99 + 1)); [|lia]. by destruct (decide (j90 < j99 + 1)); [|lia].
  - assert (i < j99).
    { destruct (decide (i < j99)); [done|]. assert (j99 <= i) as Hle by lia. apply H99 in Hle. lia. }
    replace (up_to_bucket samples i) with (up_to_bucket samples (i + 1 - 1)) by (f_equal; lia).
    apply IH; try done; try lia.
    intros k Hk. specialize (Hloc (S k) ltac:(simpl; lia)). simpl in Hloc.
    rewrite Hloc. do 2 f_equal. lia.
Qed.

Lemma total_up_to h samples :
  holds h samples -> Forall (fun ns => ns < 2 ^ 63) samples ->
  Z.of_nat (length samples) < 2 ^ 64 ->
  fold_left (fun a b => u64 (a + b)) (buckets_ h) 0 = Z.of_nat (length samples).
Proof.
  intros H HF Hn.
  assert (Hk : forall k, (k <= nBuckets)%nat ->
    fold_left (fun a b => u64 (a + b)) (take k (buckets_ h)) 0 = up_to_bucket samples (Z.of_nat k - 1)).
  { induction k as [|k IH]; intros Hk.
    - simpl. symmetry. by apply up_to_bucket_none; [|lia].
    - pose proof (hd_bucket _ _ H (Z.of_nat k) ltac:(lia)) as Hb. rewrite zget_nat in Hb.
      rewrite (take_S_r _ _ _ Hb), fold_left_app, IH by lia. simpl.
      replace (Z.of_nat (S k) - 1) with (Z.of_nat k) by lia.
      rewrite <- up_to_bucket_succ. pose proof (up_to_bucket_bounds samples (Z.of_nat k)).
      apply u64_id. unfold in_u64. lia. }
  rewrite <- (take_ge (buckets_ h) nBuckets) by (rewrite (hd_len _ _ H); lia).
  rewrite Hk by lia. apply up_to_bucket_all; [done|lia].
Qed.

Lemma threshold_eq p n :
  0 <= n -> 1 <= p -> n * p + 99 < 2 ^ 64 -> threshold p n = (n * p + 99) / 100.
Proof. intros. unfold threshold. rewrite !u64_id; unfold in_u64; rewrite ?u64_id; unfold in_u64; try nia. Qed.
End HistogramFacts.

(** ** Properties *)
Module HistogramProps.
Import LatencyHistogram HistogramFacts.

(** The rank a percentile stands for: the least integer at least [p]% of [n]. *)
Definition rank (p n : Z) : Z := (n * p + 99) / 100.

Lemma holds_perm h l l' : l ≡ₚ l' -> holds h l -> holds h l'.
Proof.
  intros HP H. constructor.
  - apply H.
  - intros i Hi. rewrite (hd_bucket _ _ H) by done. f_equal. by apply in_bucket_perm.
  - rewrite (hd_count _ _ H). by rewrite HP.
  - rewrite (hd_max _ _ H). by apply fold_max_perm.
Qed.

Lemma snapshot_holds h samples :
  samples <> [] -> Forall (fun ns => ns < 2 ^ 63) samples ->
  Z.of_nat (length samples) * 99 + 99 < 2 ^ 64 -> holds h samples ->
  exists x50 x90 x99,
    order_stat samples (rank 50 (Z.of_nat (length samples))) = Some x50 /\
    order_stat samples (rank 90 (Z.of_nat (length samples))) = Some x90 /\
    order_stat samples (rank 99 (Z.of_nat (length samples))) = Some x99 /\
    snapshot h = mkPerc (bucket_upper (bucket_of x50)) (bucket_upper (bucket_of x90))
                   (bucket_upper (bucket_of x99)) (fold_right Z.max 0 samples)
                   (Z.of_nat (length samples)).
Proof.
  intros Hne HF Hn H. set (n := Z.of_nat (length samples)) in *.
  assert (Hn1 : 1 <= n) by (unfold n; destruct samples; [done|simpl; lia]).
  destruct (order_stat_some samples (rank 50 n)) as [x50 H50]; [unfold rank; zdiv_lia|].
  destruct (order_stat_some samples (rank 90 n)) as [x90 H90]; [unfold rank; zdiv_lia|].
  destruct (order_stat_some samples (rank 99 n)) as [x99 H99]; [unfold rank; zdiv_lia|].
  exists x50, x90, x99. repeat (split; [done|]).
  assert (R : forall k x, order_stat samples k = Some x -> 0 <= bucket_of x < 63 * kSub).
  { intros k x Hx%order_stat_in%list_elem_of_In. rewrite List.Forall_forall in HF.
    by apply bucket_of_range63, HF. }
  pose proof (fun i => reached samples _ x50 i HF H50) as R50.
  pose proof (fun i => reached samples _ x90 i HF H90) as R90.
  pose proof (fun i => reached samples _ x99 i HF H99) as R99.
  assert (H59 : bucket_of x50 <= bucket_of x90).
  { apply R50. pose proof (proj2 (R90 (bucket_of x90)) ltac:(lia)). unfold rank in *. zdiv_lia. }
  assert (H999 : bucket_of x90 <= bucket_of x99).
  { apply R90. pose proof (proj2 (R99 (bucket_of x99)) ltac:(lia)). unfold rank in *. zdiv_lia. }
  pose proof (R _ _ H50). pose proof (R _ _ H99).
  unfold snapshot. rewrite (total_up_to h samples H HF) by (fold n; lia). fold n.
  destruct (Z.eqb_spec n 0); [lia|].
  rewrite !threshold_eq by lia. fold (rank 50 n) (rank 90 n) (rank 99 n).
  pose proof (scan_spec samples (rank 50 n) (rank 90 n) (rank 99 n)
    (bucket_of x50) (bucket_of x90) (bucket_of x99) (buckets_ h) 0 0 0) as Hs.
  rewrite up_to_bucket_none in Hs by (done || lia).
  rewrite (hd_len _ _ H) in Hs. rewrite Hs; try done; try lia.
  - by rewrite (hd_max _ _ H).
  - intros k Hk. rewrite <- zget_nat. apply (hd_bucket _ _ H). lia.
  - clear Hs. case_decide; [lia|done].
  - clear Hs. case_decide; [lia|done].
Qed.

(** C28: a histogram fed with any durations (negative ones count as 0) never
    indexes outside its buckets, and the percentiles it reports are the upper
    bounds of the buckets of the samples of rank 50%, 90% and 99%, with the
    exact maximum and number of samples. *)
Theorem histogram_percentiles (samples : list Z) :
  samples <> [] -> Forall (fun ns => ns < 2 ^ 63) samples ->
  Z.of_nat (length samples) * 99 + 99 < 2 ^ 64 ->
  exists h x50 x90 x99,
    record_all samples init = Ok h /\
    order_stat samples (rank 50 (Z.of_nat (length samples))) = Some x50 /\
    order_stat samples (rank 90 (Z.of_nat (length samples))) = Some x90 /\
    order_stat samples (rank 99 (Z.of_nat (length samples))) = Some x99 /\
    snapshot h = mkPerc (bucket_upper (bucket_of x50)) (bucket_upper (bucket_of x90))
                   (bucket_upper (bucket_of x99)) (fold_right Z.max 0 samples)
                   (Z.of_nat (length samples)).
Proof.
  intros Hne HF Hn.
  destruct (record_all_holds samples init [] holds_init HF) as (h & Hh & H); [simpl; lia|].
  exists h. rewrite app_nil_r in H.
  apply (holds_perm h _ samples) in H; [|symmetry; apply Permutation_rev].
  destruct (snapshot_holds h samples Hne HF Hn H) as (x50 & x90 & x99 & E).
  by exists x50, x90, x99.
Qed.

Lemma histogram_percentiles_witness :
  exists h x50 x90 x99,
    record_all [40; 100; -5] init = Ok h /\
    order_stat [40; 100; -5] (rank 50 3) = Some x50 /\
    order_stat [40; 100; -5] (rank 90 3) = Some x90 /\
    order_stat [40; 100; -5] (rank 99 3) = Some x99 /\
    snapshot h = mkPerc (bucket_upper (bucket_of x50)) (bucket_upper (bucket_of x90))
                   (bucket_upper (bucket_of x99)) 100 3.
Proof.
  apply (histogram_percentiles [40; 100; -5]); [done| |simpl; lia].
  repeat constructor.
Defined.

(** From 32 ns on (up to 2^62) a reported bound is above the sample and
    within one part in 32 of it. *)
Theorem bucket_upper_accurate (ns : Z) :
  32 <= ns < 2 ^ 62 ->
  ns < bucket_upper (bucket_of ns) /\ 32 * bucket_upper (bucket_of ns) <= 33 * (ns + 1).
Proof.
  intros Hns. rewrite bucket_of_index by lia.
  set (w := Z.lor ns 1). assert (Hw : w = 2 * (ns / 2) + 1) by (apply lor_1_eq; lia).
  assert (Hw2 : ns <= w <= ns + 1 /\ 33 <= w < 2 ^ 62) by zdiv_lia.
  assert (Hm : 5 <= Z.log2 w < 62).
  { split; [change 5 with (Z.log2 32); apply Z.log2_le_mono; lia|apply Z.log2_lt_pow2; lia]. }
  pose proof (top_bits w ltac:(lia) ltac:(unfold kSubBits; lia)) as Ht. unfold kSubBits in Ht.
  unfold index_of, kSubBits. rewrite (proj2 (Z.leb_le 5 _)) by lia.
  set (m := Z.log2 w) in *. pose proof (pow2_between (m - 5) 56 ltac:(lia)) as Hq.
  set (q := 2 ^ (m - 5)) in *. set (d := w / q) in *. clearbody m.
  assert (Hdm : w = q * d + w mod q /\ 0 <= w mod q < q).
  { split; [apply Z.div_mod; lia|apply Z.mod_pos_bound; lia]. }
  unfold bucket_upper, kSubBits, kSub.
  assert (((m - 1) * 32 + d) / 32 = m) as -> by zdiv_lia.
  assert (((m - 1) * 32 + d) mod 32 = d - 32) as -> by zdiv_lia.
  rewrite (proj2 (Z.ltb_ge m 5)) by lia.
  rewrite Z.shiftl_mul_pow2 by lia. change (Z.shiftl 1 5) with 32. fold q.
  replace (32 + (d - 32) + 1) with (d + 1) by lia.
  clearbody q d. rewrite i64_id by (unfold in_i64; nia). nia.
Qed.

Lemma bucket_upper_accurate_witness :
  1000 < bucket_upper (bucket_of 1000) /\ 32 * bucket_upper (bucket_of 1000) <= 33 * 1001.
Proof. apply (bucket_upper_accurate 1000). lia. Defined.

(** Below 32 ns the bound adds the leading power of two a second time, so
    the reported percentiles need not even be ordered: these samples give a
    90th percentile below the median. *)
Theorem percentiles_not_monotone :
  exists h, record_all [31; 31; 31; 31; 31; 31; 33; 33; 33; 33] init = Ok h /\
    p50 (snapshot h) = 47 /\ p90 (snapshot h) = 34 /\
    (forall ns, 0 <= ns < 32 ->
       bucket_upper (bucket_of ns) = Z.lor ns 1 + 2 ^ Z.log2 (Z.lor ns 1)).
Proof.
  eexists. split; [vm_compute; reflexivity|].
  split; [vm_compute; reflexivity|]. split; [vm_compute; reflexivity|].
  assert (F : Forall (fun ns => bucket_upper (bucket_of ns) = Z.lor ns 1 + 2 ^ Z.log2 (Z.lor ns 1))
    (map Z.of_nat (seq 0 32))).
  { cbn [seq map]. repeat (constructor; [vm_compute; reflexivity|]). constructor. }
  intros ns Hns. rewrite List.Forall_forall in F. apply F.
  apply in_map_iff. exists (Z.to_nat ns). rewrite in_seq. lia.
Qed.

(** The lock-free maximum never loses a sample and never lowers the
    value, whatever other threads store and however often the weak exchange
    fails spuriously; two quiet attempts in a row end the loop; and without
    interference it computes the maximum. *)
Theorem cas_max_loop_correct (os : list attempt) (v cur mem : Z) :
  cur <= mem ->
  (forall r, cas_max_loop os v cur mem = Some r -> Z.max mem v <= r) /\
  (forall m1 m2, m1 <= mem -> m2 <= mem ->
     exists r, cas_max_loop ((m1, false) :: (m2, false) :: os) v cur mem = Some r) /\
  cas_max_loop [(mem, false)] v mem mem = Some (cas_max v mem) /\ cas_max v mem = Z.max v mem.
Proof.
  intros Hc. split; [intros r; by apply cas_max_loop_bound|].
  split; [intros m1 m2 H1 H2; by apply cas_max_loop_quiet|].
  unfold cas_max. simpl. rewrite Z.max_id, Z.eqb_refl.
  destruct (Z.leb_spec v mem); simpl; split; (done || lia).
Qed.

Lemma cas_max_loop_correct_witness :
  cas_max_loop [(5, false); (3, true); (5, false)] 9 1 2 = Some 9 /\ Z.max 2 9 <= 9.
Proof.
  split; [reflexivity|].
  apply (proj1 (cas_max_loop_correct [(5, false); (3, true); (5, false)] 9 1 2 ltac:(lia))).
  reflexivity.
Defined.
End HistogramProps.
