(* ===== verification/Metrics.v ===== *)
(** * Metrics registry (src/src/metrics/metrics.hpp)

    The single global registry: three latency histograms, five event counters
    and three queue high-water marks.  Counters wrap at 64 bits. *)
From S2P Require Import Prelude.
From S2P Require Import LatencyHistogram.

Record Metrics := mkMetrics {
  md_processing : LatencyHistogram.t;
  tick_to_trade : LatencyHistogram.t;
  queue_wait : LatencyHistogram.t;
  md_msgs_total : Z;
  md_dropped_total : Z;
  orders_sent_total : Z;
  cancels_sent_total : Z;
  execs_total : Z;
  md_queue_max : Z;
  ord_queue_max : Z;
  log_queue_max : Z
}.

Definition metrics_init : Metrics :=
  mkMetrics LatencyHistogram.init LatencyHistogram.init LatencyHistogram.init 0 0 0 0 0 0 0 0.

(** [track_max(m, v)] with no other writer of [m] (each mark has one). *)
Definition track_max (m v : Z) : Z := cas_max v m.

(** [fetch_add(1)]. *)
Definition fetch_add1 (c : Z) : Z := u64 (c + 1).

Definition set_md_processing (m : Metrics) h := mkMetrics h (tick_to_trade m) (queue_wait m)
  (md_msgs_total m) (md_dropped_total m) (orders_sent_total m) (cancels_sent_total m)
  (execs_total m) (md_queue_max m) (ord_queue_max m) (log_queue_max m).
Definition set_tick_to_trade (m : Metrics) h := mkMetrics (md_processing m) h (queue_wait m)
  (md_msgs_total m) (md_dropped_total m) (orders_sent_total m) (cancels_sent_total m)
  (execs_total m) (md_queue_max m) (ord_queue_max m) (log_queue_max m).
Definition set_queue_wait (m : Metrics) h := mkMetrics (md_processing m) (tick_to_trade m) h
  (md_msgs_total m) (md_dropped_total m) (orders_sent_total m) (cancels_sent_total m)
  (execs_total m) (md_queue_max m) (ord_queue_max m) (log_queue_max m).
Definition inc_md_msgs (m : Metrics) := mkMetrics (md_processing m) (tick_to_trade m) (queue_wait m)
  (fetch_add1 (md_msgs_total m)) (md_dropped_total m) (orders_sent_total m) (cancels_sent_total m)
  (execs_total m) (md_queue_max m) (ord_queue_max m) (log_queue_max m).
Definition inc_md_dropped (m : Metrics) := mkMetrics (md_processing m) (tick_to_trade m) (queue_wait m)
  (md_msgs_total m) (fetch_add1 (md_dropped_total m)) (orders_sent_total m) (cancels_sent_total m)
  (execs_total m) (md_queue_max m) (ord_queue_max m) (log_queue_max m).
Definition inc_orders_sent (m : Metrics) := mkMetrics (md_processing m) (tick_to_trade m) (queue_wait m)
  (md_msgs_total m) (md_dropped_total m) (fetch_add1 (orders_sent_total m)) (cancels_sent_total m)
  (execs_total m) (md_queue_max m) (ord_queue_max m) (log_queue_max m).
Definition inc_cancels_sent (m : Metrics) := mkMetrics (md_processing m) (tick_to_trade m) (queue_wait m)
  (md_msgs_total m) (md_dropped_total m) (orders_sent_total m) (fetch_add1 (cancels_sent_total m))
  (execs_total m) (md_queue_max m) (ord_queue_max m) (log_queue_max m).
Definition inc_execs (m : Metrics) := mkMetrics (md_processing m) (tick_to_trade m) (queue_wait m)
  (md_msgs_total m) (md_dropped_total m) (orders_sent_total m) (cancels_sent_total m)
  (fetch_add1 (execs_total m)) (md_queue_max m) (ord_queue_max m) (log_queue_max m).
Definition track_md_queue (m : Metrics) (v : Z) := mkMetrics (md_processing m) (tick_to_trade m)
  (queue_wait m) (md_msgs_total m) (md_dropped_total m) (orders_sent_total m)
  (cancels_sent_total m) (execs_total m) (track_max (md_queue_max m) v) (ord_queue_max m)
  (log_queue_max m).
Definition track_ord_queue (m : Metrics) (v : Z) := mkMetrics (md_processing m) (tick_to_trade m)
  (queue_wait m) (md_msgs_total m) (md_dropped_total m) (orders_sent_total m)
  (cancels_sent_total m) (execs_total m) (md_queue_max m) (track_max (ord_queue_max m) v)
  (log_queue_max m).
Definition track_log_queue (m : Metrics) (v : Z) := mkMetrics (md_processing m) (tick_to_trade m)
  (queue_wait m) (md_msgs_total m) (md_dropped_total m) (orders_sent_total m)
  (cancels_sent_total m) (execs_total m) (md_queue_max m) (ord_queue_max m)
  (track_max (log_queue_max m) v).

(** The histograms have all their buckets: recording never faults. *)
Definition hist_ok (h : LatencyHistogram.t) : Prop :=
  length (LatencyHistogram.buckets_ h) = LatencyHistogram.nBuckets.

Record metrics_ok (m : Metrics) : Prop := {
  mo_f1 : hist_ok (md_processing m);
  mo_f2 : hist_ok (tick_to_trade m);
  mo_qw : hist_ok (queue_wait m)
}.

Lemma record_total h ns :
  hist_ok h -> ns < 2 ^ 63 ->
  exists h', LatencyHistogram.record ns h = Ok h' /\ hist_ok h'.
Proof.
  intros H Hns. pose proof (HistogramFacts.bucket_of_range ns Hns) as Hr.
  unfold LatencyHistogram.record, hist_ok in *.
  destruct (zget_is_Some (LatencyHistogram.buckets_ h) (LatencyHistogram.bucket_of ns)) as [b Hb];
    [by rewrite H|].
  rewrite (array_read_ok _ _ _ Hb). cbn [res_bind].
  rewrite array_write_ok by (by rewrite H). eexists. split; [done|].
  cbn [LatencyHistogram.buckets_]. by rewrite length_zset.
Qed.

Lemma metrics_ok_init : metrics_ok metrics_init.
Proof. split; apply length_replicate. Qed.
