(* ===== verification/OrderBook.v ===== *)
(** * Per-instrument order book (src/src/book/order_book.hpp) *)
From S2P Require Import Prelude.
From S2P Require Import Double.
From S2P Require Import Dyadic.
From S2P Require Import Events.

Record OrderBook := mkBook {
  bid_px : list double;
  bid_qty : list double;
  ask_px : list double;
  ask_qty : list double;
  n_bids : Z;
  n_asks : Z;
  last_update_ns : Z;
  seq : Z
}.

Definition book_init : OrderBook :=
  mkBook zero_levels zero_levels zero_levels zero_levels 0 0 0 0.

(** [n > max_depth ? uint16_t(max_depth) : n], the comparison done on ints. *)
Definition cap_levels (n max_depth : Z) : Z := if max_depth <? n then u16 max_depth else n.

(** The previous contents are overwritten whole, whatever they were. *)
Definition apply_snapshot (e : MdEvent) (max_depth : Z) (ob : OrderBook) : OrderBook :=
  mkBook (md_bid_px e) (md_bid_qty e) (md_ask_px e) (md_ask_qty e)
    (cap_levels (md_n_bids e) max_depth) (cap_levels (md_n_asks e) max_depth)
    (md_t_recv_ns e) (md_seq e).

Definition has_bba (ob : OrderBook) : bool := (0 <? n_bids ob) && (0 <? n_asks ob).

(** Element of a fixed array of [kMaxDepth] doubles. *)
Definition level (l : list double) (i : nat) : double := nth i l dzero.

Definition best_bid (ob : OrderBook) : double := level (bid_px ob) 0.
Definition best_ask (ob : OrderBook) : double := level (ask_px ob) 0.
Definition spread (ob : OrderBook) : double := dsub (level (ask_px ob) 0) (level (bid_px ob) 0).
Definition mid (ob : OrderBook) : double :=
  dmul dhalf (dadd (level (ask_px ob) 0) (level (bid_px ob) 0)).

(** [sum_q > 0 ? sum_pq / sum_q : mid()]. *)
Definition vwap_of_sums (ob : OrderBook) (sum_pq sum_q : double) : double :=
  if dgt sum_q dzero then ddiv sum_pq sum_q else mid ob.

(** The scalar loop. *)
Definition vwap_step (ob : OrderBook) (acc : double * double) (i : nat) : double * double :=
  let '(sum_pq, sum_q) := acc in
  (dadd sum_pq (dadd (dmul (level (bid_px ob) i) (level (bid_qty ob) i))
                     (dmul (level (ask_px ob) i) (level (ask_qty ob) i))),
   dadd sum_q (dadd (level (bid_qty ob) i) (level (ask_qty ob) i))).

Definition vwap_scalar (ob : OrderBook) : double :=
  let '(sum_pq, sum_q) :=
    fold_left (vwap_step ob) (List.seq 0 (Z.to_nat kMaxDepth)) (dzero, dzero) in
  vwap_of_sums ob sum_pq sum_q.

(** The AVX2 path: four lanes of fused multiply-adds, the fifth level scalar. *)
Definition lane_pq (ob : OrderBook) (i : nat) : double :=
  dfma (level (ask_px ob) i) (level (ask_qty ob) i)
    (dfma (level (bid_px ob) i) (level (bid_qty ob) i) dzero).
Definition lane_q (ob : OrderBook) (i : nat) : double :=
  dadd dzero (dadd (level (bid_qty ob) i) (level (ask_qty ob) i)).

Definition vwap_avx2 (ob : OrderBook) : double :=
  let sum_pq :=
    dadd (dadd (dadd (dadd (dadd (lane_pq ob 0) (lane_pq ob 1)) (lane_pq ob 2)) (lane_pq ob 3))
      (dmul (level (bid_px ob) 4) (level (bid_qty ob) 4)))
      (dmul (level (ask_px ob) 4) (level (ask_qty ob) 4)) in
  let sum_q :=
    dadd (dadd (dadd (dadd (dadd (lane_q ob 0) (lane_q ob 1)) (lane_q ob 2)) (lane_q ob 3))
      (level (bid_qty ob) 4)) (level (ask_qty ob) 4) in
  vwap_of_sums ob sum_pq sum_q.

Record book_wf (ob : OrderBook) : Prop := {
  bwf_bp : levels_ok (bid_px ob);
  bwf_bq : levels_ok (bid_qty ob);
  bwf_ap : levels_ok (ask_px ob);
  bwf_aq : levels_ok (ask_qty ob)
}.

(** ** A book on a price grid: prices [p * 2^e], whole quantities *)

Definition on_grid (e : Z) (l : list double) (zs : list Z) : Prop :=
  l = map (fun z => dyadic z e) zs /\ length zs = Z.to_nat kMaxDepth /\ Forall (fun z => 0 <= z) zs.

Definition dot (ps qs : list Z) : Z := fold_right Z.add 0 (zip_with Z.mul ps qs).
Definition sum (qs : list Z) : Z := fold_right Z.add 0 qs.

Lemma book_init_wf : book_wf book_init.
Proof. by repeat split. Qed.

Lemma apply_snapshot_wf e d ob : MdEvent_wf e -> book_wf (apply_snapshot e d ob).
Proof. intros []. by repeat split. Qed.

Lemma on_grid_levels e l zs :
  on_grid e l zs -> exists a b c d f, zs = [a; b; c; d; f] /\
    l = [dyadic a e; dyadic b e; dyadic c e; dyadic d e; dyadic f e] /\
    0 <= a /\ 0 <= b /\ 0 <= c /\ 0 <= d /\ 0 <= f.
Proof.
  intros (-> & Hlen & HF).
  destruct zs as [|a [|b [|c [|d [|f [|]]]]]]; try done.
  exists a, b, c, d, f. repeat (apply Forall_cons_iff in HF as [? HF]). by repeat split.
Qed.

(** A full refresh replaces the whole book by the event, caps both level
    counts at the configured depth when it is a legal depth, keeps the arrays
    their size, and says two-sided exactly when the event is two-sided and the
    depth is not 0. *)
Theorem apply_snapshot_correct (e : MdEvent) (max_depth : Z) (ob : OrderBook) :
  MdEvent_wf e -> 0 <= max_depth <= kMaxDepth ->
  let ob' := apply_snapshot e max_depth ob in
  book_wf ob' /\
  n_bids ob' = Z.min (md_n_bids e) max_depth /\ n_asks ob' = Z.min (md_n_asks e) max_depth /\
  bid_px ob' = md_bid_px e /\ bid_qty ob' = md_bid_qty e /\
  ask_px ob' = md_ask_px e /\ ask_qty ob' = md_ask_qty e /\
  last_update_ns ob' = md_t_recv_ns e /\ seq ob' = md_seq e /\
  (has_bba ob' = true <-> 0 < md_n_bids e /\ 0 < md_n_asks e /\ 0 < max_depth).
Proof.
  intros Hw Hd ob'. assert (Hcap : forall n, cap_levels n max_depth = Z.min n max_depth).
  { intros n. unfold cap_levels. unfold kMaxDepth in Hd.
    destruct (Z.ltb_spec max_depth n); [|lia]. unfold u16. rewrite Z.mod_small; lia. }
  split; [by apply apply_snapshot_wf|]. unfold ob', apply_snapshot, has_bba. simpl.
  rewrite !Hcap, andb_true_iff, !Z.ltb_lt. repeat (split; [done|]). lia.
Qed.

Lemma apply_snapshot_correct_witness :
  n_bids (apply_snapshot MdEvent_zero 5 book_init) = 0 /\ book_wf (apply_snapshot MdEvent_zero 5 book_init).
Proof.
  destruct (apply_snapshot_correct MdEvent_zero 5 book_init) as (H1 & H2 & _);
    [by repeat split|unfold kMaxDepth; lia|].
  exact (conj H2 H1).
Defined.

(** ** Exactness of the building blocks on the grid *)

Lemma pq_dyadic p q e :
  0 <= p -> 0 <= q -> fits53 p -> fits53 q -> fits53 (p * q) -> grid_exp e ->
  dmul (dyadic p e) (dyadic q 0) = dyadic (p * q) e.
Proof.
  intros. rewrite dmul_dyadic; rewrite ?Z.add_0_r; try done; unfold grid_exp in *; lia.
Qed.

Lemma lane_dyadic p q p' q' e :
  0 <= p -> 0 <= q -> 0 <= p' -> 0 <= q' -> fits53 p -> fits53 q -> fits53 p' -> fits53 q' ->
  0 <= p * q -> fits53 (p * q) -> fits53 (p' * q' + p * q) -> grid_exp e ->
  dfma (dyadic p' e) (dyadic q' 0) (dfma (dyadic p e) (dyadic q 0) dzero)
  = dyadic (p' * q' + p * q) e.
Proof.
  intros. assert (He0 : grid_exp 0) by (unfold grid_exp; lia).
  assert (He : grid_exp (e + 0)) by by rewrite Z.add_0_r.
  rewrite <- (dyadic_0 (e + 0)), dfma_dyadic by (rewrite ?Z.add_0_r; done || lia).
  rewrite dfma_dyadic by (rewrite ?Z.add_0_r; done || lia). by rewrite !Z.add_0_r.
Qed.

Lemma dzero_dadd m e : fits53 m -> grid_exp e -> dadd dzero (dyadic m e) = dyadic m e.
Proof.
  intros Hm He. rewrite <- (dyadic_0 e). rewrite dadd_dyadic; rewrite ?Z.add_0_l; try done.
Qed.

Lemma dgt_zero m e : fits53 m -> grid_exp e -> dgt (dyadic m e) dzero = (0 <? m).
Proof. intros Hm He. rewrite <- (dyadic_0 e). by apply dlt_dyadic. Qed.

(** The scalar loop, unrolled. *)
Lemma vwap_scalar_unfold ob :
  let pq i := dadd (dmul (level (bid_px ob) i) (level (bid_qty ob) i))
                   (dmul (level (ask_px ob) i) (level (ask_qty ob) i)) in
  let q i := dadd (level (bid_qty ob) i) (level (ask_qty ob) i) in
  vwap_scalar ob = vwap_of_sums ob
    (dadd (dadd (dadd (dadd (dadd dzero (pq 0%nat)) (pq 1%nat)) (pq 2%nat)) (pq 3%nat)) (pq 4%nat))
    (dadd (dadd (dadd (dadd (dadd dzero (q 0%nat)) (q 1%nat)) (q 2%nat)) (q 3%nat)) (q 4%nat)).
Proof. reflexivity. Qed.

(** C35: on a book whose prices lie on one dyadic grid and whose quantities
    are whole, with the products summing below 2^53, the AVX2 path, the scalar
    fallback and the exact quotient of the sums give the same theoretical
    price. *)
Theorem vwap_paths_agree (ob : OrderBook) (e : Z) (bp bq ap aq : list Z) :
  grid_exp e ->
  on_grid e (bid_px ob) bp -> on_grid 0 (bid_qty ob) bq ->
  on_grid e (ask_px ob) ap -> on_grid 0 (ask_qty ob) aq ->
  Forall fits53 (bp ++ ap) ->
  dot bp bq + dot ap aq < 2 ^ 53 -> 0 < sum bq + sum aq < 2 ^ 53 ->
  vwap_avx2 ob = ddiv (dyadic (dot bp bq + dot ap aq) e) (dyadic (sum bq + sum aq) 0) /\
  vwap_scalar ob = vwap_avx2 ob.
Proof.
  intros He Hbp Hbq Hap Haq HF Hdot Hsum.
  assert (He0 : grid_exp 0) by (unfold grid_exp; lia).
  apply on_grid_levels in Hbp as (a1 & a2 & a3 & a4 & a5 & -> & Ebp & ? & ? & ? & ? & ?).
  apply on_grid_levels in Hbq as (b1 & b2 & b3 & b4 & b5 & -> & Ebq & ? & ? & ? & ? & ?).
  apply on_grid_levels in Hap as (c1 & c2 & c3 & c4 & c5 & -> & Eap & ? & ? & ? & ? & ?).
  apply on_grid_levels in Haq as (d1 & d2 & d3 & d4 & d5 & -> & Eaq & ? & ? & ? & ? & ?).
  simpl in HF. repeat (apply Forall_cons_iff in HF as [? HF]). clear HF.
  unfold dot, sum in *. simpl in Hdot, Hsum |- *.
  pose proof (Z.mul_nonneg_nonneg a1 b1). pose proof (Z.mul_nonneg_nonneg a2 b2).
  pose proof (Z.mul_nonneg_nonneg a3 b3). pose proof (Z.mul_nonneg_nonneg a4 b4).
  pose proof (Z.mul_nonneg_nonneg a5 b5). pose proof (Z.mul_nonneg_nonneg c1 d1).
  pose proof (Z.mul_nonneg_nonneg c2 d2). pose proof (Z.mul_nonneg_nonneg c3 d3).
  pose proof (Z.mul_nonneg_nonneg c4 d4). pose proof (Z.mul_nonneg_nonneg c5 d5).
  rewrite vwap_scalar_unfold. unfold vwap_avx2, lane_pq, lane_q, level.
  rewrite Ebp, Ebq, Eap, Eaq. cbn [nth].
  rewrite !lane_dyadic, !pq_dyadic by (unfold fits53 in *; lia || done).
  repeat first [rewrite dadd_dyadic by (unfold fits53 in *; lia || done)
               |rewrite dzero_dadd by (unfold fits53 in *; lia || done)].
  unfold vwap_of_sums. rewrite !dgt_zero by (unfold fits53; lia || done).
  rewrite !(proj2 (Z.ltb_lt 0 _)) by lia. split; do 2 f_equal; lia.
Qed.

Lemma vwap_paths_agree_witness :
  let ob := mkBook (map (fun z => dyadic z (-1)) [1000; 999; 998; 0; 0]) (map (fun z => dyadic z 0) [5; 2; 1; 0; 0])
              (map (fun z => dyadic z (-1)) [1010; 1011; 0; 0; 0]) (map (fun z => dyadic z 0) [4; 3; 0; 0; 0]) 3 2 0 0 in
  vwap_scalar ob = vwap_avx2 ob.
Proof.
  apply (vwap_paths_agree _ (-1) [1000; 999; 998; 0; 0] [5; 2; 1; 0; 0]
    [1010; 1011; 0; 0; 0] [4; 3; 0; 0; 0]); try done;
    try (split; [done|]; split; [done|]); repeat constructor; try lia.
Defined.
