(* ===== verification/OrderManager.v ===== *)
(** * Order-state machine (src/src/oms/order_manager.hpp)

    One working quote per symbol and side, owned by the strategy thread.  The
    array [Quote q_[kMaxSymbols][2]] is a matrix of slots; an index outside it
    is undefined behaviour and shows as [UB OutOfBounds]. *)
From S2P Require Import Prelude.
From S2P Require Import Double.
From S2P Require Import Events.

Inductive QuoteState := QsNone | PendingNew | Live | PendingCancel.

#[export] Instance QuoteState_eq_dec : EqDecision QuoteState.
Proof. solve_decision. Defined.

Record Quote := mkQuote {
  q_state : QuoteState;
  q_cl_ord_id : Z;
  q_price : double;
  q_qty : double;
  q_exch_order_id : list Ascii.ascii
}.

(** [Quote{}]. *)
Definition Quote_zero : Quote := mkQuote QsNone 0 dzero dzero (zero_chars order_id_size).

#[export] Instance Quote_eq_dec : EqDecision Quote.
Proof. solve_decision. Defined.

Record OrderManager := mkOms { q_ : list (list Quote) }.

Definition oms_init : OrderManager :=
  mkOms (replicate (Z.to_nat kMaxSymbols) (replicate 2 Quote_zero)).

(** [side == OrdSide::Buy ? 0 : 1]. *)
Definition side_index (side : OrdSide) : Z := if decide (side = Buy) then 0 else 1.

Definition slot_read (o : OrderManager) (sym s : Z) : Res Quote :=
  match zget2 (q_ o) sym s with
  | Some q => Ok q
  | None => Err (UB OutOfBounds)
  end.

Definition slot_write (o : OrderManager) (sym s : Z) (q : Quote) : OrderManager :=
  mkOms (zset2 (q_ o) sym s q).

(** [quote]: reading through the reference it returns. *)
Definition quote (o : OrderManager) (sym : Z) (side : OrdSide) : Res Quote :=
  slot_read o sym (side_index side).

Definition quote_set (o : OrderManager) (sym : Z) (side : OrdSide) (q : Quote) : OrderManager :=
  slot_write o sym (side_index side) q.

(** The switch of [on_exec]. *)
Definition exec_quote (e : ExecEvent) (q : Quote) : Quote :=
  match x_kind e with
  | ExNew => mkQuote Live (q_cl_ord_id q) (q_price q) (q_qty q) (x_order_id e)
  | ExPartFill => mkQuote (q_state q) (q_cl_ord_id q) (q_price q) (x_leaves_qty e) (q_exch_order_id q)
  | ExFilled | ExCanceled | ExRejected => Quote_zero
  | ExReplaced | ExOther => q
  end.

(** The loop over the two sides, from the list of the sides still to visit. *)
Fixpoint on_exec_loop (e : ExecEvent) (sides : list Z) (o : OrderManager) : Res OrderManager :=
  match sides with
  | [] => Ok o
  | s :: sides =>
      res_bind (slot_read o (x_symbol_id e) s) (fun q =>
      if q_cl_ord_id q =? x_cl_ord_id e
      then Ok (slot_write o (x_symbol_id e) s (exec_quote e q))
      else on_exec_loop e sides o)
  end.

Definition on_exec (e : ExecEvent) (o : OrderManager) : Res OrderManager :=
  on_exec_loop e [0; 1] o.

Definition any_active (sym : Z) (o : OrderManager) : Res bool :=
  res_bind (slot_read o sym 0) (fun q0 =>
  res_bind (slot_read o sym 1) (fun q1 =>
  Ok (bool_decide (q_state q0 <> QsNone) || bool_decide (q_state q1 <> QsNone)))).

(** ** Shape of the array *)

Definition oms_shape (o : OrderManager) : Prop := is_matrix 8 2 (q_ o).

(** The slot's value, for the statements. *)
Definition slot_at (o : OrderManager) (sym : Z) (side : OrdSide) : option Quote :=
  zget2 (q_ o) sym (side_index side).

(** A slot free to quote: the state every terminal report resets it to. *)
Definition slot_free (q : Quote) : Prop := q = Quote_zero.

(** Slots in use have a state, slots not in use are value-initialised. *)
Definition oms_wf (o : OrderManager) : Prop :=
  oms_shape o /\
  forall sym side q, slot_at o sym side = Some q -> q_state q = QsNone -> slot_free q.

Lemma side_index_cases side : side_index side = 0 \/ side_index side = 1.
Proof. unfold side_index. case_decide; auto. Qed.

Lemma side_index_inj a b : a <> SideZero -> b <> SideZero -> side_index a = side_index b -> a = b.
Proof. by destruct a, b. Qed.

Lemma oms_init_slot sym side q : slot_at oms_init sym side = Some q -> q = Quote_zero.
Proof.
  unfold slot_at, zget2.
  change (q_ oms_init) with (replicate (Z.to_nat kMaxSymbols) (replicate 2 Quote_zero)).
  destruct (zget _ sym) as [r|] eqn:E; [|done]. intros H.
  apply zget_Some in E as [_ [-> _]%lookup_replicate_1].
  by apply zget_Some in H as [_ [-> _]%lookup_replicate_1].
Qed.

Lemma oms_init_wf : oms_wf oms_init.
Proof.
  split.
  - split; [done|]. by repeat constructor.
  - intros sym side q H _. by apply oms_init_slot in H.
Qed.

Lemma slot_at_ok o sym side :
  oms_shape o -> 0 <= sym < kMaxSymbols -> exists q, slot_at o sym side = Some q.
Proof.
  intros Hs H. apply (zget2_is_Some 8 2); [done|unfold kMaxSymbols in H; lia|].
  destruct (side_index_cases side) as [-> | ->]; lia.
Qed.

Lemma slot_at_range o sym side q :
  oms_shape o -> slot_at o sym side = Some q -> 0 <= sym < kMaxSymbols.
Proof.
  unfold slot_at, zget2. intros [Hl _] H. destruct (zget (q_ o) sym) as [r|] eqn:E; [|done].
  apply zget_Some in E as [E0 E%lookup_lt_Some]. unfold kMaxSymbols. lia.
Qed.

Lemma quote_slot o sym side q : slot_at o sym side = Some q -> quote o sym side = Ok q.
Proof. unfold slot_at, quote, slot_read. by intros ->. Qed.

Lemma quote_inv o sym side q : quote o sym side = Ok q -> slot_at o sym side = Some q.
Proof. unfold slot_at, quote, slot_read. destruct zget2; congruence. Qed.

Lemma quote_set_shape o sym side q : oms_shape o -> oms_shape (quote_set o sym side q).
Proof. apply is_matrix_zset2. Qed.

Lemma slot_at_set_eq o sym side q :
  oms_shape o -> 0 <= sym < kMaxSymbols ->
  slot_at (quote_set o sym side q) sym side = Some q.
Proof.
  intros Hs H. apply (zget2_zset2_eq 8 2); [done|unfold kMaxSymbols in H; lia|].
  destruct (side_index_cases side) as [-> | ->]; lia.
Qed.

Lemma slot_at_set_ne o sym side sym' side' q :
  (sym, side_index side) <> (sym', side_index side') ->
  slot_at (quote_set o sym side q) sym' side' = slot_at o sym' side'.
Proof. intros H. by apply zget2_zset2_ne. Qed.

Lemma slot_at_side o sym a b : side_index a = side_index b -> slot_at o sym a = slot_at o sym b.
Proof. unfold slot_at. by intros ->. Qed.

(** Sides 0 and 1 are the indices of Buy and Sell. *)
Lemma on_exec_unfold e o :
  on_exec e o =
  res_bind (quote o (x_symbol_id e) Buy) (fun b =>
  if q_cl_ord_id b =? x_cl_ord_id e
  then Ok (quote_set o (x_symbol_id e) Buy (exec_quote e b))
  else res_bind (quote o (x_symbol_id e) Sell) (fun s =>
  if q_cl_ord_id s =? x_cl_ord_id e
  then Ok (quote_set o (x_symbol_id e) Sell (exec_quote e s))
  else Ok o)).
Proof. reflexivity. Qed.

Lemma on_exec_cases e o :
  oms_shape o -> 0 <= x_symbol_id e < kMaxSymbols ->
  exists b s, slot_at o (x_symbol_id e) Buy = Some b /\ slot_at o (x_symbol_id e) Sell = Some s /\
  ((q_cl_ord_id b = x_cl_ord_id e /\ on_exec e o = Ok (quote_set o (x_symbol_id e) Buy (exec_quote e b))) \/
   (q_cl_ord_id b <> x_cl_ord_id e /\ q_cl_ord_id s = x_cl_ord_id e /\
      on_exec e o = Ok (quote_set o (x_symbol_id e) Sell (exec_quote e s))) \/
   (q_cl_ord_id b <> x_cl_ord_id e /\ q_cl_ord_id s <> x_cl_ord_id e /\ on_exec e o = Ok o)).
Proof.
  intros Hs Hr. destruct (slot_at_ok o (x_symbol_id e) Buy Hs Hr) as [b Hb].
  destruct (slot_at_ok o (x_symbol_id e) Sell Hs Hr) as [s Hs'].
  exists b, s. split; [done|]. split; [done|].
  rewrite on_exec_unfold, (quote_slot _ _ _ _ Hb), (quote_slot _ _ _ _ Hs'). simpl.
  destruct (Z.eqb_spec (q_cl_ord_id b) (x_cl_ord_id e)); [auto|].
  destruct (Z.eqb_spec (q_cl_ord_id s) (x_cl_ord_id e)); auto.
Qed.

(** A report that is processed names a symbol of the array. *)
Lemma on_exec_range e o o' :
  oms_shape o -> on_exec e o = Ok o' -> 0 <= x_symbol_id e < kMaxSymbols.
Proof.
  intros Hs He. rewrite on_exec_unfold in He. destruct (quote o (x_symbol_id e) Buy) eqn:E; [|done].
  by eapply slot_at_range, quote_inv.
Qed.

(** Only the slot of the reporting symbol can change, to [exec_quote] of what
    it held, and only when it holds the reported ClOrdID. *)
Lemma on_exec_slot e o o' sym side q' :
  oms_shape o -> on_exec e o = Ok o' -> slot_at o' sym side = Some q' ->
  exists q, slot_at o sym side = Some q /\
  (q' = q \/ (sym = x_symbol_id e /\ q_cl_ord_id q = x_cl_ord_id e /\ q' = exec_quote e q)).
Proof.
  intros Hs He Hq'.
  pose proof (on_exec_range e o o' Hs He) as Hr.
  destruct (on_exec_cases e o Hs Hr) as (b & s & Hb & Hs' & [(Hc & Ho)|[(Hn & Hc & Ho)|(Hn & Hn' & Ho)]]);
    rewrite Ho in He; injection He as <-; [| |by exists q'; auto].
  - destruct (decide ((x_symbol_id e, side_index Buy) = (sym, side_index side))) as [E|E].
    + injection E as <- E. exists b. rewrite <- !(slot_at_side _ _ Buy side E) in *.
      rewrite slot_at_set_eq in Hq' by done. injection Hq' as <-. auto.
    + rewrite slot_at_set_ne in Hq' by done. exists q'. auto.
  - destruct (decide ((x_symbol_id e, side_index Sell) = (sym, side_index side))) as [E|E].
    + injection E as <- E. exists s. rewrite <- !(slot_at_side _ _ Sell side E) in *.
      rewrite slot_at_set_eq in Hq' by done. injection Hq' as <-. auto.
    + rewrite slot_at_set_ne in Hq' by done. exists q'. auto.
Qed.

Lemma on_exec_shape e o o' : oms_shape o -> on_exec e o = Ok o' -> oms_shape o'.
Proof.
  intros Hs. rewrite on_exec_unfold. destruct (quote o _ Buy) as [b|]; [|done]. simpl.
  destruct (_ =? _); [intros [= <-]; by apply quote_set_shape|].
  destruct (quote o _ Sell) as [s|]; [|done]. simpl.
  destruct (_ =? _); intros [= <-]; [by apply quote_set_shape|done].
Qed.

Lemma exec_quote_wf e q :
  (q_state q = QsNone -> slot_free q) -> 0 < q_cl_ord_id q ->
  q_state (exec_quote e q) = QsNone -> slot_free (exec_quote e q).
Proof.
  intros Hw Hc. unfold exec_quote. destruct (x_kind e); simpl; try done; auto.
  intros ->%Hw. simpl in Hc. lia.
Qed.

#[export] Hint Resolve quote_set_shape on_exec_shape oms_init_wf : mm.

(** ** Abstract specification: a table of working orders keyed by ClOrdID *)

Abbreviation order_table := (gmap Z (Z * OrdSide * Quote)).

(** A report moves the order it names, or takes it off the table. *)
Definition table_exec (e : ExecEvent) (m : order_table) : order_table :=
  match m !! x_cl_ord_id e with
  | Some (sym, side, q) =>
      if decide (sym = x_symbol_id e) then
        match x_kind e with
        | ExFilled | ExCanceled | ExRejected => delete (x_cl_ord_id e) m
        | _ => <[x_cl_ord_id e := (sym, side, exec_quote e q)]> m
        end
      else m
  | None => m
  end.

(** The slots hold exactly the orders of the table. *)
Definition table_of (o : OrderManager) (m : order_table) : Prop :=
  forall id sym side q, m !! id = Some (sym, side, q) <->
    id <> 0 /\ side <> SideZero /\ slot_at o sym side = Some q /\ q_cl_ord_id q = id.

Lemma table_of_init : table_of oms_init ∅.
Proof.
  intros id sym side q. rewrite lookup_empty. split; [done|].
  intros (Hid & _ & Hs & Hq). apply oms_init_slot in Hs. subst. by simpl in Hid.
Qed.

(** Writing a slot moves the table by the slot's old and new orders. *)
Lemma table_of_set_keep o m sym side q q' :
  oms_shape o -> table_of o m -> side <> SideZero -> slot_at o sym side = Some q ->
  q_cl_ord_id q <> 0 -> q_cl_ord_id q' = q_cl_ord_id q ->
  table_of (quote_set o sym side q') (<[q_cl_ord_id q := (sym, side, q')]> m).
Proof.
  intros Hsh Hm Hside Hq Hn Hid id sym1 side1 q1.
  pose proof (slot_at_range _ _ _ _ Hsh Hq) as Hr.
  assert (Hmq : m !! q_cl_ord_id q = Some (sym, side, q)) by by apply Hm.
  destruct (decide (q_cl_ord_id q = id)) as [<-|Hne].
  - rewrite lookup_insert_eq. split.
    + intros [= <- <- <-]. by rewrite slot_at_set_eq.
    + intros (_ & Hs1 & Hat & Hq1).
      destruct (decide ((sym, side_index side) = (sym1, side_index side1))) as [E|E].
      * injection E as -> E%side_index_inj; [|done..]. subst side1.
        rewrite slot_at_set_eq in Hat by done. congruence.
      * rewrite slot_at_set_ne in Hat by done.
        assert (m !! q_cl_ord_id q = Some (sym1, side1, q1)) by by apply Hm. congruence.
  - rewrite lookup_insert_ne by done. rewrite (Hm id sym1 side1 q1).
    destruct (decide ((sym, side_index side) = (sym1, side_index side1))) as [E|E].
    + split; intros (Hid1 & Hs1 & Hat & Hq1); exfalso;
        injection E as -> E%side_index_inj; try done; subst side1.
      * congruence.
      * rewrite slot_at_set_eq in Hat by done. congruence.
    + by rewrite slot_at_set_ne.
Qed.

Lemma table_of_set_free o m sym side q :
  oms_shape o -> table_of o m -> side <> SideZero -> slot_at o sym side = Some q ->
  table_of (quote_set o sym side Quote_zero) (delete (q_cl_ord_id q) m).
Proof.
  intros Hsh Hm Hside Hq id sym1 side1 q1.
  pose proof (slot_at_range _ _ _ _ Hsh Hq) as Hr. rewrite lookup_delete_Some, (Hm id sym1 side1 q1).
  destruct (decide ((sym, side_index side) = (sym1, side_index side1))) as [E|E].
  - split; [intros (Hne & Hid1 & Hs1 & Hat & Hq1)|intros (Hid1 & Hs1 & Hat & Hq1)]; exfalso;
      injection E as -> E%side_index_inj; try done; subst side1.
    + congruence.
    + rewrite slot_at_set_eq in Hat by done. injection Hat as <-. by simpl in Hq1.
  - rewrite slot_at_set_ne by done. split; [naive_solver|].
    intros (Hid1 & Hs1 & Hat & Hq1). split; [|done]. intros Heq.
    assert (m !! id = Some (sym1, side1, q1)) by by apply Hm.
    assert (m !! id = Some (sym, side, q)) by (apply Hm; naive_solver). congruence.
Qed.

(** The matching branch of the switch, as a move of the table. *)
Lemma table_of_exec o m e side q :
  oms_shape o -> table_of o m -> side <> SideZero -> x_cl_ord_id e <> 0 ->
  slot_at o (x_symbol_id e) side = Some q -> q_cl_ord_id q = x_cl_ord_id e ->
  table_of (quote_set o (x_symbol_id e) side (exec_quote e q)) (table_exec e m).
Proof.
  intros Hsh Hm Hside Hn Hq Hid.
  assert (Hmq : m !! x_cl_ord_id e = Some (x_symbol_id e, side, q)) by by apply Hm.
  unfold table_exec. rewrite Hmq, decide_True by done. rewrite <- Hid in *.
  pose proof (table_of_set_keep o m _ _ q (exec_quote e q) Hsh Hm Hside Hq Hn) as Hkeep.
  pose proof (table_of_set_free o m _ _ q Hsh Hm Hside Hq) as Hfree.
  unfold exec_quote in *. by destruct (x_kind e); auto.
Qed.

(** ** Properties *)

(** C12: an execution report never touches memory outside the array for a
    symbol below kMaxSymbols, and then it is the report applied to the table of
    working orders keyed by ClOrdID: the order it names is moved (made live,
    its quantity set to the leaves, or removed), every other order is kept, and
    a report that names no working order changes nothing. *)
Theorem on_exec_refines_table (e : ExecEvent) (o : OrderManager) (m : order_table) :
  oms_shape o -> table_of o m -> 0 <= x_symbol_id e < kMaxSymbols -> x_cl_ord_id e <> 0 ->
  exists o', on_exec e o = Ok o' /\ oms_shape o' /\ table_of o' (table_exec e m).
Proof.
  intros Hsh Hm Hr Hn.
  destruct (on_exec_cases e o Hsh Hr) as (b & s & Hb & Hs & [(Hc & Ho)|[(Hnc & Hc & Ho)|(Hnb & Hns & Ho)]]);
    rewrite Ho; eexists; (split; [done|]).
  - split; [by apply quote_set_shape|]. by apply table_of_exec.
  - split; [by apply quote_set_shape|]. by apply table_of_exec.
  - split; [done|]. unfold table_exec.
    destruct (m !! x_cl_ord_id e) as [[[sym side] q]|] eqn:E; [|done].
    case_decide as Hsym; [|done]. exfalso.
    apply Hm in E as (_ & Hside & Hat & Hid). subst sym. destruct side; congruence.
Qed.

Definition demo_new : ExecEvent :=
  mkExecEvent 0 7 ExNew Buy 3 dzero dzero dzero (zero_chars order_id_size).

Lemma on_exec_refines_table_witness :
  exists o', on_exec demo_new oms_init = Ok o' /\ table_of o' (table_exec demo_new ∅).
Proof.
  destruct (on_exec_refines_table demo_new oms_init ∅) as (o' & H1 & _ & H2);
    [apply oms_init_wf|apply table_of_init|vm_compute; split; [discriminate|reflexivity]|done|].
  exists o'. exact (conj H1 H2).
Defined.

(** A report for a symbol the array does not have (UINT32_MAX for an
    unknown symbol, which the FIX side pushes unchecked) is an access out of
    bounds, and that is the only way [on_exec] goes wrong. *)
Theorem on_exec_fault_iff (e : ExecEvent) (o : OrderManager) :
  oms_shape o ->
  (on_exec e o = Err (UB OutOfBounds) <-> ~ (0 <= x_symbol_id e < kMaxSymbols)) /\
  (0 <= x_symbol_id e < kMaxSymbols -> exists o', on_exec e o = Ok o').
Proof.
  intros Hsh. split; [split|].
  - intros He Hr. destruct (on_exec_cases e o Hsh Hr) as (b & s & _ & _ & [(_ & Ho)|[(_ & _ & Ho)|(_ & _ & Ho)]]);
      congruence.
  - intros Hr. rewrite on_exec_unfold. unfold quote, slot_read, zget2.
    rewrite zget_oob; [done|]. destruct Hsh as [-> _]. exact Hr.
  - intros Hr. destruct (on_exec_cases e o Hsh Hr) as (b & s & _ & _ & [(_ & Ho)|[(_ & _ & Ho)|(_ & _ & Ho)]]);
      eauto.
Qed.

Lemma on_exec_fault_iff_witness :
  on_exec (mkExecEvent 0 7 ExNew Buy UINT32_MAX dzero dzero dzero []) oms_init = Err (UB OutOfBounds).
Proof.
  apply (on_exec_fault_iff _ oms_init (proj1 oms_init_wf)). cbn [x_symbol_id].
  unfold UINT32_MAX, kMaxSymbols. lia.
Defined.

(** ClOrdID 0 names every free slot: a New report without a numeric
    ClOrdID for a symbol with no Buy order leaves a phantom Live quote at
    price 0 with ClOrdID 0, an order that was never sent. *)
Theorem phantom_quote (e : ExecEvent) (o : OrderManager) :
  oms_shape o -> x_cl_ord_id e = 0 -> x_kind e = ExNew ->
  slot_at o (x_symbol_id e) Buy = Some Quote_zero ->
  exists o' q, on_exec e o = Ok o' /\ slot_at o' (x_symbol_id e) Buy = Some q /\
    q_state q = Live /\ q_cl_ord_id q = 0 /\ q_price q = dzero /\ q_qty q = dzero.
Proof.
  intros Hsh Hid Hk Hb. rewrite on_exec_unfold, (quote_slot _ _ _ _ Hb). simpl.
  rewrite Hid. simpl. do 2 eexists. split; [done|].
  split; [apply slot_at_set_eq; [done|by eapply slot_at_range]|].
  unfold exec_quote. by rewrite Hk.
Qed.

Lemma phantom_quote_witness :
  exists o' q, on_exec ExecEvent_zero oms_init = Ok o' /\ slot_at o' 0 Buy = Some q /\ q_state q = Live.
Proof.
  destruct (phantom_quote ExecEvent_zero oms_init) as (o' & q & H1 & H2 & H3 & _);
    [apply oms_init_wf|reflexivity|reflexivity|vm_compute; reflexivity|].
  exists o', q. exact (conj H1 (conj H2 H3)).
Defined.
