(* ===== verification/AsyncLogger.v ===== *)
(** * Operations log (src/src/common/async_logger.hpp)

    The hot path pushes a fixed record to a ring; a cold thread drains the ring
    into a CSV file.  The file is the list of the lines written to it. *)
From S2P Require Import Prelude.
From S2P Require Import Double.
From S2P Require Import Events.
From S2P Require Import SpscRing.
From S2P Require Import Queue.
From S2P Require Import Text.
From S2P Require Import LatencyHistogram.
From S2P Require Import Metrics.
From Stdlib Require Import Ascii.

Definition kLogCap : Z := Z.shiftl 1 14.

#[export] Instance kLogCap_legal : LegalCapacity kLogCap.
Proof. exact legal_capacity_14. Qed.

(** ** printf of a double: [%.6f] and [%.2f] *)

(** Nearest integer to [n / d], ties to even. *)
Definition round_half_even (n d : Z) : Z :=
  let q := n / d in
  match 2 * (n mod d) ?= d with
  | Lt => q
  | Gt => q + 1
  | Eq => if Z.even q then q else q + 1
  end.

(** The magnitude [m * 2^e] scaled by [10^prec] and rounded. *)
Definition scaled (prec m e : Z) : Z :=
  if 0 <=? e then m * 10 ^ prec * 2 ^ e else round_half_even (m * 10 ^ prec) (2 ^ (- e)).

(** Integer part, a point, [prec] decimals. *)
Definition fmt_scaled (prec n : Z) : chars :=
  map digit_char (to_digits 320 (n / 10 ^ prec)) ++ [chr 46] ++
  zero_pad (Z.to_nat prec) (map digit_char (to_digits 320 (n mod 10 ^ prec))).

Definition fmt_fixed (prec : Z) (d : double) : chars :=
  match d with
  | S754_zero s => (if s then [chr 45] else []) ++ fmt_scaled prec 0
  | S754_infinity s => (if s then [chr 45] else []) ++ chars_of_string "inf"
  | S754_nan => chars_of_string "nan"
  | S754_finite s m e => (if s then [chr 45] else []) ++ fmt_scaled prec (scaled prec (Zpos m) e)
  end.

(** [%lld]. *)
Definition fmt_lld (z : Z) : chars := if z <? 0 then chr 45 :: fmt_llu (- z) else fmt_llu z.

(** ** The CSV line *)

Definition comma : ascii := chr 44.

Definition kind_name (k : LogKind) : chars :=
  chars_of_string match k with
  | LkMdTick => "MD" | LkOrderNew => "NEW" | LkOrderCxl => "CXL" | LkExec => "EXEC" | LkInfo => "INFO"
  end%string.

Definition columns (r : LogRecord) : list chars :=
  [fmt_lld (l_t_ns r); kind_name (l_kind r); fmt_u (l_symbol_id r);
   fmt_u (OrdSide_code (l_side r)); fmt_fixed 6 (l_px r); fmt_fixed 2 (l_qty r);
   fmt_llu (l_cl_ord_id r); c_str (l_text r)].

Definition csv_row (r : LogRecord) : chars := join comma (columns r).

Definition csv_header : chars := chars_of_string "ts_ns,kind,symbol_id,side,px,qty,cl_ord_id,text".

(** ** The logger *)
Section AsyncLogger.
Context {QO : QueueOps}.

(** [f_]: None when fopen failed. *)
Record AsyncLogger := mkLogger {
  log_ring_ : Queue kLogCap LogRecord;
  f_ : option (list chars)
}.

Definition logger_open (ok : bool) : AsyncLogger :=
  mkLogger (q_init kLogCap LogRecord) (if ok then Some [csv_header] else None).

Definition log (r : LogRecord) (lm : AsyncLogger * Metrics) : Res (bool * (AsyncLogger * Metrics)) :=
  let '(lg, m) := lm in
  res_bind (q_push r (log_ring_ lg)) (fun '(ok, ring) =>
  Ok (ok, (mkLogger ring (f_ lg), track_log_queue m (q_size ring)))).

(** [strncpy(r.text, msg, sizeof(r.text) - 1)] on a zeroed record. *)
Definition text_record (k : LogKind) (msg : chars) : LogRecord :=
  mkLogRecord 0 k SideZero 0 dzero dzero 0
    (strncpy (zero_chars text_size) msg (Z.to_nat (text_size - 1))).

Definition log_text (k : LogKind) (msg : chars) (lm : AsyncLogger * Metrics)
    : Res (AsyncLogger * Metrics) :=
  res_bind (log (text_record k msg) lm) (fun '(_, lm) => Ok lm).

(** Body of the drain loop: the line, when there is a file, and the count. *)
Definition write_row (r : LogRecord) (a : option (list chars) * Z) : Res (option (list chars) * Z) :=
  let '(f, drained) := a in
  Ok (match f with Some lines => Some (lines ++ [csv_row r]) | None => None end, drained + 1).

(** One iteration of [run]'s outer loop (flush and sleep have no effect on the
    state). *)
Definition log_iter (lg : AsyncLogger) : Res AsyncLogger :=
  res_bind (q_drain (drain_fuel (log_ring_ lg)) write_row (log_ring_ lg) (f_ lg, 0))
    (fun '((f, _), ring) => Ok (mkLogger ring f)).

(** The outer loop.  Before each test of its condition the producer has logged
    some records; the flags are the values [running.load()] reads.  The loop
    ends when a flag is false and the ring is empty, or the script runs out. *)
Fixpoint log_run (script : list (list LogRecord * bool)) (lm : AsyncLogger * Metrics)
    : Res (bool * (AsyncLogger * Metrics)) :=
  match script with
  | [] => Ok (false, lm)
  | (rs, running) :: script =>
      res_bind (res_fold (fun r lm => res_bind (log r lm) (fun '(_, lm) => Ok lm)) rs lm)
        (fun '(lg, m) =>
      if running || (0 <? q_size (log_ring_ lg))
      then res_bind (log_iter lg) (fun lg => log_run script (lg, m))
      else Ok (true, (lg, m)))
  end.
End AsyncLogger.

(** ** Columns *)

Definition no_comma (s : chars) : Prop := Forall (fun c => c <> comma) s.

Lemma digits_no_comma l : Forall digit l -> no_comma (map digit_char l).
Proof.
  intros H. apply Forall_map. eapply Forall_impl; [|exact H]. intros d Hd Hc.
  apply (f_equal code) in Hc. rewrite code_digit_char in Hc by done.
  change (code comma) with 44 in Hc. unfold digit in Hd. lia.
Qed.

Lemma no_comma_dec s : forallb (fun c => negb (bool_decide (c = comma))) s = true -> no_comma s.
Proof.
  intros H. apply List.Forall_forall. intros c Hc. rewrite forallb_forall in H.
  specialize (H c Hc). by destruct (bool_decide_reflect (c = comma)).
Qed.

Lemma fmt_llu_no_comma n : 0 <= n -> no_comma (fmt_llu n).
Proof. intros H. by apply digits_no_comma, to_digits_digit. Qed.

Lemma fmt_lld_no_comma z : no_comma (fmt_lld z).
Proof.
  unfold fmt_lld. destruct (Z.ltb_spec z 0); [|by apply fmt_llu_no_comma].
  constructor; [discriminate|]. apply fmt_llu_no_comma. lia.
Qed.

Lemma zero_pad_no_comma w s : no_comma s -> no_comma (zero_pad w s).
Proof.
  intros H. apply Forall_app. split; [|done]. apply Forall_replicate. discriminate.
Qed.

Lemma fmt_scaled_no_comma prec n : 0 <= prec -> 0 <= n -> no_comma (fmt_scaled prec n).
Proof.
  intros Hp Hn. assert (0 < 10 ^ prec) by (apply Z.pow_pos_nonneg; lia).
  apply Forall_app; split; [|apply Forall_app; split].
  - apply digits_no_comma, to_digits_digit. by apply Z.div_pos.
  - by apply no_comma_dec.
  - apply zero_pad_no_comma, digits_no_comma, to_digits_digit.
    by apply Z.mod_pos_bound.
Qed.

Lemma scaled_nonneg prec p e : 0 <= prec -> 0 <= scaled prec (Zpos p) e.
Proof.
  intros Hp. assert (0 < 10 ^ prec) by (apply Z.pow_pos_nonneg; lia). unfold scaled.
  destruct (Z.leb_spec 0 e).
  - assert (0 < 2 ^ e) by (apply Z.pow_pos_nonneg; lia). nia.
  - assert (0 < 2 ^ (- e)) by (apply Z.pow_pos_nonneg; lia). unfold round_half_even.
    assert (0 <= Z.pos p * 10 ^ prec / 2 ^ (- e)) by (apply Z.div_pos; lia).
    destruct (_ ?= _); [destruct (Z.even _)|..]; lia.
Qed.

Lemma fmt_fixed_no_comma prec d : 0 <= prec -> no_comma (fmt_fixed prec d).
Proof.
  intros Hp. destruct d as [s|s| |s m e]; simpl.
  3: by apply no_comma_dec.
  all: apply Forall_app; split; [destruct s; by apply no_comma_dec|].
  - by apply fmt_scaled_no_comma.
  - by apply no_comma_dec.
  - by apply fmt_scaled_no_comma, scaled_nonneg.
Qed.

Lemma columns_no_comma r :
  0 <= l_symbol_id r -> 0 <= l_cl_ord_id r -> no_comma (c_str (l_text r)) ->
  Forall no_comma (columns r).
Proof.
  intros Hs Hc Ht. unfold columns.
  repeat (apply Forall_cons_iff; split); try done.
  - apply fmt_lld_no_comma.
  - destruct (l_kind r); by apply no_comma_dec.
  - by apply fmt_llu_no_comma.
  - destruct (l_side r); by apply fmt_llu_no_comma.
  - by apply fmt_fixed_no_comma.
  - by apply fmt_fixed_no_comma.
  - by apply fmt_llu_no_comma.
Qed.

(** A line of the operations log splits at its commas into exactly the
    eight columns its header announces, and the instrument, side and ClOrdID
    columns read back as the numbers that were logged, whatever the prices. *)
Theorem csv_row_parses (r : LogRecord) :
  in_u32 (l_symbol_id r) -> in_u64 (l_cl_ord_id r) -> no_comma (c_str (l_text r)) ->
  let cols := split_on comma (csv_row r) in
  length cols = length (split_on comma csv_header) /\
  (strtoull <$> cols !! 2%nat) = Some (l_symbol_id r) /\
  (strtoull <$> cols !! 3%nat) = Some (OrdSide_code (l_side r)) /\
  (strtoull <$> cols !! 6%nat) = Some (l_cl_ord_id r) /\
  cols !! 1%nat = Some (kind_name (l_kind r)) /\
  cols !! 7%nat = Some (c_str (l_text r)).
Proof.
  intros Hs Hc Ht cols. unfold in_u32 in Hs.
  assert (E : cols = columns r).
  { apply split_join; [done|]. apply columns_no_comma; unfold in_u64 in Hc; (lia || done). }
  rewrite E. split; [reflexivity|]. unfold columns. cbn [lookup list_lookup fmap option_fmap option_map].
  assert (Hn : forall n, in_u64 n -> strtoull (fmt_llu n) = n).
  { intros n Hn. rewrite <- (app_nil_r (fmt_llu n)). by apply strtoull_fmt. }
  unfold fmt_u. rewrite !Hn; [done|done|destruct (l_side r); done|unfold in_u64; lia].
Qed.

Lemma csv_row_parses_witness :
  let r := mkLogRecord 12 LkOrderNew Sell 3 (dlit 10505 10) (double_of_Z 2) 1234567 (zero_chars text_size) in
  (strtoull <$> split_on comma (csv_row r) !! 6%nat) = Some 1234567 /\
  csv_row r = chars_of_string "12,NEW,3,2,1050.500000,2.00,1234567,".
Proof.
  intros r. destruct (csv_row_parses r) as (_ & _ & _ & H & _);
    [done|done|by apply no_comma_dec|]. split; [exact H|]. vm_compute. reflexivity.
Defined.

(** ** Draining *)
Section Facts.
Context {QO : QueueOps} {QL : QueueLaws}.

Definition logger_ok (lg : AsyncLogger) : Prop := q_ok (log_ring_ lg).

Definition queued (lg : AsyncLogger) : list LogRecord := q_contents (log_ring_ lg).

Lemma log_spec r lg m :
  logger_ok lg ->
  exists lg', log r (lg, m) = Ok (Z.of_nat (length (queued lg)) <? kLogCap,
      (lg', track_log_queue m (Z.of_nat (length (queued lg'))))) /\
    logger_ok lg' /\ f_ lg' = f_ lg /\
    queued lg' = if Z.of_nat (length (queued lg)) <? kLogCap then queued lg ++ [r] else queued lg.
Proof.
  intros Hok. destruct (q_push_law kLogCap _ (log_ring_ lg) r kLogCap_legal Hok) as (q' & Hp & Hq' & Hc).
  unfold log. rewrite Hp. cbn [res_bind]. exists (mkLogger q' (f_ lg)).
  unfold queued, logger_ok. cbn [log_ring_ f_].
  destruct (q_size_law kLogCap _ q' kLogCap_legal Hq') as [-> _]. done.
Qed.

Lemma log_total r lg m :
  logger_ok lg -> exists b lg' m', log r (lg, m) = Ok (b, (lg', m')) /\ logger_ok lg'.
Proof. intros H. destruct (log_spec r lg m H) as (lg' & -> & Hok & _). eauto 10. Qed.

Lemma write_rows rs f n :
  res_fold write_row rs (f, n) =
  Ok (match f with Some lines => Some (lines ++ map csv_row rs) | None => None end,
      n + Z.of_nat (length rs)).
Proof.
  revert f n. induction rs as [|r rs IH]; intros f n; cbn [res_fold write_row res_bind map length].
  - f_equal. f_equal; [destruct f; by rewrite ?app_nil_r|lia].
  - rewrite IH. f_equal. f_equal; [|lia]. destruct f; [|done]. by rewrite <- app_assoc.
Qed.

(** One iteration writes everything queued, in order, and leaves the ring empty. *)
Lemma log_iter_spec lg lines :
  logger_ok lg -> f_ lg = Some lines ->
  exists lg', log_iter lg = Ok lg' /\ logger_ok lg' /\ queued lg' = [] /\
    f_ lg' = Some (lines ++ map csv_row (queued lg)).
Proof.
  intros Hok Hf. destruct (q_drain_all write_row (log_ring_ lg) (f_ lg, 0) Hok) as (q' & Hq' & Hc & Hd).
  unfold log_iter. rewrite Hd, write_rows. cbn [res_bind]. rewrite Hf. eexists. split; [done|].
  done.
Qed.

(** A batch of calls to [log] queues the records that fit. *)
Lemma log_batch rs lg m :
  logger_ok lg -> Z.of_nat (length (queued lg)) <= kLogCap ->
  exists lg' m', res_fold (fun r lm => res_bind (log r lm) (fun '(_, lm) => Ok lm)) rs (lg, m) = Ok (lg', m') /\
    logger_ok lg' /\ f_ lg' = f_ lg /\
    queued lg' = take (Z.to_nat kLogCap) (queued lg ++ rs).
Proof.
  revert lg m. induction rs as [|r rs IH]; intros lg m Hok Hlen.
  - exists lg, m. cbn [res_fold]. repeat (split; [done|]). rewrite app_nil_r, take_ge; [done|lia].
  - destruct (log_spec r lg m Hok) as (lg1 & H1 & Hok1 & Hf1 & Hq1).
    cbn [res_fold]. rewrite H1. cbn [res_bind].
    assert (Hlen1 : Z.of_nat (length (queued lg1)) <= kLogCap).
    { rewrite Hq1. destruct (Z.ltb_spec (Z.of_nat (length (queued lg))) kLogCap);
        rewrite ?length_app; simpl; lia. }
    destruct (IH lg1 (track_log_queue m (Z.of_nat (length (queued lg1)))) Hok1 Hlen1)
      as (lg2 & m2 & H2 & Hok2 & Hf2 & Hq2).
    exists lg2, m2. split; [exact H2|]. split; [done|]. split; [congruence|]. rewrite Hq2, Hq1.
    destruct (Z.ltb_spec (Z.of_nat (length (queued lg))) kLogCap) as [Hl|Hl].
    + by rewrite <- app_assoc.
    + rewrite !take_app_le by lia. done.
Qed.

(** The lines a batch of records leaves in the file. *)
Definition batch_rows (b : list LogRecord) : list chars := map csv_row (take (Z.to_nat kLogCap) b).

(** An iteration of the outer loop that runs: the batch goes to the file. *)
Lemma log_run_step b running script lg m lines :
  logger_ok lg -> queued lg = [] -> f_ lg = Some lines -> running = true \/ b <> [] ->
  exists lg' m', logger_ok lg' /\ queued lg' = [] /\ f_ lg' = Some (lines ++ batch_rows b) /\
    log_run ((b, running) :: script) (lg, m) = log_run script (lg', m').
Proof.
  intros Hok Hq Hf Hrun.
  destruct (log_batch b lg m Hok) as (lg1 & m1 & H1 & Hok1 & Hf1 & Hq1); [by rewrite Hq|].
  rewrite Hq in Hq1. simpl app in Hq1.
  destruct (log_iter_spec lg1 lines Hok1) as (lg2 & H2 & Hok2 & Hq2 & Hf2); [congruence|].
  exists lg2, m1. rewrite Hq1 in Hf2. repeat (split; [done|]).
  cbn [log_run]. rewrite H1. cbn [res_bind].
  replace (running || (0 <? q_size (log_ring_ lg1))) with true.
  { rewrite H2. reflexivity. }
  symmetry. destruct Hrun as [-> | Hb]; [done|]. apply orb_true_intro. right.
  destruct (q_size_law kLogCap _ (log_ring_ lg1) kLogCap_legal Hok1) as [-> _].
  fold (queued lg1). rewrite Hq1. destruct b; [done|]. by apply Z.ltb_lt.
Qed.

Lemma log_run_stop lg m :
  logger_ok lg -> queued lg = [] -> log_run [([], false)] (lg, m) = Ok (true, (lg, m)).
Proof.
  intros Hok Hq. cbn [log_run res_fold res_bind].
  destruct (q_size_law kLogCap _ (log_ring_ lg) kLogCap_legal Hok) as [-> _].
  fold (queued lg). by rewrite Hq.
Qed.
End Facts.

(** The logger thread loses nothing it accepted: whatever batches of
    records are logged between its iterations, the last one even after the
    engine has been told to stop, it ends with the ring empty and the file
    holding one line per record, in the order they were logged, up to the
    16384 records a batch can queue. *)
Theorem log_run_complete {QO : QueueOps} {QL : QueueLaws} (batches : list (list LogRecord)) (last : list LogRecord) (m : Metrics) :
  last <> [] ->
  exists lg' m', log_run (map (fun b => (b, true)) batches ++ [(last, false); ([], false)])
      (logger_open true, m) = Ok (true, (lg', m')) /\
    queued lg' = [] /\
    f_ lg' = Some (csv_header :: concat (map batch_rows batches) ++ batch_rows last).
Proof.
  intros Hlast.
  assert (H : forall bs lg m lines, logger_ok lg -> queued lg = [] -> f_ lg = Some lines ->
    exists lg' m', log_run (map (fun b => (b, true)) bs ++ [(last, false); ([], false)]) (lg, m)
        = Ok (true, (lg', m')) /\ queued lg' = [] /\
      f_ lg' = Some (lines ++ concat (map batch_rows bs) ++ batch_rows last)).
  { intros bs. induction bs as [|b bs IH]; intros lg m1 lines Hok Hq Hf; cbn [map concat app].
    - destruct (log_run_step last false [([], false)] lg m1 lines Hok Hq Hf (or_intror Hlast)) as (lg2 & m2 & Hok2 & Hq2 & Hf2 & ->).
      exists lg2, m2. rewrite (log_run_stop lg2 m2 Hok2 Hq2). auto.
    - destruct (log_run_step b true (map (fun b => (b, true)) bs ++ [(last, false); ([], false)])
        lg m1 lines Hok Hq Hf (or_introl eq_refl)) as (lg2 & m2 & Hok2 & Hq2 & Hf2 & ->).
      destruct (IH lg2 m2 _ Hok2 Hq2 Hf2) as (lg3 & m3 & -> & Hq3 & Hf3).
      exists lg3, m3. rewrite Hf3, <- !app_assoc. auto. }
  apply (H batches (logger_open true) m [csv_header]); [|apply q_init_empty, kLogCap_legal|done].
  apply q_init_ok, kLogCap_legal.
Qed.

Lemma log_run_complete_witness :
  exists lg' m', log_run [([LogRecord_zero], true); ([LogRecord_zero], false); ([], false)]
      (logger_open true, metrics_init) = Ok (true, (lg', m')) /\
    f_ lg' = Some [csv_header; csv_row LogRecord_zero; csv_row LogRecord_zero].
Proof.
  destruct (log_run_complete [[LogRecord_zero]] [LogRecord_zero] metrics_init) as (lg' & m' & H & _ & Hf);
    [done|].
  exists lg', m'. split; [exact H|]. rewrite Hf. vm_compute. reflexivity.
Defined.
