(* ===== verification/MockExchange.v ===== *)
(** * The local exchange (src/scripts/mock_exchange.py)

    The FIX simulator the repository tests the engine against, method by
    method: the wire format ([build], [parse], the framing of the byte stream
    in [run]), the dispatch on the message type ([handle]) with the execution
    reports it makes, and the market data it streams.  A Python dict is the
    list of its items in the order of insertion.  The socket, the threads and
    the texts of the clock are outside: [now_ts] gives the time texts. *)
From S2P Require Import Prelude.
From S2P Require Import Double.
From S2P Require Import Text.
From S2P Require Import AsyncLogger.
From Stdlib Require Import Ascii.

(** ** Python's strings and dicts *)

Abbreviation lit := chars_of_string.

(** [str(n)] of a natural number: as many digits as it needs. *)
Definition py_str (n : Z) : chars := map digit_char (to_digits (S (Z.to_nat (Z.log2 n))) n).

Abbreviation dict := (list (chars * chars)).

(** [d.get(k)] and [d.get(k, v)]. *)
Fixpoint get (d : dict) (k : chars) : option chars :=
  match d with
  | [] => None
  | (k', v) :: d => if decide (k' = k) then Some v else get d k
  end.
Definition get_or (d : dict) (k v : chars) : chars := default v (get d k).

(** [d.setdefault(k, v)]: the first occurrence wins. *)
Definition setdefault (d : dict) (kv : chars * chars) : dict :=
  match get d (fst kv) with
  | Some _ => d
  | None => d ++ [kv]
  end.

(** ** The wire format *)

Definition SOH : ascii := chr 1.
Definition equals : ascii := chr 61.

(** [f"{sum(s.encode('latin-1')) % 256:03d}"]. *)
Definition checksum (s : chars) : chars :=
  zero_pad 3 (py_str (fold_right (fun c a => code c + a) 0 s mod 256)).

(** [f"{t}={v}{SOH}"]. *)
Definition field_text (f : chars * chars) : chars := fst f ++ [equals] ++ snd f ++ [SOH].
Definition fields_text (l : dict) : chars := concat (map field_text l).

(** The fields of the body, standard header first. *)
Definition body_fields (msg_type : chars) (seq : Z) (sender target now : chars) (fields : dict) : dict :=
  [(lit "35", msg_type); (lit "34", py_str seq); (lit "49", sender); (lit "52", now); (lit "56", target)] ++ fields.

Definition build (msg_type : chars) (seq : Z) (sender target now : chars) (fields : dict) : chars :=
  let body := fields_text (body_fields msg_type seq sender target now fields) in
  let head := fields_text [(lit "8", lit "FIXT.1.1"); (lit "9", py_str (Z.of_nat (length body)))] in
  let full := head ++ body in
  full ++ field_text (lit "10", checksum full).

(** [kv.split("=", 1)], or None for a piece without the sign. *)
Fixpoint split_eq (kv : chars) : option (chars * chars) :=
  match kv with
  | [] => None
  | c :: r => if decide (c = equals) then Some ([], r) else option_map (fun '(k, v) => (c :: k, v)) (split_eq r)
  end.

(** The dict of the scalars and the list of the symbols ([d["_symbols"]]). *)
Record Parsed := mkParsed { p_dict : dict; p_symbols : list chars }.

Definition pieces (raw : chars) : dict := omap split_eq (split_on SOH raw).

Definition parse (raw : chars) : Parsed :=
  mkParsed (fold_left setdefault (pieces raw) [])
    (omap (fun '(k, v) => if decide (k = lit "55") then Some v else None) (pieces raw)).

(** [s.find(sub)], as the number of characters before the first occurrence. *)
Fixpoint starts_with (sub s : chars) : bool :=
  match sub, s with
  | [], _ => true
  | x :: sub, c :: s => bool_decide (x = c) && starts_with sub s
  | _ :: _, [] => false
  end.
Fixpoint find (sub s : chars) : option nat :=
  if starts_with sub s then Some O
  else match s with [] => None | _ :: s => option_map S (find sub s) end.

(** The marker of the last field. *)
Definition trailer : chars := SOH :: lit "10=".

(** One turn of the inner loop of [run]: a message cut off the buffer. *)
Definition cut (buf : chars) : option (chars * chars) :=
  match find trailer buf with
  | None => None
  | Some e =>
      match find [SOH] (drop (S e) buf) with
      | None => None
      | Some e' => let n := (S e + e' + 1)%nat in Some (take n buf, drop n buf)
      end
  end.

Fixpoint cuts (fuel : nat) (buf : chars) : list chars * chars :=
  match fuel with
  | O => ([], buf)
  | S fuel =>
      match cut buf with
      | None => ([], buf)
      | Some (raw, buf) => let '(raws, buf) := cuts fuel buf in (raw :: raws, buf)
      end
  end.

(** The outer loop: what is received, chunk by chunk. *)
Fixpoint received_raws (chunks : list chars) (buf : chars) : list chars * chars :=
  match chunks with
  | [] => ([], buf)
  | chunk :: chunks =>
      let buf := buf ++ chunk in
      let '(raws, buf) := cuts (S (length buf)) buf in
      let '(raws', buf) := received_raws chunks buf in
      (raws ++ raws', buf)
  end.

(** ** A session *)

Record Session := mkSession {
  seq_no : Z;
  user : chars;
  alive : bool;
  md_thread : option (chars * list chars);   (* the arguments it was started with *)
  order_no : Z
}.

Definition session_init : Session := mkSession 0 (lit "CLIENT") true None 0.

(** The readings of the clock: for the header of the n-th message, and for the
    n-th report. *)
Inductive stamp := SendingTime (n : Z) | TransactTime (n : Z).

Section Exchange.
Context (now_ts : stamp -> chars).

(** A message for [send_msg]: its type and the fields after the header. *)
Abbreviation sending := (chars * dict)%type.

(** [send_msg], and the bytes it puts on the socket; [sent] is false when
    [sendall] raises. *)
Definition send_msg (sent : bool) (m : sending) (s : Session) : chars * Session :=
  let s := mkSession (seq_no s + 1) (user s) (alive s && sent) (md_thread s) (order_no s) in
  (build (fst m) (seq_no s) (lit "ROFX") (user s) (now_ts (SendingTime (seq_no s))) (snd m), s).

(** *** Market data *)

Definition TICK : double := dhalf.
Definition WIDE_SECONDS : double := double_of_Z 6.

(** [int(x)]: truncation; an infinity or a NaN raises. *)
Definition py_int (x : double) : option Z :=
  match x with
  | S754_zero _ => Some 0
  | S754_finite s m e =>
      let a := if 0 <=? e then Z.shiftl (Zpos m) e else Z.shiftr (Zpos m) (- e) in
      Some (if s then - a else a)
  | _ => None
  end.

(** [int((time.time() - t0) / WIDE_SECONDS) % 2 == 0]. *)
Definition is_wide (elapsed : double) : option bool :=
  option_map Z.even (py_int (ddiv elapsed WIDE_SECONDS)).

Definition base_px (i : Z) : double := dadd (double_of_Z 1470) (dmul (double_of_Z 10) (double_of_Z i)).

Definition md_entry (kind : string) (px : double) (lvl : Z) : dict :=
  [(lit "269", lit kind); (lit "270", fmt_fixed 1 px); (lit "271", py_str (10 * (lvl + 1)))].

(** The snapshot of the [i]-th symbol in a phase. *)
Definition md_fields (req_id sym : chars) (i : Z) (wide : bool) : dict :=
  let base := base_px i in
  let bb := if wide then dsub base (dmul (double_of_Z 2) TICK) else base in
  let ba := if wide then dadd base (dmul (double_of_Z 2) TICK) else base in
  [(lit "262", req_id); (lit "55", sym); (lit "207", lit "ROFX"); (lit "268", lit "10")] ++
  flat_map (fun lvl => md_entry "0" (dsub bb (dmul (double_of_Z lvl) TICK)) lvl) [0; 1; 2; 3; 4] ++
  flat_map (fun lvl => md_entry "1" (dadd ba (dmul (double_of_Z lvl) TICK)) lvl) [0; 1; 2; 3; 4].

(** One round of [md_stream]. *)
Definition md_round (req_id : chars) (symbols : list chars) (wide : bool) : list sending :=
  map (fun '(i, sym) => (lit "W", md_fields req_id sym (Z.of_nat i) wide)) (zip (List.seq 0 (length symbols)) symbols).

(** *** Orders *)

(** [exec_report]: the next report number, and the message. *)
Definition exec_report (m : Parsed) (exec_type ord_status leaves cum : chars)
    (last : option (chars * chars)) (s : Session) : sending * Session :=
  let n := order_no s + 1 in
  let d := p_dict m in
  let qty := get_or d (lit "38") (lit "1") in
  let f := [(lit "37", lit "MOCK" ++ zero_pad 6 (py_str n));
            (lit "17", lit "E" ++ zero_pad 6 (py_str n));
            (lit "150", exec_type); (lit "39", ord_status);
            (lit "11", get_or d (lit "11") []);
            (lit "55", get_or d (lit "55") (match p_symbols m with [] => [] | x :: _ => x end));
            (lit "207", lit "ROFX");
            (lit "54", get_or d (lit "54") (lit "1"));
            (lit "38", qty);
            (lit "151", leaves); (lit "14", cum);
            (lit "60", now_ts (TransactTime n))] in
  let f := f ++ match get d (lit "44") with
                | None | Some [] => []
                | Some px => [(lit "44", px)]
                end in
  let f := f ++ match last with
                | None => []
                | Some (px, qty) => [(lit "31", px); (lit "32", qty)]
                end in
  ((lit "8", f), mkSession (seq_no s) (user s) (alive s) (md_thread s) n).

(** *** Dispatch *)

Definition set_user (u : chars) (s : Session) := mkSession (seq_no s) u (alive s) (md_thread s) (order_no s).
Definition set_alive (b : bool) (s : Session) := mkSession (seq_no s) (user s) b (md_thread s) (order_no s).
Definition set_thread (t : chars * list chars) (s : Session) :=
  mkSession (seq_no s) (user s) (alive s) (Some t) (order_no s).

Definition on_logon (d : dict) (s : Session) : list sending * Session :=
  let reset := if decide (get d (lit "141") = Some (lit "Y")) then [(lit "141", lit "Y")] else [] in
  ([(lit "A", [(lit "98", lit "0"); (lit "108", get_or d (lit "108") (lit "30"))] ++ reset ++ [(lit "1137", lit "9")])],
   set_user (get_or d (lit "49") (lit "CLIENT")) s).

(** [m["_symbols"] or ["DLR/JUN26"]]; a second request starts nothing. *)
Definition on_md_request (m : Parsed) (s : Session) : list sending * Session :=
  let syms := match p_symbols m with [] => [lit "DLR/JUN26"] | l => l end in
  match md_thread s with
  | None => ([], set_thread (get_or (p_dict m) (lit "262") (lit "1"), syms) s)
  | Some _ => ([], s)
  end.

(** The New report, and the fill when its number is a multiple of five. *)
Definition on_new_order (m : Parsed) (s : Session) : list sending * Session :=
  let d := p_dict m in
  let qty := get_or d (lit "38") (lit "1") in
  let '(r, s) := exec_report m (lit "0") (lit "0") qty (lit "0") None s in
  if order_no s mod 5 =? 0 then
    let '(r', s) := exec_report m (lit "F") (lit "2") (lit "0") qty (Some (get_or d (lit "44") (lit "0"), qty)) s in
    ([r; r'], s)
  else ([r], s).

Definition on_cancel_request (m : Parsed) (s : Session) : list sending * Session :=
  let '(r, s) := exec_report m (lit "4") (lit "4") (lit "0") (lit "0") None s in ([r], s).

Definition handle (m : Parsed) (s : Session) : list sending * Session :=
  let d := p_dict m in
  let mt := get d (lit "35") in
  if decide (mt = Some (lit "A")) then on_logon d s
  else if decide (mt = Some (lit "0")) then ([], s)
  else if decide (mt = Some (lit "1")) then ([(lit "0", [(lit "112", get_or d (lit "112") [])])], s)
  else if decide (mt = Some (lit "5")) then ([(lit "5", [])], set_alive false s)
  else if decide (mt = Some (lit "V")) then on_md_request m s
  else if decide (mt = Some (lit "D")) then on_new_order m s
  else if decide (mt = Some (lit "F")) then on_cancel_request m s
  else ([], s).
End Exchange.

(** ** Facts: dicts and pieces *)

Lemma get_app d1 d2 k : get (d1 ++ d2) k = match get d1 k with Some v => Some v | None => get d2 k end.
Proof. induction d1 as [|[k' v] d1 IH]; [done|]. cbn [app get]. by destruct (decide (k' = k)). Qed.

(** Only the first occurrence of a tag is kept: the lookup does not notice. *)
Lemma get_setdefault l d k : get (fold_left setdefault l d) k = get (d ++ l) k.
Proof.
  revert d. induction l as [|[k1 v1] l IH]; intros d; cbn [fold_left]; [by rewrite app_nil_r|].
  rewrite IH. unfold setdefault. cbn [fst]. destruct (get d k1) as [v|] eqn:E.
  - rewrite !get_app. destruct (get d k) eqn:Ek; [done|]. cbn [get].
    by destruct (decide (k1 = k)) as [->|]; [congruence|].
  - by rewrite <- app_assoc.
Qed.

Lemma parse_get raw k : get (p_dict (parse raw)) k = get (pieces raw) k.
Proof. apply get_setdefault. Qed.

(** A tag has no separator and no sign, a value no separator. *)
Definition no_soh (s : chars) : Prop := Forall (fun c => c <> SOH) s.
Definition clean_field (f : chars * chars) : Prop :=
  no_soh (fst f) /\ Forall (fun c => c <> equals) (fst f) /\ no_soh (snd f).
Definition clean_fields (l : dict) : Prop := Forall clean_field l.

Lemma split_eq_field k v : Forall (fun c => c <> equals) k -> split_eq (k ++ equals :: v) = Some (k, v).
Proof.
  induction 1 as [|c k Hc Hk IH]; cbn [app split_eq]; [done|]. by rewrite decide_False, IH.
Qed.

Lemma pieces_field f s :
  clean_field f -> pieces (field_text f ++ s) = f :: pieces s.
Proof.
  destruct f as [k v]. intros (Hk & He & Hv). cbn [fst snd] in *. unfold pieces, field_text. cbn [fst snd].
  replace ((k ++ [equals] ++ v ++ [SOH]) ++ s) with ((k ++ equals :: v) ++ SOH :: s) by (by rewrite <- !app_assoc).
  rewrite split_on_app.
  - cbn [omap list_omap]. by rewrite split_eq_field.
  - apply Forall_app. split; [done|]. by constructor.
Qed.

Lemma pieces_fields l : clean_fields l -> pieces (fields_text l) = l.
Proof.
  induction 1 as [|f l Hf Hl IH]; [done|]. unfold fields_text in *. cbn [map concat].
  by rewrite pieces_field, IH.
Qed.

Lemma digit_char_not d c : digit d -> (code c < 48 \/ 57 < code c) -> digit_char d <> c.
Proof. intros Hd Hc E. subst c. pose proof (code_digit_char d Hd). unfold digit in Hd. lia. Qed.

Lemma digits_no_soh l : Forall digit l -> no_soh (map digit_char l).
Proof.
  intros H. apply Forall_map. eapply Forall_impl; [|exact H]. intros d Hd. apply digit_char_not; [done|].
  left. reflexivity.
Qed.

Lemma py_str_clean n : 0 <= n -> no_soh (py_str n).
Proof. intros H. by apply digits_no_soh, to_digits_digit. Qed.

Lemma zero_pad_clean w s : no_soh s -> no_soh (zero_pad w s).
Proof.
  intros H. unfold zero_pad. apply Forall_app. split; [|done]. apply Forall_replicate.
  apply digit_char_not; [unfold digit; lia|]. left. reflexivity.
Qed.

Lemma codes_nonneg s : 0 <= fold_right (fun c a => code c + a) 0 s.
Proof. induction s as [|c s IH]; cbn [fold_right]; [lia|]. pose proof (Nat2Z.is_nonneg (nat_of_ascii c)). unfold code at 1. lia. Qed.

Lemma checksum_clean s : no_soh (checksum s).
Proof.
  apply zero_pad_clean, py_str_clean. apply Z.mod_pos_bound. lia.
Qed.

(** A literal tag or value, by evaluation. *)
Definition no_sohb (s : chars) : bool := forallb (fun c => bool_decide (c <> SOH)) s.
Definition clean_tagb (k : chars) : bool := no_sohb k && forallb (fun c => bool_decide (c <> equals)) k.

Lemma no_sohb_ok s : no_sohb s = true -> no_soh s.
Proof.
  intros H. apply List.Forall_forall. intros c Hc. unfold no_sohb in H. rewrite forallb_forall in H.
  specialize (H c Hc). by apply bool_decide_eq_true in H.
Qed.

Lemma clean_lit k v : clean_tagb k = true -> no_soh v -> clean_field (k, v).
Proof.
  intros [Hk He]%andb_prop Hv. split; [by apply no_sohb_ok|]. split; [|done].
  apply List.Forall_forall. intros c Hc. rewrite forallb_forall in He. specialize (He c Hc).
  by apply bool_decide_eq_true in He.
Qed.

Create HintDb wire.
#[export] Hint Resolve clean_lit py_str_clean zero_pad_clean checksum_clean no_sohb_ok Forall_app_2 : wire.
#[export] Hint Constructors Forall : wire.
#[export] Hint Extern 0 (clean_tagb _ = true) => reflexivity : wire.
#[export] Hint Extern 0 (no_soh (chars_of_string _)) => (apply no_sohb_ok; reflexivity) : wire.

(** All the fields of a message, as they are on the wire. *)
Definition wire_fields (mt : chars) (seq : Z) (sender target now : chars) (fields : dict) : dict :=
  let body := body_fields mt seq sender target now fields in
  let head := [(lit "8", lit "FIXT.1.1"); (lit "9", py_str (Z.of_nat (length (fields_text body))))] in
  (head ++ body) ++ [(lit "10", checksum (fields_text (head ++ body)))].

Lemma fields_text_app a b : fields_text (a ++ b) = fields_text a ++ fields_text b.
Proof. unfold fields_text. by rewrite map_app, concat_app. Qed.

Lemma build_text mt seq sender target now fields :
  build mt seq sender target now fields = fields_text (wire_fields mt seq sender target now fields).
Proof.
  unfold build, wire_fields. rewrite <- fields_text_app. rewrite (fields_text_app _ [_]). f_equal.
  unfold fields_text. cbn [map concat]. by rewrite app_nil_r.
Qed.

Lemma body_clean mt seq sender target now fields :
  0 <= seq -> no_soh mt -> no_soh sender -> no_soh target -> no_soh now -> clean_fields fields ->
  clean_fields (body_fields mt seq sender target now fields).
Proof. intros. apply Forall_app. split; [|done]. repeat apply Forall_cons_2; auto with wire. Qed.

Lemma wire_clean mt seq sender target now fields :
  0 <= seq -> no_soh mt -> no_soh sender -> no_soh target -> no_soh now -> clean_fields fields ->
  clean_fields (wire_fields mt seq sender target now fields).
Proof.
  intros. unfold wire_fields. apply Forall_app. split; [apply Forall_app; split|].
  - repeat apply Forall_cons_2; auto with wire lia.
  - by apply body_clean.
  - repeat apply Forall_cons_2; auto with wire.
Qed.

(** A parsed message has the fields of the built one. *)
Lemma parse_build mt seq sender target now fields :
  0 <= seq -> no_soh mt -> no_soh sender -> no_soh target -> no_soh now -> clean_fields fields ->
  let p := parse (build mt seq sender target now fields) in
  (forall k, get (p_dict p) k = get (wire_fields mt seq sender target now fields) k) /\
  p_symbols p = omap (fun '(k, v) => if decide (k = lit "55") then Some v else None) fields.
Proof.
  intros ? ? ? ? ? ?. cbv zeta. assert (Hp : pieces (build mt seq sender target now fields) = wire_fields mt seq sender target now fields).
  { rewrite build_text. apply pieces_fields. by apply wire_clean. }
  split.
  - intros k. by rewrite parse_get, Hp.
  - unfold parse. cbn [p_symbols]. rewrite Hp. unfold wire_fields, body_fields. rewrite !omap_app. cbn.
    by rewrite app_nil_r.
Qed.

(** ** Facts: the stream *)

Lemma starts_with_more sub s x : (length sub <= length s)%nat -> starts_with sub (s ++ x) = starts_with sub s.
Proof.
  revert s. induction sub as [|c sub IH]; intros [|d s] H; try done; cbn [length] in H; [lia|].
  cbn [app starts_with]. f_equal. apply IH. lia.
Qed.

Lemma find_bound sub s e : find sub s = Some e -> (e + length sub <= length s)%nat.
Proof.
  revert e. induction s as [|c s IH]; intros e; cbn [find].
  - destruct (starts_with sub []) eqn:E; [|done]. intros [= <-]. by destruct sub.
  - destruct (starts_with sub (c :: s)) eqn:E.
    + intros [= <-]. clear IH. revert sub E. generalize (c :: s) as l. induction l as [|d l IH]; intros [|x sub] E; try (cbn; lia); [done|].
      cbn [starts_with] in E. apply andb_prop in E as [_ E]. specialize (IH sub E). cbn in *. lia.
    + destruct (find sub s) as [e'|]; [|done]. intros [= <-]. specialize (IH e' eq_refl). cbn. lia.
Qed.

(** What has been found stays the first occurrence when more arrives. *)
Lemma find_app sub s x e : find sub s = Some e -> find sub (s ++ x) = Some e.
Proof.
  revert e. induction s as [|c s IH]; intros e.
  - cbn [find]. destruct sub as [|a sub]; [|done]. intros [= <-]. by destruct x.
  - intros H. pose proof (find_bound _ _ _ H) as Hb. cbn [app find] in *.
    change (c :: s ++ x) with ((c :: s) ++ x). rewrite starts_with_more by lia.
    destruct (starts_with sub (c :: s)); [done|]. destruct (find sub s) as [e'|]; [|done].
    rewrite (IH e' eq_refl). exact H.
Qed.

Lemma cut_shape buf raw rest : cut buf = Some (raw, rest) -> buf = raw ++ rest /\ raw <> [].
Proof.
  unfold cut. destruct (find trailer buf) as [e|] eqn:E; [|done].
  destruct (find [SOH] _) as [e'|]; [|done]. intros [= <- <-]. split; [by rewrite take_drop|].
  apply find_bound in E. destruct buf; cbn in *; [lia|]. by rewrite Nat.add_comm.
Qed.

Lemma cut_app buf x raw rest : cut buf = Some (raw, rest) -> cut (buf ++ x) = Some (raw, rest ++ x).
Proof.
  unfold cut. destruct (find trailer buf) as [e|] eqn:E; [|done].
  destruct (find [SOH] (drop (S e) buf)) as [e'|] eqn:E'; [|done]. intros [= <- <-].
  pose proof (find_bound _ _ _ E) as B. pose proof (find_bound _ _ _ E') as B'. rewrite length_drop in B'.
  cbn [length] in B, B'. rewrite (find_app _ _ x _ E).
  rewrite drop_app_le, (find_app _ _ x _ E') by lia.
  by rewrite take_app_le, drop_app_le by lia.
Qed.

Lemma cuts_more fuel fuel' buf :
  (length buf < fuel)%nat -> (length buf < fuel')%nat -> cuts fuel buf = cuts fuel' buf.
Proof.
  revert fuel' buf. induction fuel as [|fuel IH]; intros [|fuel'] buf H H'; try lia. cbn [cuts].
  destruct (cut buf) as [[raw rest]|] eqn:E; [|done].
  destruct (cut_shape _ _ _ E) as [-> Hne]. rewrite length_app in *. destruct raw; [done|]. cbn [length] in *.
  by rewrite (IH fuel' rest) by lia.
Qed.

(** All the messages of a buffer. *)
Definition cut_all (buf : chars) : list chars * chars := cuts (S (length buf)) buf.

Lemma cut_all_unfold buf :
  cut_all buf = match cut buf with
                | None => ([], buf)
                | Some (raw, rest) => let '(raws, b) := cut_all rest in (raw :: raws, b)
                end.
Proof.
  unfold cut_all at 1. cbn [cuts]. destruct (cut buf) as [[raw rest]|] eqn:E; [|done].
  destruct (cut_shape _ _ _ E) as [-> Hne]. rewrite length_app. destruct raw; [done|]. cbn [length].
  unfold cut_all. by rewrite (cuts_more _ (S (length rest)) rest) by lia.
Qed.

(** Cutting early or late gives the same messages. *)
Lemma cut_all_app buf x :
  cut_all (buf ++ x) =
  let '(raws, b) := cut_all buf in let '(raws', b') := cut_all (b ++ x) in (raws ++ raws', b').
Proof.
  remember (length buf) as n eqn:Hn. revert buf Hn. induction n as [n IH] using lt_wf_ind. intros buf ->.
  rewrite (cut_all_unfold buf). destruct (cut buf) as [[raw rest]|] eqn:E.
  - rewrite cut_all_unfold, (cut_app _ x _ _ E). destruct (cut_shape _ _ _ E) as [Eb Hne].
    rewrite (IH (length rest)); [|rewrite Eb, length_app; destruct raw; [done|cbn; lia]|done].
    destruct (cut_all rest) as [raws b]. by destruct (cut_all (b ++ x)).
  - by destruct (cut_all (buf ++ x)).
Qed.

Lemma cut_all_rest buf : cut (snd (cut_all buf)) = None.
Proof.
  remember (length buf) as n eqn:Hn. revert buf Hn. induction n as [n IH] using lt_wf_ind. intros buf ->.
  rewrite cut_all_unfold. destruct (cut buf) as [[raw rest]|] eqn:E; [|done].
  destruct (cut_shape _ _ _ E) as [Eb Hne]. specialize (IH (length rest)).
  destruct (cut_all rest) as [raws b] eqn:Er. cbn [snd]. change b with (snd (raws, b)). rewrite <- Er.
  apply IH; [|done]. rewrite Eb, length_app. destruct raw; [done|cbn; lia].
Qed.

Lemma received_cut_all chunks buf :
  cut buf = None -> received_raws chunks buf = cut_all (buf ++ concat chunks).
Proof.
  revert buf. induction chunks as [|chunk chunks IH]; intros buf Hb; cbn [received_raws concat].
  - by rewrite app_nil_r, cut_all_unfold, Hb.
  - rewrite app_assoc, cut_all_app. pose proof (cut_all_rest (buf ++ chunk)) as Hr.
    change (cuts (S (length (buf ++ chunk))) (buf ++ chunk)) with (cut_all (buf ++ chunk)).
    destruct (cut_all (buf ++ chunk)) as [raws b]. by rewrite (IH b Hr).
Qed.

(** *** A message is cut where it ends *)

Lemma find_soh_clean x sub s : no_soh x -> find (SOH :: sub) (x ++ s) = option_map (Nat.add (length x)) (find (SOH :: sub) s).
Proof.
  induction 1 as [|c x Hc Hx IH]; cbn [app length].
  - by destruct (find _ s).
  - cbn [find starts_with]. rewrite bool_decide_eq_false_2 by congruence. cbn [andb].
    rewrite IH. by destruct (find _ s).
Qed.

Lemma starts_tag t k s :
  Forall (fun c => c <> equals) t -> Forall (fun c => c <> equals) k ->
  starts_with (t ++ [equals]) (k ++ equals :: s) = bool_decide (t = k).
Proof.
  intros Ht. revert k. induction Ht as [|c t Hc Ht IH]; intros k Hk; destruct Hk as [|d k Hd Hk]; cbn [app starts_with].
  - by rewrite !bool_decide_eq_true_2.
  - rewrite !bool_decide_eq_false_2 by congruence. done.
  - rewrite !bool_decide_eq_false_2 by congruence. done.
  - rewrite IH by done. destruct (decide (c = d)) as [->|Hn].
    + rewrite (bool_decide_eq_true_2 (d = d)) by done. cbn [andb]. apply bool_decide_ext. split; congruence.
    + rewrite (bool_decide_eq_false_2 (c = d)), (bool_decide_eq_false_2 (c :: t = d :: k)) by congruence. done.
Qed.

(** Where the marker of the last field is. *)
Lemma find_trailer f l v rest :
  clean_fields (f :: l) -> Forall (fun g => fst g <> lit "10") l -> no_soh v ->
  exists e, find trailer (fields_text (f :: l) ++ field_text (lit "10", v) ++ rest) = Some e /\
    S e = length (fields_text (f :: l)).
Proof.
  intros Hc. revert f Hc. induction l as [|g l IH]; intros [k w] Hc Hk Hv;
    apply Forall_cons_iff in Hc as [(Hc1 & _ & Hc2) Hc]; cbn [fst snd] in *.
  all: assert (Hkw : no_soh (k ++ equals :: w)) by (apply Forall_app; split; [done|by constructor]).
  all: assert (Ef : forall s, fields_text ((k, w) :: s) = (k ++ equals :: w) ++ SOH :: fields_text s)
    by (intros s; unfold fields_text, field_text; cbn [map concat fst snd]; by rewrite <- !app_assoc).
  all: rewrite Ef, <- app_assoc; unfold trailer; rewrite find_soh_clean by done; cbn [app find starts_with].
  - rewrite (bool_decide_eq_true_2 (SOH = SOH)) by done. cbn [andb].
    change (fields_text []) with (@nil ascii). cbn [app]. unfold field_text at 1. cbn [fst snd]. rewrite <- app_assoc.
    change (lit "10=") with (lit "10" ++ [equals]). cbn [app]. rewrite (starts_tag (lit "10") (lit "10")) by (repeat constructor; discriminate).
    rewrite (bool_decide_eq_true_2 (lit "10" = lit "10")) by done. cbn [option_map].
    eexists. split; [reflexivity|]. rewrite !length_app. cbn [length]. lia.
  - apply Forall_cons_iff in Hk as [Hg Hk]. destruct (IH g Hc Hk Hv) as (e & He & Hl).
    rewrite (bool_decide_eq_true_2 (SOH = SOH)) by done. cbn [andb].
    destruct g as [kg wg]. cbn [fst] in Hg. apply Forall_cons_iff in Hc as [(_ & Hce & _) _]. cbn [fst] in Hce.
    replace (starts_with (lit "10=") _) with false.
    2: { change (lit "10=") with (lit "10" ++ [equals]). unfold fields_text at 1. cbn [map concat]. unfold field_text at 1.
         cbn [fst snd]. rewrite <- !app_assoc. cbn [app]. rewrite (starts_tag (lit "10") kg) by (done || by repeat constructor).
         by rewrite bool_decide_eq_false_2. }
    change (find (SOH :: lit "10=")) with (find trailer). rewrite He. cbn [option_map].
    eexists. split; [reflexivity|]. rewrite (length_app (k ++ equals :: w)). cbn [length]. rewrite <- Hl. lia.
Qed.

(** A message that ends with its checksum field is cut off whole. *)
Definition framed (raw : chars) : Prop :=
  exists f l v, raw = fields_text ((f :: l) ++ [(lit "10", v)]) /\
    clean_fields (f :: l) /\ Forall (fun g => fst g <> lit "10") l /\ no_soh v.

Lemma cut_framed raw rest : framed raw -> cut (raw ++ rest) = Some (raw, rest).
Proof.
  intros (f & l & v & -> & Hc & Hk & Hv). rewrite fields_text_app, <- app_assoc. unfold cut.
  assert (E1 : fields_text [(lit "10", v)] = field_text (lit "10", v)) by apply app_nil_r.
  rewrite E1. destruct (find_trailer f l v rest Hc Hk Hv) as (e & -> & He).
  rewrite drop_app_length' by done.
  unfold field_text. cbn [fst snd]. replace ((lit "10" ++ [equals] ++ v ++ [SOH]) ++ rest)
    with ((lit "10=" ++ v) ++ SOH :: rest) by (by rewrite <- !app_assoc).
  rewrite find_soh_clean by (apply Forall_app; split; [by repeat constructor|done]).
  cbn [find starts_with]. rewrite (bool_decide_eq_true_2 (SOH = SOH)) by done. cbn [andb option_map].
  rewrite Nat.add_0_r.
  set (a := fields_text (f :: l)) in *.
  replace (a ++ (lit "10=" ++ v) ++ SOH :: rest) with ((a ++ lit "10" ++ [equals] ++ v ++ [SOH]) ++ rest)
    by (by rewrite <- !app_assoc).
  assert (Hn : (S e + length (lit "10=" ++ v) + 1)%nat = length (a ++ lit "10" ++ [equals] ++ v ++ [SOH])).
  { rewrite He, !length_app. cbn. lia. }
  rewrite Hn, take_app_length, drop_app_length. done.
Qed.

Lemma build_framed mt seq sender target now fields :
  0 <= seq -> no_soh mt -> no_soh sender -> no_soh target -> no_soh now -> clean_fields fields ->
  Forall (fun g => fst g <> lit "10") fields -> framed (build mt seq sender target now fields).
Proof.
  intros Hs Hm Hsd Ht Hn Hf Hk. rewrite build_text. unfold wire_fields.
  pose proof (body_clean mt seq sender target now fields Hs Hm Hsd Ht Hn Hf) as Hb.
  assert (Hkb : Forall (fun g => fst g <> lit "10") (body_fields mt seq sender target now fields)).
  { unfold body_fields. cbn [app]. repeat (apply Forall_cons_2; [discriminate|]). exact Hk. }
  revert Hb Hkb. generalize (body_fields mt seq sender target now fields) as body. intros body Hb Hkb.
  refine (ex_intro _ (lit "8", lit "FIXT.1.1")
    (ex_intro _ ((lit "9", py_str (Z.of_nat (length (fields_text body)))) :: body) (ex_intro _ _ (conj eq_refl _)))).
  split; [|split; [|apply checksum_clean]].
  - repeat apply Forall_cons_2; auto with wire lia.
  - apply Forall_cons_2; [discriminate|exact Hkb].
Qed.

(** C33: the byte stream carries the messages: however the socket cuts a sequence of
    messages into chunks, the receiving loop hands on these messages, in order,
    and keeps nothing back. *)
Theorem stream_reassembled (msgs chunks : list chars) :
  Forall framed msgs -> concat chunks = concat msgs -> received_raws chunks [] = (msgs, []).
Proof.
  intros HF He. rewrite received_cut_all by done. cbn [app]. rewrite He. clear He chunks.
  induction HF as [|raw msgs Hr HF IH]; [done|]. cbn [concat].
  by rewrite cut_all_unfold, cut_framed, IH.
Qed.

(** Two messages, received as three chunks cut in the middle of fields. *)
Definition two_messages : list chars :=
  [build (lit "D") 1 (lit "CLIENT") (lit "ROFX") [] [(lit "11", lit "5000"); (lit "55", lit "DLR/JUL26")];
   build (lit "F") 2 (lit "CLIENT") (lit "ROFX") [] [(lit "11", lit "5001"); (lit "41", lit "5000")]].

Lemma stream_reassembled_witness :
  let s := concat two_messages in
  received_raws [take 50 s; take 71 (drop 50 s); drop 121 s] [] = (two_messages, []).
Proof.
  apply (stream_reassembled two_messages).
  - apply Forall_cons_2; [|apply Forall_cons_2; [|constructor]]; apply build_framed; auto with wire lia;
      repeat apply Forall_cons_2; auto with wire; discriminate.
  - vm_compute. reflexivity.
Defined.
