(* ===== verification/Persister.v ===== *)
(** * Snapshot and trade history (src/src/storage/lmdb_persister.hpp)

    The strategy pushes PODs to two rings; a cold thread drains them into LMDB
    under formatted keys, one transaction per cycle.  LMDB itself is not part
    of the repository: [LmdbOps] is the part of its interface the cycle calls,
    [LmdbLaws] the documented behaviour of the calls that succeed.  The code
    looks at the result of mdb_txn_begin only: a put or a commit that fails, on a
    full map say, loses its records. *)
From S2P Require Import Prelude.
From S2P Require Import Double.
From S2P Require Import Events.
From S2P Require Import SpscRing.
From S2P Require Import Queue.
From S2P Require Import Text.
From Stdlib Require Import Ascii.

(** ** LMDB, as the code sees it *)

(** The bytes of a stored struct. *)
Inductive blob := BSnap (s : BookSnapshot) | BTrade (e : ExecEvent).

(** [mdb_txn_begin] answers None on a non-zero return code.  [mdb_put] (with the
    mdb_dbi_open the code makes before it) and [mdb_txn_commit] can fail, on a
    full map for instance: the bool is [rc == 0], the rest what the call leaves. *)
Class LmdbOps := {
  Db : Type;
  Txn : Type;
  mdb_txn_begin : Db -> option Txn;
  mdb_put : chars -> blob -> Txn -> bool * Txn;
  mdb_txn_commit : Txn -> Db -> bool * Db;
  mdb_get : chars -> Db -> option blob;
  txn_get : chars -> Txn -> option blob
}.

(** A transaction sees the committed data; a put that succeeds replaces the value
    of its key and no other; a commit that succeeds makes the transaction's data
    the database's.  Nothing is promised of a call that fails. *)
Class LmdbLaws `{!LmdbOps} := {
  begin_get : forall db txn k, mdb_txn_begin db = Some txn -> txn_get k txn = mdb_get k db;
  put_get_eq : forall k v txn txn', mdb_put k v txn = (true, txn') -> txn_get k txn' = Some v;
  put_get_ne : forall k k' v txn txn', mdb_put k v txn = (true, txn') -> k <> k' ->
    txn_get k' txn' = txn_get k' txn;
  commit_get : forall k txn db db', mdb_txn_commit txn db = (true, db') -> mdb_get k db' = txn_get k txn
}.

(** ** Keys *)

Definition bar : ascii := chr 124.

(** The [klen] bytes at [key] after [klen = snprintf(key, size, ...)]: the
    characters stored, the terminator when [klen] is [size], memory outside
    the array beyond. *)
Definition key_bytes (size : Z) (s : chars) : Res chars :=
  let '(stored, klen) := snprintf size s in
  if klen <? size then Ok stored
  else if klen =? size then Ok (stored ++ [zero])
  else Err (UB OutOfBounds).

(** ["ob|%u|%010llu"] into [char key[40]], ["tr|%010llu"] into [char key[32]]. *)
Definition snap_text (sym seq : Z) : chars :=
  chars_of_string "ob|" ++ fmt_u sym ++ bar :: fmt_010llu seq.
Definition trade_text (seq : Z) : chars := chars_of_string "tr|" ++ fmt_010llu seq.

Definition snap_key (sym seq : Z) : Res chars := key_bytes 40 (snap_text sym seq).
Definition trade_key (seq : Z) : Res chars := key_bytes 32 (trade_text seq).

Definition kSnapCap : Z := Z.shiftl 1 12.
#[export] Instance kSnapCap_legal : LegalCapacity kSnapCap.
Proof. exact legal_capacity_12. Qed.

(** ** The persister *)
Section Persister.
Context {QO : QueueOps} {LO : LmdbOps}.

Record LmdbPersister := mkPersister {
  snap_seq_ : Z;
  trade_seq_ : Z;
  snap_ring_ : Queue kSnapCap BookSnapshot;
  trade_ring_ : Queue kSnapCap ExecEvent
}.

Definition persister_init : LmdbPersister :=
  mkPersister 0 0 (q_init kSnapCap BookSnapshot) (q_init kSnapCap ExecEvent).

Definition push_snapshot (s : BookSnapshot) (p : LmdbPersister) : Res (bool * LmdbPersister) :=
  res_bind (q_push s (snap_ring_ p)) (fun '(ok, r) =>
  Ok (ok, mkPersister (snap_seq_ p) (trade_seq_ p) r (trade_ring_ p))).

Definition push_trade (e : ExecEvent) (p : LmdbPersister) : Res (bool * LmdbPersister) :=
  res_bind (q_push e (trade_ring_ p)) (fun '(ok, r) =>
  Ok (ok, mkPersister (snap_seq_ p) (trade_seq_ p) (snap_ring_ p) r)).

(** [!txn && mdb_txn_begin(env_, nullptr, 0, &txn)]: the transaction the loop
    goes on with, None when it breaks. *)
Definition ensure_txn (db : Db) (txn : option Txn) : option Txn :=
  match txn with
  | Some t => Some t
  | None => mdb_txn_begin db
  end.

(** What a drain loop threads: the transaction, the next sequence number, and
    the count [n]. *)
Definition loop_state : Type := option Txn * Z * Z.

(** The two drain loops have one shape: [key] and [wrap] tell them apart.  The
    return code of the put is ignored. *)
Fixpoint persist_loop {T} (key : T -> Z -> Res chars) (wrap : T -> blob) (fuel : nat) (db : Db)
    (ring : Queue kSnapCap T) (st : loop_state) : Res (loop_state * Queue kSnapCap T) :=
  let '(txn, seq, n) := st in
  match fuel with
  | O => Ok (st, ring)
  | S fuel =>
      res_bind (q_pop ring) (fun '(o, ring) =>
      match o with
      | None => Ok (st, ring)
      | Some x =>
          match ensure_txn db txn with
          | None => Ok ((None, seq, n), ring)
          | Some t =>
              res_bind (key x seq) (fun k =>
              persist_loop key wrap fuel db ring (Some (snd (mdb_put k (wrap x) t)), u64 (seq + 1), n + 1))
          end
      end)
  end.

Definition snap_loop := persist_loop (fun s seq => snap_key (s_symbol_id s) seq) BSnap.
Definition trade_loop := persist_loop (fun _ seq => trade_key seq) BTrade.

(** One iteration of [run]: both loops, then the commit, whose return code is
    ignored too. *)
Definition persist_cycle (p : LmdbPersister) (db : Db) : Res (LmdbPersister * Db) :=
  res_bind (snap_loop (drain_fuel (snap_ring_ p)) db (snap_ring_ p) (None, snap_seq_ p, 0))
    (fun '((txn, sseq, n), sring) =>
  res_bind (trade_loop (drain_fuel (trade_ring_ p)) db (trade_ring_ p) (txn, trade_seq_ p, n))
    (fun '((txn, tseq, n), tring) =>
  let p := mkPersister sseq tseq sring tring in
  match txn with
  | Some t => Ok (p, snd (mdb_txn_commit t db))
  | None => Ok (p, db)
  end)).

(** [run]'s loop: each entry of the script is the value [running.load()] reads
    and what the strategy pushes before that test. *)
Definition persist_in : Type := list BookSnapshot * list ExecEvent * bool.

Definition persist_push (i : persist_in) (p : LmdbPersister) : Res LmdbPersister :=
  let '(ss, es, _) := i in
  res_bind (res_fold (fun s p => res_bind (push_snapshot s p) (fun '(_, p) => Ok p)) ss p)
    (res_fold (fun e p => res_bind (push_trade e p) (fun '(_, p) => Ok p)) es).

Fixpoint persist_run (script : list persist_in) (p : LmdbPersister) (db : Db)
    : Res (bool * (LmdbPersister * Db)) :=
  match script with
  | [] => Ok (false, (p, db))
  | i :: script =>
      res_bind (persist_push i p) (fun p =>
      if snd i || negb (q_size (snap_ring_ p) =? 0) || negb (q_size (trade_ring_ p) =? 0)
      then res_bind (persist_cycle p db) (fun '(p, db) => persist_run script p db)
      else Ok (true, (p, db)))
  end.
End Persister.

(** ** Keys: they fit, they are told apart, and they sort *)

Lemma snap_text_length sym seq :
  in_u32 sym -> in_u64 seq -> (length (snap_text sym seq) <= 34)%nat.
Proof.
  intros Hs Hq. unfold snap_text, fmt_010llu. rewrite length_app. simpl.
  rewrite length_app. simpl. rewrite zero_pad_length.
  pose proof (fmt_u_length sym Hs). pose proof (fmt_llu_length seq Hq). lia.
Qed.

Lemma trade_text_length seq : in_u64 seq -> (length (trade_text seq) <= 23)%nat.
Proof.
  intros Hq. unfold trade_text, fmt_010llu. rewrite length_app. simpl. rewrite zero_pad_length.
  pose proof (fmt_llu_length seq Hq). lia.
Qed.

Lemma key_bytes_fits size s : Z.of_nat (length s) < size -> key_bytes size s = Ok s.
Proof.
  intros H. unfold key_bytes, snprintf. rewrite (proj2 (Z.ltb_lt _ _) H).
  f_equal. apply take_ge. lia.
Qed.

Lemma snap_key_ok sym seq : in_u32 sym -> in_u64 seq -> snap_key sym seq = Ok (snap_text sym seq).
Proof. intros Hs Hq. apply key_bytes_fits. pose proof (snap_text_length sym seq Hs Hq). lia. Qed.

Lemma trade_key_ok seq : in_u64 seq -> trade_key seq = Ok (trade_text seq).
Proof. intros Hq. apply key_bytes_fits. pose proof (trade_text_length seq Hq). lia. Qed.

Lemma digits_no_bar l : Forall digit l -> Forall (fun c => c <> bar) (map digit_char l).
Proof.
  intros H. apply Forall_map. eapply Forall_impl; [|exact H]. intros d Hd Hc.
  apply (f_equal code) in Hc. rewrite code_digit_char in Hc by done.
  change (code bar) with 124 in Hc. unfold digit in Hd. lia.
Qed.

(** A key splits at its bars into its kind, its instrument and its number. *)
Lemma snap_text_split sym seq :
  0 <= sym -> 0 <= seq ->
  split_on bar (snap_text sym seq) = [chars_of_string "ob"; fmt_u sym; fmt_010llu seq].
Proof.
  intros Hs Hq. unfold snap_text.
  change (chars_of_string "ob|" ++ fmt_u sym ++ bar :: fmt_010llu seq)
    with (chars_of_string "ob" ++ bar :: (fmt_u sym ++ bar :: fmt_010llu seq)).
  rewrite split_on_app by (by repeat constructor). rewrite split_on_app.
  - rewrite split_on_clean; [done|]. unfold fmt_010llu. rewrite zero_pad_digits.
    by apply digits_no_bar, padded_digits_digit.
  - by apply digits_no_bar, to_digits_digit.
Qed.

Lemma trade_text_split seq :
  0 <= seq -> split_on bar (trade_text seq) = [chars_of_string "tr"; fmt_010llu seq].
Proof.
  intros Hq. unfold trade_text.
  change (chars_of_string "tr|" ++ fmt_010llu seq) with (chars_of_string "tr" ++ bar :: fmt_010llu seq).
  rewrite split_on_app by (by repeat constructor).
  rewrite split_on_clean; [done|]. unfold fmt_010llu. rewrite zero_pad_digits.
  by apply digits_no_bar, padded_digits_digit.
Qed.

Lemma snap_text_inj sym seq sym' seq' :
  in_u32 sym -> in_u32 sym' -> in_u64 seq -> in_u64 seq' ->
  snap_text sym seq = snap_text sym' seq' -> sym = sym' /\ seq = seq'.
Proof.
  intros Hs Hs' Hq Hq' E. apply (f_equal (split_on bar)) in E.
  rewrite !snap_text_split in E by (unfold in_u32, in_u64 in *; lia).
  injection E as E1 E2. split.
  - apply (f_equal strtoull) in E1. unfold fmt_u in E1.
    rewrite <- (app_nil_r (fmt_llu sym)), <- (app_nil_r (fmt_llu sym')) in E1.
    rewrite !strtoull_fmt in E1; unfold in_u32, in_u64 in *; (done || lia).
  - apply (f_equal strtoull) in E2. by rewrite !strtoull_padded in E2.
Qed.

Lemma trade_text_inj seq seq' :
  in_u64 seq -> in_u64 seq' -> trade_text seq = trade_text seq' -> seq = seq'.
Proof.
  intros Hq Hq' E. apply (f_equal (split_on bar)) in E.
  rewrite !trade_text_split in E by (unfold in_u64 in *; lia). injection E as E.
  apply (f_equal strtoull) in E. by rewrite !strtoull_padded in E.
Qed.

Lemma snap_trade_ne sym seq seq' : snap_text sym seq <> trade_text seq'.
Proof. intros E. by apply (f_equal head) in E. Qed.

Lemma padded_lt m n :
  0 <= m < n -> n < 10 ^ 10 -> bytes_lt (fmt_010llu m) (fmt_010llu n) = true.
Proof.
  intros Hm Hn. unfold fmt_010llu. rewrite !zero_pad_digits.
  rewrite <- (app_nil_r (map digit_char (padded_digits 10 m))),
    <- (app_nil_r (map digit_char (padded_digits 10 n))).
  assert (10 ^ 10 < 2 ^ 64) by reflexivity.
  apply bytes_lt_digits.
  - by rewrite !padded_digits_length by (change (10 ^ Z.of_nat 10) with (10 ^ 10); lia).
  - apply padded_digits_digit. lia.
  - apply padded_digits_digit. lia.
  - rewrite !padded_digits_value by (unfold in_u64; lia). lia.
Qed.

(** No key overruns its buffer or is truncated by it, for any instrument
    and any 64-bit sequence number; a snapshot's and a trade's keys differ;
    two snapshots share a key only if instrument and number agree; and the
    keys of one instrument sort byte-wise in sequence order up to 10^10. *)
Theorem history_keys_sound (sym sym' seq seq' : Z) :
  in_u32 sym -> in_u32 sym' -> in_u64 seq -> in_u64 seq' ->
  snap_key sym seq = Ok (snap_text sym seq) /\ trade_key seq = Ok (trade_text seq) /\
  (snap_key sym seq = snap_key sym' seq' -> sym = sym' /\ seq = seq') /\
  (trade_key seq = trade_key seq' -> seq = seq') /\
  snap_key sym seq <> trade_key seq' /\
  (seq < seq' < 10 ^ 10 ->
     bytes_lt (snap_text sym seq) (snap_text sym seq') = true /\
     bytes_lt (trade_text seq) (trade_text seq') = true).
Proof.
  intros Hs Hs' Hq Hq'. rewrite !snap_key_ok, !trade_key_ok by done.
  split; [done|]. split; [done|].
  split; [intros E%(inj Ok); by apply snap_text_inj|].
  split; [intros E%(inj Ok); by apply trade_text_inj|].
  split; [intros E%(inj Ok); by apply snap_trade_ne in E|].
  intros Hlt. unfold in_u64 in *.
  unfold snap_text, trade_text. rewrite !bytes_lt_app.
  change (bar :: fmt_010llu seq) with ([bar] ++ fmt_010llu seq).
  change (bar :: fmt_010llu seq') with ([bar] ++ fmt_010llu seq').
  rewrite bytes_lt_app. split; apply padded_lt; lia.
Qed.

Lemma history_keys_sound_witness :
  snap_key UINT32_MAX UINT64_MAX = Ok (chars_of_string "ob|4294967295|18446744073709551615").
Proof.
  apply (history_keys_sound UINT32_MAX 0 UINT64_MAX 0);
    unfold in_u32, in_u64, UINT32_MAX, UINT64_MAX; lia.
Defined.

(** ** What a drain loop does to the transaction *)
Section Puts.
Context {LO : LmdbOps} {LL : LmdbLaws} {T : Type}.
Context (kt : T -> Z -> chars) (wrap : T -> blob) (P : T -> Prop).
Hypothesis kt_inj : forall x y a b, P x -> P y -> in_u64 a -> in_u64 b -> kt x a = kt y b -> a = b.

Fixpoint puts (l : list T) (seq : Z) (t : Txn) : Txn :=
  match l with
  | [] => t
  | x :: l => puts l (u64 (seq + 1)) (snd (mdb_put (kt x seq) (wrap x) t))
  end.

(** Every one of them returns 0. *)
Fixpoint puts_ok (l : list T) (seq : Z) (t : Txn) : bool :=
  match l with
  | [] => true
  | x :: l =>
      let '(ok, t) := mdb_put (kt x seq) (wrap x) t in
      ok && puts_ok l (u64 (seq + 1)) t
  end.

(** The numbers a batch uses do not wrap. *)
Definition seq_room (l : list T) (seq : Z) : Prop := 0 <= seq /\ seq + Z.of_nat (length l) < 2 ^ 64.

Lemma seq_room_cons x l seq :
  seq_room (x :: l) seq -> u64 (seq + 1) = seq + 1 /\ seq_room l (seq + 1) /\ in_u64 seq.
Proof.
  unfold seq_room. cbn [length]. rewrite Nat2Z.inj_succ. intros H.
  rewrite u64_id; unfold in_u64; repeat split; lia.
Qed.

Lemma puts_ok_cons x l seq t :
  puts_ok (x :: l) seq t = true ->
  exists t', mdb_put (kt x seq) (wrap x) t = (true, t') /\ puts_ok l (u64 (seq + 1)) t' = true.
Proof. cbn [puts_ok]. destruct (mdb_put _ _ t) as [[] t']; [by exists t'|done]. Qed.

Lemma puts_other k l seq t :
  seq_room l seq -> puts_ok l seq t = true ->
  (forall i x, l !! i = Some x -> kt x (seq + Z.of_nat i) <> k) ->
  txn_get k (puts l seq t) = txn_get k t.
Proof.
  revert seq t. induction l as [|x l IH]; intros seq t Hr Ho Hk; [done|].
  destruct (seq_room_cons x l seq Hr) as (Hw & Hr' & _). apply puts_ok_cons in Ho as (t' & Hp & Ho).
  cbn [puts]. rewrite Hw in *. rewrite Hp. cbn [snd]. rewrite IH.
  - apply (put_get_ne _ _ _ _ _ Hp). specialize (Hk 0%nat x eq_refl). by rewrite Z.add_0_r in Hk.
  - done.
  - done.
  - intros i y Hy. specialize (Hk (S i) y Hy). rewrite Nat2Z.inj_succ in Hk.
    by replace (seq + 1 + Z.of_nat i) with (seq + Z.succ (Z.of_nat i)) by lia.
Qed.

Lemma puts_get l seq t i x :
  seq_room l seq -> puts_ok l seq t = true -> Forall P l -> l !! i = Some x ->
  txn_get (kt x (seq + Z.of_nat i)) (puts l seq t) = Some (wrap x).
Proof.
  revert seq t i. induction l as [|y l IH]; intros seq t i Hr Ho HF Hi; [done|].
  destruct (seq_room_cons y l seq Hr) as (Hw & Hr' & Hin). apply puts_ok_cons in Ho as (t' & Hp & Ho).
  cbn [puts]. rewrite Hw in *. rewrite Hp. cbn [snd].
  apply Forall_cons_iff in HF as [Hy HF]. destruct i as [|i].
  - injection Hi as <-. rewrite Z.add_0_r, puts_other; [by eapply put_get_eq|done|done|].
    intros i z Hz E. apply kt_inj in E; try done.
    + lia.
    + by apply (Forall_lookup_1 _ _ _ _ HF Hz).
    + apply lookup_lt_Some in Hz. unfold seq_room, in_u64 in *. lia.
  - simpl in Hi. replace (seq + Z.of_nat (S i)) with (seq + 1 + Z.of_nat i) by lia.
    by apply IH.
Qed.

(** A record of the transaction was there before the puts, or is one of them. *)
Lemma puts_inv l seq t k v :
  seq_room l seq -> puts_ok l seq t = true -> txn_get k (puts l seq t) = Some v ->
  txn_get k t = Some v \/ exists i x, l !! i = Some x /\ k = kt x (seq + Z.of_nat i) /\ v = wrap x.
Proof.
  revert seq t. induction l as [|x l IH]; intros seq t Hr Ho Hg; [by left|].
  destruct (seq_room_cons x l seq Hr) as (Hw & Hr' & _). apply puts_ok_cons in Ho as (t' & Hp & Ho).
  cbn [puts] in Hg. rewrite Hw in *. rewrite Hp in Hg. cbn [snd] in Hg.
  destruct (IH _ _ Hr' Ho Hg) as [H|(i & y & Hi & -> & ->)].
  - destruct (decide (kt x seq = k)) as [<-|Hk]; [|left; by rewrite (put_get_ne _ _ _ _ _ Hp) in H].
    rewrite (put_get_eq _ _ _ _ Hp) in H. injection H as <-. right. exists 0%nat, x. by rewrite Z.add_0_r.
  - right. exists (S i), y. split; [done|]. split; [f_equal; lia|done].
Qed.

Context {QO : QueueOps} {QL : QueueLaws}.
Context (key : T -> Z -> Res chars).
Hypothesis key_ok : forall x seq, P x -> in_u64 seq -> key x seq = Ok (kt x seq).

(** With a transaction to be had, the loop puts every queued record under the
    next numbers and leaves the ring empty. *)
Lemma persist_loop_ok fuel db ring txn seq n :
  q_ok ring -> (length (q_contents ring) < fuel)%nat -> seq_room (q_contents ring) seq ->
  Forall P (q_contents ring) -> (q_contents ring <> [] -> is_Some (ensure_txn db txn)) ->
  exists ring', q_ok ring' /\ q_contents ring' = [] /\
    persist_loop key wrap fuel db ring (txn, seq, n) =
      Ok ((match q_contents ring with [] => txn | l => option_map (puts l seq) (ensure_txn db txn) end,
           seq + Z.of_nat (length (q_contents ring)),
           n + Z.of_nat (length (q_contents ring))), ring').
Proof.
  revert ring txn seq n. induction fuel as [|fuel IH]; intros ring txn seq n Hok Hf Hr HF Ht; [lia|].
  destruct (q_pop_law _ _ ring kSnapCap_legal Hok) as (r1 & Hp & Hok1 & Hc1).
  cbn [persist_loop]. rewrite Hp. cbn [res_bind].
  destruct (q_contents ring) as [|x l] eqn:E; cbn [head tail length] in *.
  - exists r1. split; [done|]. split; [done|].
    change (Z.of_nat 0) with 0. by rewrite !Z.add_0_r.
  - apply Forall_cons_iff in HF as [Hx HF].
    destruct (seq_room_cons x l seq Hr) as (Hw & Hr' & Hin). destruct Ht as [t Ht]; [done|].
    rewrite Ht, key_ok by done. cbn [res_bind]. rewrite Hw.
    destruct (IH r1 (Some (snd (mdb_put (kt x seq) (wrap x) t))) (seq + 1) (n + 1))
      as (r2 & Hok2 & Hc2 & Hl); [done|rewrite Hc1; lia|by rewrite Hc1|by rewrite Hc1|by eexists|].
    exists r2. rewrite Hl, Hc1. split; [done|]. split; [done|].
    do 2 f_equal; [f_equal; [f_equal|]; [|lia..]]. cbn [puts option_map ensure_txn]. rewrite Hw. by destruct l.
Qed.

(** Without one, it drops the record it popped and stops. *)
Lemma persist_loop_no_txn fuel db ring seq n :
  q_ok ring -> (0 < fuel)%nat -> mdb_txn_begin db = None ->
  exists ring', q_ok ring' /\ q_contents ring' = tail (q_contents ring) /\
    persist_loop key wrap fuel db ring (None, seq, n) = Ok ((None, seq, n), ring').
Proof.
  intros Hok Hf Hb. destruct fuel as [|fuel]; [lia|].
  destruct (q_pop_law _ _ ring kSnapCap_legal Hok) as (r1 & Hp & Hok1 & Hc1).
  exists r1. split; [done|]. split; [done|]. cbn [persist_loop]. rewrite Hp. cbn [res_bind].
  destruct (q_contents ring); cbn [head ensure_txn]; [done|]. by rewrite Hb.
Qed.
End Puts.

(** ** Cycles *)
Section Cycles.
Context {QO : QueueOps} {QL : QueueLaws} {LO : LmdbOps} {LL : LmdbLaws}.

Definition snaps (p : LmdbPersister) : list BookSnapshot := q_contents (snap_ring_ p).
Definition trades (p : LmdbPersister) : list ExecEvent := q_contents (trade_ring_ p).

Definition snap_sym_ok (s : BookSnapshot) : Prop := in_u32 (s_symbol_id s).

Record persister_ok (p : LmdbPersister) : Prop := {
  po_snap : q_ok (snap_ring_ p);
  po_trade : q_ok (trade_ring_ p);
  po_sroom : seq_room (snaps p) (snap_seq_ p);
  po_troom : seq_room (trades p) (trade_seq_ p);
  po_syms : Forall snap_sym_ok (snaps p)
}.

Definition skt (s : BookSnapshot) (seq : Z) : chars := snap_text (s_symbol_id s) seq.
Definition tkt (e : ExecEvent) (seq : Z) : chars := trade_text seq.

(** The transaction's data after both loops, from the one the cycle begins. *)
Definition cycle_txn (p : LmdbPersister) (t : Txn) : Txn :=
  puts tkt BTrade (trades p) (trade_seq_ p) (puts skt BSnap (snaps p) (snap_seq_ p) t).

(** All its puts return 0. *)
Definition cycle_puts_ok (p : LmdbPersister) (t : Txn) : bool :=
  puts_ok skt BSnap (snaps p) (snap_seq_ p) t &&
  puts_ok tkt BTrade (trades p) (trade_seq_ p) (puts skt BSnap (snaps p) (snap_seq_ p) t).

(** Every LMDB call of the cycle returns 0; with nothing to store it makes none. *)
Definition cycle_clean (p : LmdbPersister) (db : Db) : bool :=
  match snaps p, trades p with
  | [], [] => true
  | _, _ =>
      match mdb_txn_begin db with
      | Some t => cycle_puts_ok p t && fst (mdb_txn_commit (cycle_txn p t) db)
      | None => false
      end
  end.

(** What such a cycle does to the database. *)
Record cycle_stored (p : LmdbPersister) (db db' : Db) : Prop := {
  cs_snap : forall i s, snaps p !! i = Some s -> mdb_get (skt s (snap_seq_ p + Z.of_nat i)) db' = Some (BSnap s);
  cs_trade : forall i e, trades p !! i = Some e -> mdb_get (trade_text (trade_seq_ p + Z.of_nat i)) db' = Some (BTrade e);
  cs_other : forall k,
    (forall i s, snaps p !! i = Some s -> skt s (snap_seq_ p + Z.of_nat i) <> k) ->
    (forall i e, trades p !! i = Some e -> trade_text (trade_seq_ p + Z.of_nat i) <> k) ->
    mdb_get k db' = mdb_get k db;
  cs_only : forall k v, mdb_get k db' = Some v ->
    mdb_get k db = Some v \/
    (exists i s, snaps p !! i = Some s /\ k = skt s (snap_seq_ p + Z.of_nat i) /\ v = BSnap s) \/
    (exists i e, trades p !! i = Some e /\ k = trade_text (trade_seq_ p + Z.of_nat i) /\ v = BTrade e)
}.

Lemma cycle_get_snap p t i s :
  persister_ok p -> cycle_puts_ok p t = true -> snaps p !! i = Some s ->
  txn_get (skt s (snap_seq_ p + Z.of_nat i)) (cycle_txn p t) = Some (BSnap s).
Proof.
  intros [_ _ Hsr Htr Hsy] [Ho1 Ho2]%andb_true_iff Hi. unfold cycle_txn.
  rewrite puts_other; [|done|done|intros j e _ E; exact (snap_trade_ne _ _ _ (eq_sym E))].
  apply (puts_get skt BSnap snap_sym_ok); [|done..].
  intros x y a b Hx Hy Ha Hb E. exact (proj2 (snap_text_inj _ _ _ _ Hx Hy Ha Hb E)).
Qed.

Lemma cycle_get_trade p t i e :
  persister_ok p -> cycle_puts_ok p t = true -> trades p !! i = Some e ->
  txn_get (trade_text (trade_seq_ p + Z.of_nat i)) (cycle_txn p t) = Some (BTrade e).
Proof.
  intros [_ _ Hsr Htr Hsy] [Ho1 Ho2]%andb_true_iff Hi. unfold cycle_txn.
  apply (puts_get tkt BTrade (fun _ => True)); [|done|done|by apply List.Forall_forall|done].
  intros x y a b _ _ Ha Hb E. exact (trade_text_inj _ _ Ha Hb E).
Qed.

(** A transaction with the batch in it, committed. *)
Lemma commit_stored p db t db' :
  persister_ok p -> mdb_txn_begin db = Some t -> cycle_puts_ok p t = true ->
  mdb_txn_commit (cycle_txn p t) db = (true, db') -> cycle_stored p db db'.
Proof.
  intros Hp Hb Ho Hc. pose proof Hp as [_ _ Hsr Htr _]. pose proof Ho as [Ho1 Ho2]%andb_true_iff.
  split; intros *; rewrite (commit_get _ _ _ _ Hc).
  - by apply cycle_get_snap.
  - by apply cycle_get_trade.
  - intros H1 H2. unfold cycle_txn. rewrite !puts_other by done. by apply begin_get.
  - unfold cycle_txn. intros [H|(i & e & H)]%puts_inv; [|right; right; by exists i, e|done|done].
    apply puts_inv in H as [H|(i & b & H)]; [|right; left; by exists i, b|done|done].
    left. by rewrite <- (begin_get db t).
Qed.

Lemma nothing_stored p db : snaps p = [] -> trades p = [] -> cycle_stored p db db.
Proof.
  intros Hs Ht. split; rewrite ?Hs, ?Ht; [intros i s H; by rewrite lookup_nil in H..|done|by left].
Qed.

(** A cycle that gets a transaction, or has nothing to store: both loops run to
    the end of their rings. *)
Lemma persist_cycle_runs p db :
  persister_ok p -> (snaps p = [] /\ trades p = []) \/ (exists t, mdb_txn_begin db = Some t) ->
  exists p' db', persist_cycle p db = Ok (p', db') /\
    db' = match snaps p, trades p, mdb_txn_begin db with
          | [], [], _ | _, _, None => db
          | _, _, Some t => snd (mdb_txn_commit (cycle_txn p t) db)
          end /\
    persister_ok p' /\ snaps p' = [] /\ trades p' = [] /\
    snap_seq_ p' = snap_seq_ p + Z.of_nat (length (snaps p)) /\
    trade_seq_ p' = trade_seq_ p + Z.of_nat (length (trades p)).
Proof.
  intros [Hs Ht Hsr Htr Hsy] Hb.
  assert (Hf1 : (length (q_contents (snap_ring_ p)) < drain_fuel (snap_ring_ p))%nat).
  { unfold drain_fuel. destruct (q_size_law _ _ (snap_ring_ p) kSnapCap_legal Hs) as [-> _]. lia. }
  assert (Hf2 : (length (q_contents (trade_ring_ p)) < drain_fuel (trade_ring_ p))%nat).
  { unfold drain_fuel. destruct (q_size_law _ _ (trade_ring_ p) kSnapCap_legal Ht) as [-> _]. lia. }
  destruct (persist_loop_ok skt BSnap snap_sym_ok (fun s seq => snap_key (s_symbol_id s) seq)
    (fun s seq Hs Hq => snap_key_ok _ _ Hs Hq) _ db (snap_ring_ p) None (snap_seq_ p) 0
    Hs Hf1 Hsr Hsy) as (sr & Hsok & Hsc & Hsl); [destruct Hb as [[E _]|[t Hb]]; [by unfold snaps in E; rewrite E|by exists t]|].
  fold (snaps p) in *. set (st := match snaps p with [] => None | _ => _ end) in *.
  assert (Hen : ensure_txn db st = option_map (puts skt BSnap (snaps p) (snap_seq_ p)) (mdb_txn_begin db)).
  { subst st. destruct (snaps p); [by destruct (mdb_txn_begin db) eqn:E; cbn; rewrite E|].
    destruct Hb as [[? _]|[t Hb]]; [done|]. cbn. by rewrite Hb. }
  destruct (persist_loop_ok tkt BTrade (fun _ => True) (fun _ seq => trade_key seq)
    (fun _ seq _ Hq => trade_key_ok seq Hq) _ db (trade_ring_ p) st (trade_seq_ p)
    (0 + Z.of_nat (length (snaps p))) Ht Hf2 Htr ltac:(by apply List.Forall_forall)) as (tr & Htok & Htc & Htl).
  { rewrite Hen. destruct Hb as [[_ Hn]|[t Hb]]; [|by rewrite Hb; eexists]. by unfold trades in Hn; rewrite Hn. }
  fold (trades p) in *. unfold persist_cycle, snap_loop, trade_loop. rewrite Hsl. cbn [res_bind]. rewrite Htl. cbn [res_bind].
  set (tt' := match trades p with [] => st | _ => _ end).
  exists (mkPersister (snap_seq_ p + Z.of_nat (length (snaps p)))
    (trade_seq_ p + Z.of_nat (length (trades p))) sr tr).
  exists (match tt' with Some t => snd (mdb_txn_commit t db) | None => db end).
  split; [by destruct tt'|]. split.
  - subst tt'. rewrite Hen. subst st. unfold cycle_txn. unfold tkt.
    destruct Hb as [[E1 E2]|[t Hbt]]; [by rewrite E1, E2|]. rewrite Hbt. cbn [option_map].
    destruct (snaps p), (trades p); cbn [ensure_txn]; rewrite ?Hbt; done.
  - repeat split; try done; unfold snaps, trades, seq_room in *; cbn in *;
      rewrite ?Hsc, ?Htc; try constructor; cbn; lia.
Qed.

Lemma persist_cycle_stored p db :
  persister_ok p -> cycle_clean p db = true ->
  exists p' db', persist_cycle p db = Ok (p', db') /\ cycle_stored p db db' /\
    persister_ok p' /\ snaps p' = [] /\ trades p' = [] /\
    snap_seq_ p' = snap_seq_ p + Z.of_nat (length (snaps p)) /\
    trade_seq_ p' = trade_seq_ p + Z.of_nat (length (trades p)).
Proof.
  intros Hp Hc. unfold cycle_clean in Hc.
  assert (Hd : (snaps p = [] /\ trades p = []) \/ exists t, mdb_txn_begin db = Some t).
  { destruct (mdb_txn_begin db) as [t|]; [right; by exists t|left]. by destruct (snaps p), (trades p). }
  destruct (persist_cycle_runs p db Hp Hd) as (p' & db' & H & E & Hrest).
  exists p', db'. split; [exact H|]. split; [|exact Hrest]. clear H Hrest Hd.
  destruct (snaps p) as [|x l] eqn:Es, (trades p) as [|y l'] eqn:Et; [subst db'; by apply nothing_stored|..].
  all: destruct (mdb_txn_begin db) as [t|] eqn:Hb; [|done]; apply andb_true_iff in Hc as [Ho Hc].
  all: apply (commit_stored p db t); [done..|]; subst db'; destruct (mdb_txn_commit _ db) as [ok d]; cbn in Hc; by subst ok.
Qed.

Lemma persist_cycle_refused p db :
  persister_ok p -> mdb_txn_begin db = None ->
  exists p', persist_cycle p db = Ok (p', db) /\ snaps p' = tail (snaps p) /\ trades p' = tail (trades p) /\
    snap_seq_ p' = snap_seq_ p /\ trade_seq_ p' = trade_seq_ p.
Proof.
  intros [Hs Ht Hsr Htr Hsy] Hb.
  destruct (persist_loop_no_txn BSnap (fun s seq => snap_key (s_symbol_id s) seq)
    (drain_fuel (snap_ring_ p)) db (snap_ring_ p) (snap_seq_ p) 0 Hs) as (sr & Hso & Hsc & Hsl);
    [unfold drain_fuel; lia|done|].
  destruct (persist_loop_no_txn BTrade (fun _ seq => trade_key seq)
    (drain_fuel (trade_ring_ p)) db (trade_ring_ p) (trade_seq_ p) 0 Ht) as (tr & Hto & Htc & Htl);
    [unfold drain_fuel; lia|done|].
  unfold persist_cycle, snap_loop, trade_loop. rewrite Hsl. cbn [res_bind]. rewrite Htl. cbn [res_bind].
  eexists. split; [done|]. done.
Qed.

End Cycles.

(** ** A concrete database for the witnesses: a finite map, transactions on a copy *)

Definition map_db : LmdbOps := {|
  Db := gmap chars blob;
  Txn := gmap chars blob;
  mdb_txn_begin := fun db => Some db;
  mdb_put := fun k v t => (true, <[k := v]> t);
  mdb_txn_commit := fun t _ => (true, t);
  mdb_get := fun k db => db !! k;
  txn_get := fun k t => t !! k
|}.

Lemma map_db_laws : @LmdbLaws map_db.
Proof.
  split; cbn.
  - by intros db txn k [= ->].
  - intros k v txn txn' [= <-]. apply lookup_insert_eq.
  - intros k k' v txn txn' [= <-] H. by apply lookup_insert_ne.
  - by intros k txn db db' [= <-].
Qed.

(** Its calls always succeed. *)
Lemma map_puts_ok {T} (kt : T -> Z -> chars) wrap l seq t : @puts_ok map_db T kt wrap l seq t = true.
Proof. revert seq t. induction l as [|x l IH]; intros seq t; [done|apply IH]. Qed.

Lemma map_db_clean {QO : QueueOps} {QL : QueueLaws} p db : @cycle_clean QO QL map_db p db = true.
Proof.
  unfold cycle_clean, cycle_puts_ok. cbn [mdb_txn_begin map_db]. rewrite !map_puts_ok.
  by destruct (snaps p), (trades p).
Qed.

Definition demo_snap : BookSnapshot :=
  mkBookSnapshot 5 3 1 1 zero_levels zero_levels zero_levels zero_levels.

(** A persister with one snapshot and one trade queued. *)
Definition demo_persister : @LmdbPersister spsc_ops :=
  match res_bind (push_snapshot demo_snap persister_init)
          (fun '(_, p) => push_trade ExecEvent_zero p) with
  | Ok (_, p) => p
  | Err _ => persister_init
  end.

Lemma persister_init_ok {QO : QueueOps} {QL : QueueLaws} : persister_ok persister_init.
Proof.
  split; unfold snaps, trades, seq_room; cbn;
    rewrite ?(q_init_empty kSnapCap _ kSnapCap_legal); try constructor; cbn; try lia;
    apply q_init_ok, kSnapCap_legal.
Qed.

Lemma demo_persister_ok :
  persister_ok demo_persister /\ snaps demo_persister = [demo_snap] /\ trades demo_persister = [ExecEvent_zero].
Proof.
  pose proof (@persister_init_ok spsc_ops spsc_laws) as [H1 H2 _ _ _].
  unfold demo_persister, push_snapshot, push_trade.
  destruct (q_push_law kSnapCap _ _ demo_snap kSnapCap_legal H1) as (r1 & E1 & Hr1 & Hc1).
  destruct (q_push_law kSnapCap _ _ ExecEvent_zero kSnapCap_legal H2) as (r2 & E2 & Hr2 & Hc2).
  rewrite E1. cbn [res_bind]. cbn [trade_ring_ snap_ring_ snap_seq_ trade_seq_]. rewrite E2. cbn [res_bind].
  cbn [snap_ring_ trade_ring_ persister_init] in Hc1, Hc2.
  rewrite (q_init_empty kSnapCap _ kSnapCap_legal) in Hc1.
  rewrite (q_init_empty kSnapCap _ kSnapCap_legal) in Hc2.
  cbn [length Z.of_nat] in Hc1, Hc2. change (0 <? kSnapCap) with true in Hc1, Hc2. cbn [app] in Hc1, Hc2.
  split; [|done]. split; unfold snaps, trades, seq_room; cbn -[q_contents]; rewrite ?Hc1, ?Hc2;
    try done; repeat constructor; cbn; lia.
Qed.

(** ** Properties *)

(** A cycle whose LMDB calls succeed ends with both rings empty and the
    database holding every record that was queued, byte for byte, under the
    next sequence numbers of its kind, and every other key as it was. *)
Theorem persist_cycle_stores_batch {QO : QueueOps} {QL : QueueLaws} {LO : LmdbOps} {LL : LmdbLaws}
    (p : LmdbPersister) (db : Db) :
  persister_ok p -> cycle_clean p db = true ->
  exists p' db', persist_cycle p db = Ok (p', db') /\ persister_ok p' /\
    snaps p' = [] /\ trades p' = [] /\
    snap_seq_ p' = snap_seq_ p + Z.of_nat (length (snaps p)) /\
    trade_seq_ p' = trade_seq_ p + Z.of_nat (length (trades p)) /\
    (forall i s, snaps p !! i = Some s ->
       mdb_get (snap_text (s_symbol_id s) (snap_seq_ p + Z.of_nat i)) db' = Some (BSnap s)) /\
    (forall i e, trades p !! i = Some e ->
       mdb_get (trade_text (trade_seq_ p + Z.of_nat i)) db' = Some (BTrade e)) /\
    (forall k,
       (forall i s, snaps p !! i = Some s -> snap_text (s_symbol_id s) (snap_seq_ p + Z.of_nat i) <> k) ->
       (forall i e, trades p !! i = Some e -> trade_text (trade_seq_ p + Z.of_nat i) <> k) ->
       mdb_get k db' = mdb_get k db).
Proof.
  intros Hp Hc. destruct (persist_cycle_stored p db Hp Hc) as (p' & db' & H & [H1 H2 H3 _] & Hrest).
  exists p', db'. split; [exact H|]. destruct Hrest as (Hp' & E1 & E2 & E3 & E4). do 5 (split; [done|]). by split.
Qed.

Lemma persist_cycle_stores_batch_witness :
  exists p' db', @persist_cycle spsc_ops map_db demo_persister ∅ = Ok (p', db') /\
    @mdb_get map_db (snap_text 3 0) db' = Some (BSnap demo_snap).
Proof.
  destruct (@persist_cycle_stores_batch spsc_ops spsc_laws map_db map_db_laws demo_persister ∅)
    as (p' & db' & H & _ & _ & _ & _ & _ & Hs & _); [apply demo_persister_ok|by apply map_db_clean|].
  exists p', db'. split; [exact H|]. apply (Hs 0%nat demo_snap).
  by rewrite (proj1 (proj2 demo_persister_ok)).
Defined.

(** A failed put is not noticed: on a full map the cycle answers as it always
    does, counts the records as stored and goes on, and they are gone. *)
Definition full_db : LmdbOps := {|
  Db := gmap chars blob;
  Txn := gmap chars blob;
  mdb_txn_begin := fun db => Some db;
  mdb_put := fun _ _ t => (false, t);
  mdb_txn_commit := fun t _ => (true, t);
  mdb_get := fun k db => db !! k;
  txn_get := fun k t => t !! k
|}.

Example full_map_loses_batch :
  match @persist_cycle list_ops full_db (@mkPersister list_ops 0 0 [demo_snap] [ExecEvent_zero]) ∅ with
  | Ok (p, db) => snap_seq_ p = 1 /\ trade_seq_ p = 1 /\ @snap_ring_ list_ops p = [] /\ @trade_ring_ list_ops p = [] /\
      @mdb_get full_db (trade_text 0) db = None
  | Err _ => False
  end.
Proof. vm_compute. auto. Qed.

(** When [mdb_txn_begin] fails, the cycle writes nothing and keeps the
    sequence numbers, but the record each loop had already popped is gone:
    one snapshot and one trade are lost per failed cycle. *)
Theorem persist_cycle_txn_failure {QO : QueueOps} {QL : QueueLaws} {LO : LmdbOps}
    (p : LmdbPersister) (db : Db) :
  persister_ok p -> mdb_txn_begin db = None ->
  exists p', persist_cycle p db = Ok (p', db) /\
    snaps p' = tail (snaps p) /\ trades p' = tail (trades p) /\
    snap_seq_ p' = snap_seq_ p /\ trade_seq_ p' = trade_seq_ p.
Proof. apply persist_cycle_refused. Qed.

(** The same database, whose environment refuses transactions. *)
Definition broken_db : LmdbOps := {|
  Db := unit; Txn := unit; mdb_txn_begin := fun _ => None; mdb_put := fun _ _ t => (false, t);
  mdb_txn_commit := fun _ _ => (false, tt); mdb_get := fun _ _ => None; txn_get := fun _ _ => None
|}.

Lemma persist_cycle_txn_failure_witness :
  exists p', @persist_cycle spsc_ops broken_db demo_persister tt = Ok (p', tt) /\ trades p' = [].
Proof.
  destruct (@persist_cycle_txn_failure spsc_ops spsc_laws broken_db demo_persister tt)
    as (p' & H & _ & Ht & _); [apply demo_persister_ok|done|].
  exists p'. split; [exact H|]. rewrite Ht. by rewrite (proj2 (proj2 demo_persister_ok)).
Defined.

(** The history does not survive a restart: a new process numbers from 0
    again, so its first snapshot of an instrument takes the key, and replaces
    the value, of the first snapshot stored by the run before. *)
Theorem restart_overwrites_history {QO : QueueOps} {QL : QueueLaws} {LO : LmdbOps} {LL : LmdbLaws}
    (p : LmdbPersister) (db : Db) (old new : BookSnapshot) :
  persister_ok p -> snap_seq_ p = 0 -> snaps p = [new] ->
  s_symbol_id new = s_symbol_id old ->
  mdb_get (snap_text (s_symbol_id old) 0) db = Some (BSnap old) -> cycle_clean p db = true ->
  exists p' db', persist_cycle p db = Ok (p', db') /\
    mdb_get (snap_text (s_symbol_id old) 0) db' = Some (BSnap new).
Proof.
  intros Hp Hq Hs Hsym Hold Hc.
  destruct (persist_cycle_stored p db Hp Hc) as (p' & db' & H & [Hn _ _ _] & _).
  exists p', db'. split; [done|]. rewrite <- Hsym. specialize (Hn 0%nat new). rewrite Hs, Hq in Hn. by apply Hn.
Qed.

Definition demo_old : BookSnapshot :=
  mkBookSnapshot 1 3 2 2 zero_levels zero_levels zero_levels zero_levels.
Definition demo_old_db : gmap chars blob := <[snap_text 3 0 := BSnap demo_old]> ∅.

Lemma restart_overwrites_history_witness :
  exists p' db', @persist_cycle spsc_ops map_db demo_persister demo_old_db = Ok (p', db') /\
    @mdb_get map_db (snap_text 3 0) db' = Some (BSnap demo_snap).
Proof.
  apply (@restart_overwrites_history spsc_ops spsc_laws map_db map_db_laws demo_persister
    demo_old_db demo_old demo_snap);
    [apply demo_persister_ok|reflexivity|apply demo_persister_ok|reflexivity| |by apply map_db_clean].
  apply lookup_insert_eq.
Defined.
