(* ===== verification/Config.v ===== *)
(** * Configuration (src/src/common/config.hpp)

    The key=value file and the list of instruments, read once at startup.  A
    file is its characters, or None when it cannot be opened.  [std::stoi] and
    [std::stod] are modelled with the exceptions they throw. *)
From S2P Require Import Prelude.
From S2P Require Import Double.
From S2P Require Import Text.
From Stdlib Require Import Ascii.

(** ** [std::stoi]: strtol in base 10, then the range of int *)

Fixpoint span_digits (s : chars) : list Z * chars :=
  match s with
  | c :: r =>
      if is_digit c then let '(l, t) := span_digits r in ((code c - 48) :: l, t) else ([], s)
  | [] => ([], [])
  end.

Definition stoi (s : chars) : Res Z :=
  let '(neg, r) := take_sign (skip_spaces s) in
  match take_digits r with
  | [] => Err (Throw InvalidArgument)
  | l =>
      let v := if neg : bool then - digits_value l else digits_value l in
      if (- 2 ^ 31 <=? v) && (v <? 2 ^ 31) then Ok v else Err (Throw OutOfRange)
  end.

(** ** [std::stod] *)

(** The double nearest to [n / d], and whether strtod reports a range error:
    an overflow, or a result below the normal range that is not exact. *)
Definition rational_double (neg : bool) (n d : Z) : double * bool :=
  if n =? 0 then (S754_zero neg, false)
  else
    let r := dlit (if neg then - n else n) d in
    (r, match r with
        | S754_finite _ m e =>
            (e =? -1074) && (Zpos m <? 2 ^ 52) && negb (n * 2 ^ (- e) =? Zpos m * d)
        | _ => true
        end).

Definition lower (c : ascii) : ascii :=
  if (65 <=? code c) && (code c <=? 90) then chr (code c + 32) else c.

Fixpoint has_prefix (p s : chars) : bool :=
  match p, s with
  | [], _ => true
  | a :: p, b :: s => bool_decide (a = lower b) && has_prefix p s
  | _, [] => false
  end.

Definition hex_digit (c : ascii) : option Z :=
  let c := lower c in
  if is_digit c then Some (code c - 48)
  else if (97 <=? code c) && (code c <=? 102) then Some (code c - 87) else None.

Fixpoint span_hex (s : chars) : list Z * chars :=
  match s with
  | c :: r =>
      match hex_digit c with
      | Some d => let '(l, t) := span_hex r in (d :: l, t)
      | None => ([], s)
      end
  | [] => ([], [])
  end.

Definition hex_value (l : list Z) : Z := fold_left (fun a d => 16 * a + d) l 0.

(** An exponent part after the marker: 0 unless digits follow it. *)
Definition exponent (marker : ascii) (s : chars) : Z :=
  match s with
  | c :: r =>
      if bool_decide (lower c = marker) then
        let '(neg, r) := take_sign r in
        let v := digits_value (take_digits r) in if neg : bool then - v else v
      else 0
  | [] => 0
  end.

(** Integer digits, and the digits after a point. *)
Definition mantissa (span : chars -> list Z * chars) (s : chars) : list Z * list Z * chars :=
  let '(ip, r) := span s in
  match r with
  | c :: r' => if code c =? 46 then let '(fp, t) := span r' in (ip, fp, t) else (ip, [], r)
  | [] => (ip, [], [])
  end.

Definition scaled_double (neg : bool) (base m e : Z) : double * bool :=
  if 0 <=? e then rational_double neg (m * base ^ e) 1
  else rational_double neg m (base ^ (- e)).

Definition strtod_dec (neg : bool) (s : chars) : option (double * bool) :=
  let '(ip, fp, r) := mantissa span_digits s in
  match ip ++ fp with
  | [] => None
  | l => Some (scaled_double neg 10 (digits_value l)
                 (exponent (chr 101) r - Z.of_nat (length fp)))
  end.

Definition strtod_hex (neg : bool) (s : chars) : option (double * bool) :=
  let '(ip, fp, r) := mantissa span_hex s in
  match ip ++ fp with
  | [] => None
  | l => Some (scaled_double neg 2 (hex_value l)
                 (exponent (chr 112) r - 4 * Z.of_nat (length fp)))
  end.

(** The value and the range error, None when nothing is converted. *)
Definition strtod (s : chars) : option (double * bool) :=
  let '(neg, r) := take_sign (skip_spaces s) in
  if has_prefix (chars_of_string "inf") r then Some (S754_infinity neg, false)
  else if has_prefix (chars_of_string "nan") r then Some (dnan, false)
  else if has_prefix (chars_of_string "0x") r then
    match strtod_hex neg (drop 2 r) with
    | Some v => Some v
    | None => strtod_dec neg r
    end
  else strtod_dec neg r.

Definition stod (s : chars) : Res double :=
  match strtod s with
  | None => Err (Throw InvalidArgument)
  | Some (v, erange) => if erange : bool then Err (Throw OutOfRange) else Ok v
  end.

(** ** Lines *)

Definition newline : ascii := chr 10.

(** The lines successive [std::getline] calls yield: the last one need not be
    terminated, and nothing follows a final terminator. *)
Fixpoint getlines_from (cur : chars) (s : chars) : list chars :=
  match s with
  | [] => match cur with [] => [] | _ => [rev cur] end
  | c :: s => if decide (c = newline) then rev cur :: getlines_from [] s
              else getlines_from (c :: cur) s
  end.

Definition getlines (file : option chars) : list chars :=
  match file with
  | Some s => getlines_from [] s
  | None => []
  end.

Definition is_trailer (c : ascii) : bool := (code c =? 13) || (code c =? 32).

(** [while (!v.empty() && (v.back()=='\r' || v.back()==' ')) v.pop_back();] *)
Fixpoint rstrip (s : chars) : chars :=
  match s with
  | [] => []
  | c :: s =>
      match rstrip s with
      | [] => if is_trailer c then [] else [c]
      | s => c :: s
      end
  end.

Definition equals_sign : ascii := chr 61.
Definition hash_sign : ascii := chr 35.

(** The parts around the first '='; None when there is none. *)
Fixpoint split_eq (s : chars) : option (chars * chars) :=
  match s with
  | [] => None
  | c :: s =>
      if decide (c = equals_sign) then Some ([], s)
      else match split_eq s with
           | Some (k, v) => Some (c :: k, v)
           | None => None
           end
  end.

(** [line.empty() || line[0] == '#'] *)
Definition skip_line (line : chars) : bool :=
  match line with
  | [] => true
  | c :: _ => bool_decide (c = hash_sign)
  end.

Definition kv_line (kv : gmap chars chars) (line : chars) : gmap chars chars :=
  if skip_line line then kv
  else match split_eq line with
       | None => kv
       | Some (k, v) => <[k := rstrip v]> kv
       end.

Definition kv_of (file : option chars) : gmap chars chars :=
  fold_left kv_line (getlines file) ∅.

Definition symbols_of (file : option chars) : list chars :=
  filter (fun l => skip_line l = false) (map rstrip (getlines file)).

(** ** The configuration *)

Record EngineConfig := mkConfig {
  minimum_spread : double;
  order_spread : double;
  tick_size : double;
  order_qty : double;
  book_depth : Z;
  account : chars;
  sender : chars;
  fix_cfg : chars;
  symbols_file : chars;
  strategy_core : Z;
  fix_core : Z;
  metrics_port : Z;
  lmdb_path : chars;
  snapshot_interval_ms : Z;
  dry_run : bool;
  symbols : list chars
}.

Definition config_default : EngineConfig :=
  mkConfig (dlit 5 100) (dlit 2 100) (dlit 1 1000) (double_of_Z 1) 5
    (chars_of_string "REM22479") [] (chars_of_string "config/fix_config.cfg")
    (chars_of_string "config/Actives.txt") 2 3 9091 (chars_of_string "data/lmdb") 1000 false [].

(** The [get] lambda at its four types. *)
Section Get.
Context (kv : gmap chars chars).
Definition get_with {A} (parse : chars -> Res A) (k : string) (def : A) : Res A :=
  match kv !! chars_of_string k with
  | None => Ok def
  | Some v => parse v
  end.
Definition get_double := get_with stod.
Definition get_int := get_with stoi.
Definition parse_bool (v : chars) : Res bool :=
  Ok (bool_decide (v = chars_of_string "1") || bool_decide (v = chars_of_string "true")).
Definition get_bool := get_with parse_bool.
Definition get_string := get_with (fun v => Ok v).
End Get.

(** [EngineConfig::load]; [files] is the file system. *)
Definition load (files : chars -> option chars) (path : chars) : Res EngineConfig :=
  let c := config_default in
  let kv := kv_of (files path) in
  res_bind (get_double kv "MINIMUM_SPREAD" (minimum_spread c)) (fun minimum_spread =>
  res_bind (get_double kv "ORDER_SPREAD" (order_spread c)) (fun order_spread =>
  res_bind (get_double kv "TICK_SIZE" (tick_size c)) (fun tick_size =>
  res_bind (get_double kv "ORDER_QTY" (order_qty c)) (fun order_qty =>
  res_bind (get_int kv "BOOK_DEPTH" (book_depth c)) (fun book_depth =>
  res_bind (get_string kv "ACCOUNT" (account c)) (fun account =>
  res_bind (get_string kv "FIX_CFG" (fix_cfg c)) (fun fix_cfg =>
  res_bind (get_string kv "SYMBOLS_FILE" (symbols_file c)) (fun symbols_file =>
  res_bind (get_int kv "STRATEGY_CORE" (strategy_core c)) (fun strategy_core =>
  res_bind (get_int kv "FIX_CORE" (fix_core c)) (fun fix_core =>
  res_bind (get_int kv "METRICS_PORT" (metrics_port c)) (fun metrics_port =>
  res_bind (get_string kv "LMDB_PATH" (lmdb_path c)) (fun lmdb_path =>
  res_bind (get_int kv "SNAPSHOT_INTERVAL_MS" (snapshot_interval_ms c)) (fun snapshot_interval_ms =>
  res_bind (get_bool kv "DRY_RUN" (dry_run c)) (fun dry_run =>
  Ok (mkConfig minimum_spread order_spread tick_size order_qty book_depth account (sender c)
        fix_cfg symbols_file strategy_core fix_core metrics_port lmdb_path snapshot_interval_ms
        dry_run (symbols_of (files symbols_file))))))))))))))))).

(** ** Lines and trailers *)

Definition no_newline (s : chars) : Prop := Forall (fun c => c <> newline) s.

Lemma getlines_from_line cur l s :
  no_newline l -> getlines_from cur (l ++ newline :: s) = (rev cur ++ l) :: getlines_from [] s.
Proof.
  intros H. revert cur. induction H as [|c l Hc Hl IH]; intros cur; cbn [app getlines_from].
  - by rewrite decide_True, app_nil_r.
  - rewrite decide_False by done. rewrite IH. cbn [rev]. by rewrite <- app_assoc.
Qed.

Lemma getlines_line l s : no_newline l -> getlines (Some (l ++ newline :: s)) = l :: getlines (Some s).
Proof. intros H. unfold getlines. by rewrite getlines_from_line. Qed.

Lemma rstrip_trailers p : Forall (fun c => is_trailer c = true) p -> rstrip p = [].
Proof. induction 1 as [|c p Hc Hp IH]; simpl; [done|]. by rewrite IH, Hc. Qed.

Lemma rstrip_app v p : Forall (fun c => is_trailer c = true) p -> rstrip (v ++ p) = rstrip v.
Proof.
  intros H. induction v as [|c v IH]; simpl; [by apply rstrip_trailers|]. by rewrite IH.
Qed.

Lemma rstrip_idem s : rstrip (rstrip s) = rstrip s.
Proof.
  induction s as [|c s IH]; simpl; [done|]. destruct (rstrip s) as [|d t] eqn:E.
  - destruct (is_trailer c) eqn:Ec; [done|]. simpl. by rewrite Ec.
  - change (rstrip (c :: d :: t)) with (match rstrip (d :: t) with
      [] => if is_trailer c then [] else [c] | s => c :: s end). by rewrite IH.
Qed.

(** What is left does not end in a carriage return or a space. *)
Lemma rstrip_last s c : list.last (rstrip s) = Some c -> is_trailer c = false.
Proof.
  induction s as [|d s IH]; simpl; [done|]. destruct (rstrip s) as [|d' t] eqn:E.
  - destruct (is_trailer d) eqn:Ed; [done|]. simpl. by intros [= <-].
  - intros H. apply IH. done.
Qed.

Lemma split_eq_app k v : Forall (fun c => c <> equals_sign) k -> split_eq (k ++ equals_sign :: v) = Some (k, v).
Proof.
  induction 1 as [|c k Hc Hk IH]; cbn [app split_eq]; [by rewrite decide_True|].
  rewrite decide_False by done. by rewrite IH.
Qed.

(** ** The text of a configuration *)

(** A line that assigns, with the padding the loader strips, or one it skips. *)
Inductive item :=
| Assign (k v pad : chars)
| Noise (t : chars).

Definition render_item (i : item) : chars :=
  match i with
  | Assign k v pad => k ++ equals_sign :: (v ++ pad)
  | Noise t => t
  end ++ [newline].

Definition render (l : list item) : chars := flat_map render_item l.

(** Keys without '=' that do not start a comment, values without trailing
    blanks, one line each; noise is a comment, a blank, or has no '='. *)
Definition item_ok (i : item) : Prop :=
  match i with
  | Assign k v pad =>
      Forall (fun c => c <> equals_sign) k /\ no_newline k /\ no_newline v /\
      head k <> Some hash_sign /\ rstrip v = v /\
      Forall (fun c => is_trailer c = true) pad
  | Noise t => no_newline t /\ (skip_line t = true \/ split_eq t = None)
  end.

(** The map an assignment list denotes: the last one of a key counts. *)
Definition assign_item (kv : gmap chars chars) (i : item) : gmap chars chars :=
  match i with
  | Assign k v _ => <[k := v]> kv
  | Noise _ => kv
  end.

Lemma trailer_no_newline p : Forall (fun c => is_trailer c = true) p -> no_newline p.
Proof.
  apply Forall_impl. intros c Hc ->. discriminate Hc.
Qed.

Lemma kv_line_item kv i :
  item_ok i ->
  exists l, render_item i = l ++ [newline] /\ no_newline l /\ kv_line kv l = assign_item kv i.
Proof.
  destruct i as [k v pad|t]; cbn [item_ok render_item assign_item].
  - intros (Hk & Hkn & Hvn & Hh & Hv & Hp). exists (k ++ equals_sign :: (v ++ pad)). split; [done|]. split.
    + apply Forall_app. split; [done|]. constructor; [discriminate|]. apply Forall_app.
      split; [done|by apply trailer_no_newline].
    + unfold kv_line. rewrite split_eq_app by done. rewrite rstrip_app, Hv by done.
      replace (skip_line (k ++ equals_sign :: v ++ pad)) with false; [done|].
      destruct k as [|c k]; cbn [app skip_line]; symmetry; apply bool_decide_eq_false; [discriminate|].
      intros ->. by apply Hh.
  - intros (Hn & Hs). exists t. split; [done|]. split; [done|]. unfold kv_line.
    destruct (skip_line t); [done|]. destruct Hs as [Hs|Hs]; [done|]. by rewrite Hs.
Qed.

(** ** Properties *)

(** C38: loading the text of a configuration gives back its assignments, the
    last one of each key, whatever comments, blank lines, carriage returns and
    trailing spaces surround them. *)
Theorem config_roundtrip (items : list item) :
  Forall item_ok items -> kv_of (Some (render items)) = fold_left assign_item items ∅.
Proof.
  intros H. unfold kv_of. generalize (∅ : gmap chars chars).
  induction H as [|i items Hi Hl IH]; intros kv; [done|].
  destruct (kv_line_item kv i Hi) as (l & E & Hn & Hkv).
  cbn [render flat_map fold_left]. rewrite E, <- app_assoc. cbn [app].
  rewrite getlines_line by done. cbn [fold_left]. rewrite Hkv. apply IH.
Qed.

Definition demo_items : list item :=
  [Noise (chars_of_string "# tick = 1"); Noise []; Assign (chars_of_string "TICK_SIZE") (chars_of_string "0.001") [];
   Assign (chars_of_string "TICK_SIZE") (chars_of_string "0.5") [chr 32; chr 13]].

Lemma config_roundtrip_witness :
  kv_of (Some (render demo_items)) !! chars_of_string "TICK_SIZE" = Some (chars_of_string "0.5").
Proof.
  rewrite (config_roundtrip demo_items); [vm_compute; reflexivity|].
  assert (Hd : forall l, forallb (fun c => negb (bool_decide (c = newline))) l = true -> no_newline l).
  { intros l Hl. apply List.Forall_forall. intros c Hc. rewrite forallb_forall in Hl.
    specialize (Hl c Hc). by destruct (bool_decide_reflect (c = newline)). }
  repeat constructor; cbn [item_ok]; try (apply Hd; reflexivity); try discriminate; auto.
Defined.

(** The instruments are the lines of the symbols file in order, without
    blanks at their end: none is empty, starts a comment or ends in a carriage
    return or space, and every such line of the file is one of them. *)
Theorem symbols_clean (file : option chars) :
  symbols_of file `sublist_of` map rstrip (getlines file) /\
  (forall s, s ∈ symbols_of file ->
     s <> [] /\ head s <> Some hash_sign /\ forall c, list.last s = Some c -> is_trailer c = false) /\
  (forall l, l ∈ getlines file -> rstrip l <> [] -> head (rstrip l) <> Some hash_sign ->
     rstrip l ∈ symbols_of file).
Proof.
  unfold symbols_of. split; [apply sublist_filter|]. split.
  - intros s [Hs Hin]%list_elem_of_filter.
    apply list_elem_of_In, in_map_iff in Hin as (l & <- & _).
    destruct (rstrip l) as [|c t] eqn:E; [done|]. split; [done|]. split.
    + intros [= ->]. cbn [skip_line] in Hs. by rewrite bool_decide_true in Hs.
    + intros d Hd. apply (rstrip_last l). by rewrite E.
  - intros l Hl Hne Hh. apply list_elem_of_filter. split.
    + destruct (rstrip l) as [|c t]; [done|]. cbn [skip_line]. apply bool_decide_eq_false. intros ->. by apply Hh.
    + apply list_elem_of_In, in_map, list_elem_of_In, Hl.
Qed.

(** The shipped configuration (src/config/strategy.cfg), without its comments. *)
Definition shipped : list (string * string) :=
  [("MINIMUM_SPREAD", "0.05"); ("ORDER_SPREAD", "0.02"); ("TICK_SIZE", "0.5"); ("ORDER_QTY", "1");
   ("BOOK_DEPTH", "5"); ("ACCOUNT", "REM22479"); ("FIX_CFG", "config/fix_config_local.cfg");
   ("SYMBOLS_FILE", "config/Actives.txt"); ("STRATEGY_CORE", "2"); ("FIX_CORE", "3");
   ("METRICS_PORT", "9091"); ("LMDB_PATH", "data/lmdb"); ("SNAPSHOT_INTERVAL_MS", "1000");
   ("DRY_RUN", "0")]%string.

Definition shipped_items : list item :=
  map (fun '(k, v) => Assign (chars_of_string k) (chars_of_string v) []) shipped.

Definition shipped_symbols : chars :=
  chars_of_string "# instruments" ++ [newline] ++ chars_of_string "DLR/JUN26" ++ [newline] ++
  chars_of_string "DLR/JUL26 " ++ [chr 13; newline] ++ chars_of_string "DLR/AGO26".

Definition shipped_files (path : chars) : option chars :=
  if decide (path = chars_of_string "config/strategy.cfg") then Some (render shipped_items)
  else if decide (path = chars_of_string "config/Actives.txt") then Some shipped_symbols
  else None.

Lemma symbols_clean_witness :
  symbols_of (Some shipped_symbols) =
    map chars_of_string ["DLR/JUN26"; "DLR/JUL26"; "DLR/AGO26"]%string /\
  symbols_of (Some shipped_symbols) `sublist_of` map rstrip (getlines (Some shipped_symbols)).
Proof. split; [vm_compute; reflexivity | exact (proj1 (symbols_clean (Some shipped_symbols)))]. Defined.

(** The defaults, for a file that sets nothing. *)
Example load_defaults :
  load (fun _ => None) (chars_of_string "config/strategy.cfg") = Ok config_default.
Proof. reflexivity. Qed.

Definition shipped_config : EngineConfig :=
  mkConfig (dlit 5 100) (dlit 2 100) dhalf (double_of_Z 1) 5 (chars_of_string "REM22479") []
    (chars_of_string "config/fix_config_local.cfg") (chars_of_string "config/Actives.txt") 2 3 9091
    (chars_of_string "data/lmdb") 1000 false
    [chars_of_string "DLR/JUN26"; chars_of_string "DLR/JUL26"; chars_of_string "DLR/AGO26"].

Example load_shipped :
  load shipped_files (chars_of_string "config/strategy.cfg") = Ok shipped_config.
Proof. vm_compute. reflexivity. Qed.
