(* ===== verification/MarketMaker.v ===== *)
(** * Strategy thread (src/src/strategy/market_maker.hpp)

    The hot loop: execution reports first, then one market-data event, its
    book, the quoting decision, and the order commands it emits.  The state is
    everything the thread reads and writes; the rings are reached through the
    queue interface, the steady clock is the argument [clock]. *)
From S2P Require Import Prelude.
From S2P Require Import Double.
From S2P Require Import Events.
From S2P Require Import SpscRing.
From S2P Require Import Queue.
From S2P Require Import Text.
From S2P Require Import LatencyHistogram.
From S2P Require Import Metrics.
From S2P Require Import OrderBook.
From S2P Require Import OrderManager.
From S2P Require Import AsyncLogger.
From S2P Require Import Persister.
From S2P Require Import Config.

Definition kMdCap : Z := Z.shiftl 1 14.
Definition kExecCap : Z := Z.shiftl 1 12.
Definition kOrdCap : Z := Z.shiftl 1 12.
#[export] Instance kMdCap_legal : LegalCapacity kMdCap.
Proof. exact legal_capacity_14. Qed.
#[export] Instance kExecCap_legal : LegalCapacity kExecCap.
Proof. exact legal_capacity_12. Qed.
#[export] Instance kOrdCap_legal : LegalCapacity kOrdCap.
Proof. exact legal_capacity_12. Qed.

(** Signed 64-bit sums and differences: overflow is undefined behaviour. *)
Definition checked64 (z : Z) : Res Z :=
  if (- 2 ^ 63 <=? z) && (z <? 2 ^ 63) then Ok z else Err (UB SignedOverflow).
Definition sub64 (a b : Z) : Res Z := checked64 (a - b).
Definition add64 (a b : Z) : Res Z := checked64 (a + b).

Section MarketMaker.
Context {QO : QueueOps}.

(** The three rings, the logger, the persister and the metrics are shared;
    the rest is private to the thread.  [next_snapshot_ns] is a local variable
    of [run]; [now_idx] counts the clock readings made so far. *)
Record Engine := mkEngine {
  md_ : Queue kMdCap MdEvent;
  exec_ : Queue kExecCap ExecEvent;
  out_ : Queue kOrdCap OrderCmd;
  log_ : AsyncLogger;
  db_ : LmdbPersister;
  metrics_ : Metrics;
  oms_ : OrderManager;
  books_ : list OrderBook;
  cl_ord_seed_ : Z;
  next_snapshot_ns : Z;
  now_idx : nat
}.

Definition set_md s x := mkEngine x (exec_ s) (out_ s) (log_ s) (db_ s) (metrics_ s) (oms_ s)
  (books_ s) (cl_ord_seed_ s) (next_snapshot_ns s) (now_idx s).
Definition set_exec s x := mkEngine (md_ s) x (out_ s) (log_ s) (db_ s) (metrics_ s) (oms_ s)
  (books_ s) (cl_ord_seed_ s) (next_snapshot_ns s) (now_idx s).
Definition set_out s x := mkEngine (md_ s) (exec_ s) x (log_ s) (db_ s) (metrics_ s) (oms_ s)
  (books_ s) (cl_ord_seed_ s) (next_snapshot_ns s) (now_idx s).
Definition set_log s x m := mkEngine (md_ s) (exec_ s) (out_ s) x (db_ s) m (oms_ s)
  (books_ s) (cl_ord_seed_ s) (next_snapshot_ns s) (now_idx s).
Definition set_db s x := mkEngine (md_ s) (exec_ s) (out_ s) (log_ s) x (metrics_ s) (oms_ s)
  (books_ s) (cl_ord_seed_ s) (next_snapshot_ns s) (now_idx s).
Definition set_metrics s x := mkEngine (md_ s) (exec_ s) (out_ s) (log_ s) (db_ s) x (oms_ s)
  (books_ s) (cl_ord_seed_ s) (next_snapshot_ns s) (now_idx s).
Definition set_oms s x := mkEngine (md_ s) (exec_ s) (out_ s) (log_ s) (db_ s) (metrics_ s) x
  (books_ s) (cl_ord_seed_ s) (next_snapshot_ns s) (now_idx s).
Definition set_books s x := mkEngine (md_ s) (exec_ s) (out_ s) (log_ s) (db_ s) (metrics_ s) (oms_ s)
  x (cl_ord_seed_ s) (next_snapshot_ns s) (now_idx s).
Definition set_seed s x := mkEngine (md_ s) (exec_ s) (out_ s) (log_ s) (db_ s) (metrics_ s) (oms_ s)
  (books_ s) x (next_snapshot_ns s) (now_idx s).
Definition set_next s x := mkEngine (md_ s) (exec_ s) (out_ s) (log_ s) (db_ s) (metrics_ s) (oms_ s)
  (books_ s) (cl_ord_seed_ s) x (now_idx s).
Definition set_now s x := mkEngine (md_ s) (exec_ s) (out_ s) (log_ s) (db_ s) (metrics_ s) (oms_ s)
  (books_ s) (cl_ord_seed_ s) (next_snapshot_ns s) x.

Context (cfg : EngineConfig) (clock : nat -> Z).

(** [ts::now_ns()]. *)
Definition now_ns : M Engine Z :=
  fun s => Ok (clock (now_idx s), set_now s (S (now_idx s))).

(** The constructor and the declarations at the top of [run], on fresh shared
    objects: the ClOrdID seed is in milliseconds, times a thousand. *)
Definition engine_init (log_open : bool) : Engine :=
  mkEngine (q_init kMdCap MdEvent) (q_init kExecCap ExecEvent) (q_init kOrdCap OrderCmd)
    (logger_open log_open) persister_init metrics_init oms_init
    (replicate (Z.to_nat kMaxSymbols) book_init)
    (u64 (u64 (Z.quot (clock 0) 1000000) * 1000)) (clock 1) 2.

Definition snap_every : Z := snapshot_interval_ms cfg * 1000000.

(** ** Access to the shared objects *)

Definition emit (c : OrderCmd) : M Engine bool :=
  if dry_run cfg then ret false
  else fun s => res_bind (q_push c (out_ s)) (fun '(b, q) => Ok (b, set_out s q)).

Definition log_record (r : LogRecord) : M Engine unit :=
  fun s => res_bind (log r (log_ s, metrics_ s)) (fun '(_, (l, m)) => Ok (tt, set_log s l m)).

Definition read_slot (sym : Z) (side : OrdSide) : M Engine Quote :=
  fun s => res_bind (quote (oms_ s) sym side) (fun q => Ok (q, s)).

Definition write_slot (sym : Z) (side : OrdSide) (q : Quote) : M Engine unit :=
  modify (fun s => set_oms s (quote_set (oms_ s) sym side q)).

Definition next_cl_ord_id : M Engine Z :=
  fun s => Ok (cl_ord_seed_ s, set_seed s (u64 (cl_ord_seed_ s + 1))).

Definition track_out_queue : M Engine unit :=
  modify (fun s => set_metrics s (track_ord_queue (metrics_ s) (q_size (out_ s)))).

(** ** Quoting *)

Definition set_state (q : Quote) (st : QuoteState) : Quote :=
  mkQuote st (q_cl_ord_id q) (q_price q) (q_qty q) (q_exch_order_id q).

Definition cancel_side (sym : Z) (side : OrdSide) (t_md : Z) : M Engine unit :=
  let! q := read_slot sym side in
  if decide (q_state q <> Live) then ret tt
  else
    let! id := next_cl_ord_id in
    let! now := now_ns in
    let c := mkOrderCmd CmdCancel side sym dzero (q_qty q) id (q_cl_ord_id q) t_md now in
    let! pushed := emit c in
    when pushed
      (write_slot sym side (set_state q PendingCancel) ;;;
       log_record (mkLogRecord now LkOrderCxl side sym (q_price q) (q_qty q)
                     (c_orig_cl_ord_id c) (zero_chars text_size))).

(** [std::fabs(q.price - px) < cfg_.tick_size * 0.5] *)
Definition already_there (q : Quote) (px : double) : bool :=
  dlt (dabs (dsub (q_price q) px)) (dmul (tick_size cfg) dhalf).

Definition requote (sym : Z) (side : OrdSide) (px : double) (t_md : Z) : M Engine unit :=
  let! q := read_slot sym side in
  if decide (q_state q = PendingNew \/ q_state q = PendingCancel) then ret tt
  else if decide (q_state q = Live) then
    if already_there q px then ret tt else cancel_side sym side t_md
  else
    let! id := next_cl_ord_id in
    let! now := now_ns in
    let c := mkOrderCmd CmdNew side sym px (order_qty cfg) id 0 t_md now in
    let! pushed := emit c in
    when pushed
      (write_slot sym side (mkQuote PendingNew id px (c_qty c) (q_exch_order_id q)) ;;;
       track_out_queue ;;;
       log_record (mkLogRecord now LkOrderNew side sym px (c_qty c) id (zero_chars text_size))).

(** [decide]. *)
Definition decide_quotes (sym : Z) (ob : OrderBook) (t_md : Z) : M Engine unit :=
  if dge (spread ob) (minimum_spread cfg) then
    let bid := dadd (best_bid ob) (tick_size cfg) in
    let ask := dsub (best_ask ob) (tick_size cfg) in
    if dlt (dsub ask bid) (dmul (tick_size cfg) dhalf) then ret tt
    else
      requote sym Buy bid t_md ;;;
      requote sym Sell ask t_md
  else
    cancel_side sym Buy t_md ;;;
    cancel_side sym Sell t_md.

(** ** Snapshots *)

Definition snapshot_of (t s : Z) (ob : OrderBook) : BookSnapshot :=
  mkBookSnapshot t s (n_bids ob) (n_asks ob) (bid_px ob) (bid_qty ob) (ask_px ob) (ask_qty ob).

Definition push_one_snapshot (t : Z) (s : Z) (e : Engine) : Res Engine :=
  res_bind (array_read (books_ e) s) (fun ob =>
  if (n_bids ob =? 0) && (n_asks ob =? 0) then Ok e
  else res_bind (push_snapshot (snapshot_of t s ob) (db_ e)) (fun '(_, db) => Ok (set_db e db))).

Definition push_snapshots (t : Z) : M Engine unit :=
  fun e => res_bind (res_fold (push_one_snapshot t) (map Z.of_nat (List.seq 0 (Z.to_nat kMaxSymbols))) e)
             (fun e => Ok (tt, e)).

(** ** The loop body *)

(** Body of the execution-report loop. *)
Definition handle_exec (ex : ExecEvent) : M Engine unit :=
  (fun s => res_bind (on_exec ex (oms_ s)) (fun o => Ok (tt, set_oms s o))) ;;;
  when (bool_decide (x_kind ex = ExFilled) || bool_decide (x_kind ex = ExPartFill))
    ((fun s => res_bind (push_trade ex (db_ s)) (fun '(_, db) => Ok (tt, set_db s db))) ;;;
     log_record (mkLogRecord (x_t_recv_ns ex) LkExec (x_side ex) (x_symbol_id ex) (x_last_px ex)
                   (x_last_qty ex) (x_cl_ord_id ex) (zero_chars text_size))).

Definition pop_exec : M Engine (option ExecEvent) :=
  fun s => res_bind (q_pop (exec_ s)) (fun '(o, q) => Ok (o, set_exec s q)).

(** [while (exec_.try_pop(ex)) {...}], answering whether there was any. *)
Fixpoint drain_execs (fuel : nat) (worked : bool) : M Engine bool :=
  match fuel with
  | O => ret worked
  | S fuel =>
      let! o := pop_exec in
      match o with
      | None => ret worked
      | Some ex => handle_exec ex ;;; drain_execs fuel true
      end
  end.

Definition record_in (get : Metrics -> LatencyHistogram.t) (set : Metrics -> LatencyHistogram.t -> Metrics)
    (ns : Res Z) : M Engine unit :=
  fun s => res_bind ns (fun ns => res_bind (LatencyHistogram.record ns (get (metrics_ s)))
             (fun h => Ok (tt, set_metrics s (set (metrics_ s) h)))).

(** The market-data branch up to the F1 measurement: dequeue time, queue
    residency, book refresh. *)
Definition md_update (ev : MdEvent) : M Engine (Z * OrderBook) :=
  let! t_deq := now_ns in
  record_in queue_wait set_queue_wait (sub64 t_deq (md_t_recv_ns ev)) ;;;
  let! ob := (fun s => res_bind (array_read (books_ s) (md_symbol_id ev)) (fun ob => Ok (ob, s))) in
  let ob := apply_snapshot ev (book_depth cfg) ob in
  (fun s => res_bind (array_write (books_ s) (md_symbol_id ev) ob) (fun b => Ok (tt, set_books s b))) ;;;
  let! t := now_ns in
  record_in md_processing set_md_processing (sub64 t (md_t_recv_ns ev)) ;;;
  ret (t_deq, ob).

(** [if (t_deq >= next_snapshot_ns) {...}] *)
Definition snapshot_if_due (t_deq : Z) : M Engine unit :=
  let! due := gets (fun s => next_snapshot_ns s <=? t_deq) in
  when due
    ((fun s => res_bind (add64 t_deq snap_every) (fun t => Ok (tt, set_next s t))) ;;;
     push_snapshots t_deq).

(** Body of the market-data branch. *)
Definition handle_md (ev : MdEvent) : M Engine unit :=
  let! (t_deq, ob) := md_update ev in
  when (has_bba ob) (decide_quotes (md_symbol_id ev) ob (md_t_recv_ns ev)) ;;;
  snapshot_if_due t_deq.

Definition pop_md : M Engine (option MdEvent) :=
  fun s => res_bind (q_pop (md_ s)) (fun '(o, q) => Ok (o, set_md s q)).

Definition poll_md : M Engine bool :=
  let! o := pop_md in
  match o with
  | Some ev => handle_md ev ;;; ret true
  | None => ret false
  end.

(** One iteration of [run]'s loop; the pause of an idle one has no effect.  The
    fuel is the number of queued reports and the pop that fails. *)
Definition iteration : M Engine bool :=
  let! fuel := gets (fun s => drain_fuel (exec_ s)) in
  let! worked := drain_execs fuel false in
  let! polled := poll_md in
  ret (worked || polled).

(** [run] for a given number of iterations. *)
Fixpoint run_loop (n : nat) : M Engine unit :=
  match n with
  | O => ret tt
  | S n => let! _ := iteration in run_loop n
  end.
End MarketMaker.
