(* ===== verification/MarketMakerFacts.v ===== *)
(** * Strategy thread: effects of the operations

    Each operation of MarketMaker.v, on a well-formed engine, returns (no
    undefined behaviour, no fault) and its effect is exactly the one written
    here: the command it emits, the slot it moves, the frame it keeps. *)
From S2P Require Import Prelude.
From S2P Require Import Double.
From S2P Require Import Events.
From S2P Require Import SpscRing.
From S2P Require Import Queue.
From S2P Require Import Text.
From S2P Require Import LatencyHistogram.
From S2P Require Import Metrics.
From S2P Require Import OrderBook.
From S2P Require Import OrderManager.
From S2P Require Import AsyncLogger.
From S2P Require Import Persister.
From S2P Require Import Config.
From S2P Require Import MarketMaker.

(** Well-formedness of a state that differs in a few fields. *)
Ltac ok_fields := split; cbn; try assumption; try (split; cbn; assumption).

Section Facts.
Context {QO : QueueOps} {QL : QueueLaws} (cfg : EngineConfig) (clock : nat -> Z).

Record engine_ok (s : Engine) : Prop := {
  eo_md : q_ok (md_ s);
  eo_exec : q_ok (exec_ s);
  eo_out : q_ok (out_ s);
  eo_log : logger_ok (log_ s);
  eo_snap : q_ok (snap_ring_ (db_ s));
  eo_trade : q_ok (trade_ring_ (db_ s));
  eo_metrics : metrics_ok (metrics_ s);
  eo_oms : oms_shape (oms_ s);
  eo_books : length (books_ s) = Z.to_nat kMaxSymbols
}.

Lemma engine_init_ok b : engine_ok (engine_init clock b).
Proof.
  split; cbn; try apply q_init_ok; try apply metrics_ok_init; try apply oms_init_wf;
    try exact kLogCap_legal; try exact kSnapCap_legal; try done; typeclasses eauto.
Qed.

Definition out_cmds (s : Engine) : list OrderCmd := q_contents (out_ s).

(** ** One side: what the thread wants to send, and what leaves *)

(** The command [cancel_side] builds, None when the quote is not Live. *)
Definition intent_cancel (sym : Z) (side : OrdSide) (t_md : Z) (q : Quote) (seed now : Z)
    : option OrderCmd :=
  if decide (q_state q = Live)
  then Some (mkOrderCmd CmdCancel side sym dzero (q_qty q) seed (q_cl_ord_id q) t_md now)
  else None.

(** The decision table of [requote]. *)
Definition intent_requote (sym : Z) (side : OrdSide) (px : double) (t_md : Z) (q : Quote)
    (seed now : Z) : option OrderCmd :=
  match q_state q with
  | PendingNew | PendingCancel => None
  | Live => if already_there cfg q px then None else intent_cancel sym side t_md q seed now
  | QsNone => Some (mkOrderCmd CmdNew side sym px (order_qty cfg) seed 0 t_md now)
  end.

(** Not in a dry run, and not when the order ring is full. *)
Definition sent (s : Engine) (intent : option OrderCmd) : option OrderCmd :=
  match intent with
  | Some c => if negb (dry_run cfg) && (Z.of_nat (length (out_cmds s)) <? kOrdCap) then Some c else None
  | None => None
  end.

(** The slot after a command has left for it. *)
Definition slot_after (q : Quote) (o : option OrderCmd) : Quote :=
  match o with
  | None => q
  | Some c =>
      match c_type c with
      | CmdNew => mkQuote PendingNew (c_cl_ord_id c) (c_price c) (c_qty c) (q_exch_order_id q)
      | CmdCancel => set_state q PendingCancel
      end
  end.

Record side_effect (sym : Z) (side : OrdSide) (q : Quote) (intent : option OrderCmd)
    (s s' : Engine) : Prop := {
  se_ok : engine_ok s';
  se_out : out_cmds s' = out_cmds s ++ option_list (sent s intent);
  se_slot : slot_at (oms_ s') sym side = Some (slot_after q (sent s intent));
  se_frame : forall sym' side', (sym, side_index side) <> (sym', side_index side') ->
    slot_at (oms_ s') sym' side' = slot_at (oms_ s) sym' side';
  se_seed : cl_ord_seed_ s' = match intent with
                              | Some _ => u64 (cl_ord_seed_ s + 1)
                              | None => cl_ord_seed_ s
                              end;
  se_now : now_idx s' = match intent with Some _ => S (now_idx s) | None => now_idx s end;
  se_md : md_ s' = md_ s;
  se_exec : exec_ s' = exec_ s;
  se_db : db_ s' = db_ s;
  se_books : books_ s' = books_ s;
  se_next : next_snapshot_ns s' = next_snapshot_ns s
}.

Lemma side_effect_none sym side q s :
  engine_ok s -> slot_at (oms_ s) sym side = Some q -> side_effect sym side q None s s.
Proof. intros Hok Hq. split; try done. unfold sent. cbn. by rewrite app_nil_r. Qed.

(** Pushing a log record touches the log ring and one high-water mark. *)
Lemma log_record_effect r s :
  engine_ok s ->
  exists lg m, log_record r s = Ok (tt, set_log s lg m) /\ engine_ok (set_log s lg m).
Proof.
  intros [? ? ? Hl ? ? [? ? ?] ? ?]. unfold log_record.
  destruct (log_spec r (log_ s) (metrics_ s) Hl) as (lg & -> & Hlg & _). cbn [res_bind].
  do 2 eexists. split; [reflexivity|]. ok_fields.
Qed.

Lemma emit_effect c s :
  engine_ok s ->
  exists o, emit cfg c s = Ok (if sent s (Some c) is Some _ then true else false, set_out s o) /\
    engine_ok (set_out s o) /\
    q_contents o = out_cmds s ++ option_list (sent s (Some c)).
Proof.
  intros [? ? Ho ? ? ? ? ? ?]. unfold emit, sent. destruct (dry_run cfg); cbn [negb andb].
  - exists (out_ s). split; [by destruct s|]. split; [by destruct s|]. by rewrite app_nil_r.
  - destruct (q_push_law _ _ (out_ s) c kOrdCap_legal Ho) as (o & -> & Hok & Hc). cbn [res_bind].
    exists o. fold (out_cmds s) in *. rewrite Hc.
    destruct (Z.of_nat (length (out_cmds s)) <? kOrdCap); cbn; (split; [done|]);
      (split; [done|]); [done|]. by rewrite app_nil_r.
Qed.

Lemma sent_some_iff s c :
  sent s (Some c) = None \/ sent s (Some c) = Some c.
Proof. unfold sent. destruct (_ && _); auto. Qed.

(** A command that was not accepted leaves only the counters moved. *)
Lemma side_effect_refused sym side q c s o :
  engine_ok s -> slot_at (oms_ s) sym side = Some q -> sent s (Some c) = None ->
  engine_ok (set_out s o) -> q_contents o = out_cmds s ->
  side_effect sym side q (Some c) s
    (set_out (set_now (set_seed s (u64 (cl_ord_seed_ s + 1))) (S (now_idx s))) o).
Proof.
  intros Hok Hq Hs [] Hc. split; try rewrite Hs; cbn; try done.
  all: first [by destruct Hok; ok_fields|unfold out_cmds at 1; cbn; by rewrite Hc, app_nil_r].
Qed.

(** One that was accepted also moves the slot, and a record is logged. *)
Lemma side_effect_accepted sym side q c s o lg m :
  engine_ok s -> slot_at (oms_ s) sym side = Some q -> sent s (Some c) = Some c ->
  engine_ok (set_log (set_out s o) lg m) -> q_contents o = out_cmds s ++ [c] ->
  side_effect sym side q (Some c) s
    (set_log (set_oms (set_out (set_now (set_seed s (u64 (cl_ord_seed_ s + 1))) (S (now_idx s))) o)
       (quote_set (oms_ s) sym side (slot_after q (Some c)))) lg m).
Proof.
  intros Hok Hq Hs [] Hc. pose proof (eo_oms s Hok) as Ho.
  split; try rewrite Hs; cbn; try done.
  - ok_fields. by apply quote_set_shape.
  - apply slot_at_set_eq; [done|]. by eapply slot_at_range.
  - intros sym' side' Hne. by apply slot_at_set_ne.
Qed.

Lemma cancel_side_effect sym side t_md q s :
  engine_ok s -> slot_at (oms_ s) sym side = Some q ->
  exists s', cancel_side cfg clock sym side t_md s = Ok (tt, s') /\
    side_effect sym side q
      (intent_cancel sym side t_md q (cl_ord_seed_ s) (clock (now_idx s))) s s'.
Proof.
  intros Hok Hq. unfold cancel_side, read_slot, intent_cancel.
  unfold bind at 1. rewrite (quote_slot _ _ _ _ Hq). cbn [res_bind].
  destruct (decide (q_state q = Live)) as [Hl|Hl].
  2: { rewrite decide_True by done. exists s. split; [done|]. by apply side_effect_none. }
  rewrite decide_False by (intros Hn; by apply Hn).
  set (c := mkOrderCmd CmdCancel side sym dzero (q_qty q) (cl_ord_seed_ s) (q_cl_ord_id q)
              t_md (clock (now_idx s))).
  set (s1 := set_now (set_seed s (u64 (cl_ord_seed_ s + 1))) (S (now_idx s))).
  assert (Hok1 : engine_ok s1) by (destruct Hok; ok_fields).
  destruct (emit_effect c s1 Hok1) as (o & He & Hoko & Hc).
  change (sent s1 (Some c)) with (sent s (Some c)) in *.
  change (out_cmds s1) with (out_cmds s) in *.
  rewrite (bind_ok _ _ _ (cl_ord_seed_ s) (set_seed s (u64 (cl_ord_seed_ s + 1)))) by done.
  rewrite (bind_ok _ _ _ (clock (now_idx s)) s1) by done.
  fold c. rewrite (bind_ok _ _ _ _ _ He).
  destruct (sent_some_iff s c) as [Hs|Hs]; rewrite Hs in *; cbn [when].
  - eexists. split; [reflexivity|]. apply side_effect_refused; try done.
    + destruct Hok, Hoko. by ok_fields.
    + by rewrite Hc, app_nil_r.
  - rewrite (bind_ok _ _ _ tt (set_oms (set_out s1 o) (quote_set (oms_ s) sym side (set_state q PendingCancel)))) by done.
    destruct (log_record_effect
      (mkLogRecord (clock (now_idx s)) LkOrderCxl side sym (q_price q) (q_qty q) (q_cl_ord_id q) (zero_chars text_size))
      (set_oms (set_out s1 o) (quote_set (oms_ s) sym side (set_state q PendingCancel)))) as (lg & m & Hlog & Hok2).
    { destruct Hok, Hoko. ok_fields. by apply quote_set_shape. }
    eexists. split; [exact Hlog|].
    apply (side_effect_accepted sym side q c s o lg m); try done.
    destruct Hok, Hok2. by ok_fields.
Qed.

Lemma requote_effect sym side px t_md q s :
  engine_ok s -> slot_at (oms_ s) sym side = Some q ->
  exists s', requote cfg clock sym side px t_md s = Ok (tt, s') /\
    side_effect sym side q
      (intent_requote sym side px t_md q (cl_ord_seed_ s) (clock (now_idx s))) s s'.
Proof.
  intros Hok Hq. unfold requote, read_slot, intent_requote.
  unfold bind at 1. rewrite (quote_slot _ _ _ _ Hq). cbn [res_bind].
  destruct (q_state q) eqn:Est.
  - rewrite decide_False, decide_False by (by intros [|] || done).
    set (c := mkOrderCmd CmdNew side sym px (order_qty cfg) (cl_ord_seed_ s) 0 t_md (clock (now_idx s))).
    set (s1 := set_now (set_seed s (u64 (cl_ord_seed_ s + 1))) (S (now_idx s))).
    assert (Hok1 : engine_ok s1) by (destruct Hok; ok_fields).
    destruct (emit_effect c s1 Hok1) as (o & He & Hoko & Hc).
    change (sent s1 (Some c)) with (sent s (Some c)) in *.
    change (out_cmds s1) with (out_cmds s) in *.
    rewrite (bind_ok _ _ _ (cl_ord_seed_ s) (set_seed s (u64 (cl_ord_seed_ s + 1)))) by done.
    rewrite (bind_ok _ _ _ (clock (now_idx s)) s1) by done.
    fold c. rewrite (bind_ok _ _ _ _ _ He).
    destruct (sent_some_iff s c) as [Hs|Hs]; rewrite Hs in *; cbn [when].
    + eexists. split; [reflexivity|]. apply side_effect_refused; try done.
      * destruct Hok, Hoko. by ok_fields.
      * by rewrite Hc, app_nil_r.
    + set (s2 := set_oms (set_out s1 o) (quote_set (oms_ s) sym side (slot_after q (Some c)))).
      rewrite (bind_ok _ _ _ tt s2) by done.
      rewrite (bind_ok _ _ _ tt (set_metrics s2 (track_ord_queue (metrics_ s2) (q_size (out_ s2))))) by done.
      destruct (log_record_effect
        (mkLogRecord (clock (now_idx s)) LkOrderNew side sym px (c_qty c) (cl_ord_seed_ s) (zero_chars text_size))
        (set_metrics s2 (track_ord_queue (metrics_ s2) (q_size (out_ s2))))) as (lg & m & Hlog & Hok2).
      { destruct Hok as [? ? ? ? ? ? [? ? ?] ? ?], Hoko. ok_fields. by apply quote_set_shape. }
      eexists. split; [exact Hlog|].
      apply (side_effect_accepted sym side q c s o lg m); try done.
      destruct Hok, Hok2. by ok_fields.
  - rewrite decide_True by auto. exists s. split; [done|]. by apply side_effect_none.
  - rewrite decide_False, decide_True by (by intros [|] || done).
    destruct (already_there cfg q px).
    + exists s. split; [done|]. by apply side_effect_none.
    + by apply cancel_side_effect.
  - rewrite decide_True by auto. exists s. split; [done|]. by apply side_effect_none.
Qed.

(** ** The decision *)

Inductive quoting := Skip | Wide (bid ask : double) | Narrow.

(** Which branch of [decide] a book takes, with the quotes it aims at. *)
Definition quoting_of (ob : OrderBook) : quoting :=
  if dge (spread ob) (minimum_spread cfg) then
    let bid := dadd (best_bid ob) (tick_size cfg) in
    let ask := dsub (best_ask ob) (tick_size cfg) in
    if dlt (dsub ask bid) (dmul (tick_size cfg) dhalf) then Skip else Wide bid ask
  else Narrow.

Definition intent_side (d : quoting) (sym : Z) (side : OrdSide) (t_md : Z) (q : Quote) (seed now : Z)
    : option OrderCmd :=
  match d with
  | Skip => None
  | Wide bid ask => intent_requote sym side (if decide (side = Buy) then bid else ask) t_md q seed now
  | Narrow => intent_cancel sym side t_md q seed now
  end.

Definition side_run (d : quoting) (sym : Z) (side : OrdSide) (t_md : Z) (q : Quote) (s s' : Engine) : Prop :=
  side_effect sym side q (intent_side d sym side t_md q (cl_ord_seed_ s) (clock (now_idx s))) s s'.

(** The Buy side, then the Sell side from the state it left. *)
Lemma decide_quotes_effect sym ob t_md qb qs s :
  engine_ok s -> slot_at (oms_ s) sym Buy = Some qb -> slot_at (oms_ s) sym Sell = Some qs ->
  exists s1 s', decide_quotes cfg clock sym ob t_md s = Ok (tt, s') /\
    side_run (quoting_of ob) sym Buy t_md qb s s1 /\
    side_run (quoting_of ob) sym Sell t_md qs s1 s'.
Proof.
  intros Hok Hb Hs. unfold decide_quotes, quoting_of, side_run.
  assert (Hsell : forall d s1, side_run d sym Buy t_md qb s s1 -> slot_at (oms_ s1) sym Sell = Some qs).
  { intros d s1 H. rewrite <- Hs. apply (se_frame _ _ _ _ _ _ H). by intros [=]. }
  unfold side_run in Hsell.
  destruct (dge (spread ob) (minimum_spread cfg)); [destruct (dlt _ _)|]; cbn [intent_side].
  - exists s, s. split; [done|]. by split; apply side_effect_none.
  - destruct (requote_effect sym Buy (dadd (best_bid ob) (tick_size cfg)) t_md qb s Hok Hb) as (s1 & H1 & E1).
    destruct (requote_effect sym Sell (dsub (best_ask ob) (tick_size cfg)) t_md qs s1) as (s2 & H2 & E2);
      [apply E1|by apply (Hsell (Wide (dadd (best_bid ob) (tick_size cfg)) dzero))|].
    exists s1, s2. by rewrite (bind_ok _ _ _ _ _ H1).
  - destruct (cancel_side_effect sym Buy t_md qb s Hok Hb) as (s1 & H1 & E1).
    destruct (cancel_side_effect sym Sell t_md qs s1) as (s2 & H2 & E2);
      [apply E1|by apply (Hsell Narrow)|].
    exists s1, s2. by rewrite (bind_ok _ _ _ _ _ H1).
Qed.

(** ** Everything else leaves the orders alone *)

(** Same orders, same commands out, same ClOrdID seed. *)
Record quiet (s s' : Engine) : Prop := {
  qu_ok : engine_ok s';
  qu_out : out_ s' = out_ s;
  qu_oms : oms_ s' = oms_ s;
  qu_seed : cl_ord_seed_ s' = cl_ord_seed_ s;
  qu_md : md_ s' = md_ s;
  qu_exec : exec_ s' = exec_ s
}.

Lemma quiet_refl s : engine_ok s -> quiet s s.
Proof. by split. Qed.

Lemma quiet_trans s1 s2 s3 : quiet s1 s2 -> quiet s2 s3 -> quiet s1 s3.
Proof. intros [] []. split; congruence. Qed.

Lemma push_one_snapshot_quiet t i s :
  engine_ok s -> 0 <= i < kMaxSymbols ->
  exists s', push_one_snapshot t i s = Ok s' /\ quiet s s' /\ books_ s' = books_ s /\
    next_snapshot_ns s' = next_snapshot_ns s /\ now_idx s' = now_idx s /\
    md_ s' = md_ s /\ exec_ s' = exec_ s.
Proof.
  intros Hok Hi. unfold push_one_snapshot. pose proof Hok as [].
  destruct (zget_is_Some (books_ s) i) as [ob Hob]; [unfold kMaxSymbols in *; lia|].
  rewrite (array_read_ok _ _ _ Hob). cbn [res_bind]. destruct (_ && _).
  - exists s. split; [done|]. split; [by apply quiet_refl|]. done.
  - unfold push_snapshot. destruct (q_push_law _ _ (snap_ring_ (db_ s)) (snapshot_of t i ob)
      kSnapCap_legal eo_snap0) as (r & -> & Hr & _). cbn [res_bind].
    eexists. split; [reflexivity|]. split; [|done]. split; [|done..]. by ok_fields.
Qed.

Lemma push_snapshots_quiet t s :
  engine_ok s ->
  exists s', push_snapshots t s = Ok (tt, s') /\ quiet s s' /\ books_ s' = books_ s /\
    next_snapshot_ns s' = next_snapshot_ns s.
Proof.
  intros Hok. unfold push_snapshots.
  destruct (res_fold_total (push_one_snapshot t)
    (fun s' => quiet s s' /\ books_ s' = books_ s /\ next_snapshot_ns s' = next_snapshot_ns s)
    (fun i => 0 <= i < kMaxSymbols)
    (map Z.of_nat (List.seq 0 (Z.to_nat kMaxSymbols))) s) as (s' & -> & H).
  - intros i a Hi (Hq & Hb & Hn).
    destruct (push_one_snapshot_quiet t i a (qu_ok _ _ Hq) Hi) as (a' & Ha & Hq' & Hb' & Hn' & _).
    exists a'. split; [done|]. split; [by eapply quiet_trans|]. split; congruence.
  - apply List.Forall_forall. intros i (k & <- & Hk)%in_map_iff. apply in_seq in Hk.
    unfold kMaxSymbols in *. lia.
  - split; [by apply quiet_refl|done].
  - exists s'. by split.
Qed.

(** An execution report moves the order slots by [on_exec] and nothing else of
    the thread's own state. *)
Record exec_effect (ex : ExecEvent) (s s' : Engine) : Prop := {
  xe_ok : engine_ok s';
  xe_out : out_ s' = out_ s;
  xe_oms : on_exec ex (oms_ s) = Ok (oms_ s');
  xe_seed : cl_ord_seed_ s' = cl_ord_seed_ s;
  xe_books : books_ s' = books_ s;
  xe_exec : exec_ s' = exec_ s;
  xe_md : md_ s' = md_ s
}.

Lemma handle_exec_effect ex s :
  engine_ok s -> 0 <= x_symbol_id ex < kMaxSymbols ->
  exists s', handle_exec ex s = Ok (tt, s') /\ exec_effect ex s s'.
Proof.
  intros Hok Hr. pose proof Hok as []. unfold handle_exec.
  assert (exists o, on_exec ex (oms_ s) = Ok o) as (o & Ho).
  { destruct (on_exec_cases ex (oms_ s) eo_oms0 Hr) as (b & q & _ & _ & [(_ & H)|[(_ & _ & H)|(_ & _ & H)]]); eauto. }
  pose proof (on_exec_shape _ _ _ eo_oms0 Ho) as Hsh.
  rewrite (bind_ok _ _ _ tt (set_oms s o)) by (by rewrite Ho).
  assert (Hok1 : engine_ok (set_oms s o)) by ok_fields.
  destruct (_ || _); cbn [when].
  - destruct (q_push_law _ _ (trade_ring_ (db_ s)) ex kSnapCap_legal eo_trade0) as (r & Hp & Hrk & _).
    set (s2 := set_db (set_oms s o) (mkPersister (snap_seq_ (db_ s)) (trade_seq_ (db_ s)) (snap_ring_ (db_ s)) r)).
    rewrite (bind_ok _ _ _ tt s2).
    2: { unfold push_trade. cbn [db_ set_oms]. by rewrite Hp. }
    match goal with |- context [log_record ?r s2] => destruct (log_record_effect r s2) as (lg & m & Hl & Hok2) end.
    { subst s2. ok_fields. }
    eexists. split; [exact Hl|]. by split.
  - exists (set_oms s o). split; [done|]. by split.
Qed.

(** ** One market-data event *)
Section Clocked.
Hypothesis clock_ok : forall n, 0 <= clock n < 2 ^ 62.
Hypothesis interval_ok : - 2 ^ 31 <= snapshot_interval_ms cfg < 2 ^ 31.

(** What the FIX side guarantees of an event. *)
Record md_event_ok (ev : MdEvent) : Prop := {
  meo_sym : 0 <= md_symbol_id ev < kMaxSymbols;
  meo_time : 0 <= md_t_recv_ns ev < 2 ^ 62
}.

Lemma checked64_ok z : - 2 ^ 63 <= z < 2 ^ 63 -> checked64 z = Ok z.
Proof.
  intros H. unfold checked64. destruct (Z.leb_spec (- 2 ^ 63) z), (Z.ltb_spec z (2 ^ 63)); (done || lia).
Qed.

Lemma record_in_quiet get set ns s :
  engine_ok s -> ns < 2 ^ 63 -> hist_ok (get (metrics_ s)) ->
  (forall h, hist_ok h -> metrics_ok (set (metrics_ s) h)) ->
  exists m, record_in get set (Ok ns) s = Ok (tt, set_metrics s m) /\ engine_ok (set_metrics s m).
Proof.
  intros [] Hns Hg Hset. unfold record_in. cbn [res_bind].
  destruct (record_total _ ns Hg Hns) as (h & -> & Hh). cbn [res_bind].
  eexists. split; [reflexivity|]. ok_fields. by apply Hset.
Qed.

(** Up to the decision: the book of the event replaces the old one. *)
Record md_effect (ev : MdEvent) (ob : OrderBook) (s s' : Engine) : Prop := {
  me_ok : engine_ok s';
  me_books : books_ s' = zset (books_ s) (md_symbol_id ev) ob;
  me_next : next_snapshot_ns s' =
    if next_snapshot_ns s <=? clock (now_idx s) then clock (now_idx s) + snap_every cfg
    else next_snapshot_ns s;
  me_md : md_ s' = md_ s;
  me_exec : exec_ s' = exec_ s;
  me_decide :
    if has_bba ob then
      exists qb qs sa sb sc,
        slot_at (oms_ s) (md_symbol_id ev) Buy = Some qb /\ slot_at (oms_ s) (md_symbol_id ev) Sell = Some qs /\
        quiet s sa /\ side_run (quoting_of ob) (md_symbol_id ev) Buy (md_t_recv_ns ev) qb sa sb /\
        side_run (quoting_of ob) (md_symbol_id ev) Sell (md_t_recv_ns ev) qs sb sc /\ quiet sc s'
    else quiet s s'
}.

Lemma side_effect_frame sym side q i s s' :
  side_effect sym side q i s s' ->
  engine_ok s' /\ books_ s' = books_ s /\ next_snapshot_ns s' = next_snapshot_ns s.
Proof. by intros []. Qed.

(** The last part of the handler: the periodic snapshot. *)
Lemma snapshot_part_quiet t s :
  engine_ok s -> 0 <= t < 2 ^ 62 ->
  exists s',
    snapshot_if_due cfg t s = Ok (tt, s') /\
    quiet s s' /\ books_ s' = books_ s /\
    next_snapshot_ns s' = if next_snapshot_ns s <=? t then t + snap_every cfg else next_snapshot_ns s.
Proof.
  intros Hok Ht. unfold snapshot_if_due, bind at 1, gets. cbn [res_bind].
  destruct (next_snapshot_ns s <=? t); cbn [when].
  - assert (Hok1 : engine_ok (set_next s (t + snap_every cfg))) by (destruct Hok; ok_fields).
    destruct (push_snapshots_quiet t _ Hok1) as (s' & H & Hq & Hb & Hn).
    exists s'. unfold bind. unfold add64. rewrite checked64_ok by (unfold snap_every; lia). cbn [res_bind].
    rewrite H. split; [done|]. split; [|done]. destruct Hq. by split.
  - exists s. split; [done|]. split; [by apply quiet_refl|done].
Qed.

(** The first part: the book of the event is in place, orders untouched. *)
Lemma md_update_quiet ev s :
  engine_ok s -> md_event_ok ev ->
  exists ob0 s', zget (books_ s) (md_symbol_id ev) = Some ob0 /\
    let ob := apply_snapshot ev (book_depth cfg) ob0 in
    md_update cfg clock ev s = Ok ((clock (now_idx s), ob), s') /\ quiet s s' /\
    books_ s' = zset (books_ s) (md_symbol_id ev) ob /\ next_snapshot_ns s' = next_snapshot_ns s.
Proof.
  intros Hok [Hsym Ht]. pose proof Hok as [].
  destruct (zget_is_Some (books_ s) (md_symbol_id ev)) as [ob0 Hob]; [unfold kMaxSymbols in *; lia|].
  set (ob := apply_snapshot ev (book_depth cfg) ob0).
  pose proof (clock_ok (now_idx s)) as Hc0. pose proof (clock_ok (S (now_idx s))) as Hc1.
  exists ob0. unfold md_update.
  assert (Hok1 : engine_ok (set_now s (S (now_idx s)))) by ok_fields.
  rewrite (bind_ok _ _ _ (clock (now_idx s)) (set_now s (S (now_idx s)))) by done.
  unfold sub64 at 1. rewrite checked64_ok by lia.
  destruct (record_in_quiet queue_wait set_queue_wait (clock (now_idx s) - md_t_recv_ns ev) _ Hok1)
    as (m1 & Hr1 & Hok2); [lia|by destruct eo_metrics0|by destruct eo_metrics0; split|].
  rewrite (bind_ok _ _ _ _ _ Hr1). set (s2 := set_metrics _ m1) in *.
  rewrite (bind_ok _ _ _ ob0 s2) by (by cbn; rewrite (array_read_ok _ _ _ Hob)). fold ob.
  set (s3 := set_books s2 (zset (books_ s) (md_symbol_id ev) ob)).
  rewrite (bind_ok _ _ _ tt s3).
  2: { cbn. rewrite array_write_ok; [done|]. unfold kMaxSymbols in *. lia. }
  assert (Hok3 : engine_ok s3) by (destruct Hok2; ok_fields; by rewrite length_zset).
  rewrite (bind_ok _ _ _ (clock (S (now_idx s))) (set_now s3 (S (S (now_idx s))))) by done.
  assert (Hok4 : engine_ok (set_now s3 (S (S (now_idx s))))) by (destruct Hok3; ok_fields).
  unfold sub64. rewrite checked64_ok by lia.
  destruct (record_in_quiet md_processing set_md_processing (clock (S (now_idx s)) - md_t_recv_ns ev) _ Hok4)
    as (m2 & Hr2 & Hok5); [lia|by destruct Hok4 as [? ? ? ? ? ? [] ? ?]|
      by destruct Hok4 as [? ? ? ? ? ? [] ? ?]; split|].
  rewrite (bind_ok _ _ _ _ _ Hr2). eexists. split; [done|]. split; [reflexivity|]. done.
Qed.

Lemma handle_md_effect ev s :
  engine_ok s -> md_event_ok ev ->
  exists ob0 s', zget (books_ s) (md_symbol_id ev) = Some ob0 /\ handle_md cfg clock ev s = Ok (tt, s') /\
    md_effect ev (apply_snapshot ev (book_depth cfg) ob0) s s'.
Proof.
  intros Hok Hev. destruct (md_update_quiet ev s Hok Hev) as (ob0 & s5 & Hob & Hu & Hq5 & Hb5 & Hn5).
  set (ob := apply_snapshot ev (book_depth cfg) ob0) in *.
  pose proof (clock_ok (now_idx s)) as Hc0. destruct Hev as [Hsym _].
  pose proof (eo_oms s Hok) as Homs.
  destruct (slot_at_ok (oms_ s) (md_symbol_id ev) Buy Homs Hsym) as [qb Hqb].
  destruct (slot_at_ok (oms_ s) (md_symbol_id ev) Sell Homs Hsym) as [qs Hqs].
  exists ob0. unfold handle_md. fold ob. rewrite (bind_ok _ _ _ _ _ Hu).
  destruct (has_bba ob) eqn:Hbba; cbn [when].
  - destruct (decide_quotes_effect (md_symbol_id ev) ob (md_t_recv_ns ev) qb qs s5)
      as (s6 & s7 & Hd & E6 & E7); [apply Hq5|by rewrite (qu_oms _ _ Hq5)..|].
    rewrite (bind_ok _ _ _ _ _ Hd).
    destruct (side_effect_frame _ _ _ _ _ _ E6) as (Hok6 & Hb6 & Hn6).
    destruct (side_effect_frame _ _ _ _ _ _ E7) as (Hok7 & Hb7 & Hn7).
    destruct (snapshot_part_quiet (clock (now_idx s)) s7 Hok7 Hc0) as (s8 & Hs & Hq8 & Hb8 & Hn8).
    exists s8. split; [done|]. split; [exact Hs|]. split.
    + apply Hq8.
    + by rewrite Hb8, Hb7, Hb6, Hb5.
    + by rewrite Hn8, Hn7, Hn6, Hn5.
    + by rewrite (qu_md _ _ Hq8), (se_md _ _ _ _ _ _ E7), (se_md _ _ _ _ _ _ E6), (qu_md _ _ Hq5).
    + by rewrite (qu_exec _ _ Hq8), (se_exec _ _ _ _ _ _ E7), (se_exec _ _ _ _ _ _ E6), (qu_exec _ _ Hq5).
    + rewrite Hbba. by exists qb, qs, s5, s6, s7.
  - destruct (snapshot_part_quiet (clock (now_idx s)) s5 (qu_ok _ _ Hq5) Hc0) as (s8 & Hs & Hq8 & Hb8 & Hn8).
    exists s8. split; [done|]. split; [exact Hs|]. split.
    + apply Hq8.
    + by rewrite Hb8, Hb5.
    + by rewrite Hn8, Hn5.
    + by rewrite (qu_md _ _ Hq8), (qu_md _ _ Hq5).
    + by rewrite (qu_exec _ _ Hq8), (qu_exec _ _ Hq5).
    + rewrite Hbba. by eapply quiet_trans.
Qed.
End Clocked.
End Facts.
