(* ===== verification/StrategySteps.v ===== *)
(** * Strategy thread: small steps and their trace

    The strategy thread as a state machine that interleaves with the other
    threads, whose steps may change the shared rings, the logger, the persister
    and the metrics in any well-formed way.  The trace records the execution
    reports handled and the order commands emitted; the invariants relate it
    to the order slots. *)
From S2P Require Import Prelude.
From S2P Require Import Double.
From S2P Require Import Events.
From S2P Require Import SpscRing.
From S2P Require Import Queue.
From S2P Require Import Text.
From S2P Require Import LatencyHistogram.
From S2P Require Import Metrics.
From S2P Require Import OrderBook.
From S2P Require Import OrderManager.
From S2P Require Import AsyncLogger.
From S2P Require Import Persister.
From S2P Require Import Config.
From S2P Require Import MarketMaker.
From S2P Require Import MarketMakerFacts.

(** ** Traces *)

Inductive event :=
| EvExec (e : ExecEvent)
| EvCmd (c : OrderCmd).

Inductive label :=
| LTau
| LExec (e : ExecEvent)
| LMd (ev : MdEvent) (cmds : list OrderCmd)
| LEnv.

Definition events_of (l : label) : list event :=
  match l with
  | LExec e => [EvExec e]
  | LMd _ cmds => map EvCmd cmds
  | LTau | LEnv => []
  end.

Definition events (tr : list label) : list event := flat_map events_of tr.

Lemma events_snoc tr l : events (tr ++ [l]) = events tr ++ events_of l.
Proof. unfold events. rewrite flat_map_app. simpl. by rewrite app_nil_r. Qed.

(** The reports after which the exchange no longer works the order. *)
Definition terminal (k : ExecKind) : bool :=
  match k with ExFilled | ExCanceled | ExRejected => true | _ => false end.

(** A New command, and a command, for a slot. *)
Definition cmd_for (sym : Z) (side : OrdSide) (c : OrderCmd) : Prop :=
  c_symbol_id c = sym /\ c_side c = side.

(** The ClOrdID of the order working in a slot, read off the trace: the last
    New command, until a terminal report names it. *)
Definition working_step (sym : Z) (side : OrdSide) (w : option Z) (ev : event) : option Z :=
  match ev with
  | EvCmd c =>
      if decide (c_type c = CmdNew /\ c_symbol_id c = sym /\ c_side c = side)
      then Some (c_cl_ord_id c) else w
  | EvExec e =>
      if decide (terminal (x_kind e) = true /\ x_symbol_id e = sym /\ w = Some (x_cl_ord_id e))
      then None else w
  end.

Definition working (sym : Z) (side : OrdSide) (evs : list event) : option Z :=
  fold_left (working_step sym side) evs None.

Lemma working_snoc sym side evs ev :
  working sym side (evs ++ [ev]) = working_step sym side (working sym side evs) ev.
Proof. unfold working. by rewrite fold_left_app. Qed.

(** ** Steps *)
Section Steps.
Context {QO : QueueOps} {QL : QueueLaws} (cfg : EngineConfig) (clock : nat -> Z).

(** Where the loop of [run] is: at the next report, or past them. *)
Inductive pc := AtExec | AtMd.

(** What the other threads can do: anything to the shared objects, nothing to
    the private ones. *)
Record env_step (s s' : Engine) : Prop := {
  es_ok : engine_ok s';
  es_oms : oms_ s' = oms_ s;
  es_books : books_ s' = books_ s;
  es_seed : cl_ord_seed_ s' = cl_ord_seed_ s;
  es_next : next_snapshot_ns s' = next_snapshot_ns s
}.

Inductive strat_step : pc * Engine -> label -> pc * Engine -> Prop :=
| st_exec s e s1 s2 :
    pop_exec s = Ok (Some e, s1) -> handle_exec e s1 = Ok (tt, s2) ->
    strat_step (AtExec, s) (LExec e) (AtExec, s2)
| st_exec_done s s1 :
    pop_exec s = Ok (None, s1) -> strat_step (AtExec, s) LTau (AtMd, s1)
| st_md s ev s1 s2 cmds :
    pop_md s = Ok (Some ev, s1) -> md_event_ok ev -> handle_md cfg clock ev s1 = Ok (tt, s2) ->
    out_cmds s2 = out_cmds s1 ++ cmds ->
    strat_step (AtMd, s) (LMd ev cmds) (AtExec, s2)
| st_md_none s s1 :
    pop_md s = Ok (None, s1) -> strat_step (AtMd, s) LTau (AtExec, s1)
| st_env p s s' :
    env_step s s' -> strat_step (p, s) LEnv (p, s').

Definition strat_run := run strat_step.

(** ** The invariant tying the slots to the trace *)

Definition new_for (sym : Z) (side : OrdSide) (id : Z) (evs : list event) : Prop :=
  exists c, EvCmd c ∈ evs /\ c_type c = CmdNew /\ cmd_for sym side c /\ c_cl_ord_id c = id.

(** A report that names an order and does not end it has been handled. *)
Definition acked (id : Z) (evs : list event) : Prop :=
  exists e, EvExec e ∈ evs /\ x_cl_ord_id e = id /\ terminal (x_kind e) = false.

Definition real_side (side : OrdSide) : Prop := side = Buy \/ side = Sell.

Record orders_inv (s : Engine) (evs : list event) : Prop := {
  (** the working order is the one the slot holds *)
  oi_working : forall sym side q id, real_side side ->
    slot_at (oms_ s) sym side = Some q -> working sym side evs = Some id ->
    q_state q <> QsNone /\ q_cl_ord_id q = id;
  (** the order a slot holds is one sent for it, but for a phantom *)
  oi_sent : forall sym side q, real_side side -> slot_at (oms_ s) sym side = Some q ->
    q_cl_ord_id q = 0 \/ new_for sym side (q_cl_ord_id q) evs;
  (** a live quote, or one being canceled, has been reported on *)
  oi_acked : forall sym side q, real_side side -> slot_at (oms_ s) sym side = Some q ->
    q_state q = Live \/ q_state q = PendingCancel -> acked (q_cl_ord_id q) evs
}.

(** What holds of each command when it leaves. *)
Definition cmd_ok (evs : list event) (c : OrderCmd) : Prop :=
  real_side (c_side c) /\
  match c_type c with
  | CmdNew => working (c_symbol_id c) (c_side c) evs = None
  | CmdCancel => (c_orig_cl_ord_id c = 0 \/
                  new_for (c_symbol_id c) (c_side c) (c_orig_cl_ord_id c) evs) /\
                 acked (c_orig_cl_ord_id c) evs
  end.

Definition cmds_ok (evs : list event) : Prop :=
  forall pre c post, evs = pre ++ EvCmd c :: post -> cmd_ok pre c.

Lemma cmds_ok_nil : cmds_ok [].
Proof. intros [|? ?] c post; done. Qed.

Lemma snoc_split {A} (l : list A) x pre y post :
  l ++ [x] = pre ++ y :: post -> (pre = l /\ y = x /\ post = []) \/ exists post', post = post' ++ [x] /\ l = pre ++ y :: post'.
Proof.
  destruct post as [|z post _] using rev_ind; intros H.
  - left. apply app_inj_tail in H as [-> ->]. done.
  - right. exists post. split; [|change (y :: post ++ [z]) with ((y :: post) ++ [z]) in H];
      rewrite ?app_comm_cons, app_assoc in H; by apply app_inj_tail in H as [-> ->].
Qed.

Lemma cmds_ok_exec evs e : cmds_ok evs -> cmds_ok (evs ++ [EvExec e]).
Proof.
  intros H pre c post Hs. apply snoc_split in Hs as [(_ & [=] & _)|(post' & -> & Hs)]. by eapply H.
Qed.

Lemma cmds_ok_cmd evs c : cmds_ok evs -> cmd_ok evs c -> cmds_ok (evs ++ [EvCmd c]).
Proof.
  intros H Hc pre c' post Hs. apply snoc_split in Hs as [(-> & [= ->] & _)|(post' & -> & Hs)]; [done|by eapply H].
Qed.

Lemma new_for_app sym side id evs evs' : new_for sym side id evs -> new_for sym side id (evs ++ evs').
Proof. intros (c & H & ?). exists c. split; [|done]. apply elem_of_app. by left. Qed.

Lemma acked_app id evs evs' : acked id evs -> acked id (evs ++ evs').
Proof. intros (e & H & ?). exists e. split; [|done]. apply elem_of_app. by left. Qed.

Lemma orders_inv_ext s s' evs : oms_ s' = oms_ s -> orders_inv s evs -> orders_inv s' evs.
Proof. intros E [H1 H2 H3]. split; rewrite E; eauto. Qed.

(** *** Execution reports *)

Lemma exec_quote_live e q :
  q_state q <> QsNone -> terminal (x_kind e) = false ->
  q_state (exec_quote e q) <> QsNone /\ q_cl_ord_id (exec_quote e q) = q_cl_ord_id q.
Proof. intros H Ht. unfold exec_quote. by destruct (x_kind e). Qed.

Lemma exec_quote_open e q :
  q_state (exec_quote e q) = Live \/ q_state (exec_quote e q) = PendingCancel ->
  terminal (x_kind e) = false /\ q_cl_ord_id (exec_quote e q) = q_cl_ord_id q.
Proof. unfold exec_quote. destruct (x_kind e); cbn; intros [|]; done. Qed.

Lemma exec_quote_id e q :
  q_cl_ord_id (exec_quote e q) = 0 \/ q_cl_ord_id (exec_quote e q) = q_cl_ord_id q.
Proof. unfold exec_quote. destruct (x_kind e); auto. Qed.

Lemma orders_inv_exec e s s' evs :
  oms_shape (oms_ s) -> on_exec e (oms_ s) = Ok (oms_ s') ->
  orders_inv s evs -> orders_inv s' (evs ++ [EvExec e]).
Proof.
  intros Hsh Hx [H1 H2 H3]. split.
  - intros sym side q' id Hside Hq' Hw. rewrite working_snoc in Hw. cbn [working_step] in Hw.
    case_decide as Hd; [done|].
    destruct (on_exec_slot e _ _ sym side q' Hsh Hx Hq') as (q & Hq & [-> | (Hs & Hid & ->)]); [by eapply H1|].
    destruct (H1 sym side q id Hside Hq Hw) as [Hst Hqid].
    destruct (exec_quote_live e q Hst) as [? ->]; [|done].
    apply not_true_is_false. intros Ht. apply Hd. rewrite Hw. split; [done|]. split; congruence.
  - intros sym side q' Hside Hq'.
    destruct (on_exec_slot e _ _ sym side q' Hsh Hx Hq') as (q & Hq & [-> | (Hs & Hid & ->)]).
    + destruct (H2 sym side q Hside Hq); [by left|right]. by apply new_for_app.
    + destruct (exec_quote_id e q) as [-> | ->]; [by left|].
      destruct (H2 sym side q Hside Hq); [by left|right]. by apply new_for_app.
  - intros sym side q' Hside Hq' Hl.
    destruct (on_exec_slot e _ _ sym side q' Hsh Hx Hq') as (q & Hq & [-> | (Hs & Hid & ->)]).
    + apply acked_app. by eapply H3.
    + destruct (exec_quote_open e q Hl) as [Ht ->]. exists e. split; [|done].
      apply elem_of_app. right. by apply list_elem_of_singleton.
Qed.

(** *** One side of a decision *)

(** A command [decide] can build for a slot. *)
Definition intent_ok (sym : Z) (side : OrdSide) (q : Quote) (seed : Z) (c : OrderCmd) : Prop :=
  cmd_for sym side c /\ c_cl_ord_id c = seed /\
  match c_type c with
  | CmdNew => q_state q = QsNone
  | CmdCancel => q_state q = Live /\ c_orig_cl_ord_id c = q_cl_ord_id q
  end.

Lemma intent_cancel_ok sym side t_md q seed now c :
  intent_cancel sym side t_md q seed now = Some c -> intent_ok sym side q seed c.
Proof. unfold intent_cancel. case_decide; [|done]. by intros [= <-]. Qed.

Lemma intent_side_ok d sym side t_md q seed now c :
  intent_side cfg d sym side t_md q seed now = Some c -> intent_ok sym side q seed c.
Proof.
  destruct d; cbn [intent_side]; [done| |apply intent_cancel_ok].
  unfold intent_requote. destruct (q_state q) eqn:E; try done; [by intros [= <-]|].
  destruct (already_there _ _ _); [done|apply intent_cancel_ok].
Qed.

Lemma sent_inv s i c : sent cfg s i = Some c -> i = Some c.
Proof. unfold sent. destruct i; [|done]. destruct (_ && _); congruence. Qed.

(** The slot's new content agrees with the trace extended by the command. *)
Lemma orders_inv_cmd sym side q c s s' evs :
  real_side side -> slot_at (oms_ s) sym side = Some q -> intent_ok sym side q (cl_ord_seed_ s) c ->
  slot_at (oms_ s') sym side = Some (slot_after q (Some c)) ->
  (forall sym' side', (sym, side_index side) <> (sym', side_index side') ->
     slot_at (oms_ s') sym' side' = slot_at (oms_ s) sym' side') ->
  orders_inv s evs ->
  orders_inv s' (evs ++ [EvCmd c]) /\ cmd_ok evs c.
Proof.
  intros Hside Hq ([Hcs Hcd] & Hid & Hty) Hslot Hframe [H1 H2 H3].
  assert (Hne : forall sym' side', real_side side' -> (sym', side') <> (sym, side) ->
            (sym, side_index side) <> (sym', side_index side')).
  { intros sym' side' Hr Hn E. injection E as -> E. apply Hn. f_equal.
    destruct Hside, Hr; subst; done. }
  split; [split|].
  - intros sym' side' q' id Hside' Hq' Hw. rewrite working_snoc in Hw. cbn [working_step] in Hw.
    destruct (decide ((sym', side') = (sym, side))) as [E|E].
    + injection E as -> ->. rewrite Hslot in Hq'. injection Hq' as <-.
      unfold slot_after. destruct (c_type c) eqn:Et.
      * rewrite decide_True in Hw by done. injection Hw as <-. done.
      * rewrite decide_False in Hw by (by intros [? _]).
        destruct (H1 sym side q id Hside Hq Hw) as [_ Hi]. done.
    + rewrite Hframe in Hq' by auto. rewrite decide_False in Hw; [by eapply H1|].
      intros (_ & Hs & Hd). apply E. congruence.
  - intros sym' side' q' Hside' Hq'. destruct (decide ((sym', side') = (sym, side))) as [E|E].
    + injection E as -> ->. rewrite Hslot in Hq'. injection Hq' as <-.
      unfold slot_after. destruct (c_type c) eqn:Et; cbn.
      * right. exists c. split; [|by rewrite Et]. apply elem_of_app. right. by apply list_elem_of_singleton.
      * destruct (H2 sym side q Hside Hq); [by left|right]. by apply new_for_app.
    + rewrite Hframe in Hq' by auto.
      destruct (H2 sym' side' q' Hside' Hq'); [by left|right]. by apply new_for_app.
  - intros sym' side' q' Hside' Hq' Hl. apply acked_app. destruct (decide ((sym', side') = (sym, side))) as [E|E].
    + injection E as -> ->. rewrite Hslot in Hq'. injection Hq' as <-.
      unfold slot_after in *. destruct (c_type c); [by destruct Hl|]. apply (H3 sym side q Hside Hq). left. apply Hty.
    + rewrite Hframe in Hq' by auto. by eapply H3.
  - split; [by rewrite Hcd|]. rewrite Hcs, Hcd. destruct (c_type c) eqn:Et.
    + destruct (working sym side evs) as [id|] eqn:Ew; [|done].
      destruct (H1 sym side q id Hside Hq Ew) as [Hn _]. done.
    + destruct Hty as [Hl ->]. split; [apply (H2 sym side q Hside Hq)|apply (H3 sym side q Hside Hq); by left].
Qed.

Lemma side_run_inv d sym side t_md q s s' evs :
  real_side side -> slot_at (oms_ s) sym side = Some q ->
  side_run cfg clock d sym side t_md q s s' -> orders_inv s evs -> cmds_ok evs ->
  exists cmds, out_cmds s' = out_cmds s ++ cmds /\
    orders_inv s' (evs ++ map EvCmd cmds) /\ cmds_ok (evs ++ map EvCmd cmds).
Proof.
  intros Hside Hq E Hinv Hcs. destruct E as [_ Hout Hslot Hframe _ _ _ _ _ _ _].
  set (i := intent_side _ _ _ _ _ _ _ _) in *. eexists. split; [exact Hout|].
  destruct (sent cfg s i) as [c|] eqn:Es; cbn [option_list option_rect map].
  - pose proof (sent_inv _ _ _ Es) as Ei. apply intent_side_ok in Ei.
    destruct (orders_inv_cmd sym side q c s s' evs Hside Hq Ei Hslot Hframe Hinv) as [Hi Hc].
    split; [done|]. by apply cmds_ok_cmd.
  - rewrite app_nil_r. split; [|done]. destruct Hinv as [H1 H2 H3].
    assert (Hsame : forall sym' side', real_side side' ->
              slot_at (oms_ s') sym' side' = slot_at (oms_ s) sym' side').
    { intros sym' side' Hr. destruct (decide ((sym, side_index side) = (sym', side_index side'))) as [E|E]; [|by apply Hframe].
      injection E as -> E. rewrite <- (slot_at_side _ _ _ _ E), <- (slot_at_side _ _ _ _ E), Hslot, Hq. done. }
    split; intros sym' side' q' *; intros Hr; rewrite Hsame by done; eauto.
Qed.

(** *** Pops *)

Lemma pop_exec_spec s :
  engine_ok s ->
  exists q, pop_exec s = Ok (head (q_contents (exec_ s)), set_exec s q) /\
    engine_ok (set_exec s q) /\ q_contents q = tail (q_contents (exec_ s)).
Proof.
  intros []. destruct (q_pop_law _ _ (exec_ s) kExecCap_legal eo_exec) as (q & Hp & Hq & Hc).
  exists q. unfold pop_exec. rewrite Hp. split; [done|]. split; [by ok_fields|done].
Qed.

Lemma pop_md_spec s :
  engine_ok s ->
  exists q, pop_md s = Ok (head (q_contents (md_ s)), set_md s q) /\
    engine_ok (set_md s q) /\ q_contents q = tail (q_contents (md_ s)).
Proof.
  intros []. destruct (q_pop_law _ _ (md_ s) kMdCap_legal eo_md) as (q & Hp & Hq & Hc).
  exists q. unfold pop_md. rewrite Hp. split; [done|]. split; [by ok_fields|done].
Qed.

(** A processed report had its effect. *)
Lemma handle_exec_inv e s s' :
  engine_ok s -> handle_exec e s = Ok (tt, s') -> exec_effect e s s'.
Proof.
  intros Hok H.
  assert (Hr : 0 <= x_symbol_id e < kMaxSymbols).
  { unfold handle_exec in H. apply bind_inv in H as (a & s1 & H & _).
    apply res_bind_inv in H as (o & H & _). eapply on_exec_range; [apply Hok|exact H]. }
  destruct (handle_exec_effect e s Hok Hr) as (s2 & H2 & E).
  rewrite H in H2. injection H2 as <-. exact E.
Qed.

Section Clocked.
Hypothesis clock_ok : forall n, 0 <= clock n < 2 ^ 62.
Hypothesis interval_ok : - 2 ^ 31 <= snapshot_interval_ms cfg < 2 ^ 31.

Lemma handle_md_inv ev s s' :
  engine_ok s -> md_event_ok ev -> handle_md cfg clock ev s = Ok (tt, s') ->
  exists ob0, zget (books_ s) (md_symbol_id ev) = Some ob0 /\
    md_effect cfg clock ev (apply_snapshot ev (book_depth cfg) ob0) s s'.
Proof.
  intros Hok Hev H. destruct (handle_md_effect cfg clock clock_ok interval_ok ev s Hok Hev) as (ob0 & s2 & Hob & H2 & E).
  rewrite H in H2. injection H2 as <-. by exists ob0.
Qed.

Lemma quiet_out s s' : quiet s s' -> out_cmds s' = out_cmds s.
Proof. intros []. unfold out_cmds. congruence. Qed.

(** What the two sides of a decision keep, the handler keeps. *)
Lemma md_effect_ind (I : Engine -> list event -> Prop) ev ob s s' evs cmds :
  (forall s s' evs, quiet s s' -> I s evs -> I s' evs) ->
  (forall side q s s' evs, real_side side -> slot_at (oms_ s) (md_symbol_id ev) side = Some q ->
     side_run cfg clock (quoting_of cfg ob) (md_symbol_id ev) side (md_t_recv_ns ev) q s s' -> I s evs ->
     exists cmds, out_cmds s' = out_cmds s ++ cmds /\ I s' (evs ++ map EvCmd cmds)) ->
  md_effect cfg clock ev ob s s' -> out_cmds s' = out_cmds s ++ cmds -> I s evs -> I s' (evs ++ map EvCmd cmds).
Proof.
  intros Hquiet Hside [_ _ _ _ _ Hd] Hout Hinv. destruct (has_bba ob).
  - destruct Hd as (qb & qs & sa & sb & sc & Hqb & Hqs & Hqa & Hb & Hs & Hqc).
    destruct (Hside Buy qb sa sb evs (or_introl eq_refl)
      ltac:(by rewrite (qu_oms _ _ Hqa)) Hb (Hquiet _ _ _ Hqa Hinv)) as (c1 & O1 & I1).
    destruct (Hside Sell qs sb sc _ (or_intror eq_refl)
      ltac:(by rewrite (se_frame _ _ _ _ _ _ _ Hb), (qu_oms _ _ Hqa) by (by intros [=])) Hs I1) as (c2 & O2 & I2).
    rewrite (quiet_out _ _ Hqc), O2, O1, (quiet_out _ _ Hqa), <- app_assoc in Hout.
    apply app_inv_head in Hout as <-. rewrite map_app, app_assoc. by apply (Hquiet sc).
  - rewrite (quiet_out _ _ Hd), <- (app_nil_r (out_cmds s)) in Hout at 1.
    apply app_inv_head in Hout as <-. rewrite app_nil_r. by apply (Hquiet s).
Qed.

Lemma md_effect_inv ev ob s s' evs cmds :
  md_effect cfg clock ev ob s s' -> out_cmds s' = out_cmds s ++ cmds ->
  orders_inv s evs -> cmds_ok evs ->
  orders_inv s' (evs ++ map EvCmd cmds) /\ cmds_ok (evs ++ map EvCmd cmds).
Proof.
  intros Hm Hout Hinv Hcs.
  apply (md_effect_ind (fun s evs => orders_inv s evs /\ cmds_ok evs) ev ob s); [| |done..].
  - intros s0 s1 evs0 Hq [? ?]. split; [|done]. apply (orders_inv_ext s0); [apply Hq|done].
  - intros side q s0 s1 evs0 Hr Hq Hrun [? ?]. by eapply side_run_inv.
Qed.

(** *** Every step keeps the invariant *)

Definition strat_inv (ps : pc * Engine) (evs : list event) : Prop :=
  engine_ok (snd ps) /\ orders_inv (snd ps) evs /\ cmds_ok evs.

Lemma strat_ok_step ps l ps' :
  engine_ok (snd ps) -> strat_step ps l ps' -> engine_ok (snd ps').
Proof.
  intros Hok Hst. destruct Hst; cbn [snd] in *.
  1, 2: destruct (pop_exec_spec s Hok) as (q & Hp & Hok1 & _); rewrite Hp in H; injection H as _ <-.
  3, 4: destruct (pop_md_spec s Hok) as (q & Hp & Hok1 & _); rewrite Hp in H; injection H as _ <-.
  - apply (handle_exec_inv e _ s2 Hok1 H0).
  - done.
  - destruct (handle_md_inv ev _ s2 Hok1 H0 H1) as (ob0 & _ & E). apply E.
  - done.
  - apply H.
Qed.

Lemma strat_inv_step ps l ps' evs :
  strat_inv ps evs -> strat_step ps l ps' -> strat_inv ps' (evs ++ events_of l).
Proof.
  intros (Hok & Hinv & Hcs) Hst. destruct Hst; cbn [snd events_of] in *.
  - destruct (pop_exec_spec s Hok) as (q & Hp & Hok1 & _). rewrite Hp in H. injection H as _ <-.
    destruct (handle_exec_inv e _ s2 Hok1 H0) as [Hok2 _ Hx _ _ _ _].
    split; [done|]. split; [|by apply cmds_ok_exec].
    apply (orders_inv_exec e (set_exec s q) s2); [apply Hok1|done|].
    by apply (orders_inv_ext s).
  - destruct (pop_exec_spec s Hok) as (q & Hp & Hok1 & _). rewrite Hp in H. injection H as _ <-.
    rewrite app_nil_r. split; [done|]. split; [|done]. by apply (orders_inv_ext s).
  - destruct (pop_md_spec s Hok) as (q & Hp & Hok1 & _). rewrite Hp in H. injection H as _ <-.
    destruct (handle_md_inv ev _ s2 Hok1 H0 H1) as (ob0 & _ & E).
    split; [apply E|]. apply (md_effect_inv ev _ (set_md s q) s2 evs cmds E H2); [|done].
    by apply (orders_inv_ext s).
  - destruct (pop_md_spec s Hok) as (q & Hp & Hok1 & _). rewrite Hp in H. injection H as _ <-.
    rewrite app_nil_r. split; [done|]. split; [|done]. by apply (orders_inv_ext s).
  - rewrite app_nil_r. split; [apply H|]. split; [|done].
    apply (orders_inv_ext s); [apply H|done].
Qed.

Lemma strat_inv_run ps tr ps' evs :
  strat_inv ps evs -> strat_run ps tr ps' -> strat_inv ps' (evs ++ events tr).
Proof.
  intros Hi. induction 1 as [|a t b l d H IH Hs]; [by rewrite app_nil_r|].
  rewrite events_snoc, app_assoc. eapply strat_inv_step; eauto.
Qed.

Lemma strat_inv_init b : strat_inv (AtExec, engine_init clock b) [].
Proof.
  split; [apply engine_init_ok|]. split; [|apply cmds_ok_nil]. split.
  - intros sym side q id _ _ H. discriminate H.
  - intros sym side q _ H. left. by rewrite (oms_init_slot _ _ _ H).
  - intros sym side q _ H. rewrite (oms_init_slot _ _ _ H). by intros [|].
Qed.
End Clocked.
End Steps.

(** ** Playing a script

    An executable scheduler for the machine: the strategy thread takes its next
    step, or another thread feeds a report or a market-data event. *)
Inductive action := ARun | AFeedExec (e : ExecEvent) | AFeedMd (ev : MdEvent).

Definition md_event_okb (ev : MdEvent) : bool :=
  (0 <=? md_symbol_id ev) && (md_symbol_id ev <? kMaxSymbols) &&
  (0 <=? md_t_recv_ns ev) && (md_t_recv_ns ev <? 2 ^ 62).

Section Play.
Context {QO : QueueOps} {QL : QueueLaws} (cfg : EngineConfig) (clock : nat -> Z).

Definition run_next (ps : pc * Engine) : option (label * (pc * Engine)) :=
  match ps with
  | (AtExec, s) =>
      match pop_exec s with
      | Ok (Some e, s1) =>
          match handle_exec e s1 with Ok (_, s2) => Some (LExec e, (AtExec, s2)) | Err _ => None end
      | Ok (None, s1) => Some (LTau, (AtMd, s1))
      | Err _ => None
      end
  | (AtMd, s) =>
      match pop_md s with
      | Ok (Some ev, s1) =>
          if md_event_okb ev then
            match handle_md cfg clock ev s1 with
            | Ok (_, s2) =>
                let cmds := drop (length (out_cmds s1)) (out_cmds s2) in
                if decide (out_cmds s2 = out_cmds s1 ++ cmds) then Some (LMd ev cmds, (AtExec, s2)) else None
            | Err _ => None
            end
          else None
      | Ok (None, s1) => Some (LTau, (AtExec, s1))
      | Err _ => None
      end
  end.

Definition act (a : action) (ps : pc * Engine) : option (label * (pc * Engine)) :=
  let '(p, s) := ps in
  match a with
  | ARun => run_next ps
  | AFeedExec e =>
      match q_push e (exec_ s) with Ok (_, q) => Some (LEnv, (p, set_exec s q)) | Err _ => None end
  | AFeedMd ev =>
      match q_push ev (md_ s) with Ok (_, q) => Some (LEnv, (p, set_md s q)) | Err _ => None end
  end.

Fixpoint play (script : list action) (ps : pc * Engine) (tr : list label)
    : option (list label * (pc * Engine)) :=
  match script with
  | [] => Some (tr, ps)
  | a :: script =>
      match act a ps with
      | Some (l, ps) => play script ps (tr ++ [l])
      | None => None
      end
  end.

Lemma md_event_okb_ok ev : md_event_okb ev = true -> md_event_ok ev.
Proof. unfold md_event_okb. rewrite !andb_true_iff. intros [[[? ?] ?] ?]. split; zbool; lia. Qed.

Lemma run_next_sound ps l ps' : run_next ps = Some (l, ps') -> strat_step cfg clock ps l ps'.
Proof.
  destruct ps as [[] s]; cbn [run_next].
  - destruct (pop_exec s) as [[[e|] s1]|] eqn:Hp; [|by intros [= <- <-]; apply st_exec_done|done].
    destruct (handle_exec e s1) as [[[] s2]|] eqn:Hh; [|done]. intros [= <- <-]. by eapply st_exec.
  - destruct (pop_md s) as [[[ev|] s1]|] eqn:Hp; [|by intros [= <- <-]; apply st_md_none|done].
    destruct (md_event_okb ev) eqn:Hev; [|done].
    destruct (handle_md cfg clock ev s1) as [[[] s2]|] eqn:Hh; [|done].
    case_decide as Hd; [|done]. intros [= <- <-]. eapply st_md; eauto. by apply md_event_okb_ok.
Qed.

Lemma act_sound a ps l ps' :
  engine_ok (snd ps) -> act a ps = Some (l, ps') -> strat_step cfg clock ps l ps'.
Proof.
  intros Hok. destruct ps as [p s]. cbn [snd] in Hok. destruct a as [|e|ev]; cbn [act].
  - apply run_next_sound.
  - destruct Hok. destruct (q_push_law _ _ (exec_ s) e kExecCap_legal eo_exec) as (q & -> & Hq & _).
    intros [= <- <-]. apply st_env. by split.
  - destruct Hok. destruct (q_push_law _ _ (md_ s) ev kMdCap_legal eo_md) as (q & -> & Hq & _).
    intros [= <- <-]. apply st_env. by split.
Qed.

Hypothesis clock_ok : forall n, 0 <= clock n < 2 ^ 62.
Hypothesis interval_ok : - 2 ^ 31 <= snapshot_interval_ms cfg < 2 ^ 31.

Lemma play_sound script ps0 ps tr tr' ps' :
  strat_run cfg clock ps0 tr ps -> engine_ok (snd ps) -> play script ps tr = Some (tr', ps') ->
  strat_run cfg clock ps0 tr' ps' /\ engine_ok (snd ps').
Proof.
  revert ps tr. induction script as [|a script IH]; intros ps tr Hrun Hok; cbn [play].
  - by intros [= <- <-].
  - destruct (act a ps) as [[l ps1]|] eqn:Ha; [|done].
    pose proof (act_sound a ps l ps1 Hok Ha) as Hs. apply IH.
    + by eapply run_snoc.
    + by apply (strat_ok_step cfg clock clock_ok interval_ok ps l ps1).
Qed.
End Play.
