(* ===== verification/StrategyDemo.v ===== *)
(** * Strategy thread: concrete executions

    Engines run on the list queue with the shipped configuration and a clock
    that ticks once per reading; the theorems about executions are applied to
    them. *)
From S2P Require Import Prelude.
From S2P Require Import Double.
From S2P Require Import Events.
From S2P Require Import SpscRing.
From S2P Require Import Queue.
From S2P Require Import Text.
From S2P Require Import LatencyHistogram.
From S2P Require Import Metrics.
From S2P Require Import OrderBook.
From S2P Require Import OrderManager.
From S2P Require Import AsyncLogger.
From S2P Require Import Persister.
From S2P Require Import Config.
From S2P Require Import MarketMaker.
From S2P Require Import MarketMakerFacts.
From S2P Require Import StrategySteps.

Definition demo_clock (n : nat) : Z := if (n <? 1000)%nat then 5000000 + Z.of_nat n else 6000000.

Lemma demo_clock_ok n : 0 <= demo_clock n < 2 ^ 62.
Proof. unfold demo_clock. destruct (Nat.ltb_spec n 1000); lia. Qed.

Lemma shipped_interval_ok : - 2 ^ 31 <= snapshot_interval_ms shipped_config < 2 ^ 31.
Proof. cbn. lia. Qed.

Definition levels_of (p : Z) : list double :=
  double_of_Z p :: replicate 4 dzero.

(** One level per side. *)
Definition demo_md (sym b a : Z) : MdEvent :=
  mkMdEvent 5000000 sym 1 1 (levels_of b) (levels_of 3) (levels_of a) (levels_of 4) dzero 1.

Definition demo_exec (sym id : Z) (k : ExecKind) (side : OrdSide) : ExecEvent :=
  mkExecEvent 5000000 id k side sym (double_of_Z 1) (double_of_Z 1) dzero (zero_chars order_id_size).

#[export] Existing Instance list_laws.

Definition demo_start : pc * @Engine list_ops := (AtExec, engine_init demo_clock true).

(** The trace and the final state of a script played from a state. *)
Definition play_trace (script : list action) (ps : pc * @Engine list_ops) : list label :=
  match play shipped_config demo_clock script ps [] with Some (tr, _) => tr | None => [] end.
Definition play_final (script : list action) (ps : pc * @Engine list_ops) : pc * @Engine list_ops :=
  match play shipped_config demo_clock script ps [] with Some (_, ps') => ps' | None => ps end.

Lemma play_run_ok script ps :
  engine_ok (snd ps) ->
  strat_run shipped_config demo_clock ps (play_trace script ps) (play_final script ps) /\
  engine_ok (snd (play_final script ps)).
Proof.
  intros Hok. unfold play_trace, play_final.
  destruct (play shipped_config demo_clock script ps []) as [[tr ps']|] eqn:E.
  - apply (play_sound shipped_config demo_clock demo_clock_ok shipped_interval_ok script
             ps ps [] tr ps'); [constructor|exact Hok|exact E].
  - split; [constructor|exact Hok].
Qed.

Definition demo_trace (script : list action) : list label := play_trace script demo_start.
Definition demo_final (script : list action) : pc * @Engine list_ops := play_final script demo_start.

Lemma demo_run_ok script :
  strat_run shipped_config demo_clock demo_start (demo_trace script) (demo_final script) /\
  engine_ok (snd (demo_final script)).
Proof. apply play_run_ok, engine_init_ok. Qed.

(** A wide market, a fill of the Buy order, the same market again. *)
Definition script_refill : list action :=
  [AFeedMd (demo_md 2 1000 1010); ARun; ARun;
   AFeedExec (demo_exec 2 5000 ExFilled Buy); AFeedMd (demo_md 2 1000 1010); ARun; ARun; ARun].

Definition new_cmd (side : OrdSide) (px id now : Z) : OrderCmd :=
  mkOrderCmd CmdNew side 2 (dadd (double_of_Z px) (if decide (side = Buy) then dhalf else dsub dzero dhalf))
    (double_of_Z 1) id 0 5000000 (5000000 + now).

Example refill_events :
  events (demo_trace script_refill) =
  [EvCmd (new_cmd Buy 1000 5000 4); EvCmd (new_cmd Sell 1010 5001 5);
   EvExec (demo_exec 2 5000 ExFilled Buy); EvCmd (new_cmd Buy 1000 5002 8)].
Proof. vm_compute. reflexivity. Qed.

(** A wide market, both quotes acknowledged, then a narrow market. *)
Definition script_narrow : list action :=
  [AFeedMd (demo_md 2 1000 1010); ARun; ARun;
   AFeedExec (demo_exec 2 5000 ExNew Buy); AFeedExec (demo_exec 2 5001 ExNew Sell);
   AFeedMd (demo_md 2 1000 1000); ARun; ARun; ARun; ARun].

Definition cancel_cmd (side : OrdSide) (orig id now : Z) : OrderCmd :=
  mkOrderCmd CmdCancel side 2 dzero (double_of_Z 1) id orig 5000000 (5000000 + now).

Example narrow_events :
  events (demo_trace script_narrow) =
  [EvCmd (new_cmd Buy 1000 5000 4); EvCmd (new_cmd Sell 1010 5001 5);
   EvExec (demo_exec 2 5000 ExNew Buy); EvExec (demo_exec 2 5001 ExNew Sell);
   EvCmd (cancel_cmd Buy 5000 5002 8); EvCmd (cancel_cmd Sell 5001 5003 9)].
Proof. vm_compute. reflexivity. Qed.

Lemma demo_seed : cl_ord_seed_ (snd demo_start) = 5000.
Proof. reflexivity. Qed.
