(* ===== verification/StrategyProps.v ===== *)
(** * Strategy thread: properties

    What the quoting engine guarantees, under any interference of the other
    threads on the shared objects, and where it does not do what it means to. *)
From S2P Require Import Prelude.
From S2P Require Import Double.
From S2P Require Import Dyadic.
From S2P Require Import Events.
From S2P Require Import SpscRing.
From S2P Require Import Queue.
From S2P Require Import Text.
From S2P Require Import LatencyHistogram.
From S2P Require Import Metrics.
From S2P Require Import OrderBook.
From S2P Require Import OrderManager.
From S2P Require Import AsyncLogger.
From S2P Require Import Persister.
From S2P Require Import Config.
From S2P Require Import MarketMaker.
From S2P Require Import MarketMakerFacts.
From S2P Require Import StrategySteps.
From S2P Require Import StrategyDemo.
From Stdlib Require Import Sorted.

(** ** Reading the trace *)

Lemma working_cmd sym side evs c :
  c_type c = CmdNew -> cmd_for sym side c ->
  working sym side (evs ++ [EvCmd c]) = Some (c_cl_ord_id c).
Proof. intros Ht [Hs Hd]. rewrite working_snoc. cbn. by rewrite decide_True. Qed.

(** A working order stops working only by a terminal report on it, or by a new
    order for the slot. *)
Lemma working_ends sym side id pre mid :
  working sym side pre = Some id -> working sym side (pre ++ mid) = None ->
  (exists e, EvExec e ∈ mid /\ terminal (x_kind e) = true /\ x_symbol_id e = sym /\ x_cl_ord_id e = id) \/
  (exists m1 c m2, mid = m1 ++ EvCmd c :: m2 /\ c_type c = CmdNew /\ cmd_for sym side c /\
     working sym side (pre ++ m1) = Some id).
Proof.
  revert pre. induction mid as [|ev mid IH]; intros pre Hp Hn.
  - rewrite app_nil_r in Hn. congruence.
  - assert (Hcons : forall o, working sym side (pre ++ [ev]) = o ->
              working sym side ((pre ++ [ev]) ++ mid) = None) by (intros; by rewrite <- app_assoc).
    destruct ev as [e|c].
    + destruct (decide (terminal (x_kind e) = true /\ x_symbol_id e = sym /\ id = x_cl_ord_id e)) as [(Ht & Hs & Hi)|Hd].
      * left. exists e. split; [by left|done].
      * assert (Hw : working sym side (pre ++ [EvExec e]) = Some id).
        { rewrite working_snoc, Hp. cbn. rewrite decide_False; [done|]. intros (? & ? & [= ?]). by apply Hd. }
        destruct (IH _ Hw (Hcons _ Hw)) as [(e' & Hin & H)|(m1 & c & m2 & -> & Ht & Hf & Hw')].
        -- left. exists e'. split; [by right|done].
        -- right. exists (EvExec e :: m1), c, m2. rewrite <- app_assoc in Hw'. done.
    + destruct (decide (c_type c = CmdNew /\ c_symbol_id c = sym /\ c_side c = side)) as [(Ht & Hs & Hd)|Hd].
      * right. exists [], c, mid. rewrite app_nil_r. done.
      * assert (Hw : working sym side (pre ++ [EvCmd c]) = Some id).
        { rewrite working_snoc, Hp. cbn. by rewrite decide_False. }
        destruct (IH _ Hw (Hcons _ Hw)) as [(e' & Hin & H)|(m1 & c' & m2 & -> & Ht & Hf & Hw')].
        -- left. exists e'. split; [by right|done].
        -- right. exists (EvCmd c :: m1), c', m2. rewrite <- app_assoc in Hw'. done.
Qed.

(** ** ClOrdIDs along the trace *)

Definition cmd_ids (evs : list event) : list Z :=
  flat_map (fun ev => match ev with EvCmd c => [c_cl_ord_id c] | EvExec _ => [] end) evs.

Lemma cmd_ids_app a b : cmd_ids (a ++ b) = cmd_ids a ++ cmd_ids b.
Proof. apply flat_map_app. Qed.

Lemma sorted_snoc (l : list Z) y :
  StronglySorted Z.lt l -> Forall (fun x => x < y) l -> StronglySorted Z.lt (l ++ [y]).
Proof.
  induction 1 as [|x l Hs IH Hx]; intros HF; simpl; [by repeat constructor|].
  apply Forall_cons_iff in HF as [Hxy HF]. constructor; [by apply IH|].
  apply Forall_app. split; [done|by constructor].
Qed.

(** All the ids lie between the seed at the start and the seed now. *)
Record ids_inv (seed0 : Z) (s : Z) (evs : list event) : Prop := {
  ii_sorted : StronglySorted Z.lt (cmd_ids evs);
  ii_range : Forall (fun i => seed0 <= i < s) (cmd_ids evs);
  ii_seed : seed0 <= s
}.

Lemma ids_inv_cmd seed0 s evs c :
  ids_inv seed0 s evs -> c_cl_ord_id c = s -> ids_inv seed0 (s + 1) (evs ++ [EvCmd c]).
Proof.
  intros [Hs Hr Hd] Hc. split; [| |lia]; rewrite cmd_ids_app; cbn; rewrite Hc.
  - apply sorted_snoc; [done|]. eapply Forall_impl; [|exact Hr]. cbn. lia.
  - apply Forall_app. split; [eapply Forall_impl; [|exact Hr]; cbn; lia|]. constructor; [lia|constructor].
Qed.

Lemma ids_inv_grow seed0 s s' evs : ids_inv seed0 s evs -> s <= s' -> ids_inv seed0 s' evs.
Proof.
  intros [Hs Hr Hd] Hle. split; [done| |lia]. eapply Forall_impl; [|exact Hr]. cbn. lia.
Qed.

Lemma ids_inv_exec seed0 s evs e : ids_inv seed0 s evs -> ids_inv seed0 s (evs ++ [EvExec e]).
Proof. intros []. split; rewrite ?cmd_ids_app; cbn; rewrite ?app_nil_r; done. Qed.

Section Facts.
Context {QO : QueueOps} {QL : QueueLaws} (cfg : EngineConfig) (clock : nat -> Z).

Lemma side_run_ids d sym side t_md q s s' seed0 evs :
  side_run cfg clock d sym side t_md q s s' ->
  0 <= cl_ord_seed_ s -> cl_ord_seed_ s + 1 < 2 ^ 64 -> ids_inv seed0 (cl_ord_seed_ s) evs ->
  exists cmds, out_cmds s' = out_cmds s ++ cmds /\
    cl_ord_seed_ s <= cl_ord_seed_ s' <= cl_ord_seed_ s + 1 /\
    ids_inv seed0 (cl_ord_seed_ s') (evs ++ map EvCmd cmds).
Proof.
  intros [_ Hout _ _ Hseed _ _ _ _ _ _] H0 Hw Hi. eexists. split; [exact Hout|].
  set (i := intent_side _ _ _ _ _ _ _ _) in *.
  assert (Hs : cl_ord_seed_ s <= cl_ord_seed_ s' <= cl_ord_seed_ s + 1).
  { rewrite Hseed. destruct i; rewrite ?u64_id; unfold in_u64; lia. }
  split; [done|]. destruct (sent cfg s i) as [c|] eqn:Es; cbn [option_list option_rect map].
  - apply sent_inv in Es. rewrite Hseed, Es, u64_id by (unfold in_u64; lia).
    apply ids_inv_cmd; [done|]. by apply intent_side_ok in Es as (_ & -> & _).
  - rewrite app_nil_r. eapply ids_inv_grow; [exact Hi|lia].
Qed.

Lemma md_effect_ids ev ob s s' cmds seed0 evs :
  md_effect cfg clock ev ob s s' -> out_cmds s' = out_cmds s ++ cmds ->
  0 <= cl_ord_seed_ s -> cl_ord_seed_ s + 2 < 2 ^ 64 -> ids_inv seed0 (cl_ord_seed_ s) evs ->
  cl_ord_seed_ s <= cl_ord_seed_ s' <= cl_ord_seed_ s + 2 /\
  ids_inv seed0 (cl_ord_seed_ s') (evs ++ map EvCmd cmds).
Proof.
  intros [_ _ _ _ _ Hd] Hout H0 Hw Hi. destruct (has_bba ob).
  - destruct Hd as (qb & qs & sa & sb & sc & _ & _ & Hqa & Hb & Hs & Hqc).
    rewrite <- (qu_seed _ _ Hqa) in *.
    destruct (side_run_ids _ _ _ _ _ _ _ seed0 evs Hb) as (c1 & O1 & S1 & I1); [lia..|done|].
    destruct (side_run_ids _ _ _ _ _ _ _ seed0 (evs ++ map EvCmd c1) Hs) as (c2 & O2 & S2 & I2); [lia..|exact I1|].
    rewrite (quiet_out _ _ Hqc), O2, O1, (quiet_out _ _ Hqa), <- app_assoc in Hout.
    apply app_inv_head in Hout as <-. rewrite map_app, app_assoc, (qu_seed _ _ Hqc). split; [lia|done].
  - rewrite (quiet_out _ _ Hd), <- (app_nil_r (out_cmds s)) in Hout at 1.
    apply app_inv_head in Hout as <-. rewrite app_nil_r, (qu_seed _ _ Hd). split; [lia|done].
Qed.

(** ** A slot with a request in flight *)

Definition in_flight (q : Quote) : Prop := q_state q = PendingNew \/ q_state q = PendingCancel.

Lemma in_flight_intent d sym side t_md q seed now :
  in_flight q -> intent_side cfg d sym side t_md q seed now = None.
Proof.
  intros [H|H]; destruct d; cbn [intent_side]; unfold intent_requote, intent_cancel; rewrite ?H;
    try done; by rewrite decide_False.
Qed.

Definition slot_stuck (sym : Z) (side : OrdSide) (q : Quote) (s : Engine) : Prop :=
  slot_at (oms_ s) sym side = Some q.

Lemma side_run_stuck d sym side t_md q0 s s' sym' side' q :
  real_side side -> real_side side' -> in_flight q ->
  slot_at (oms_ s) sym side = Some q0 -> slot_stuck sym' side' q s ->
  side_run cfg clock d sym side t_md q0 s s' ->
  slot_stuck sym' side' q s' /\
  exists cmds, out_cmds s' = out_cmds s ++ cmds /\ Forall (fun c => ~ cmd_for sym' side' c) cmds.
Proof.
  intros Hr Hr' Hq Hq0 Hst [_ Hout Hslot Hframe _ _ _ _ _ _ _]. unfold slot_stuck in *.
  destruct (decide ((sym, side_index side) = (sym', side_index side'))) as [E|E].
  - injection E as -> E. rewrite <- (slot_at_side (oms_ s) _ _ _ E), Hq0 in Hst.
    rewrite <- (slot_at_side (oms_ s') _ _ _ E). injection Hst as ->. rewrite in_flight_intent in * by done.
    split; [done|]. exists []. by rewrite Hout.
  - split; [by rewrite Hframe|]. eexists. split; [exact Hout|].
    destruct (sent cfg s _) as [c|] eqn:Es; cbn; constructor; [|constructor].
    apply sent_inv, intent_side_ok in Es as ((<- & <-) & _). intros [Hs Hd]. apply E. congruence.
Qed.

Lemma md_effect_stuck ev ob s s' cmds sym side q :
  real_side side -> in_flight q -> slot_stuck sym side q s ->
  md_effect cfg clock ev ob s s' -> out_cmds s' = out_cmds s ++ cmds ->
  slot_stuck sym side q s' /\ Forall (fun c => ~ cmd_for sym side c) cmds.
Proof.
  intros Hr Hq Hst [_ _ _ _ _ Hd] Hout. unfold slot_stuck in *. destruct (has_bba ob).
  - destruct Hd as (qb & qs & sa & sb & sc & Hqb & Hqs & Hqa & Hb & Hs & Hqc).
    rewrite <- (qu_oms _ _ Hqa) in *.
    assert (Hqs' : slot_at (oms_ sb) (md_symbol_id ev) Sell = Some qs).
    { rewrite (se_frame _ _ _ _ _ _ _ Hb) by (by intros [=]). done. }
    destruct (side_run_stuck _ _ Buy _ _ _ _ sym side q (or_introl eq_refl) Hr Hq Hqb Hst Hb) as (S1 & c1 & O1 & F1).
    destruct (side_run_stuck _ _ Sell _ _ _ _ sym side q (or_intror eq_refl) Hr Hq Hqs' S1 Hs) as (S2 & c2 & O2 & F2).
    rewrite (quiet_out _ _ Hqc), O2, O1, (quiet_out _ _ Hqa), <- app_assoc in Hout.
    apply app_inv_head in Hout as <-. rewrite (qu_oms _ _ Hqc). split; [done|]. by apply Forall_app.
  - rewrite (quiet_out _ _ Hd), <- (app_nil_r (out_cmds s)) in Hout at 1.
    apply app_inv_head in Hout as <-. rewrite (qu_oms _ _ Hd). done.
Qed.

(** ** Draining the reports *)

Definition execs_ok (s : Engine) : Prop :=
  Forall (fun e => 0 <= x_symbol_id e < kMaxSymbols) (q_contents (exec_ s)).

Lemma drain_execs_run fuel w s :
  engine_ok s -> execs_ok s -> (length (q_contents (exec_ s)) < fuel)%nat ->
  exists s', drain_execs fuel w s = Ok (w || negb (bool_decide (q_contents (exec_ s) = [])), s') /\
    engine_ok s' /\ q_contents (exec_ s') = [] /\ md_ s' = md_ s /\ books_ s' = books_ s /\
    strat_run cfg clock (AtExec, s) (map LExec (q_contents (exec_ s)) ++ [LTau]) (AtMd, s').
Proof.
  revert w s. induction fuel as [|fuel IH]; intros w s Hok He Hf; [lia|].
  destruct (pop_exec_spec s Hok) as (q & Hp & Hok1 & Hc). cbn [drain_execs].
  unfold execs_ok in He. rewrite (bind_ok _ _ _ _ _ Hp).
  destruct (q_contents (exec_ s)) as [|e l] eqn:E; cbn [head tail length map app] in *.
  - exists (set_exec s q). rewrite orb_false_r. split; [done|]. split; [done|]. split; [done|].
    split; [done|]. split; [done|]. apply run_one. by apply st_exec_done.
  - apply Forall_cons_iff in He as [He1 He].
    destruct (handle_exec_effect e (set_exec s q) Hok1 He1) as (s2 & H2 & [Hok2 _ _ _ Hb2 Hx2 Hm2]).
    rewrite (bind_ok _ _ _ _ _ H2).
    assert (Hx : q_contents (exec_ s2) = l) by (rewrite Hx2; exact Hc).
    destruct (IH true s2 Hok2) as (s' & Hd & Hok' & Hc' & Hm' & Hb' & Hrun);
      [unfold execs_ok; by rewrite Hx|rewrite Hx; lia|].
    exists s'. rewrite Hd. rewrite Hx in Hrun.
    split; [by rewrite orb_true_r|]. split; [done|]. split; [done|].
    split; [by rewrite Hm', Hm2|]. split; [by rewrite Hb', Hb2|].
    change (LExec e :: map LExec l ++ [LTau]) with ([LExec e] ++ (map LExec l ++ [LTau])).
    eapply run_app; [|exact Hrun]. apply run_one. by eapply st_exec.
Qed.
End Facts.

(** ** Assumptions on the clock and the configuration, shared below *)

Class ClockOk (clock : nat -> Z) : Prop := clock_range : forall n, 0 <= clock n < 2 ^ 62.
Class IntervalOk (cfg : EngineConfig) : Prop :=
  interval_range : - 2 ^ 31 <= snapshot_interval_ms cfg < 2 ^ 31.

Section Trace.
Context {QO : QueueOps} {QL : QueueLaws} (cfg : EngineConfig) (clock : nat -> Z).
Context {HK : ClockOk clock} {HI : IntervalOk cfg}.

Lemma reach_inv b tr ps :
  strat_run cfg clock (AtExec, engine_init clock b) tr ps -> strat_inv ps (events tr).
Proof.
  intros H. apply (strat_inv_run cfg clock clock_range interval_range _ tr ps [] (strat_inv_init clock b) H).
Qed.

(** Between two New commands for a slot the first order's work has ended. *)
Lemma working_pair evs pre mid post c1 c2 :
  cmds_ok evs -> evs = pre ++ EvCmd c1 :: mid ++ EvCmd c2 :: post ->
  c_type c1 = CmdNew -> c_type c2 = CmdNew ->
  c_symbol_id c1 = c_symbol_id c2 -> c_side c1 = c_side c2 ->
  exists e, EvExec e ∈ mid /\ terminal (x_kind e) = true /\
    x_symbol_id e = c_symbol_id c1 /\ x_cl_ord_id e = c_cl_ord_id c1.
Proof.
  intros Hok Hev Ht1 Ht2 Hsym Hside.
  set (sym := c_symbol_id c1) in *. set (side := c_side c1) in *.
  assert (Hw1 : working sym side (pre ++ [EvCmd c1]) = Some (c_cl_ord_id c1)) by by apply working_cmd.
  assert (Hnew : forall p c q, evs = p ++ EvCmd c :: q -> c_type c = CmdNew -> cmd_for sym side c ->
            working sym side p = None).
  { intros p c q Hs Ht [<- <-]. destruct (Hok p c q Hs) as [_ H]. by rewrite Ht in H. }
  assert (Hw2 : working sym side ((pre ++ [EvCmd c1]) ++ mid) = None).
  { apply (Hnew _ c2 post); [|done|by split]. rewrite Hev, <- !app_assoc. done. }
  destruct (working_ends sym side _ _ mid Hw1 Hw2) as [H|(m1 & c & m2 & -> & Ht & Hf & Hw)]; [done|].
  rewrite (Hnew ((pre ++ [EvCmd c1]) ++ m1) c (m2 ++ EvCmd c2 :: post)) in Hw; [done| |done|done].
  rewrite Hev, <- !app_assoc. done.
Qed.

(** One working order per instrument and side.  Along any execution from
    the initial state, whatever the other threads do, between two New commands
    for the same instrument and side the engine has processed a terminal
    report (filled, canceled or rejected) of the first of the two orders. *)
Theorem one_working_order (b : bool) (tr : list label) (ps : pc * Engine)
    (pre mid post : list event) (c1 c2 : OrderCmd) :
  strat_run cfg clock (AtExec, engine_init clock b) tr ps ->
  events tr = pre ++ EvCmd c1 :: mid ++ EvCmd c2 :: post ->
  c_type c1 = CmdNew -> c_type c2 = CmdNew ->
  c_symbol_id c1 = c_symbol_id c2 -> c_side c1 = c_side c2 ->
  exists e, EvExec e ∈ mid /\ terminal (x_kind e) = true /\
    x_symbol_id e = c_symbol_id c1 /\ x_cl_ord_id e = c_cl_ord_id c1.
Proof.
  intros Hrun. destruct (reach_inv b tr ps Hrun) as (_ & _ & Hok). by apply working_pair.
Qed.

(** C17: cancels hit own orders.  Every Cancel command names, as the order to
    cancel, one that the engine had sent before for the same instrument and
    side, or ClOrdID 0 (the phantom a report without ClOrdID creates); every
    command is for a Buy or a Sell. *)
Theorem cancels_name_own_orders (b : bool) (tr : list label) (ps : pc * Engine)
    (pre post : list event) (c : OrderCmd) :
  strat_run cfg clock (AtExec, engine_init clock b) tr ps ->
  events tr = pre ++ EvCmd c :: post -> c_type c = CmdCancel ->
  (c_side c = Buy \/ c_side c = Sell) /\
  (c_orig_cl_ord_id c = 0 \/
   exists c', EvCmd c' ∈ pre /\ c_type c' = CmdNew /\ c_symbol_id c' = c_symbol_id c /\
     c_side c' = c_side c /\ c_cl_ord_id c' = c_orig_cl_ord_id c).
Proof.
  intros Hrun Hev Ht. destruct (reach_inv b tr ps Hrun) as (_ & _ & Hok).
  destruct (Hok pre c post Hev) as [Hside H]. rewrite Ht in H. split; [done|].
  destruct H as [[H|(c' & Hin & Ht' & [? ?] & Hid)] _]; [by left|right]. by exists c'.
Qed.

Lemma ids_step ps l ps' seed0 evs n :
  engine_ok (snd ps) -> strat_step cfg clock ps l ps' ->
  0 <= cl_ord_seed_ (snd ps) <= n -> n + 2 < 2 ^ 64 -> ids_inv seed0 (cl_ord_seed_ (snd ps)) evs ->
  0 <= cl_ord_seed_ (snd ps') <= n + 2 /\ ids_inv seed0 (cl_ord_seed_ (snd ps')) (evs ++ events_of l).
Proof.
  intros Hok Hst Hn Hw Hi. destruct Hst; cbn [snd events_of] in *.
  - destruct (pop_exec_spec s Hok) as (q & Hp & Hok1 & _). rewrite Hp in H. injection H as _ <-.
    destruct (handle_exec_inv e _ s2 Hok1 H0) as [_ _ _ -> _ _ _]. split; [cbn; lia|]. by apply ids_inv_exec.
  - destruct (pop_exec_spec s Hok) as (q & Hp & _ & _). rewrite Hp in H. injection H as _ <-.
    rewrite app_nil_r. split; [cbn; lia|done].
  - destruct (pop_md_spec s Hok) as (q & Hp & Hok1 & _). rewrite Hp in H. injection H as _ <-.
    destruct (handle_md_inv cfg clock clock_range interval_range ev _ s2 Hok1 H0 H1) as (ob0 & _ & E).
    destruct (md_effect_ids cfg clock ev _ _ _ cmds seed0 evs E H2) as [Hs Hi']; cbn in *; try lia; [done|].
    split; [lia|done].
  - destruct (pop_md_spec s Hok) as (q & Hp & _ & _). rewrite Hp in H. injection H as _ <-.
    rewrite app_nil_r. split; [cbn; lia|done].
  - rewrite app_nil_r, (es_seed _ _ H). split; [lia|done].
Qed.

(** While the counter does not wrap (two ids per step at most). *)
Lemma ids_run b tr ps :
  strat_run cfg clock (AtExec, engine_init clock b) tr ps ->
  cl_ord_seed_ (engine_init clock b) + 2 * Z.of_nat (length tr) < 2 ^ 64 ->
  0 <= cl_ord_seed_ (snd ps) <= cl_ord_seed_ (engine_init clock b) + 2 * Z.of_nat (length tr) /\
  ids_inv (cl_ord_seed_ (engine_init clock b)) (cl_ord_seed_ (snd ps)) (events tr).
Proof.
  set (s0 := engine_init clock b). set (seed0 := cl_ord_seed_ s0). intros Hrun Hw.
  assert (H0 : 0 <= seed0) by apply u64_range.
  remember (AtExec, s0) as p0 eqn:E0. revert E0.
  induction Hrun as [|a t p l d H IH Hs]; intros ->.
  - change (cl_ord_seed_ (snd (AtExec, s0))) with seed0. cbn [length].
    split; [lia|]. split; [constructor|constructor|lia].
  - rewrite length_app in *. cbn [length] in *.
    destruct IH as [Hn Hi]; [lia|done|]. rewrite events_snoc.
    destruct (reach_inv b t p H) as (Hok & _).
    destruct (ids_step p l d seed0 (events t) _ Hok Hs Hn) as [Hn' Hi']; [lia|done|].
    split; [lia|done].
Qed.

(** C25: order ids are unique.  While the 64-bit counter does not wrap (two
    ids per step at most), the ClOrdIDs of the commands sent are strictly
    increasing, from the seed taken at startup. *)
Theorem cl_ord_ids_increasing (b : bool) (tr : list label) (ps : pc * Engine) :
  strat_run cfg clock (AtExec, engine_init clock b) tr ps ->
  cl_ord_seed_ (engine_init clock b) + 2 * Z.of_nat (length tr) < 2 ^ 64 ->
  StronglySorted Z.lt (cmd_ids (events tr)) /\
  Forall (fun i => cl_ord_seed_ (engine_init clock b) <= i < cl_ord_seed_ (snd ps)) (cmd_ids (events tr)).
Proof. intros Hrun Hw. by destruct (ids_run b tr ps Hrun Hw) as [_ []]. Qed.

(** A step of the machine and a slot with a request in flight. *)
Lemma stuck_step ps l ps' sym side q :
  engine_ok (snd ps) -> strat_step cfg clock ps l ps' -> real_side side -> in_flight q ->
  slot_stuck sym side q (snd ps) ->
  (forall e, EvExec e ∈ events_of l -> x_symbol_id e = sym -> x_cl_ord_id e <> q_cl_ord_id q) ->
  slot_stuck sym side q (snd ps') /\ (forall c, EvCmd c ∈ events_of l -> ~ cmd_for sym side c).
Proof.
  intros Hok Hst Hr Hq Hat Hx. unfold slot_stuck in *. destruct Hst; cbn [snd events_of] in *.
  - destruct (pop_exec_spec s Hok) as (r & Hp & Hok1 & _). rewrite Hp in H. injection H as _ <-.
    destruct (handle_exec_inv e _ s2 Hok1 H0) as [Hok2 _ He _ _ _ _]. split.
    + destruct (slot_at_ok (oms_ s2) sym side (eo_oms _ Hok2)) as [q' Hq'];
        [eapply slot_at_range; [apply Hok|exact Hat]|].
      destruct (on_exec_slot e _ _ sym side q' (eo_oms _ Hok1) He Hq') as (q0 & Hq0 & [-> | (Hs & Hid & _)]).
      * rewrite Hq'. cbn in Hq0. congruence.
      * exfalso. cbn in Hq0. apply (Hx e); [by apply list_elem_of_singleton|done|congruence].
    + intros c Hc. by apply list_elem_of_singleton in Hc.
  - destruct (pop_exec_spec s Hok) as (r & Hp & _ & _). rewrite Hp in H. injection H as _ <-.
    split; [done|]. intros c Hc. by apply elem_of_nil in Hc.
  - destruct (pop_md_spec s Hok) as (r & Hp & Hok1 & _). rewrite Hp in H. injection H as _ <-.
    destruct (handle_md_inv cfg clock clock_range interval_range ev _ s2 Hok1 H0 H1) as (ob0 & _ & E).
    destruct (md_effect_stuck cfg clock ev _ (set_md s r) s2 cmds sym side q Hr Hq Hat E H2) as [Hs HF]. split; [done|].
    intros c Hc. apply list_elem_of_In, in_map_iff in Hc as (c' & [= ->] & Hc).
    rewrite List.Forall_forall in HF. by apply HF.
  - destruct (pop_md_spec s Hok) as (r & Hp & _ & _). rewrite Hp in H. injection H as _ <-.
    split; [done|]. intros c Hc. by apply elem_of_nil in Hc.
  - rewrite (es_oms _ _ H). split; [done|]. intros c Hc. by apply elem_of_nil in Hc.
Qed.

(** A request the exchange does not answer under the original ClOrdID
    blocks its slot for good.  Once a quote is PendingNew or PendingCancel, the
    slot never changes and no further command, New or Cancel, is sent for it,
    as long as no report for the instrument carries the ClOrdID of the original
    order: the case of a cancel acknowledged under the cancel's own ClOrdID. *)
Theorem in_flight_blocks (ps ps' : pc * Engine) (tr : list label)
    (sym : Z) (side : OrdSide) (q : Quote) :
  strat_run cfg clock ps tr ps' -> engine_ok (snd ps) -> side = Buy \/ side = Sell ->
  slot_at (oms_ (snd ps)) sym side = Some q -> in_flight q ->
  (forall e, EvExec e ∈ events tr -> x_symbol_id e = sym -> x_cl_ord_id e <> q_cl_ord_id q) ->
  slot_at (oms_ (snd ps')) sym side = Some q /\
  (forall c, EvCmd c ∈ events tr -> ~ (c_symbol_id c = sym /\ c_side c = side)).
Proof.
  intros Hrun Hok Hr Hat Hq.
  enough (H : engine_ok (snd ps') /\
    ((forall e, EvExec e ∈ events tr -> x_symbol_id e = sym -> x_cl_ord_id e <> q_cl_ord_id q) ->
     slot_stuck sym side q (snd ps') /\ forall c, EvCmd c ∈ events tr -> ~ cmd_for sym side c)) by apply H.
  induction Hrun as [a|a t b l d H IH Hs].
  - split; [done|]. intros _. split; [done|]. intros c Hc. by apply elem_of_nil in Hc.
  - destruct (IH Hok Hat) as [Hokb Hb]. split; [by apply (strat_ok_step cfg clock clock_range interval_range b l d)|].
    rewrite events_snoc. intros Hx. destruct Hb as [Hb Hc].
    { intros e He. apply Hx, elem_of_app. by left. }
    destruct (stuck_step b l d sym side q Hokb Hs Hr Hq Hb) as [Hd Hc'].
    { intros e He. apply Hx, elem_of_app. by right. }
    split; [done|]. intros c [Hin|Hin]%elem_of_app; auto.
Qed.
End Trace.

(** ** Witnesses *)

#[export] Instance demo_clock_class : ClockOk demo_clock := demo_clock_ok.
#[export] Instance shipped_interval_class : IntervalOk shipped_config := shipped_interval_ok.

Lemma one_working_order_witness :
  exists e, EvExec e ∈ [EvCmd (new_cmd Sell 1010 5001 5); EvExec (demo_exec 2 5000 ExFilled Buy)] /\
    terminal (x_kind e) = true /\ x_cl_ord_id e = 5000.
Proof.
  destruct (one_working_order shipped_config demo_clock true (demo_trace script_refill) (demo_final script_refill)
    [] [EvCmd (new_cmd Sell 1010 5001 5); EvExec (demo_exec 2 5000 ExFilled Buy)] []
    (new_cmd Buy 1000 5000 4) (new_cmd Buy 1000 5002 8)) as (e & H1 & H2 & H3 & H4);
    [apply demo_run_ok|apply refill_events|reflexivity..|].
  exists e. exact (conj H1 (conj H2 H4)).
Defined.

Lemma cancels_name_own_orders_witness :
  c_orig_cl_ord_id (cancel_cmd Buy 5000 5002 8) = 0 \/
  exists c', EvCmd c' ∈ [EvCmd (new_cmd Buy 1000 5000 4); EvCmd (new_cmd Sell 1010 5001 5);
     EvExec (demo_exec 2 5000 ExNew Buy); EvExec (demo_exec 2 5001 ExNew Sell)] /\
    c_type c' = CmdNew /\ c_cl_ord_id c' = 5000.
Proof.
  destruct (cancels_name_own_orders shipped_config demo_clock true (demo_trace script_narrow) (demo_final script_narrow)
    [EvCmd (new_cmd Buy 1000 5000 4); EvCmd (new_cmd Sell 1010 5001 5);
     EvExec (demo_exec 2 5000 ExNew Buy); EvExec (demo_exec 2 5001 ExNew Sell)]
    [EvCmd (cancel_cmd Sell 5001 5003 9)] (cancel_cmd Buy 5000 5002 8)) as (_ & [H|(c' & H1 & H2 & _ & _ & H3)]);
    [apply demo_run_ok|apply narrow_events|reflexivity|by left|].
  right. exists c'. exact (conj H1 (conj H2 H3)).
Defined.

Lemma cl_ord_ids_increasing_witness :
  StronglySorted Z.lt (cmd_ids (events (demo_trace script_narrow))) /\
  cmd_ids (events (demo_trace script_narrow)) = [5000; 5001; 5002; 5003].
Proof.
  split; [|by rewrite narrow_events].
  apply (cl_ord_ids_increasing shipped_config demo_clock true _ (demo_final script_narrow));
    [apply demo_run_ok|vm_compute; reflexivity].
Defined.

(** The cancel of order 5000 (own ClOrdID 5002) is acknowledged under 5002, the
    way FIX identifies a cancel: the Buy slot stays as it was. *)
Definition script_ack : list action :=
  [AFeedExec (demo_exec 2 5002 ExCanceled Buy); AFeedMd (demo_md 2 1000 1010); ARun; ARun; ARun].

Definition ack_trace : list label := play_trace script_ack (demo_final script_narrow).
Definition ack_final : pc * @Engine list_ops := play_final script_ack (demo_final script_narrow).

Lemma ack_run : strat_run shipped_config demo_clock (demo_final script_narrow) ack_trace ack_final.
Proof. exact (proj1 (play_run_ok script_ack (demo_final script_narrow) (proj2 (demo_run_ok script_narrow)))). Qed.

Example ack_events : events ack_trace = [EvExec (demo_exec 2 5002 ExCanceled Buy)].
Proof. vm_compute. reflexivity. Qed.

Definition stuck_quote : Quote :=
  mkQuote PendingCancel 5000 (dadd (double_of_Z 1000) dhalf) (double_of_Z 1) (zero_chars order_id_size).

Lemma in_flight_blocks_witness :
  slot_at (oms_ (snd ack_final)) 2 Buy = Some stuck_quote /\
  EvExec (demo_exec 2 5002 ExCanceled Buy) ∈ events ack_trace.
Proof.
  split.
  - apply (in_flight_blocks shipped_config demo_clock (demo_final script_narrow) ack_final ack_trace 2 Buy stuck_quote);
      [apply ack_run|apply demo_run_ok|by left|vm_compute; reflexivity|by right|].
    intros e He _. rewrite ack_events in He. apply list_elem_of_singleton in He.
    injection He as ->. cbn. discriminate.
  - rewrite ack_events. by apply list_elem_of_singleton.
Defined.
