(* ===== verification/DecisionProps.v ===== *)
(** * Strategy thread: the decision and the loop

    What [decide] sends for each book and slot state, what its floating-point
    tests mean on a price grid, and that the loop never faults and clears its
    backlog. *)
From S2P Require Import Prelude.
From S2P Require Import Double.
From S2P Require Import Dyadic.
From S2P Require Import Events.
From S2P Require Import SpscRing.
From S2P Require Import Queue.
From S2P Require Import Text.
From S2P Require Import LatencyHistogram.
From S2P Require Import Metrics.
From S2P Require Import OrderBook.
From S2P Require Import OrderManager.
From S2P Require Import AsyncLogger.
From S2P Require Import Persister.
From S2P Require Import Config.
From S2P Require Import MarketMaker.
From S2P Require Import MarketMakerFacts.
From S2P Require Import StrategySteps.
From S2P Require Import StrategyDemo.
From S2P Require Import StrategyProps.

Section Decision.
Context {QO : QueueOps} {QL : QueueLaws} (cfg : EngineConfig) (clock : nat -> Z).

(** Counters after a side that wanted to send. *)
Definition seed_after (s : Engine) (i : option OrderCmd) : Z :=
  match i with Some _ => u64 (cl_ord_seed_ s + 1) | None => cl_ord_seed_ s end.
Definition now_after (s : Engine) (i : option OrderCmd) : nat :=
  match i with Some _ => S (now_idx s) | None => now_idx s end.

Lemma sent_room s i :
  dry_run cfg = false -> Z.of_nat (length (out_cmds s)) < kOrdCap -> sent cfg s i = i.
Proof.
  intros Hd Hl. unfold sent. destruct i; [|done]. by rewrite Hd, (proj2 (Z.ltb_lt _ _) Hl).
Qed.

Lemma length_option_list {A} (o : option A) : (length (option_list o) <= 1)%nat.
Proof. destruct o; cbn; lia. Qed.

(** C13: the decision table.  With room for two commands, [decide] sends for
    each side exactly what the table [intent_requote] (wide market) or
    [intent_cancel] (narrow market) says of the slot, Buy first, moves the two
    slots accordingly, and keeps every other instrument's slots. *)
Theorem decide_sends_table (sym : Z) (ob : OrderBook) (t_md : Z) (qb qs : Quote) (s : Engine) :
  engine_ok s -> slot_at (oms_ s) sym Buy = Some qb -> slot_at (oms_ s) sym Sell = Some qs ->
  dry_run cfg = false -> Z.of_nat (length (out_cmds s)) + 2 <= kOrdCap ->
  let d := quoting_of cfg ob in
  let ibu := intent_side cfg d sym Buy t_md qb (cl_ord_seed_ s) (clock (now_idx s)) in
  let isl := intent_side cfg d sym Sell t_md qs (seed_after s ibu) (clock (now_after s ibu)) in
  exists s', decide_quotes cfg clock sym ob t_md s = Ok (tt, s') /\ engine_ok s' /\
    out_cmds s' = out_cmds s ++ option_list ibu ++ option_list isl /\
    slot_at (oms_ s') sym Buy = Some (slot_after qb ibu) /\
    slot_at (oms_ s') sym Sell = Some (slot_after qs isl) /\
    (forall sym' side, sym' <> sym -> slot_at (oms_ s') sym' side = slot_at (oms_ s) sym' side).
Proof.
  intros Hok Hb Hs Hdry Hroom d ibu isl.
  destruct (decide_quotes_effect cfg clock sym ob t_md qb qs s Hok Hb Hs) as (s1 & s' & Hd & E1 & E2).
  exists s'. split; [done|]. unfold side_run in *. fold d in E1, E2. fold ibu in E1.
  assert (Hi : intent_side cfg d sym Sell t_md qs (cl_ord_seed_ s1) (clock (now_idx s1)) = isl).
  { unfold isl, seed_after, now_after. by rewrite (se_seed _ _ _ _ _ _ _ E1), (se_now _ _ _ _ _ _ _ E1). }
  rewrite Hi in E2. destruct E1 as [Hok1 O1 S1 F1 _ _ _ _ _ _ _]. destruct E2 as [Hok2 O2 S2 F2 _ _ _ _ _ _ _].
  rewrite (sent_room s ibu) in O1, S1 by (done || lia).
  assert (Hl : Z.of_nat (length (out_cmds s1)) < kOrdCap).
  { rewrite O1, length_app. pose proof (length_option_list ibu). lia. }
  rewrite (sent_room s1 isl) in O2, S2 by done.
  split; [done|]. split; [by rewrite O2, O1, <- app_assoc|].
  split; [by rewrite F2 by (by intros [=])|]. split; [done|].
  intros sym' side Hne. rewrite F2, F1; [done|congruence|congruence].
Qed.

(** The cancel a side sends, if its quote is Live. *)
Lemma narrow_side sym side t_md q seed now :
  let i := intent_cancel sym side t_md q seed now in
  Forall (fun c => c_type c = CmdCancel /\ c_side c = side) (option_list i) /\
  if decide (q_state q = Live)
  then slot_after q i = set_state q PendingCancel /\
       exists c, c ∈ option_list i /\ c_side c = side /\ c_symbol_id c = sym /\ c_orig_cl_ord_id c = q_cl_ord_id q
  else slot_after q i = q /\ option_list i = [].
Proof.
  unfold intent_cancel. case_decide; cbn; [|by split].
  split; [by repeat constructor|]. split; [done|]. eexists. split; [by apply list_elem_of_singleton|done].
Qed.

Lemma narrow_quoting ob :
  is_nan (spread ob) = true \/ dlt (spread ob) (minimum_spread cfg) = true -> quoting_of cfg ob = Narrow.
Proof.
  intros Hsp. unfold quoting_of. replace (dge (spread ob) (minimum_spread cfg)) with false; [done|].
  destruct Hsp as [Hn|Hlt].
  - destruct (spread ob) as [| | |]; try done. by rewrite dge_nan_l.
  - destruct (dge (spread ob) (minimum_spread cfg)) eqn:E; [|done].
    by rewrite (dge_dlt_false _ _ E) in Hlt.
Qed.

(** One side of the outcome, from the commands of both. *)
Lemma narrow_pick sym side t_md q seed now slot (cmds : list OrderCmd) :
  let i := intent_cancel sym side t_md q seed now in
  slot = Some (slot_after q i) -> (forall c, c ∈ option_list i -> c ∈ cmds) ->
  (forall c, c ∈ cmds -> c_side c = side -> c ∈ option_list i) ->
  if decide (q_state q = Live)
  then slot = Some (set_state q PendingCancel) /\
       exists c, c ∈ cmds /\ c_side c = side /\ c_symbol_id c = sym /\ c_orig_cl_ord_id c = q_cl_ord_id q
  else slot = Some q /\ forall c, c ∈ cmds -> c_side c <> side.
Proof.
  intros i -> Hin Hout. destruct (narrow_side sym side t_md q seed now) as [_ H]. fold i in H.
  destruct (decide (q_state q = Live)).
  - destruct H as [-> (c & Hc & Hp)]. split; [done|]. exists c. split; [by apply Hin|exact Hp].
  - destruct H as [-> E]. split; [done|]. intros c Hc Hside.
    specialize (Hout c Hc Hside). rewrite E in Hout. by apply elem_of_nil in Hout.
Qed.

(** C18: risk-off.  In a narrow market, and when the spread is not a number,
    every command sent is a Cancel: one for each Live quote of the instrument,
    naming its order, and none otherwise; the other states are left alone. *)
Theorem narrow_stands_down (sym : Z) (ob : OrderBook) (t_md : Z) (qb qs : Quote) (s : Engine) :
  engine_ok s -> slot_at (oms_ s) sym Buy = Some qb -> slot_at (oms_ s) sym Sell = Some qs ->
  dry_run cfg = false -> Z.of_nat (length (out_cmds s)) + 2 <= kOrdCap ->
  is_nan (spread ob) = true \/ dlt (spread ob) (minimum_spread cfg) = true ->
  exists s' cmds, decide_quotes cfg clock sym ob t_md s = Ok (tt, s') /\
    out_cmds s' = out_cmds s ++ cmds /\
    Forall (fun c => c_type c = CmdCancel) cmds /\
    (forall side q, (side = Buy /\ q = qb) \/ (side = Sell /\ q = qs) ->
       if decide (q_state q = Live)
       then slot_at (oms_ s') sym side = Some (set_state q PendingCancel) /\
            exists c, c ∈ cmds /\ c_side c = side /\ c_symbol_id c = sym /\ c_orig_cl_ord_id c = q_cl_ord_id q
       else slot_at (oms_ s') sym side = Some q /\ forall c, c ∈ cmds -> c_side c <> side).
Proof.
  intros Hok Hb Hs Hdry Hroom Hsp.
  destruct (decide_quotes_effect cfg clock sym ob t_md qb qs s Hok Hb Hs) as (s1 & s' & Hrun & E1 & E2).
  rewrite (narrow_quoting ob Hsp) in E1, E2. unfold side_run in *. cbn [intent_side] in *.
  destruct E1 as [Hok1 O1 S1 F1 _ _ _ _ _ _ _]. destruct E2 as [Hok2 O2 S2 F2 _ _ _ _ _ _ _].
  set (ibu := intent_cancel sym Buy _ _ _ _) in *. set (isl := intent_cancel sym Sell _ _ _ _) in *.
  rewrite (sent_room s ibu) in O1, S1 by (done || lia).
  assert (Hl1 : Z.of_nat (length (out_cmds s1)) < kOrdCap).
  { rewrite O1, length_app. pose proof (length_option_list ibu). lia. }
  rewrite (sent_room s1 isl) in O2, S2 by done.
  exists s', (option_list ibu ++ option_list isl). split; [done|]. split; [by rewrite O2, O1, <- app_assoc|].
  assert (Hb' : slot_at (oms_ s') sym Buy = Some (slot_after qb ibu)) by (by rewrite F2 by (by intros [=])).
  destruct (narrow_side sym Buy t_md qb (cl_ord_seed_ s) (clock (now_idx s))) as [FB CB].
  destruct (narrow_side sym Sell t_md qs (cl_ord_seed_ s1) (clock (now_idx s1))) as [FS CS].
  fold ibu in FB, CB. fold isl in FS, CS. rewrite !List.Forall_forall in *.
  split.
  { intros c [Hc|Hc]%in_app_iff; [by apply FB|by apply FS]. }
  assert (Hother : forall c side, c ∈ option_list ibu ++ option_list isl -> c_side c = side ->
            (side = Buy -> c ∈ option_list ibu) /\ (side = Sell -> c ∈ option_list isl)).
  { intros c side Hc <-. apply elem_of_app in Hc as [Hc|Hc]; split; intros Hs'; try done;
      apply list_elem_of_In in Hc; exfalso;
      [destruct (FB c Hc) as [_ ?]|destruct (FS c Hc) as [_ ?]]; congruence. }
  intros side q [[-> ->]|[-> ->]]; eapply narrow_pick; try eassumption; intros c Hc.
  - apply elem_of_app. by left.
  - intros Hside. by apply (Hother c Buy).
  - apply elem_of_app. by right.
  - intros Hside. by apply (Hother c Sell).
Qed.

(** With DRY_RUN set nothing is ever sent and no slot ever changes. *)
Theorem dry_run_silent (sym : Z) (ob : OrderBook) (t_md : Z) (s : Engine) :
  engine_ok s -> 0 <= sym < kMaxSymbols -> dry_run cfg = true ->
  exists s', decide_quotes cfg clock sym ob t_md s = Ok (tt, s') /\ out_cmds s' = out_cmds s /\
    forall sym' side, slot_at (oms_ s') sym' side = slot_at (oms_ s) sym' side.
Proof.
  intros Hok Hsym Hdry.
  destruct (slot_at_ok (oms_ s) sym Buy (eo_oms s Hok) Hsym) as [qb Hb].
  destruct (slot_at_ok (oms_ s) sym Sell (eo_oms s Hok) Hsym) as [qs Hs].
  destruct (decide_quotes_effect cfg clock sym ob t_md qb qs s Hok Hb Hs) as (s1 & s' & Hrun & E1 & E2).
  exists s'. split; [done|].
  assert (Hn : forall e i, sent cfg e i = None) by (intros e [c|]; unfold sent; by rewrite ?Hdry).
  destruct E1 as [_ O1 S1 F1 _ _ _ _ _ _ _]. destruct E2 as [_ O2 S2 F2 _ _ _ _ _ _ _].
  rewrite Hn in O1, S1, O2, S2. cbn in O1, O2. rewrite !app_nil_r in *. split; [congruence|].
  assert (Hs1 : forall sym' side', slot_at (oms_ s1) sym' side' = slot_at (oms_ s) sym' side').
  { intros sym' side'. destruct (decide ((sym, side_index Buy) = (sym', side_index side'))) as [E|E]; [|by apply F1].
    injection E as <- E. by rewrite <- !(slot_at_side _ _ _ _ E), S1, Hb. }
  intros sym' side'. destruct (decide ((sym, side_index Sell) = (sym', side_index side'))) as [E|E].
  - injection E as <- E. rewrite <- (slot_at_side (oms_ s') _ _ _ E), <- (slot_at_side (oms_ s) _ _ _ E). by rewrite S2, Hs.
  - by rewrite F2, Hs1.
Qed.
End Decision.

(** ** Quotes on a price grid *)

Lemma best_levels ob : spread ob = dsub (best_ask ob) (best_bid ob).
Proof. reflexivity. Qed.

(** The decision on a price grid: nothing is rounded as long as the prices, the
    quotes and their difference keep to 53 bits. *)
Lemma quoting_grid (cfg : EngineConfig) (ob : OrderBook) (e b a t : Z) :
  grid_exp e -> grid_exp (e - 1) ->
  best_bid ob = dyadic b e -> best_ask ob = dyadic a e -> tick_size cfg = dyadic t e ->
  - 2 ^ 53 < b < 2 ^ 53 - t -> - 2 ^ 53 + t < a < 2 ^ 53 ->
  - 2 ^ 53 + 4 * t < 2 * (a - b) < 2 ^ 53 -> 0 <= t < 2 ^ 50 ->
  quoting_of cfg ob =
    (if dge (dyadic (a - b) e) (minimum_spread cfg)
     then if 2 * (a - b - 2 * t) <? t then Skip
          else Wide (dyadic (b + t) e) (dyadic (a - t) e)
     else Narrow).
Proof.
  intros He He' Hb Ha Ht Rb Ra Rab Rt. unfold quoting_of. rewrite best_levels, Hb, Ha, Ht.
  rewrite (dsub_dyadic a b), dadd_dyadic, (dsub_dyadic a t) by (unfold fits53; lia || done).
  rewrite dsub_dyadic by (unfold fits53; lia || done).
  rewrite dmul_dhalf by (unfold fits53; lia || done).
  rewrite (dyadic_refine (a - t - (b + t))) by (unfold fits53; lia || done).
  rewrite dlt_dyadic by (unfold fits53; lia || done).
  by replace (a - t - (b + t)) with (a - b - 2 * t) by lia.
Qed.

(** C16: on a price grid the decision is the integer one.  When the best prices
    and the tick are multiples [b], [a], [t] of one power of two, [decide]
    quotes exactly [b + t] and [a - t], without rounding, when the spread
    reaches the minimum and the improved quotes stay half a tick apart; the
    quotes then never lock or cross; and if [a - b] is a multiple of the tick,
    it quotes exactly when the spread is at least three ticks. *)
Theorem quotes_on_grid (cfg : EngineConfig) (ob : OrderBook) (e b a t : Z) :
  grid_exp e -> grid_exp (e - 1) ->
  best_bid ob = dyadic b e -> best_ask ob = dyadic a e -> tick_size cfg = dyadic t e ->
  - 2 ^ 50 < b < 2 ^ 50 -> - 2 ^ 50 < a < 2 ^ 50 -> 0 < t < 2 ^ 50 ->
  quoting_of cfg ob =
    (if dge (dyadic (a - b) e) (minimum_spread cfg)
     then if 2 * (a - b - 2 * t) <? t then Skip
          else Wide (dyadic (b + t) e) (dyadic (a - t) e)
     else Narrow) /\
  (quoting_of cfg ob = Wide (dyadic (b + t) e) (dyadic (a - t) e) -> b + t < a - t) /\
  ((t | a - b) -> dge (dyadic (a - b) e) (minimum_spread cfg) = true ->
     (quoting_of cfg ob = Wide (dyadic (b + t) e) (dyadic (a - t) e) <-> 3 * t <= a - b)).
Proof.
  intros He He' Hb Ha Ht Rb Ra Rt.
  pose proof (quoting_grid cfg ob e b a t He He' Hb Ha Ht) as E. specialize (E ltac:(lia) ltac:(lia) ltac:(lia) ltac:(lia)).
  rewrite E. split; [done|]. split.
  - destruct (dge _ _); [|done]. destruct (Z.ltb_spec (2 * (a - b - 2 * t)) t); [done|]. lia.
  - intros [k Hk] ->. destruct (Z.ltb_spec (2 * (a - b - 2 * t)) t) as [H|H]; split; intros H'; try done; [nia|].
    assert (3 <= k) by nia. nia.
Qed.

Definition demo_book : OrderBook := apply_snapshot (demo_md 2 1000 1010) 5 book_init.

Lemma quotes_on_grid_witness :
  quoting_of shipped_config demo_book = Wide (dyadic 2001 (-1)) (dyadic 2019 (-1)).
Proof.
  apply (quotes_on_grid shipped_config demo_book (-1) 2000 2020 1);
    [unfold grid_exp; lia|unfold grid_exp; lia|vm_compute; reflexivity..|lia|lia|lia
    |by exists 20|vm_compute; reflexivity|lia].
Defined.

(** ** The loop *)
Section Loop.
Context {QO : QueueOps} {QL : QueueLaws} (cfg : EngineConfig) (clock : nat -> Z).
Context {HK : ClockOk clock} {HI : IntervalOk cfg}.

(** What is queued came through the FIX side's checks: instruments in range. *)
Record backlog_ok (s : Engine) : Prop := {
  bo_engine : engine_ok s;
  bo_execs : execs_ok s;
  bo_mds : Forall md_event_ok (q_contents (md_ s))
}.

Lemma side_effect_out sym side q i s s' :
  side_effect cfg sym side q i s s' -> exists cmds, out_cmds s' = out_cmds s ++ cmds.
Proof. intros []. eauto. Qed.

Lemma md_effect_out ev ob s s' :
  md_effect cfg clock ev ob s s' -> exists cmds, out_cmds s' = out_cmds s ++ cmds.
Proof.
  intros [_ _ _ _ _ Hd]. destruct (has_bba ob).
  - destruct Hd as (qb & qs & sa & sb & sc & _ & _ & Ha & Hb & Hs & Hc).
    destruct (side_effect_out _ _ _ _ _ _ Hb) as [c1 O1].
    destruct (side_effect_out _ _ _ _ _ _ Hs) as [c2 O2].
    exists (c1 ++ c2). by rewrite (quiet_out _ _ Hc), O2, O1, (quiet_out _ _ Ha), app_assoc.
  - exists []. by rewrite (quiet_out _ _ Hd), app_nil_r.
Qed.

Lemma iteration_spec s :
  backlog_ok s ->
  exists w s' l, iteration cfg clock s = Ok (w, s') /\ backlog_ok s' /\
    q_contents (exec_ s') = [] /\ q_contents (md_ s') = tail (q_contents (md_ s)) /\
    strat_run cfg clock (AtExec, s) (map LExec (q_contents (exec_ s)) ++ [LTau; l]) (AtExec, s') /\
    match head (q_contents (md_ s)) with
    | Some ev => exists cmds, l = LMd ev cmds
    | None => l = LTau
    end.
Proof.
  intros [Hok He Hm]. unfold iteration.
  rewrite (bind_ok _ _ s (drain_fuel (exec_ s)) s) by done.
  destruct (drain_execs_run cfg clock (drain_fuel (exec_ s)) false s Hok He) as (s1 & Hd & Hok1 & Hc1 & Hm1 & Hb1 & Hr1).
  { unfold drain_fuel. destruct (q_size_law _ _ (exec_ s) kExecCap_legal (eo_exec s Hok)) as [-> _]. lia. }
  rewrite (bind_ok _ _ _ _ _ Hd). destruct (pop_md_spec s1 Hok1) as (q & Hp & Hok2 & Hc2).
  rewrite Hm1 in Hp, Hc2. unfold poll_md.
  destruct (q_contents (md_ s)) as [|ev l] eqn:E; cbn [head tail] in *.
  - eexists _, (set_md s1 q), LTau. unfold bind. rewrite Hp. cbn [res_bind]. split; [reflexivity|].
    split; [split; [done|unfold execs_ok; cbn; by rewrite Hc1|cbn; by rewrite Hc2]|].
    split; [done|]. split; [done|]. split; [|done].
    change [LTau; LTau] with ([LTau] ++ [LTau]). rewrite app_assoc.
    eapply run_snoc; [exact Hr1|]. by apply st_md_none.
  - apply Forall_cons_iff in Hm as [Hev Hm].
    destruct (handle_md_effect cfg clock clock_range interval_range ev (set_md s1 q) Hok2 Hev) as (ob0 & s3 & _ & Hh & E3).
    destruct (md_effect_out _ _ _ _ E3) as [cmds Ho].
    eexists _, s3, (LMd ev cmds). unfold bind. rewrite Hp. cbn [res_bind]. rewrite Hh. cbn [res_bind ret].
    split; [reflexivity|].
    destruct E3 as [Hok3 _ _ Hmd3 Hex3 _].
    assert (Hx3 : q_contents (exec_ s3) = []) by by rewrite Hex3.
    assert (Hm3 : q_contents (md_ s3) = l) by by rewrite Hmd3.
    split; [split; [done|unfold execs_ok; by rewrite Hx3|by rewrite Hm3]|].
    split; [done|]. split; [done|]. split; [|by exists cmds].
    change [LTau; LMd ev cmds] with ([LTau] ++ [LMd ev cmds]). rewrite app_assoc.
    eapply run_snoc; [exact Hr1|]. by eapply st_md.
Qed.

(** C11: an iteration of the loop, on any well-formed backlog, runs without
    undefined behaviour, processes every queued execution report in order
    before it looks at market data, then exactly the oldest market-data event,
    and is an execution of the step machine of the trace theorems. *)
Theorem iteration_execs_first (s : Engine) :
  backlog_ok s ->
  exists w s' l, iteration cfg clock s = Ok (w, s') /\ engine_ok s' /\
    q_contents (exec_ s') = [] /\ q_contents (md_ s') = tail (q_contents (md_ s)) /\
    strat_run cfg clock (AtExec, s) (map LExec (q_contents (exec_ s)) ++ [LTau; l]) (AtExec, s') /\
    match head (q_contents (md_ s)) with
    | Some ev => exists cmds, l = LMd ev cmds
    | None => l = LTau
    end.
Proof.
  intros H. destruct (iteration_spec s H) as (w & s' & l & H1 & [H2 _ _] & H3).
  exists w, s', l. by repeat (split; [done|]).
Qed.

(** The loop clears its backlog: [n] iterations never fault, leave the
    report ring empty and consume the [n] oldest market-data events. *)
Theorem run_loop_clears_backlog (n : nat) (s : Engine) :
  backlog_ok s ->
  exists s', run_loop cfg clock n s = Ok (tt, s') /\ engine_ok s' /\
    q_contents (md_ s') = drop n (q_contents (md_ s)) /\
    ((0 < n)%nat -> q_contents (exec_ s') = []).
Proof.
  assert (H : forall n s, backlog_ok s -> exists s', run_loop cfg clock n s = Ok (tt, s') /\ backlog_ok s' /\
    q_contents (md_ s') = drop n (q_contents (md_ s)) /\
    (q_contents (exec_ s') = [] \/ (n = 0%nat /\ s' = s))).
  { clear n s. intros n. induction n as [|n IH]; intros s Hs; cbn [run_loop].
    - exists s. split; [done|]. split; [done|]. split; [by rewrite drop_0|by right].
    - destruct (iteration_spec s Hs) as (w & s1 & l & H1 & Hs1 & Hx1 & Hm1 & _).
      rewrite (bind_ok _ _ _ _ _ H1). destruct (IH s1 Hs1) as (s' & H2 & Hs' & Hm' & Hx').
      exists s'. split; [done|]. split; [done|]. split.
      + rewrite Hm', Hm1. by destruct (q_contents (md_ s)); cbn [tail drop]; rewrite ?drop_nil.
      + left. destruct Hx' as [|[_ ->]]; done. }
  intros Hs. destruct (H n s Hs) as (s' & H1 & [H2 _ _] & H3 & H4).
  exists s'. split; [done|]. split; [done|]. split; [done|]. intros Hn. destruct H4 as [|[-> _]]; [done|lia].
Qed.
End Loop.

(** ** Cold-path pushes *)
Section Cold.
Context {QO : QueueOps} {QL : QueueLaws} (cfg : EngineConfig) (clock : nat -> Z).

(** The snapshots due at time [t]: the books with a level on some side. *)
Definition book_snapshot (t : Z) (books : list OrderBook) (i : Z) : option BookSnapshot :=
  match zget books i with
  | Some ob => if (n_bids ob =? 0) && (n_asks ob =? 0) then None else Some (snapshot_of t i ob)
  | None => None
  end.

Lemma push_snapshot_take s (p : LmdbPersister) :
  q_ok (snap_ring_ p) ->
  exists b p', push_snapshot s p = Ok (b, p') /\ q_ok (snap_ring_ p') /\ trade_ring_ p' = trade_ring_ p /\
    snaps p' = take (Z.to_nat kSnapCap) (snaps p ++ [s]).
Proof.
  intros Hok. unfold push_snapshot, snaps.
  destruct (q_push_law _ _ (snap_ring_ p) s kSnapCap_legal Hok) as (r & -> & Hr & Hc). cbn [res_bind].
  destruct (q_size_law _ _ (snap_ring_ p) kSnapCap_legal Hok) as [Hs Hb]. rewrite Hs in Hb.
  do 2 eexists. split; [reflexivity|]. cbn [snap_ring_ trade_ring_]. split; [done|]. split; [done|].
  rewrite Hc. destruct (Z.ltb_spec (Z.of_nat (length (q_contents (snap_ring_ p)))) kSnapCap).
  - rewrite take_ge; [done|]. rewrite length_app. cbn [length]. lia.
  - rewrite take_app_le by lia. by rewrite take_ge by lia.
Qed.

Lemma snaps_fit s : engine_ok s -> (length (snaps (db_ s)) <= Z.to_nat kSnapCap)%nat.
Proof.
  intros Hok. unfold snaps.
  destruct (q_size_law _ _ (snap_ring_ (db_ s)) kSnapCap_legal (eo_snap s Hok)) as [E Hb].
  rewrite E in Hb. lia.
Qed.

Lemma push_snapshots_fold t idx s :
  engine_ok s -> Forall (fun i => 0 <= i < kMaxSymbols) idx ->
  exists s', res_fold (push_one_snapshot t) idx s = Ok s' /\ quiet s s' /\ books_ s' = books_ s /\
    snaps (db_ s') = take (Z.to_nat kSnapCap) (snaps (db_ s) ++ omap (book_snapshot t (books_ s)) idx).
Proof.
  intros Hok HF. revert s Hok. induction HF as [|i idx Hi HF IH]; intros s Hok; cbn [res_fold].
  - exists s. split; [done|]. split; [by apply quiet_refl|]. split; [done|]. cbn.
    by rewrite app_nil_r, take_ge by by apply snaps_fit.
  - assert (H1 : exists s1, push_one_snapshot t i s = Ok s1 /\ quiet s s1 /\ books_ s1 = books_ s /\
      snaps (db_ s1) = take (Z.to_nat kSnapCap) (snaps (db_ s) ++ option_list (book_snapshot t (books_ s) i))).
    { unfold push_one_snapshot, book_snapshot.
      destruct (zget_is_Some (books_ s) i) as [ob Hob]; [rewrite (eo_books s Hok); unfold kMaxSymbols in *; lia|].
      rewrite (array_read_ok _ _ _ Hob), Hob. cbn [res_bind]. destruct (_ && _).
      - exists s. split; [done|]. split; [by apply quiet_refl|]. split; [done|]. cbn [option_list option_rect].
        by rewrite app_nil_r, take_ge by by apply snaps_fit.
      - destruct (push_snapshot_take (snapshot_of t i ob) (db_ s) (eo_snap s Hok)) as (b & p' & -> & Hp & Ht & Hs).
        cbn [res_bind]. eexists. split; [reflexivity|]. split; [|by split].
        destruct Hok. split; try done. ok_fields. by rewrite Ht. }
    destruct H1 as (s1 & -> & Hq1 & Hb1 & Hs1). cbn [res_bind].
    destruct (IH s1 (qu_ok _ _ Hq1)) as (s' & -> & Hq' & Hb' & Hs').
    exists s'. split; [done|]. split; [by eapply quiet_trans|]. split; [congruence|].
    rewrite Hs', Hs1, Hb1. cbn [omap list_omap]. destruct (book_snapshot t (books_ s) i) as [x|];
      cbn [option_list option_rect].
    + change (x :: omap ?f idx) with ([x] ++ omap f idx). rewrite (app_assoc _ [x]).
      generalize (snaps (db_ s) ++ [x]) as l. generalize (omap (book_snapshot t (books_ s)) idx) as m.
      intros m l. rewrite !take_app, take_take, Nat.min_id, length_take. do 2 f_equal. lia.
    + by rewrite app_nil_r, (take_ge (snaps (db_ s))) by by apply snaps_fit.
Qed.

(** A periodic snapshot queues for LMDB, in instrument order, one record
    per book that has a level, stamped with the dequeue time, as far as the
    ring of 4096 has room, and leaves orders and books alone. *)
Theorem push_snapshots_queues_books (t : Z) (s : Engine) :
  engine_ok s ->
  exists s', push_snapshots t s = Ok (tt, s') /\ engine_ok s' /\
    snaps (db_ s') = take (Z.to_nat kSnapCap)
      (snaps (db_ s) ++ omap (book_snapshot t (books_ s)) [0; 1; 2; 3; 4; 5; 6; 7]) /\
    oms_ s' = oms_ s /\ out_cmds s' = out_cmds s /\ books_ s' = books_ s.
Proof.
  intros Hok. destruct (push_snapshots_fold t [0; 1; 2; 3; 4; 5; 6; 7] s Hok) as (s' & H & Hq & Hb & Hs).
  { unfold kMaxSymbols. repeat constructor; lia. }
  exists s'. unfold push_snapshots. change (map Z.of_nat _) with [0; 1; 2; 3; 4; 5; 6; 7].
  rewrite H. split; [done|]. split; [apply Hq|]. split; [done|].
  split; [apply Hq|]. split; [by apply quiet_out|done].
Qed.

(** Fills are history.  A filled or partially filled report is queued, as
    it came, for the trade history, room permitting; any other report leaves
    the history and the operations log alone; both move the order slots by
    [on_exec] only. *)
Theorem handle_exec_records_fills (e : ExecEvent) (s : Engine) :
  engine_ok s -> 0 <= x_symbol_id e < kMaxSymbols ->
  exists s', handle_exec e s = Ok (tt, s') /\ engine_ok s' /\ on_exec e (oms_ s) = Ok (oms_ s') /\
    (if decide (x_kind e = ExFilled \/ x_kind e = ExPartFill)
     then trades (db_ s') = if Z.of_nat (length (trades (db_ s))) <? kSnapCap
                            then trades (db_ s) ++ [e] else trades (db_ s)
     else db_ s' = db_ s /\ log_ s' = log_ s).
Proof.
  intros Hok Hr. destruct (handle_exec_effect e s Hok Hr) as (s' & H & [H1 _ H2 _ _ _ _]).
  exists s'. split; [done|]. split; [done|]. split; [done|].
  unfold handle_exec in H. apply bind_inv in H as (a & s1 & Ho & H). cbv beta in Ho.
  rewrite H2 in Ho. cbn [res_bind] in Ho. injection Ho as <- <-.
  destruct (decide (x_kind e = ExFilled \/ x_kind e = ExPartFill)) as [Hk|Hk].
  - replace (bool_decide _ || bool_decide _) with true in H.
    2: { symmetry. apply orb_true_iff. rewrite !bool_decide_eq_true. done. }
    cbn [when] in H. apply bind_inv in H as (a' & s2 & Hp & H). cbv beta in Hp.
    unfold push_trade in Hp. cbn [set_oms db_] in Hp.
    destruct (q_push_law _ _ (trade_ring_ (db_ s)) e kSnapCap_legal (eo_trade s Hok)) as (r & Hpr & Hrk & Hc).
    rewrite Hpr in Hp. cbn [res_bind] in Hp. injection Hp as <- <-. unfold log_record in H.
    apply res_bind_inv in H as ([b [lg m]] & _ & [= <-]). exact Hc.
  - replace (bool_decide _ || bool_decide _) with false in H.
    2: { symmetry. apply orb_false_iff. rewrite !bool_decide_eq_false. tauto. }
    cbn [when] in H. injection H as <-. done.
Qed.
End Cold.

(** ** Witnesses *)

Lemma demo_start_ok : engine_ok (snd demo_start).
Proof. apply engine_init_ok. Qed.

Lemma decide_sends_table_witness :
  exists s', decide_quotes shipped_config demo_clock 2 demo_book 5000000 (snd demo_start) = Ok (tt, s') /\
    out_cmds s' = [new_cmd Buy 1000 5000 2; new_cmd Sell 1010 5001 3].
Proof.
  destruct (decide_sends_table shipped_config demo_clock 2 demo_book 5000000 Quote_zero Quote_zero (snd demo_start))
    as (s' & H & _ & Ho & _); [apply demo_start_ok|reflexivity..|vm_compute; discriminate|].
  exists s'. split; [exact H|]. rewrite Ho. vm_compute. reflexivity.
Defined.

(** Both quotes acknowledged. *)
Definition script_live : list action :=
  [AFeedMd (demo_md 2 1000 1010); ARun; ARun;
   AFeedExec (demo_exec 2 5000 ExNew Buy); AFeedExec (demo_exec 2 5001 ExNew Sell); ARun; ARun].
Definition live_state : @Engine list_ops := snd (demo_final script_live).
Lemma live_state_ok : engine_ok live_state.
Proof. exact (proj2 (demo_run_ok script_live)). Qed.
Definition live_quote (id px : Z) (side : OrdSide) : Quote :=
  mkQuote Live id (c_price (new_cmd side px id 0)) (double_of_Z 1) (zero_chars order_id_size).
Definition narrow_book : OrderBook := apply_snapshot (demo_md 2 1000 1000) 5 book_init.

Lemma narrow_stands_down_witness :
  exists s' cmds, decide_quotes shipped_config demo_clock 2 narrow_book 5000000 live_state = Ok (tt, s') /\
    out_cmds s' = out_cmds live_state ++ cmds /\
    slot_at (oms_ s') 2 Buy = Some (set_state (live_quote 5000 1000 Buy) PendingCancel).
Proof.
  destruct (narrow_stands_down shipped_config demo_clock 2 narrow_book 5000000
    (live_quote 5000 1000 Buy) (live_quote 5001 1010 Sell) live_state) as (s' & cmds & H & Ho & _ & Hs);
    [exact live_state_ok|vm_compute; reflexivity|vm_compute; reflexivity|reflexivity|vm_compute; discriminate
    |right; vm_compute; reflexivity|].
  exists s', cmds. split; [exact H|]. split; [exact Ho|].
  pose proof (Hs Buy (live_quote 5000 1000 Buy) (or_introl (conj eq_refl eq_refl))) as Hb.
  rewrite decide_True in Hb by reflexivity. exact (proj1 Hb).
Defined.

Definition dry_config : EngineConfig :=
  mkConfig (dlit 5 100) (dlit 2 100) dhalf (double_of_Z 1) 5 [] [] [] [] 2 3 9091 [] 1000 true [].

Lemma dry_run_silent_witness :
  exists s', decide_quotes dry_config demo_clock 2 demo_book 5000000 (snd demo_start) = Ok (tt, s') /\
    out_cmds s' = [].
Proof.
  destruct (dry_run_silent dry_config demo_clock 2 demo_book 5000000 (snd demo_start)) as (s' & H & Ho & _);
    [apply demo_start_ok|unfold kMaxSymbols; lia|reflexivity|].
  exists s'. split; [exact H|]. rewrite Ho. reflexivity.
Defined.

(** A backlog of one report and two market-data events. *)
Definition script_backlog : list action :=
  [AFeedExec (demo_exec 2 7 ExNew Buy); AFeedMd (demo_md 2 1000 1010); AFeedMd (demo_md 3 1000 1001)].
Definition backlog_state : @Engine list_ops := snd (demo_final script_backlog).

Lemma backlog_state_ok : backlog_ok backlog_state.
Proof.
  split; [exact (proj2 (demo_run_ok script_backlog))| |].
  - assert (E : q_contents (exec_ backlog_state) = [demo_exec 2 7 ExNew Buy]) by (vm_compute; reflexivity).
    unfold execs_ok. rewrite E. constructor; [|constructor]. cbn. unfold kMaxSymbols. lia.
  - assert (E : q_contents (md_ backlog_state) = [demo_md 2 1000 1010; demo_md 3 1000 1001]) by (vm_compute; reflexivity).
    rewrite E. repeat constructor; cbn; unfold kMaxSymbols; lia.
Qed.

Lemma iteration_execs_first_witness :
  exists w s', iteration shipped_config demo_clock backlog_state = Ok (w, s') /\ length (q_contents (md_ s')) = 1%nat.
Proof.
  destruct (iteration_execs_first shipped_config demo_clock backlog_state) as (w & s' & l & H & _ & _ & Hm & _);
    [apply backlog_state_ok|].
  exists w, s'. split; [exact H|]. rewrite Hm. vm_compute. reflexivity.
Defined.

Lemma run_loop_clears_backlog_witness :
  exists s', run_loop shipped_config demo_clock 2 backlog_state = Ok (tt, s') /\ q_contents (md_ s') = [].
Proof.
  destruct (run_loop_clears_backlog shipped_config demo_clock 2 backlog_state) as (s' & H & _ & Hm & _);
    [apply backlog_state_ok|].
  exists s'. split; [exact H|]. rewrite Hm. vm_compute. reflexivity.
Defined.

Lemma push_snapshots_queues_books_witness :
  exists s', push_snapshots 9 live_state = Ok (tt, s') /\ length (snaps (db_ s')) = 2%nat.
Proof.
  destruct (push_snapshots_queues_books 9 live_state) as (s' & H & _ & Hs & _); [exact live_state_ok|].
  exists s'. split; [exact H|]. rewrite Hs. vm_compute. reflexivity.
Defined.

Lemma handle_exec_records_fills_witness :
  exists s', handle_exec (demo_exec 2 5000 ExFilled Buy) live_state = Ok (tt, s') /\
    trades (db_ s') = [demo_exec 2 5000 ExFilled Buy].
Proof.
  destruct (handle_exec_records_fills (demo_exec 2 5000 ExFilled Buy) live_state) as (s' & H & _ & _ & Ht);
    [exact live_state_ok|cbn; unfold kMaxSymbols; lia|].
  exists s'. split; [exact H|]. rewrite decide_True in Ht by (by left). rewrite Ht. vm_compute. reflexivity.
Defined.
