(* ===== verification/Ledger.v ===== *)
(** * What the strategy thread hands to the others (src/src/strategy/market_maker.hpp)

    A small program logic for the operations of MarketMaker: [leaves P m] says
    that every completed execution of [m] appends the entries of some ledger
    satisfying [P] (commands, log records, fills, book snapshots, latency
    samples) to the shared objects, each ring taking what fits.  Each operation
    gets its ledger by the rules for [ret], [bind] and the shared accesses; the
    system-level accounting of Records is a consequence. *)
From S2P Require Import Prelude.
From S2P Require Import Double.
From S2P Require Import Events.
From S2P Require Import SpscRing.
From S2P Require Import Queue.
From S2P Require Import Text.
From S2P Require Import LatencyHistogram.
From S2P Require Import Metrics.
From S2P Require Import OrderBook.
From S2P Require Import OrderManager.
From S2P Require Import AsyncLogger.
From S2P Require Import Persister.
From S2P Require Import Config.
From S2P Require Import MarketMaker.
From S2P Require Import MarketMakerFacts.
From S2P Require Import StrategySteps.

(** ** Bounded appends *)

(** What a bounded ring holds after a batch is pushed. *)
Definition accept {T} (cap : Z) (held new : list T) : list T := take (Z.to_nat cap) (held ++ new).

Lemma accept_nil {T} cap (l : list T) : Z.of_nat (length l) <= cap -> accept cap l [] = l.
Proof. intros H. unfold accept. rewrite app_nil_r. apply take_ge. lia. Qed.

Lemma accept_app {T} cap (l a b : list T) : accept cap (accept cap l a) b = accept cap l (a ++ b).
Proof.
  unfold accept. set (n := Z.to_nat cap). rewrite app_assoc.
  destruct (decide (n <= length (l ++ a))%nat) as [H|H].
  - rewrite (take_app_le (l ++ a)) by done.
    rewrite (take_app_le (take n (l ++ a))) by (rewrite length_take; lia). rewrite take_take. f_equal. lia.
  - by rewrite (take_ge (l ++ a)) by lia.
Qed.

Lemma accept_one {T} cap (l : list T) x :
  Z.of_nat (length l) <= cap ->
  accept cap l [x] = if Z.of_nat (length l) <? cap then l ++ [x] else l.
Proof.
  intros H. unfold accept. destruct (Z.ltb_spec (Z.of_nat (length l)) cap).
  - apply take_ge. rewrite length_app. cbn. lia.
  - by rewrite take_app_le, take_ge by lia.
Qed.

(** Either everything fits or the ring is full afterwards. *)
Lemma accept_split {T} cap (l new : list T) :
  0 <= cap -> Z.of_nat (length l) <= cap ->
  exists kept, accept cap l new = l ++ kept /\ kept `sublist_of` new /\
    (kept = new \/ Z.of_nat (length (accept cap l new)) = cap).
Proof.
  intros Hc Hl. exists (take (Z.to_nat cap - length l) new). unfold accept.
  rewrite take_app, (take_ge l) by lia. split; [done|]. split; [apply sublist_take|].
  destruct (decide (length new <= Z.to_nat cap - length l)%nat) as [H|H]; [left; by apply take_ge|right].
  rewrite length_app, length_take. lia.
Qed.

(** ** Ledgers *)

Record Ledger := mkLedger {
  ld_cmds : list OrderCmd;
  ld_recs : list LogRecord;
  ld_fills : list ExecEvent;
  ld_snaps : list BookSnapshot;
  ld_waits : list Z;        (* samples of queue_wait *)
  ld_procs : list Z         (* samples of md_processing *)
}.

Definition no_entries : Ledger := mkLedger [] [] [] [] [] [].
Definition ld_app (a b : Ledger) : Ledger :=
  mkLedger (ld_cmds a ++ ld_cmds b) (ld_recs a ++ ld_recs b) (ld_fills a ++ ld_fills b)
    (ld_snaps a ++ ld_snaps b) (ld_waits a ++ ld_waits b) (ld_procs a ++ ld_procs b).

(** The counters the strategy thread never touches. *)
Definition totals (m : Metrics) : list Z :=
  [md_msgs_total m; md_dropped_total m; orders_sent_total m; cancels_sent_total m; execs_total m].

(** Recording a batch of samples in sequence is recording their concatenation. *)
Lemma record_all_app a b h :
  LatencyHistogram.record_all (a ++ b) h =
  res_bind (LatencyHistogram.record_all a h) (LatencyHistogram.record_all b).
Proof.
  revert h. induction a as [|x a IH]; intros h; [done|]. cbn [app LatencyHistogram.record_all].
  destruct (LatencyHistogram.record x h) as [h1|]; cbn [res_bind]; [apply IH|done].
Qed.

Section Ledgers.
Context {QO : QueueOps} {QL : QueueLaws} (cfg : EngineConfig) (clock : nat -> Z).

(** The rings the thread appends to. *)
Record rings_ok (s : Engine) : Prop := {
  ro_out : q_ok (out_ s);
  ro_log : q_ok (log_ring_ (log_ s));
  ro_snap : q_ok (snap_ring_ (db_ s));
  ro_trade : q_ok (trade_ring_ (db_ s))
}.

Lemma engine_rings s : engine_ok s -> rings_ok s.
Proof. intros []. by split. Qed.

Record entered (l : Ledger) (s s' : Engine) : Prop := {
  en_ok : rings_ok s';
  en_out : out_cmds s' = out_cmds s ++ ld_cmds l;
  en_log : queued (log_ s') = accept kLogCap (queued (log_ s)) (ld_recs l);
  en_file : f_ (log_ s') = f_ (log_ s);
  en_trades : trades (db_ s') = accept kSnapCap (trades (db_ s)) (ld_fills l);
  en_snaps : snaps (db_ s') = accept kSnapCap (snaps (db_ s)) (ld_snaps l);
  en_seqs : snap_seq_ (db_ s') = snap_seq_ (db_ s) /\ trade_seq_ (db_ s') = trade_seq_ (db_ s);
  en_totals : totals (metrics_ s') = totals (metrics_ s);
  en_f2 : tick_to_trade (metrics_ s') = tick_to_trade (metrics_ s);
  en_waits : LatencyHistogram.record_all (ld_waits l) (queue_wait (metrics_ s)) = Ok (queue_wait (metrics_ s'));
  en_procs : LatencyHistogram.record_all (ld_procs l) (md_processing (metrics_ s)) = Ok (md_processing (metrics_ s'))
}.

Lemma held_le {c T} {HC : LegalCapacity c} (q : Queue c T) : q_ok q -> Z.of_nat (length (q_contents q)) <= c.
Proof. intros Hq. destruct (q_size_law c T q HC Hq). lia. Qed.

(** Nothing entered: the rings hold what they held. *)
Lemma entered_none s s' :
  rings_ok s -> out_ s' = out_ s -> log_ s' = log_ s -> db_ s' = db_ s ->
  totals (metrics_ s') = totals (metrics_ s) -> tick_to_trade (metrics_ s') = tick_to_trade (metrics_ s) ->
  queue_wait (metrics_ s') = queue_wait (metrics_ s) -> md_processing (metrics_ s') = md_processing (metrics_ s) ->
  entered no_entries s s'.
Proof.
  intros [H1 H2 H3 H4] Ho Hl Hd Ht H5 H6 H7.
  split; [split; by rewrite ?Ho, ?Hl, ?Hd|..]; unfold out_cmds, queued, trades, snaps;
    rewrite ?Ho, ?Hl, ?Hd, ?H6, ?H7; cbn; rewrite ?accept_nil, ?app_nil_r; try done; by apply held_le.
Qed.

Lemma entered_same s : rings_ok s -> entered no_entries s s.
Proof. intros Hok. by apply entered_none. Qed.

Lemma entered_app a b s1 s2 s3 : entered a s1 s2 -> entered b s2 s3 -> entered (ld_app a b) s1 s3.
Proof.
  intros [] []. split; cbn [ld_app ld_cmds ld_recs ld_fills ld_snaps ld_waits ld_procs];
    rewrite <- ?accept_app, ?app_assoc, ?record_all_app; try congruence.
  - destruct en_seqs0, en_seqs1. split; congruence.
  - by rewrite en_waits0.
  - by rewrite en_procs0.
Qed.

(** ** The logic *)

Definition leaves {A} (P : A -> Ledger -> Prop) (m : M Engine A) : Prop :=
  forall s a s', rings_ok s -> m s = Ok (a, s') -> exists l, P a l /\ entered l s s'.

Lemma leaves_weaken {A} (P Q : A -> Ledger -> Prop) m :
  leaves P m -> (forall a l, P a l -> Q a l) -> leaves Q m.
Proof. intros H HPQ s a s' Hok E. destruct (H s a s' Hok E) as (l & HP & He). eauto. Qed.

Lemma leaves_bind {A B} (P : A -> Ledger -> Prop) (Q : B -> Ledger -> Prop) m (f : A -> M Engine B) :
  leaves P m -> (forall a l, P a l -> leaves (fun b l' => Q b (ld_app l l')) (f a)) -> leaves Q (bind m f).
Proof.
  intros Hm Hf s b s2 Hok E. apply bind_inv in E as (a & s1 & E1 & E2).
  destruct (Hm s a s1 Hok E1) as (l1 & HP & He1).
  destruct (Hf a l1 HP s1 b s2 (en_ok _ _ _ He1) E2) as (l2 & HQ & He2).
  exists (ld_app l1 l2). split; [done|by eapply entered_app].
Qed.

(** Operations that enter nothing. *)
Definition silent {A} (m : M Engine A) : Prop := leaves (fun _ l => l = no_entries) m.

Lemma silent_bind {A B} (Q : B -> Ledger -> Prop) (m : M Engine A) (f : A -> M Engine B) :
  silent m -> (forall a, leaves Q (f a)) -> leaves Q (bind m f).
Proof.
  intros Hm Hf. apply (leaves_bind (fun _ l => l = no_entries)); [exact Hm|].
  intros a l ->. eapply leaves_weaken; [apply Hf|]. intros b l H. by destruct l.
Qed.

Lemma leaves_ret {A} (P : A -> Ledger -> Prop) a : P a no_entries -> leaves P (ret a).
Proof. intros HP s b s' Hok [= <- <-]. exists no_entries. split; [done|]. by apply entered_none. Qed.

Lemma leaves_when (P : unit -> Ledger -> Prop) (b : bool) m :
  P tt no_entries -> leaves P m -> leaves P (when b m).
Proof. intros H0 Hm. destruct b; cbn [when]; [done|]. by apply leaves_ret. Qed.

(** A step that leaves the shared objects alone. *)
Lemma silent_step {A} (m : M Engine A) :
  (forall s a s', m s = Ok (a, s') ->
     out_ s' = out_ s /\ log_ s' = log_ s /\ db_ s' = db_ s /\ totals (metrics_ s') = totals (metrics_ s) /\
     tick_to_trade (metrics_ s') = tick_to_trade (metrics_ s) /\
     queue_wait (metrics_ s') = queue_wait (metrics_ s) /\ md_processing (metrics_ s') = md_processing (metrics_ s)) ->
  silent m.
Proof.
  intros H s a s' Hok E. exists no_entries. split; [done|].
  destruct (H s a s' E) as (? & ? & ? & ? & ? & ? & ?). by apply entered_none.
Qed.

(** ** The shared accesses *)

Lemma emit_leaves c :
  leaves (fun (b : bool) l => l = mkLedger (if b then [c] else []) [] [] [] [] []) (emit cfg c).
Proof.
  intros s b s' Hok E. unfold emit in E. destruct (dry_run cfg).
  { injection E as <- <-. exists no_entries. split; [done|]. by apply entered_none. }
  apply res_bind_inv in E as ([b0 q] & Hp & [= <- <-]).
  destruct (q_push_inv (out_ s) c b0 q (ro_out s Hok) Hp) as (Hq & Hc & _).
  eexists. split; [reflexivity|]. pose proof (entered_same s Hok) as [[] ? ? ? ? ? ? ? ? ? ?].
  split; cbn; try done. unfold out_cmds at 1. cbn. rewrite Hc. destruct b0; [done|by rewrite app_nil_r].
Qed.

Lemma log_record_leaves r : leaves (fun _ l => l = mkLedger [] [r] [] [] [] []) (log_record r).
Proof.
  intros s a s' Hok E. unfold log_record in E. apply res_bind_inv in E as ([b [lg m]] & Hl & [= <- <-]).
  eexists. split; [reflexivity|].
  destruct (log_spec r (log_ s) (metrics_ s) (ro_log s Hok)) as (lg' & Hl' & Hlg & Hf & Hq).
  rewrite Hl in Hl'. injection Hl' as _ -> ->.
  pose proof (entered_same s Hok) as [[] ? ? ? ? ? ? ? ? ? ?].
  split; cbn; try (rewrite Hq, accept_one by (apply held_le, Hok)); done.
Qed.

Lemma push_trade_leaves e :
  leaves (fun _ l => l = mkLedger [] [] [e] [] [] [])
    (fun s => res_bind (push_trade e (db_ s)) (fun '(_, db) => Ok (tt, set_db s db))).
Proof.
  intros s a s' Hok E. apply res_bind_inv in E as ([b db] & Hp & [= <- <-]).
  unfold push_trade in Hp. apply res_bind_inv in Hp as ([b' r] & Hp & [= -> <-]).
  destruct (q_push_inv _ e _ _ (ro_trade s Hok) Hp) as (Hq & Hc & Hb). eexists. split; [reflexivity|].
  pose proof (entered_same s Hok) as [[] ? ? ? ? ? ? ? ? ? ?].
  split; cbn; try done. unfold trades at 1. cbn. rewrite Hc, accept_one, Hb; [done|]. apply held_le, Hok.
Qed.

Lemma record_in_wait_leaves r :
  leaves (fun _ l => exists ns, r = Ok ns /\ l = mkLedger [] [] [] [] [ns] [])
    (record_in queue_wait set_queue_wait r).
Proof.
  intros s a s' Hok E. unfold record_in in E. apply res_bind_inv in E as (ns & -> & E).
  apply res_bind_inv in E as (h & Hh & [= <- <-]). eexists. split; [by exists ns|].
  pose proof (entered_same s Hok) as [[] ? ? ? ? ? ? ? ? ? ?].
  split; cbn; try done. by rewrite Hh.
Qed.

Lemma record_in_proc_leaves r :
  leaves (fun _ l => exists ns, r = Ok ns /\ l = mkLedger [] [] [] [] [] [ns])
    (record_in md_processing set_md_processing r).
Proof.
  intros s a s' Hok E. unfold record_in in E. apply res_bind_inv in E as (ns & -> & E).
  apply res_bind_inv in E as (h & Hh & [= <- <-]). eexists. split; [by exists ns|].
  pose proof (entered_same s Hok) as [[] ? ? ? ? ? ? ? ? ? ?].
  split; cbn; try done. by rewrite Hh.
Qed.

Lemma push_one_snapshot_leaves t i s s' :
  rings_ok s -> push_one_snapshot t i s = Ok s' ->
  exists sn, (length sn <= 1)%nat /\ entered (mkLedger [] [] [] sn [] []) s s'.
Proof.
  intros Hok E. unfold push_one_snapshot in E. apply res_bind_inv in E as (ob & _ & E).
  destruct (_ && _).
  { injection E as <-. exists []. split; [cbn; lia|]. by apply entered_none. }
  apply res_bind_inv in E as ([b db] & Hp & [= <-]).
  unfold push_snapshot in Hp. apply res_bind_inv in Hp as ([b' r] & Hp & [= -> <-]).
  destruct (q_push_inv _ _ _ _ (ro_snap s Hok) Hp) as (Hq & Hc & Hb).
  exists [snapshot_of t i ob]. split; [cbn; lia|].
  pose proof (entered_same s Hok) as [[] ? ? ? ? ? ? ? ? ? ?].
  split; cbn; try done. unfold snaps at 1. cbn. rewrite Hc, accept_one, Hb; [done|]. apply held_le, Hok.
Qed.

Lemma push_snapshots_leaves t :
  leaves (fun _ l => l = mkLedger [] [] [] (ld_snaps l) [] [] /\ (length (ld_snaps l) <= 8)%nat) (push_snapshots t).
Proof.
  assert (H : forall ids s s', rings_ok s -> res_fold (push_one_snapshot t) ids s = Ok s' ->
    exists sn, (length sn <= length ids)%nat /\ entered (mkLedger [] [] [] sn [] []) s s').
  { intros ids. induction ids as [|i ids IH]; intros s s' Hok E; cbn [res_fold] in E.
    - injection E as <-. exists []. split; [done|]. by apply entered_none.
    - apply res_bind_inv in E as (s1 & E1 & E2).
      destruct (push_one_snapshot_leaves t i s s1 Hok E1) as (a & Ha & He1).
      destruct (IH s1 s' (en_ok _ _ _ He1) E2) as (b & Hb & He2).
      exists (a ++ b). rewrite length_app. split; [cbn; lia|].
      exact (entered_app _ _ _ _ _ He1 He2). }
  intros s [] s' Hok E. unfold push_snapshots in E. apply res_bind_inv in E as (e & E & [= <-]).
  destruct (H _ s e Hok E) as (sn & Hl & He). eexists. split; [|exact He]. by split.
Qed.
(** ** Quoting *)

(** The log record of a command; a cancellation is logged at the price of the
    quote it cancels. *)
Definition cmd_entry (c : OrderCmd) (r : LogRecord) : Prop :=
  match c_type c with
  | CmdNew =>
      r = mkLogRecord (c_t_decided_ns c) LkOrderNew (c_side c) (c_symbol_id c) (c_price c) (c_qty c)
            (c_cl_ord_id c) (zero_chars text_size)
  | CmdCancel =>
      exists px, r = mkLogRecord (c_t_decided_ns c) LkOrderCxl (c_side c) (c_symbol_id c) px (c_qty c)
                       (c_orig_cl_ord_id c) (zero_chars text_size)
  end.

Record quote_ledger (l : Ledger) : Prop := {
  ql_recs : Forall2 cmd_entry (ld_cmds l) (ld_recs l);
  ql_rest : ld_fills l = [] /\ ld_snaps l = [] /\ ld_waits l = [] /\ ld_procs l = []
}.

Lemma quote_ledger_none : quote_ledger no_entries.
Proof. by repeat split. Qed.

Lemma quote_ledger_app a b : quote_ledger a -> quote_ledger b -> quote_ledger (ld_app a b).
Proof.
  intros [Ha (? & ? & ? & ?)] [Hb (? & ? & ? & ?)]. split; cbn; [by apply Forall2_app|].
  repeat split; by apply app_nil.
Qed.

(** Two operations, one after the other. *)
Lemma quote_seq (m1 m2 : M Engine unit) :
  leaves (fun _ => quote_ledger) m1 -> leaves (fun _ => quote_ledger) m2 -> leaves (fun _ => quote_ledger) (m1 ;;; m2).
Proof.
  intros H1 H2. eapply leaves_bind; [exact H1|]. intros [] l Hl.
  eapply leaves_weaken; [exact H2|]. intros [] l' Hl'. by apply quote_ledger_app.
Qed.

(** A command, and what follows when it was accepted: its record. *)
Lemma emit_entry c r (m : M Engine unit) :
  cmd_entry c r -> leaves (fun _ l => l = mkLedger [] [r] [] [] [] []) m ->
  leaves (fun _ => quote_ledger) (let! pushed := emit cfg c in when pushed m).
Proof.
  intros Hr Hm. eapply leaves_bind; [apply emit_leaves|]. intros [] l ->; cbn [when].
  - eapply leaves_weaken; [exact Hm|]. intros _ l ->. split; [|done]. by constructor.
  - apply leaves_ret. apply quote_ledger_none.
Qed.

Lemma read_slot_silent sym side : silent (read_slot sym side).
Proof. apply silent_step. intros s a s' E. unfold read_slot in E. monad_inv. by cbn. Qed.

Lemma next_id_silent : silent next_cl_ord_id.
Proof. apply silent_step. intros s a s' E. unfold next_cl_ord_id in E. by injection E as <- <-. Qed.

Lemma now_silent : silent (now_ns clock).
Proof. apply silent_step. intros s a s' E. unfold now_ns in E. by injection E as <- <-. Qed.

Lemma write_slot_silent sym side q : silent (write_slot sym side q).
Proof. apply silent_step. intros s a s' E. unfold write_slot, modify in E. by injection E as <- <-. Qed.

Lemma track_silent : silent track_out_queue.
Proof. apply silent_step. intros s a s' E. unfold track_out_queue, modify in E. by injection E as <- <-. Qed.

Lemma cancel_side_leaves sym side t : leaves (fun _ => quote_ledger) (cancel_side cfg clock sym side t).
Proof.
  unfold cancel_side. apply silent_bind; [apply read_slot_silent|]. intros q.
  case_decide; [apply leaves_ret, quote_ledger_none|].
  apply silent_bind; [apply next_id_silent|]. intros id.
  apply silent_bind; [apply now_silent|]. intros now.
  eapply emit_entry; [by exists (q_price q)|].
  apply silent_bind; [apply write_slot_silent|]. intros _. apply log_record_leaves.
Qed.

Lemma requote_leaves sym side px t : leaves (fun _ => quote_ledger) (requote cfg clock sym side px t).
Proof.
  unfold requote. apply silent_bind; [apply read_slot_silent|]. intros q.
  case_decide; [apply leaves_ret, quote_ledger_none|]. case_decide.
  { destruct (already_there _ _ _); [apply leaves_ret, quote_ledger_none|apply cancel_side_leaves]. }
  apply silent_bind; [apply next_id_silent|]. intros id.
  apply silent_bind; [apply now_silent|]. intros now.
  eapply emit_entry; [reflexivity|]. apply silent_bind; [apply write_slot_silent|]. intros _.
  apply silent_bind; [apply track_silent|]. intros _. apply log_record_leaves.
Qed.

Lemma decide_quotes_leaves sym ob t : leaves (fun _ => quote_ledger) (decide_quotes cfg clock sym ob t).
Proof.
  unfold decide_quotes. destruct (dge _ _); [destruct (dlt _ _); [apply leaves_ret, quote_ledger_none|]|].
  - apply quote_seq; apply requote_leaves.
  - apply quote_seq; apply cancel_side_leaves.
Qed.

(** ** Reports and snapshots *)

Definition is_fill (e : ExecEvent) : bool :=
  bool_decide (x_kind e = ExFilled) || bool_decide (x_kind e = ExPartFill).

Definition fill_entry (e : ExecEvent) : LogRecord :=
  mkLogRecord (x_t_recv_ns e) LkExec (x_side e) (x_symbol_id e) (x_last_px e) (x_last_qty e)
    (x_cl_ord_id e) (zero_chars text_size).

(** A fill goes to the trade history and to the log, any other report to
    neither. *)
Lemma handle_exec_leaves e :
  leaves (fun _ l => l = if is_fill e then mkLedger [] [fill_entry e] [e] [] [] [] else no_entries) (handle_exec e).
Proof.
  unfold handle_exec. fold (is_fill e). apply silent_bind.
  { apply silent_step. intros s a s' E. apply res_bind_inv in E as (o & _ & [= <- <-]). done. }
  intros _. destruct (is_fill e); cbn [when]; [|by apply leaves_ret].
  eapply leaves_bind; [apply push_trade_leaves|]. intros _ l ->.
  eapply leaves_weaken; [apply log_record_leaves|]. by intros _ l ->.
Qed.

(** A time measured: a reading of the clock minus an earlier stamp, in range. *)
Definition lapse (t ns : Z) : Prop := (exists k, ns = clock k - t) /\ ns < 2 ^ 63.

(** A snapshot is one sample of each of its two latencies, taken at two
    successive readings of the thread's clock. *)
Record md_ledger (ev : MdEvent) (l : Ledger) : Prop := {
  ml_recs : Forall2 cmd_entry (ld_cmds l) (ld_recs l);
  ml_fills : ld_fills l = [];
  ml_snaps : (length (ld_snaps l) <= 8)%nat;
  ml_waits : exists ns, ld_waits l = [ns] /\ lapse (md_t_recv_ns ev) ns;
  ml_procs : exists ns, ld_procs l = [ns] /\ lapse (md_t_recv_ns ev) ns
}.

Lemma sub64_lapse k t r : sub64 (clock k) t = Ok r -> lapse t r.
Proof.
  unfold sub64, checked64. destruct (_ && _) eqn:E; [|done]. intros [= <-].
  apply andb_true_iff in E as [_ E]. split; [by exists k|]. by apply Z.ltb_lt.
Qed.

Lemma now_value : leaves (fun t l => l = no_entries /\ exists k, t = clock k) (now_ns clock).
Proof.
  intros s a s' Hok E. destruct (now_silent s a s' Hok E) as (l & -> & He).
  exists no_entries. split; [|exact He]. split; [done|]. exists (now_idx s). by injection E as <- _.
Qed.

Lemma md_update_leaves ev :
  leaves (fun _ l => exists w p, lapse (md_t_recv_ns ev) w /\ lapse (md_t_recv_ns ev) p /\ l = mkLedger [] [] [] [] [w] [p])
    (md_update cfg clock ev).
Proof.
  unfold md_update. eapply leaves_bind; [apply now_value|]. intros t l [-> [k1 ->]].
  eapply leaves_bind; [apply record_in_wait_leaves|]. intros _ l (w & Hw & ->). apply sub64_lapse in Hw.
  apply silent_bind.
  { apply silent_step. intros s a s' E. apply res_bind_inv in E as (o & _ & [= <- <-]). done. }
  intros ob0. apply silent_bind.
  { apply silent_step. intros s a s' E. apply res_bind_inv in E as (o & _ & [= <- <-]). done. }
  intros _. eapply leaves_bind; [apply now_value|]. intros t l [-> [k2 ->]].
  eapply leaves_bind; [apply record_in_proc_leaves|]. intros _ l (p & Hp & ->). apply sub64_lapse in Hp.
  apply leaves_ret. by exists w, p.
Qed.

Lemma snapshot_if_due_leaves t :
  leaves (fun _ l => l = mkLedger [] [] [] (ld_snaps l) [] [] /\ (length (ld_snaps l) <= 8)%nat)
    (snapshot_if_due cfg t).
Proof.
  unfold snapshot_if_due. apply silent_bind; [by apply silent_step; intros s a s' [= <- <-]|].
  intros due. apply leaves_when; [split; [done|cbn; lia]|]. apply silent_bind; [|intros _; apply push_snapshots_leaves].
  apply silent_step. intros s a s' E. apply res_bind_inv in E as (o & _ & [= <- <-]). done.
Qed.

Lemma handle_md_leaves ev : leaves (fun _ => md_ledger ev) (handle_md cfg clock ev).
Proof.
  unfold handle_md. eapply leaves_bind; [apply md_update_leaves|]. intros [t ob] l1 (w & p & Hlw & Hlp & ->).
  eapply (leaves_bind (fun _ => quote_ledger)).
  { apply leaves_when; [apply quote_ledger_none|apply decide_quotes_leaves]. }
  intros _ l2 [Hr (Hf & Hs & Hw & Hp)]. eapply leaves_weaken; [apply snapshot_if_due_leaves|].
  intros _ l3 [-> Hl]. split; cbn; rewrite ?Hf, ?Hs, ?Hw, ?Hp, ?app_nil_r; try done; eauto.
Qed.
End Ledgers.

(** ** A step of the thread *)
Section Steps.
Context {QO : QueueOps} {QL : QueueLaws} (cfg : EngineConfig) (clock : nat -> Z).

(** What a step enters, by its label. *)
Definition step_ledger (l : StrategySteps.label) (ld : Ledger) : Prop :=
  match l with
  | LExec e => ld = if is_fill e then mkLedger [] [fill_entry e] [e] [] [] [] else no_entries
  | LMd ev cmds => ld_cmds ld = cmds /\ md_ledger clock ev ld
  | LTau | LEnv => ld = no_entries
  end.

(** A pop from an input ring enters nothing. *)
Lemma pop_entered (s s' : Engine) :
  rings_ok s -> out_ s' = out_ s -> log_ s' = log_ s -> db_ s' = db_ s -> metrics_ s' = metrics_ s ->
  entered no_entries s s'.
Proof. intros Hok Ho Hl Hd Hm. apply entered_none; try done; by rewrite Hm. Qed.

Lemma strat_step_entered p e l p' e' :
  engine_ok e -> l <> LEnv -> strat_step cfg clock (p, e) l (p', e') ->
  exists ld, step_ledger l ld /\ entered ld e e'.
Proof.
  intros Hok Hl Hst. pose proof (engine_rings e Hok) as Hr.
  inversion Hst as [? x s1 ? Hpop Hh|? ? Hpop|? ev s1 ? cmds Hpop Hev Hh Hout|? ? Hpop|]; subst; clear Hst; [| | | |done].
  1, 2: destruct (pop_exec_spec e Hok) as (q & Hp & Hok1 & _); rewrite Hp in Hpop; injection Hpop as _ <-;
    pose proof (pop_entered e (set_exec e q) Hr eq_refl eq_refl eq_refl eq_refl) as He1.
  3, 4: destruct (pop_md_spec e Hok) as (q & Hp & Hok1 & _); rewrite Hp in Hpop; injection Hpop as _ <-;
    pose proof (pop_entered e (set_md e q) Hr eq_refl eq_refl eq_refl eq_refl) as He1.
  - destruct (handle_exec_leaves x _ _ _ (engine_rings _ Hok1) Hh) as (ld & -> & He2).
    pose proof (entered_app _ _ _ _ _ He1 He2) as He. cbn [step_ledger].
    destruct (is_fill x); eexists; (split; [reflexivity|exact He]).
  - exists no_entries. by split.
  - destruct (handle_md_leaves cfg clock ev _ _ _ (engine_rings _ Hok1) Hh) as (ld & Hld & He2).
    exists ld. split.
    + split; [|done]. pose proof (en_out _ _ _ He2) as Ho. rewrite Hout in Ho. by apply app_inv_head in Ho.
    + pose proof (entered_app _ _ _ _ _ He1 He2) as He. by destruct ld.
  - exists no_entries. by split.
Qed.
End Steps.
