(* ===== verification/FixApp.v ===== *)
(** * The QuickFIX boundary (src/src/fix/fix_app.hpp)

    Inbound messages become POD events on the rings, order commands become FIX
    messages.  QuickFIX is not part of the repository: [QuickFix] is the part
    of its interface the handlers call, field accessors that can throw. *)
From S2P Require Import Prelude.
From S2P Require Import Double.
From S2P Require Import Events.
From S2P Require Import SpscRing.
From S2P Require Import Queue.
From S2P Require Import Text.
From S2P Require Import LatencyHistogram.
From S2P Require Import Metrics.
From S2P Require Import OrderManager.
From S2P Require Import Config.
From S2P Require Import MarketMaker.
From Stdlib Require Import Ascii.

(** ** QuickFIX, as the code sees it *)

(** [None] of an option is [isSet(field) == false]; a [Res] is what [get] and
    [getValue] answer or throw. *)
Class QuickFix := {
  SessionID : Type;
  MdMsg : Type;
  MdGroup : Type;
  ErMsg : Type;
  md_symbol : MdMsg -> Res chars;
  md_no_entries : MdMsg -> Res Z;
  md_get_group : MdMsg -> Z -> Res MdGroup;
  g_entry_type : MdGroup -> Res ascii;
  g_entry_px : MdGroup -> option (Res double);
  g_entry_size : MdGroup -> option (Res double);
  er_cl_ord_id : ErMsg -> option chars;
  er_exec_type : ErMsg -> option (Res ascii);
  er_ord_status : ErMsg -> option (Res ascii);
  er_side : ErMsg -> option (Res ascii);
  er_symbol : ErMsg -> option chars;
  er_last_px : ErMsg -> option (Res double);
  er_last_qty : ErMsg -> option (Res double);
  er_leaves_qty : ErMsg -> option (Res double);
  er_order_id : ErMsg -> option chars
}.

(** Inbound application messages, by type: W, 8, and those the application
    does not crack. *)
Inductive FixMessage `{QuickFix} :=
| MarketDataSnapshotFullRefresh (m : MdMsg)
| ExecutionReport (m : ErMsg)
| OtherMessage.

(** Outbound messages, with the fields the code sets (TransactTime, the time of
    construction, is left out). *)
Inductive FixOut :=
| NewOrderSingle (cl_ord_id : chars) (side ord_type : ascii) (account symbol exchange : chars)
    (order_qty price : double) (tif : ascii)
| OrderCancelRequest (cl_ord_id : chars) (side : ascii) (orig_cl_ord_id account symbol exchange : chars)
    (order_qty : double)
| MarketDataRequest (req_id : chars) (sub_type : ascii) (depth : Z) (update_type : Z) (aggregated : bool)
    (entry_types : list ascii) (related : list (chars * chars)).

(** ** FIX constants *)

Definition MDEntryType_BID : ascii := chr 48.
Definition MDEntryType_OFFER : ascii := chr 49.
Definition MDEntryType_TRADE : ascii := chr 50.
Definition ExecType_NEW : ascii := chr 48.
Definition ExecType_CANCELED : ascii := chr 52.
Definition ExecType_REPLACED : ascii := chr 53.
Definition ExecType_REJECTED : ascii := chr 56.
Definition ExecType_TRADE : ascii := chr 70.
Definition OrdStatus_PARTIALLY_FILLED : ascii := chr 49.
Definition Side_BUY : ascii := chr 49.
Definition Side_SELL : ascii := chr 50.
Definition OrdType_LIMIT : ascii := chr 50.
Definition TimeInForce_DAY : ascii := chr 48.
Definition SNAPSHOT_PLUS_UPDATES : ascii := chr 49.
Definition MDUpdateType_FULL_REFRESH : Z := 0.
Definition rofx : chars := chars_of_string "ROFX".

Section FixApp.
Context {QO : QueueOps} {QF : QuickFix}.

(** The member variables, the rings and the metrics they reference, and what
    has been handed to [Session::sendToTarget]. *)
Record FixApp := mkFix {
  symbols_ : list chars;
  n_symbols_ : Z;
  md_seq_ : Z;
  logged_on_ : bool;
  session_id_ : option SessionID;
  password_ : chars;
  md_ring_ : Queue kMdCap MdEvent;
  exec_ring_ : Queue kExecCap ExecEvent;
  fix_metrics : Metrics;
  fix_now : nat;
  outbox : list FixOut
}.

Definition fx_set_seq f x n := mkFix (symbols_ f) (n_symbols_ f) x (logged_on_ f) (session_id_ f)
  (password_ f) (md_ring_ f) (exec_ring_ f) (fix_metrics f) n (outbox f).
Definition fx_set_session f l sid := mkFix (symbols_ f) (n_symbols_ f) (md_seq_ f) l sid
  (password_ f) (md_ring_ f) (exec_ring_ f) (fix_metrics f) (fix_now f) (outbox f).
Definition fx_set_md f r m := mkFix (symbols_ f) (n_symbols_ f) (md_seq_ f) (logged_on_ f) (session_id_ f)
  (password_ f) r (exec_ring_ f) m (fix_now f) (outbox f).
Definition fx_set_exec f r m := mkFix (symbols_ f) (n_symbols_ f) (md_seq_ f) (logged_on_ f) (session_id_ f)
  (password_ f) (md_ring_ f) r m (fix_now f) (outbox f).
Definition fx_set_out f o m n := mkFix (symbols_ f) (n_symbols_ f) (md_seq_ f) (logged_on_ f) (session_id_ f)
  (password_ f) (md_ring_ f) (exec_ring_ f) m n o.

Context (cfg : EngineConfig) (clock : nat -> Z).
(** [FIX::Session::sendToTarget]: it can throw, and its result is ignored. *)
Context (sendToTarget : FixOut -> option SessionID -> Res bool).

(** The constructor: the first kMaxSymbols instruments. *)
Definition symbols_array (l : list chars) : list chars :=
  take (Z.to_nat kMaxSymbols) (l ++ replicate (Z.to_nat kMaxSymbols) []).

Definition fix_init (md : Queue kMdCap MdEvent) (ex : Queue kExecCap ExecEvent) (m : Metrics) : FixApp :=
  mkFix (symbols_array (symbols cfg)) (Z.min (Z.of_nat (length (symbols cfg))) kMaxSymbols)
    0 false None [] md ex m 0 [].

(** [symbol_id]: linear scan of the first [n_symbols_] names. *)
Fixpoint symbol_scan (l : list chars) (i : Z) (s : chars) : Z :=
  match l with
  | [] => UINT32_MAX
  | x :: l => if decide (x = s) then i else symbol_scan l (i + 1) s
  end.

Definition symbol_id (f : FixApp) (s : chars) : Z :=
  symbol_scan (take (Z.to_nat (n_symbols_ f)) (symbols_ f)) 0 s.

(** ** Market data (W) *)

Definition add_bid (ev : MdEvent) (p q : double) : Res MdEvent :=
  res_bind (array_write (md_bid_px ev) (md_n_bids ev) p) (fun bp =>
  res_bind (array_write (md_bid_qty ev) (md_n_bids ev) q) (fun bq =>
  Ok (mkMdEvent (md_t_recv_ns ev) (md_symbol_id ev) (u16 (md_n_bids ev + 1)) (md_n_asks ev)
        bp bq (md_ask_px ev) (md_ask_qty ev) (md_last_px ev) (md_seq ev)))).

Definition add_ask (ev : MdEvent) (p q : double) : Res MdEvent :=
  res_bind (array_write (md_ask_px ev) (md_n_asks ev) p) (fun ap =>
  res_bind (array_write (md_ask_qty ev) (md_n_asks ev) q) (fun aq =>
  Ok (mkMdEvent (md_t_recv_ns ev) (md_symbol_id ev) (md_n_bids ev) (u16 (md_n_asks ev + 1))
        (md_bid_px ev) (md_bid_qty ev) ap aq (md_last_px ev) (md_seq ev)))).

Definition set_last (ev : MdEvent) (p : double) : MdEvent :=
  mkMdEvent (md_t_recv_ns ev) (md_symbol_id ev) (md_n_bids ev) (md_n_asks ev)
    (md_bid_px ev) (md_bid_qty ev) (md_ask_px ev) (md_ask_qty ev) p (md_seq ev).

(** The if-else chain of the loop body. *)
Definition add_entry (ev : MdEvent) (t : ascii) (p q : double) : Res MdEvent :=
  if bool_decide (t = MDEntryType_BID) && (md_n_bids ev <? kMaxDepth) then add_bid ev p q
  else if bool_decide (t = MDEntryType_OFFER) && (md_n_asks ev <? kMaxDepth) then add_ask ev p q
  else if bool_decide (t = MDEntryType_TRADE) then Ok (set_last ev p)
  else Ok ev.

(** A field that is 0 unless set. *)
Definition value_or {A} (d : A) (o : option (Res A)) : Res A :=
  match o with
  | Some r => r
  | None => Ok d
  end.

Fixpoint md_entries (n : nat) (i : Z) (msg : MdMsg) (ev : MdEvent) : Res MdEvent :=
  match n with
  | O => Ok ev
  | S n =>
      res_bind (md_get_group msg i) (fun g =>
      res_bind (g_entry_type g) (fun t =>
      res_bind (value_or dzero (g_entry_px g)) (fun p =>
      res_bind (value_or dzero (g_entry_size g)) (fun q =>
      res_bind (add_entry ev t p q) (fun ev => md_entries n (i + 1) msg ev)))))
  end.

(** Up to the push: None for an instrument that is not ours. *)
Definition md_parse (f : FixApp) (msg : MdMsg) (t0 seq : Z) : Res (option MdEvent) :=
  res_bind (md_symbol msg) (fun s =>
  let id := symbol_id f s in
  if id =? UINT32_MAX then Ok None
  else
    res_bind (md_no_entries msg) (fun count =>
    res_bind (md_entries (Z.to_nat count) 1 msg
      (mkMdEvent t0 id 0 0 zero_levels zero_levels zero_levels zero_levels dzero seq))
      (fun ev => Ok (Some ev)))).

(** A handler's result and the state it leaves, which an exception keeps. *)
Definition onMessage_md (msg : MdMsg) (f : FixApp) : Res unit * FixApp :=
  let t0 := clock (fix_now f) in
  let f := fx_set_seq f (u32 (md_seq_ f + 1)) (S (fix_now f)) in
  match md_parse f msg t0 (md_seq_ f) with
  | Err e => (Err e, f)
  | Ok None => (Ok tt, f)
  | Ok (Some ev) =>
      let m := inc_md_msgs (fix_metrics f) in
      match q_push ev (md_ring_ f) with
      | Err e => (Err e, f)
      | Ok (ok, r) =>
          let m := if ok then m else inc_md_dropped m in
          (Ok tt, fx_set_md f r (track_md_queue m (q_size r)))
      end
  end.

(** ** Execution reports (8) *)

Definition exec_kind_of (t : ascii) : ExecKind :=
  if decide (t = ExecType_NEW) then ExNew
  else if decide (t = ExecType_CANCELED) then ExCanceled
  else if decide (t = ExecType_TRADE) then ExFilled
  else if decide (t = ExecType_REJECTED) then ExRejected
  else if decide (t = ExecType_REPLACED) then ExReplaced
  else ExOther.

(** ExecType, refined by OrdStatus for a trade. *)
Definition exec_kind (msg : ErMsg) : Res ExecKind :=
  res_bind (match er_exec_type msg with
            | Some r => res_bind r (fun t => Ok (exec_kind_of t))
            | None => Ok ExNew
            end) (fun k =>
  match er_ord_status msg with
  | Some r =>
      if decide (k = ExFilled) then
        res_bind r (fun os => Ok (if decide (os = OrdStatus_PARTIALLY_FILLED) then ExPartFill else k))
      else Ok k
  | None => Ok k
  end).

Definition exec_side (msg : ErMsg) : Res OrdSide :=
  match er_side msg with
  | Some r => res_bind r (fun c => Ok (if decide (c = Side_BUY) then Buy else Sell))
  | None => Ok SideZero
  end.

(** The event a report becomes, before it is pushed. *)
Definition exec_parse (f : FixApp) (msg : ErMsg) (t : Z) : Res ExecEvent :=
  let cl := match er_cl_ord_id msg with Some s => strtoull (c_str s) | None => 0 end in
  res_bind (exec_kind msg) (fun kind =>
  res_bind (exec_side msg) (fun side =>
  let sym := match er_symbol msg with Some s => symbol_id f s | None => 0 end in
  res_bind (value_or dzero (er_last_px msg)) (fun lpx =>
  res_bind (value_or dzero (er_last_qty msg)) (fun lqty =>
  res_bind (value_or dzero (er_leaves_qty msg)) (fun lv =>
  let oid := match er_order_id msg with
             | Some s => strncpy (zero_chars order_id_size) s (Z.to_nat (order_id_size - 1))
             | None => zero_chars order_id_size
             end in
  Ok (mkExecEvent t cl kind side sym lpx lqty lv oid)))))).

(** The result of [try_push] is ignored. *)
Definition onMessage_exec (msg : ErMsg) (f : FixApp) : Res unit * FixApp :=
  let t := clock (fix_now f) in
  let f := fx_set_seq f (md_seq_ f) (S (fix_now f)) in
  match exec_parse f msg t with
  | Err e => (Err e, f)
  | Ok ev =>
      match q_push ev (exec_ring_ f) with
      | Err e => (Err e, f)
      | Ok (_, r) => (Ok tt, fx_set_exec f r (inc_execs (fix_metrics f)))
      end
  end.

(** [crack] and the two handlers. *)
Definition crack (msg : FixMessage) (f : FixApp) : Res unit * FixApp :=
  match msg with
  | MarketDataSnapshotFullRefresh m => onMessage_md m f
  | ExecutionReport m => onMessage_exec m f
  | OtherMessage => (Err (Throw UnsupportedMessageType), f)
  end.

(** [fromApp]: every exception is caught and the message dropped. *)
Definition fromApp (msg : FixMessage) (f : FixApp) : Res FixApp :=
  match crack msg f with
  | (Ok _, f) => Ok f
  | (Err (Throw _), f) => Ok f
  | (Err (UB k), _) => Err (UB k)
  end.

(** ** Outbound *)

Definition side_char (s : OrdSide) : ascii := if decide (s = Buy) then Side_BUY else Side_SELL.

(** The C string [snprintf(buf, 24, "%llu", id)] leaves. *)
Definition id_text (id : Z) : chars := fst (snprintf 24 (fmt_llu id)).

Definition order_message (symbol : chars) (c : OrderCmd) : FixOut :=
  match c_type c with
  | CmdNew =>
      NewOrderSingle (id_text (c_cl_ord_id c)) (side_char (c_side c)) OrdType_LIMIT (account cfg)
        symbol rofx (c_qty c) (c_price c) TimeInForce_DAY
  | CmdCancel =>
      OrderCancelRequest (id_text (c_cl_ord_id c)) (side_char (c_side c))
        (id_text (c_orig_cl_ord_id c)) (account cfg) symbol rofx (c_qty c)
  end.

(** [send_order_cmd]: the F2 clock is read after a New has been sent. *)
Definition send_order_cmd (c : OrderCmd) (f : FixApp) : Res FixApp :=
  res_bind (array_read (symbols_ f) (c_symbol_id c)) (fun symbol =>
  let msg := order_message symbol c in
  res_bind (sendToTarget msg (session_id_ f)) (fun _ =>
  let out := outbox f ++ [msg] in
  match c_type c with
  | CmdNew =>
      res_bind (sub64 (clock (fix_now f)) (c_t_md_ns c)) (fun ns =>
      res_bind (LatencyHistogram.record ns (tick_to_trade (fix_metrics f))) (fun h =>
      Ok (fx_set_out f out (inc_orders_sent (set_tick_to_trade (fix_metrics f) h)) (S (fix_now f)))))
  | CmdCancel => Ok (fx_set_out f out (inc_cancels_sent (fix_metrics f)) (fix_now f))
  end)).

(** The loop over the instruments, [i] of them read from the array. *)
Definition market_data_request (f : FixApp) : FixOut :=
  MarketDataRequest (chars_of_string "MM-SUB-1") SNAPSHOT_PLUS_UPDATES (book_depth cfg)
    MDUpdateType_FULL_REFRESH true [MDEntryType_BID; MDEntryType_OFFER; MDEntryType_TRADE]
    (map (fun s => (s, rofx)) (take (Z.to_nat (n_symbols_ f)) (symbols_ f))).

Definition subscribe_market_data (f : FixApp) : Res FixApp :=
  let msg := market_data_request f in
  res_bind (sendToTarget msg (session_id_ f)) (fun _ =>
  Ok (fx_set_out f (outbox f ++ [msg]) (fix_metrics f) (fix_now f))).

(** ** Session events *)

Definition onCreate (sid : SessionID) (f : FixApp) : FixApp := fx_set_session f (logged_on_ f) (Some sid).
Definition onLogon (f : FixApp) : Res FixApp := subscribe_market_data (fx_set_session f true (session_id_ f)).
Definition onLogout (f : FixApp) : FixApp := fx_set_session f false (session_id_ f).

(** [toAdmin]: the credentials added to a Logon, and to no other message. *)
Definition toAdmin (msg_type : chars) (f : FixApp) : option (chars * chars) :=
  if decide (msg_type = chars_of_string "A") then Some (sender cfg, password_ f) else None.

Definition set_password (pw : chars) (f : FixApp) : FixApp :=
  mkFix (symbols_ f) (n_symbols_ f) (md_seq_ f) (logged_on_ f) (session_id_ f) pw
    (md_ring_ f) (exec_ring_ f) (fix_metrics f) (fix_now f) (outbox f).
End FixApp.
