(* ===== verification/FixProps.v ===== *)
(** * The QuickFIX boundary: properties *)
From S2P Require Import Prelude.
From S2P Require Import Double.
From S2P Require Import Events.
From S2P Require Import SpscRing.
From S2P Require Import Queue.
From S2P Require Import Text.
From S2P Require Import LatencyHistogram.
From S2P Require Import Metrics.
From S2P Require Import OrderManager.
From S2P Require Import Config.
From S2P Require Import MarketMaker.
From S2P Require Import MarketMakerFacts.
From S2P Require Import FixApp.
From Stdlib Require Import Ascii.

(** ** The instruments *)

Lemma symbol_scan_spec l i s :
  0 <= i -> i + Z.of_nat (length l) <= kMaxSymbols ->
  (exists k, (l !! k = Some s) /\ symbol_scan l i s = i + Z.of_nat k /\ (k < length l)%nat /\
     forall j, (j < k)%nat -> l !! j <> Some s) \/
  ((s ∉ l) /\ symbol_scan l i s = UINT32_MAX).
Proof.
  revert i. induction l as [|x l IH]; intros i Hi Hl; cbn [symbol_scan length] in *.
  - right. split; [apply not_elem_of_nil|done].
  - case_decide as Hx.
    + left. exists 0%nat. subst. split; [done|]. split; [lia|]. split; [lia|]. lia.
    + destruct (IH (i + 1)) as [(k & Hk & He & Hlt & Hj)|(Hn & He)]; [lia|lia| |].
      * left. exists (S k). split; [done|]. split; [lia|]. split; [lia|].
        intros [|j] Hjk; [by intros [= ->]|apply Hj; lia].
      * right. split; [|done]. intros [->|?]%elem_of_cons; done.
Qed.

(** What the handlers need of the application object. *)
Section Ok.
Context {QO : QueueOps} {QL : QueueLaws} {QF : QuickFix}.

Definition ours (f : FixApp) : list chars := take (Z.to_nat (n_symbols_ f)) (symbols_ f).

Record fix_shape (f : FixApp) : Prop := {
  fs_len : length (symbols_ f) = Z.to_nat kMaxSymbols;
  fs_n : 0 <= n_symbols_ f <= kMaxSymbols
}.

Lemma symbols_array_length l : length (symbols_array l) = Z.to_nat kMaxSymbols.
Proof. unfold symbols_array. rewrite length_take, length_app, length_replicate. lia. Qed.

Lemma fix_init_shape cfg md ex m : fix_shape (fix_init cfg md ex m).
Proof. split; cbn [symbols_ n_symbols_ fix_init]; [apply symbols_array_length|unfold kMaxSymbols; lia]. Qed.

Lemma symbol_id_cases f s :
  fix_shape f ->
  (exists k, (ours f !! k = Some s) /\ symbol_id f s = Z.of_nat k /\ 0 <= symbol_id f s < kMaxSymbols /\
     forall j, (j < k)%nat -> ours f !! j <> Some s) \/
  ((s ∉ ours f) /\ symbol_id f s = UINT32_MAX).
Proof.
  intros [Hl Hn]. unfold symbol_id. fold (ours f).
  assert (Hlen : Z.of_nat (length (ours f)) <= kMaxSymbols).
  { unfold ours. rewrite length_take. unfold kMaxSymbols in *. lia. }
  destruct (symbol_scan_spec (ours f) 0 s) as [(k & Hk & He & Hlt & Hj)|H]; [lia|lia| |by right].
  left. exists k. split; [done|]. split; [lia|]. split; [lia|done].
Qed.

(** An index the names give: that of the first instrument of its name. *)
Definition first_named (f : FixApp) (i : Z) : Prop :=
  0 <= i < n_symbols_ f /\ symbol_id f (default [] (zget (symbols_ f) i)) = i.

Lemma symbol_id_first f s : fix_shape f -> symbol_id f s <> UINT32_MAX -> first_named f (symbol_id f s).
Proof.
  intros Hf Hs. destruct (symbol_id_cases f s Hf) as [(k & Hk & E & Hr & _)|[_ ?]]; [|done].
  assert (Hlt : Z.of_nat k < n_symbols_ f).
  { apply lookup_lt_Some in Hk. unfold ours in Hk. rewrite length_take in Hk. pose proof (fs_n _ Hf). lia. }
  rewrite E. split; [lia|]. unfold ours in Hk. apply lookup_take_Some in Hk as [Hk _].
  by rewrite zget_nat, Hk.
Qed.
End Ok.

(** ** Market data: the event a list of entries denotes *)

(** An entry: type, price and size, 0 where a field is not set. *)
Definition entry : Type := ascii * double * double.
Definition e_type (e : entry) : ascii := e.1.1.
Definition e_px (e : entry) : double := e.1.2.
Definition e_qty (e : entry) : double := e.2.

Definition pad_levels (l : list double) : list double := take (Z.to_nat kMaxDepth) (l ++ zero_levels).

Definition entries_of (t : ascii) (es : list entry) : list entry :=
  filter (fun e => e_type e = t) es.

Definition depth_of (l : list entry) : Z := Z.min (Z.of_nat (length l)) kMaxDepth.

(** The event with these bids, offers and trades, in message order. *)
Definition event_with (t0 id seq : Z) (bids asks trades : list entry) : MdEvent :=
  mkMdEvent t0 id (depth_of bids) (depth_of asks)
    (pad_levels (map e_px bids)) (pad_levels (map e_qty bids))
    (pad_levels (map e_px asks)) (pad_levels (map e_qty asks))
    (default dzero (list.last (map e_px trades))) seq.

(** The first five bids and offers, the last trade. *)
Definition event_of (t0 id seq : Z) (es : list entry) : MdEvent :=
  event_with t0 id seq (entries_of MDEntryType_BID es) (entries_of MDEntryType_OFFER es)
    (entries_of MDEntryType_TRADE es).

Lemma pad_levels_length l : length (pad_levels l) = Z.to_nat kMaxDepth.
Proof. unfold pad_levels, zero_levels. rewrite length_take, length_app, length_replicate. lia. Qed.

Lemma pad_levels_write l x :
  Z.of_nat (length l) < kMaxDepth ->
  array_write (pad_levels l) (Z.of_nat (length l)) x = Ok (pad_levels (l ++ [x])).
Proof.
  intros H. unfold array_write.
  rewrite (proj2 (in_bounds_spec _ _)) by (rewrite pad_levels_length; lia).
  rewrite Nat2Z.id. f_equal. unfold pad_levels. change (Z.to_nat kMaxDepth) with 5%nat.
  assert (length l < 5)%nat by (unfold kMaxDepth in H; lia).
  rewrite !take_app, <- app_assoc. cbn [app]. rewrite !take_ge by (cbn; lia).
  rewrite insert_app_r_alt by lia. rewrite Nat.sub_diag, length_app. cbn [length].
  destruct l as [|a [|b [|c [|d [|]]]]]; cbn in *; try done; lia.
Qed.

Lemma pad_levels_full l x : kMaxDepth <= Z.of_nat (length l) -> pad_levels (l ++ [x]) = pad_levels l.
Proof. intros H. unfold pad_levels. rewrite !take_app_le by (rewrite ?length_app; lia). done. Qed.

Lemma entries_of_snoc t es e :
  entries_of t (es ++ [e]) = entries_of t es ++ (if decide (e_type e = t) then [e] else []).
Proof. unfold entries_of. rewrite list.filter_app. f_equal. Qed.

(** *** One more level on a side *)

Lemma depth_room l : (depth_of l <? kMaxDepth) = (Z.of_nat (length l) <? kMaxDepth).
Proof.
  unfold depth_of. destruct (Z.ltb_spec (Z.of_nat (length l)) kMaxDepth);
    [apply Z.ltb_lt|apply Z.ltb_ge]; lia.
Qed.

Lemma depth_grow l e :
  Z.of_nat (length l) < kMaxDepth -> u16 (depth_of l + 1) = depth_of (l ++ [e]).
Proof.
  intros H. unfold depth_of, u16. rewrite length_app. cbn [length]. unfold kMaxDepth in *.
  rewrite Z.mod_small; lia.
Qed.

Lemma depth_full l e : kMaxDepth <= Z.of_nat (length l) -> depth_of (l ++ [e]) = depth_of l.
Proof. intros H. unfold depth_of. rewrite length_app. cbn [length]. lia. Qed.

Lemma level_write (f : entry -> double) l e :
  Z.of_nat (length l) < kMaxDepth ->
  array_write (pad_levels (map f l)) (depth_of l) (f e) = Ok (pad_levels (map f (l ++ [e]))).
Proof.
  intros H. unfold depth_of. rewrite Z.min_l by lia.
  pose proof (pad_levels_write (map f l) (f e)) as Hw. rewrite length_map in Hw.
  rewrite Hw by done. by rewrite map_app.
Qed.

Lemma level_full (f : entry -> double) l e :
  kMaxDepth <= Z.of_nat (length l) -> pad_levels (map f (l ++ [e])) = pad_levels (map f l).
Proof. intros H. rewrite map_app. apply pad_levels_full. by rewrite length_map. Qed.

Section Event.
Context (t0 id seq : Z) (bids asks trades : list entry).
Let ev := event_with t0 id seq bids asks trades.

Lemma add_bid_room t p q :
  Z.of_nat (length bids) < kMaxDepth ->
  add_bid ev p q = Ok (event_with t0 id seq (bids ++ [(t, p, q)]) asks trades).
Proof.
  intros H. unfold add_bid, ev, event_with. cbn [md_bid_px md_bid_qty md_n_bids].
  pose proof (level_write e_px bids (t, p, q) H) as H1. cbn [e_px fst snd] in H1.
  pose proof (level_write e_qty bids (t, p, q) H) as H2. cbn [e_qty snd] in H2.
  rewrite H1. cbn [res_bind]. rewrite H2. cbn [res_bind]. by rewrite (depth_grow _ (t, p, q) H).
Qed.

Lemma add_ask_room t p q :
  Z.of_nat (length asks) < kMaxDepth ->
  add_ask ev p q = Ok (event_with t0 id seq bids (asks ++ [(t, p, q)]) trades).
Proof.
  intros H. unfold add_ask, ev, event_with. cbn [md_ask_px md_ask_qty md_n_asks].
  pose proof (level_write e_px asks (t, p, q) H) as H1. cbn [e_px fst snd] in H1.
  pose proof (level_write e_qty asks (t, p, q) H) as H2. cbn [e_qty snd] in H2.
  rewrite H1. cbn [res_bind]. rewrite H2. cbn [res_bind]. by rewrite (depth_grow _ (t, p, q) H).
Qed.

Lemma event_n_bids : md_n_bids (event_with t0 id seq bids asks trades) = depth_of bids.
Proof. done. Qed.
Lemma event_n_asks : md_n_asks (event_with t0 id seq bids asks trades) = depth_of asks.
Proof. done. Qed.

Lemma bids_full e :
  kMaxDepth <= Z.of_nat (length bids) -> event_with t0 id seq (bids ++ [e]) asks trades = ev.
Proof. intros H. unfold ev, event_with. by rewrite depth_full, !level_full. Qed.

Lemma asks_full e :
  kMaxDepth <= Z.of_nat (length asks) -> event_with t0 id seq bids (asks ++ [e]) trades = ev.
Proof. intros H. unfold ev, event_with. by rewrite depth_full, !level_full. Qed.

Lemma add_trade t p q : set_last ev p = event_with t0 id seq bids asks (trades ++ [(t, p, q)]).
Proof. unfold set_last, ev, event_with. cbn. rewrite map_app. cbn [map]. by rewrite last_snoc. Qed.
End Event.

Lemma entry_types_differ :
  MDEntryType_BID <> MDEntryType_OFFER /\ MDEntryType_BID <> MDEntryType_TRADE /\
  MDEntryType_OFFER <> MDEntryType_TRADE.
Proof. repeat split; intros H; by apply (f_equal code) in H. Qed.

(** One iteration of the entry loop extends the denoted event. *)
Lemma add_entry_event t0 id seq es t p q :
  add_entry (event_of t0 id seq es) t p q = Ok (event_of t0 id seq (es ++ [(t, p, q)])).
Proof.
  destruct entry_types_differ as (N1 & N2 & N3). unfold add_entry, event_of.
  rewrite event_n_bids, event_n_asks, !entries_of_snoc, !depth_room. cbn [e_type fst].
  destruct (decide (t = MDEntryType_BID)) as [->|Hb].
  - rewrite bool_decide_true, !(bool_decide_false (MDEntryType_BID = _)) by done.
    rewrite !decide_False, !app_nil_r by done. cbn [andb].
    destruct (Z.ltb_spec (Z.of_nat (length (entries_of MDEntryType_BID es))) kMaxDepth) as [H|H].
    + by apply add_bid_room.
    + by rewrite bids_full.
  - rewrite bool_decide_false by done. cbn [andb]. rewrite app_nil_r.
    destruct (decide (t = MDEntryType_OFFER)) as [->|Ho].
    + rewrite bool_decide_true, (bool_decide_false (MDEntryType_OFFER = _)) by done.
      rewrite decide_False, app_nil_r by done. cbn [andb].
      destruct (Z.ltb_spec (Z.of_nat (length (entries_of MDEntryType_OFFER es))) kMaxDepth) as [H|H].
      * by apply add_ask_room.
      * by rewrite asks_full.
    + rewrite bool_decide_false by done. cbn [andb]. rewrite app_nil_r.
      destruct (decide (t = MDEntryType_TRADE)) as [->|Ht].
      * rewrite bool_decide_true by done. f_equal. apply add_trade.
      * rewrite bool_decide_false by done. by rewrite app_nil_r.
Qed.

(** ** Handlers *)
Section Handlers.
Context {QO : QueueOps} {QL : QueueLaws} {QF : QuickFix} (clock : nat -> Z).

(** The message's entries, as the accessors show them. *)
Definition decodes (msg : MdMsg) (es : list entry) : Prop :=
  md_no_entries msg = Ok (Z.of_nat (length es)) /\
  forall k e, es !! k = Some e ->
    exists g, md_get_group msg (Z.of_nat k + 1) = Ok g /\ g_entry_type g = Ok (e_type e) /\
      value_or dzero (g_entry_px g) = Ok (e_px e) /\ value_or dzero (g_entry_size g) = Ok (e_qty e).

Lemma md_entries_event msg t0 id seq pre es :
  (forall k e, (pre ++ es) !! k = Some e ->
    exists g, md_get_group msg (Z.of_nat k + 1) = Ok g /\ g_entry_type g = Ok (e_type e) /\
      value_or dzero (g_entry_px g) = Ok (e_px e) /\ value_or dzero (g_entry_size g) = Ok (e_qty e)) ->
  md_entries (length es) (Z.of_nat (length pre) + 1) msg (event_of t0 id seq pre)
  = Ok (event_of t0 id seq (pre ++ es)).
Proof.
  revert pre. induction es as [|e es IH]; intros pre H; cbn [length md_entries].
  - by rewrite app_nil_r.
  - destruct (H (length pre) e) as (g & Hg & Ht & Hp & Hq); [by rewrite list_lookup_middle|].
    rewrite Hg. cbn [res_bind]. rewrite Ht. cbn [res_bind]. rewrite Hp. cbn [res_bind].
    rewrite Hq. cbn [res_bind]. rewrite add_entry_event. cbn [res_bind].
    destruct e as [[t p] q]. cbn [e_type e_px e_qty fst snd].
    specialize (IH (pre ++ [(t, p, q)])). rewrite <- app_assoc in IH. cbn [app] in IH.
    rewrite <- (IH H), length_app. cbn [length]. f_equal. lia.
Qed.

Lemma event_of_nil t0 id seq :
  event_of t0 id seq [] = mkMdEvent t0 id 0 0 zero_levels zero_levels zero_levels zero_levels dzero seq.
Proof. reflexivity. Qed.

Lemma md_parse_event f msg t0 seq s es :
  fix_shape f -> md_symbol msg = Ok s -> s ∈ ours f -> decodes msg es ->
  md_parse f msg t0 seq = Ok (Some (event_of t0 (symbol_id f s) seq es)).
Proof.
  intros Hf Hs Hin [Hn He]. unfold md_parse. rewrite Hs. cbn [res_bind].
  destruct (symbol_id_cases f s Hf) as [(k & _ & _ & Hr & _)|[Hno _]]; [|done].
  destruct (Z.eqb_spec (symbol_id f s) UINT32_MAX) as [E|E]; [unfold UINT32_MAX, kMaxSymbols in *; lia|].
  rewrite Hn. cbn [res_bind]. rewrite Nat2Z.id, <- event_of_nil.
  rewrite (md_entries_event msg _ _ _ [] es He). done.
Qed.

(** *** What every queued event satisfies *)

Record md_pushed (ev : MdEvent) : Prop := {
  mp_sym : 0 <= md_symbol_id ev < kMaxSymbols;
  mp_nb : 0 <= md_n_bids ev <= kMaxDepth;
  mp_na : 0 <= md_n_asks ev <= kMaxDepth;
  mp_bp : levels_ok (md_bid_px ev);
  mp_bq : levels_ok (md_bid_qty ev);
  mp_ap : levels_ok (md_ask_px ev);
  mp_aq : levels_ok (md_ask_qty ev)
}.

(** The accessors throw C++ exceptions and nothing else. *)
Definition throws_only {A} (r : Res A) : Prop := forall k, r <> Err (UB k).

Class QuickFixLaws : Prop := {
  law_symbol : forall m, throws_only (md_symbol m);
  law_count : forall m, throws_only (md_no_entries m);
  law_group : forall m i, throws_only (md_get_group m i);
  law_type : forall g, throws_only (g_entry_type g);
  law_px : forall g r, g_entry_px g = Some r -> throws_only r;
  law_size : forall g r, g_entry_size g = Some r -> throws_only r;
  law_exec : forall m r, er_exec_type m = Some r -> throws_only r;
  law_status : forall m r, er_ord_status m = Some r -> throws_only r;
  law_side : forall m r, er_side m = Some r -> throws_only r;
  law_last_px : forall m r, er_last_px m = Some r -> throws_only r;
  law_last_qty : forall m r, er_last_qty m = Some r -> throws_only r;
  law_leaves : forall m r, er_leaves_qty m = Some r -> throws_only r
}.
Context {QFL : QuickFixLaws}.

Lemma throws_ok {A} (a : A) : throws_only (Ok a).
Proof. by intros k. Qed.

Lemma throws_bind {A B} (r : Res A) (k : A -> Res B) :
  throws_only r -> (forall a, r = Ok a -> throws_only (k a)) -> throws_only (res_bind r k).
Proof. intros H Hk u. destruct r as [a|f]; cbn; [by apply Hk|]. intros [= ->]. by apply (H u). Qed.

Lemma throws_value_or {A} (d : A) o : (forall r, o = Some r -> throws_only r) -> throws_only (value_or d o).
Proof. intros H. destruct o; cbn; [by apply H|apply throws_ok]. Qed.

Lemma array_write_len (l l' : list double) i x : array_write l i x = Ok l' -> length l' = length l.
Proof. unfold array_write. destruct (in_bounds l i); [|done]. intros [= <-]. apply length_insert. Qed.

Lemma array_write_levels (l : list double) i x :
  levels_ok l -> 0 <= i < kMaxDepth -> exists l', array_write l i x = Ok l' /\ levels_ok l'.
Proof.
  intros Hl Hi. unfold levels_ok in *. rewrite array_write_ok by (rewrite Hl; lia).
  eexists. split; [done|]. by rewrite length_zset.
Qed.

Lemma u16_grow n : 0 <= n < kMaxDepth -> 0 <= u16 (n + 1) <= kMaxDepth.
Proof. intros H. unfold u16, kMaxDepth in *. rewrite Z.mod_small; lia. Qed.

(** The loop never writes past the fifth level, whatever the message. *)
Lemma add_entry_pushed ev t p q :
  md_pushed ev -> exists ev', add_entry ev t p q = Ok ev' /\ md_pushed ev' /\
    md_t_recv_ns ev' = md_t_recv_ns ev.
Proof.
  intros [? ? ? Hbp Hbq Hap Haq]. unfold add_entry.
  destruct (bool_decide _ && (md_n_bids ev <? kMaxDepth)) eqn:Eb.
  - apply andb_true_iff in Eb as [_ Eb%Z.ltb_lt]. unfold add_bid.
    destruct (array_write_levels (md_bid_px ev) (md_n_bids ev) p Hbp) as (bp & -> & ?); [lia|]. cbn [res_bind].
    destruct (array_write_levels (md_bid_qty ev) (md_n_bids ev) q Hbq) as (bq & -> & ?); [lia|]. cbn [res_bind].
    eexists. split; [done|]. split; [|done]. split; try done. apply u16_grow. cbn. lia.
  - destruct (bool_decide _ && (md_n_asks ev <? kMaxDepth)) eqn:Ea.
    + apply andb_true_iff in Ea as [_ Ea%Z.ltb_lt]. unfold add_ask.
      destruct (array_write_levels (md_ask_px ev) (md_n_asks ev) p Hap) as (ap & -> & ?); [lia|]. cbn [res_bind].
      destruct (array_write_levels (md_ask_qty ev) (md_n_asks ev) q Haq) as (aq & -> & ?); [lia|]. cbn [res_bind].
      eexists. split; [done|]. split; [|done]. split; try done. apply u16_grow. cbn. lia.
    + destruct (bool_decide (t = MDEntryType_TRADE)); eexists; (split; [done|]); (split; [by split|done]).
Qed.

Lemma md_entries_pushed n i msg ev :
  md_pushed ev ->
  throws_only (md_entries n i msg ev) /\
  forall ev', md_entries n i msg ev = Ok ev' -> md_pushed ev' /\ md_t_recv_ns ev' = md_t_recv_ns ev.
Proof.
  revert i ev. induction n as [|n IH]; intros i ev Hev; cbn [md_entries].
  - split; [apply throws_ok|]. by intros ev' [= <-].
  - split.
    + apply throws_bind; [apply law_group|]. intros g _.
      apply throws_bind; [apply law_type|]. intros t _.
      apply throws_bind; [apply throws_value_or, law_px|]. intros p _.
      apply throws_bind; [apply throws_value_or, law_size|]. intros q _.
      destruct (add_entry_pushed ev t p q Hev) as (ev1 & -> & H1 & _). cbn [res_bind]. by apply IH.
    + intros ev' H. apply res_bind_inv in H as (g & _ & H). apply res_bind_inv in H as (t & _ & H).
      apply res_bind_inv in H as (p & _ & H). apply res_bind_inv in H as (q & _ & H).
      destruct (add_entry_pushed ev t p q Hev) as (ev1 & E & H1 & Ht). rewrite E in H. cbn [res_bind] in H.
      destruct (IH (i + 1) ev1 H1) as [_ H2]. destruct (H2 ev' H) as [? ?]. split; [done|congruence].
Qed.

Lemma md_parse_pushed f msg t0 seq :
  fix_shape f ->
  throws_only (md_parse f msg t0 seq) /\
  forall ev, md_parse f msg t0 seq = Ok (Some ev) -> md_pushed ev /\ md_t_recv_ns ev = t0.
Proof.
  intros Hf. unfold md_parse.
  assert (Hid : forall s, symbol_id f s <> UINT32_MAX ->
    md_pushed (mkMdEvent t0 (symbol_id f s) 0 0 zero_levels zero_levels zero_levels zero_levels dzero seq)).
  { intros s Hs. destruct (symbol_id_cases f s Hf) as [(k & _ & _ & Hr & _)|[_ E]]; [|done].
    split; cbn; try done; unfold kMaxDepth; lia. }
  split.
  - apply throws_bind; [apply law_symbol|]. intros s _. destruct (Z.eqb_spec (symbol_id f s) UINT32_MAX); [apply throws_ok|].
    apply throws_bind; [apply law_count|]. intros count _.
    apply throws_bind; [|intros; apply throws_ok]. by apply md_entries_pushed, Hid.
  - intros ev H. apply res_bind_inv in H as (s & _ & H).
    destruct (Z.eqb_spec (symbol_id f s) UINT32_MAX) as [|Hs]; [done|].
    apply res_bind_inv in H as (n & _ & H). apply res_bind_inv in H as (ev1 & H & [= <-]).
    apply (md_entries_pushed _ _ _ _ (Hid s Hs)) in H. done.
Qed.

(** Only a snapshot of one of our instruments is queued. *)
Lemma add_entry_symbol ev t p q ev' : add_entry ev t p q = Ok ev' -> md_symbol_id ev' = md_symbol_id ev.
Proof.
  unfold add_entry, add_bid, add_ask. repeat case_match; intros H'; try by injection H' as <-.
  all: apply res_bind_inv in H' as (? & _ & H'); apply res_bind_inv in H' as (? & _ & H'); by injection H' as <-.
Qed.

Lemma md_entries_symbol n i msg ev ev' : md_entries n i msg ev = Ok ev' -> md_symbol_id ev' = md_symbol_id ev.
Proof.
  revert i ev. induction n as [|n IH]; intros i ev H; cbn [md_entries] in H; [by injection H as <-|].
  do 4 (apply res_bind_inv in H as (? & _ & H)). apply res_bind_inv in H as (ev1 & E & H).
  rewrite (IH _ _ H). by eapply add_entry_symbol.
Qed.

Lemma md_parse_known f msg t0 seq ev :
  fix_shape f -> md_parse f msg t0 seq = Ok (Some ev) -> first_named f (md_symbol_id ev).
Proof.
  intros Hf H. unfold md_parse in H. apply res_bind_inv in H as (s & _ & H).
  destruct (Z.eqb_spec (symbol_id f s) UINT32_MAX) as [|Hs]; [done|].
  apply res_bind_inv in H as (n & _ & H). apply res_bind_inv in H as (ev1 & H & [= <-]).
  rewrite (md_entries_symbol _ _ _ _ _ H). cbn [md_symbol_id]. by apply symbol_id_first.
Qed.

Lemma exec_parse_throws f msg t : throws_only (exec_parse f msg t).
Proof.
  unfold exec_parse. apply throws_bind.
  { unfold exec_kind. apply throws_bind.
    - destruct (er_exec_type msg) as [r|] eqn:E; [|apply throws_ok].
      apply throws_bind; [by apply (law_exec msg)|intros; apply throws_ok].
    - intros k _. destruct (er_ord_status msg) as [r|] eqn:E; [|apply throws_ok].
      case_decide; [|apply throws_ok].
      apply throws_bind; [by apply (law_status msg)|intros; apply throws_ok]. }
  intros k _. apply throws_bind.
  { unfold exec_side. destruct (er_side msg) as [r|] eqn:E; [|apply throws_ok].
    apply throws_bind; [by apply (law_side msg)|intros; apply throws_ok]. }
  intros s _. apply throws_bind; [apply throws_value_or, law_last_px|]. intros lp _.
  apply throws_bind; [apply throws_value_or, law_last_qty|]. intros lq _.
  apply throws_bind; [apply throws_value_or, law_leaves|]. intros lv _. apply throws_ok.
Qed.

(** The application between two messages. *)
Record fix_ok (f : FixApp) : Prop := {
  fo_shape : fix_shape f;
  fo_md : q_ok (md_ring_ f);
  fo_exec : q_ok (exec_ring_ f);
  fo_events : Forall md_pushed (q_contents (md_ring_ f))
}.

(** What every queued report satisfies: its index is one of ours, or UINT32_MAX
    for a name that is not, and its order id is terminated in its array. *)
Record exec_pushed (ev : ExecEvent) : Prop := {
  xp_sym : 0 <= x_symbol_id ev < kMaxSymbols \/ x_symbol_id ev = UINT32_MAX;
  xp_id : in_u64 (x_cl_ord_id ev);
  xp_oid_len : length (x_order_id ev) = Z.to_nat order_id_size;
  xp_oid_end : x_order_id ev !! (Z.to_nat order_id_size - 1)%nat = Some zero
}.

(** The application with everything it has queued. *)
Record queues_ok (f : FixApp) : Prop := {
  qo_fix : fix_ok f;
  qo_reports : Forall exec_pushed (q_contents (exec_ring_ f))
}.

Lemma exec_parse_pushed f msg t ev : fix_shape f -> exec_parse f msg t = Ok ev -> exec_pushed ev.
Proof.
  intros Hf H. unfold exec_parse in H. do 5 (apply res_bind_inv in H as (? & _ & H)).
  injection H as <-. split; cbn [x_cl_ord_id x_symbol_id x_order_id].
  - destruct (er_symbol msg) as [s|]; [|left; unfold kMaxSymbols; lia].
    destruct (symbol_id_cases f s Hf) as [(k & _ & _ & Hr & _)|[_ E]]; [by left|by right].
  - destruct (er_cl_ord_id msg); [apply strtoull_u64|unfold in_u64; lia].
  - destruct (er_order_id msg) as [s|]; [|done]. rewrite strncpy_length; [done|].
    unfold zero_chars. rewrite length_replicate. unfold order_id_size. lia.
  - destruct (er_order_id msg) as [s|]; [|done]. unfold strncpy, zero_chars. rewrite drop_replicate.
    change (Z.to_nat (order_id_size - 1)) with 23%nat. change (Z.to_nat order_id_size - 1)%nat with 23%nat.
    change (Z.to_nat order_id_size - 23)%nat with 1%nat. rewrite lookup_app_r; rewrite length_take, length_app, length_replicate; [|lia].
    by replace (23 - 23 `min` (length (c_str s) + 23))%nat with 0%nat by lia.
Qed.

(** A report on a name that is not ours carries no index. *)
Lemma exec_parse_unknown f msg t ev s :
  fix_shape f -> er_symbol msg = Some s -> s ∉ ours f -> exec_parse f msg t = Ok ev -> x_symbol_id ev = UINT32_MAX.
Proof.
  intros Hf Hs Hn H. unfold exec_parse in H. rewrite Hs in H. do 5 (apply res_bind_inv in H as (? & _ & H)).
  injection H as <-. cbn [x_symbol_id].
  destruct (symbol_id_cases f s Hf) as [(i & Hi & _)|[_ E]]; [destruct Hn; by eapply list_elem_of_lookup_2|done].
Qed.
End Handlers.

(** The strategy has no slot for such a report. *)
Lemma no_index_faults {QO : QueueOps} {QL : QueueLaws} ev st :
  engine_ok st -> x_symbol_id ev = UINT32_MAX -> handle_exec ev st = Err (UB OutOfBounds).
Proof.
  intros Hst E. unfold handle_exec, bind at 1. rewrite on_exec_unfold, E.
  unfold quote, slot_read, zget2. rewrite zget_oob; [done|].
  destruct (eo_oms st Hst) as [-> _]. unfold UINT32_MAX. lia.
Qed.

(** ** A concrete QuickFIX for the witnesses: messages already decoded *)

Record DemoMd := mkDemoMd { dm_symbol : option chars; dm_entries : list entry }.
Record DemoEr := mkDemoEr {
  de_cl : option chars; de_type : option ascii; de_status : option ascii; de_side : option ascii;
  de_symbol : option chars; de_leaves : option double; de_order_id : option chars
}.

Definition field {A} (o : option A) : Res A :=
  match o with Some a => Ok a | None => Err (Throw FieldNotFound) end.
Definition opt_field {A} (o : option A) : option (Res A) := option_map Ok o.

Definition demo_qf : QuickFix := {|
  SessionID := unit; MdMsg := DemoMd; MdGroup := entry; ErMsg := DemoEr;
  md_symbol := fun m => field (dm_symbol m);
  md_no_entries := fun m => Ok (Z.of_nat (length (dm_entries m)));
  md_get_group := fun m i => field (zget (dm_entries m) (i - 1));
  g_entry_type := fun e => Ok (e_type e);
  g_entry_px := fun e => Some (Ok (e_px e));
  g_entry_size := fun e => Some (Ok (e_qty e));
  er_cl_ord_id := de_cl;
  er_exec_type := fun m => opt_field (de_type m);
  er_ord_status := fun m => opt_field (de_status m);
  er_side := fun m => opt_field (de_side m);
  er_symbol := de_symbol;
  er_last_px := fun _ => None;
  er_last_qty := fun _ => None;
  er_leaves_qty := fun m => opt_field (de_leaves m);
  er_order_id := de_order_id
|}.

Lemma opt_field_throws {A} (o : option A) r : opt_field o = Some r -> throws_only r.
Proof. destruct o; [|done]. intros [= <-]. by intros k. Qed.

Lemma field_throws {A} (o : option A) : throws_only (field o).
Proof. destruct o; by intros k. Qed.

Lemma demo_qf_laws : @QuickFixLaws demo_qf.
Proof.
  split; cbn; intros; try apply field_throws; try (eapply opt_field_throws; eassumption); try done;
    match goal with H : Some _ = Some _ |- _ => injection H as <- end; by intros k.
Qed.

Definition demo_fix_config : EngineConfig :=
  mkConfig (dlit 5 100) (dlit 2 100) dhalf (double_of_Z 1) 5 (chars_of_string "REM22479") [] [] [] 2 3 9091 []
    1000 false [chars_of_string "DLR/JUN26"; chars_of_string "DLR/JUL26"].

Definition demo_fix : @FixApp list_ops demo_qf :=
  @fix_init list_ops demo_qf demo_fix_config [] [] metrics_init.

Lemma demo_fix_ok : @fix_ok list_ops list_laws demo_qf demo_fix.
Proof. split; [apply fix_init_shape|vm_compute; discriminate|vm_compute; discriminate|constructor]. Qed.

Definition demo_md_msg : DemoMd :=
  mkDemoMd (Some (chars_of_string "DLR/JUL26"))
    [(MDEntryType_BID, double_of_Z 1000, double_of_Z 3); (MDEntryType_TRADE, double_of_Z 1001, double_of_Z 1);
     (MDEntryType_OFFER, double_of_Z 1002, double_of_Z 4); (MDEntryType_BID, double_of_Z 999, double_of_Z 8)].

(** ** Properties *)

Section Properties.
Context {QO : QueueOps} {QL : QueueLaws} {QF : QuickFix} (clock : nat -> Z).


(** C24: a snapshot for one of our instruments is queued as its first five bids
    and first five offers in message order, zero-padded, with the last trade
    price, our index of the instrument and the next sequence number; when the
    ring is full it is counted as dropped instead. *)
Theorem md_snapshot_queued (msg : MdMsg) (f : FixApp) (s : chars) (es : list entry) :
  fix_ok f -> md_symbol msg = Ok s -> s ∈ ours f -> decodes msg es ->
  let ev := event_of (clock (fix_now f)) (symbol_id f s) (u32 (md_seq_ f + 1)) es in
  let room := Z.of_nat (length (q_contents (md_ring_ f))) <? kMdCap in
  exists f', fromApp clock (MarketDataSnapshotFullRefresh msg) f = Ok f' /\
    q_contents (md_ring_ f') = (if room then q_contents (md_ring_ f) ++ [ev] else q_contents (md_ring_ f)) /\
    md_msgs_total (fix_metrics f') = u64 (md_msgs_total (fix_metrics f) + 1) /\
    md_dropped_total (fix_metrics f') =
      (if room then md_dropped_total (fix_metrics f) else u64 (md_dropped_total (fix_metrics f) + 1)) /\
    md_seq_ f' = u32 (md_seq_ f + 1).
Proof.
  intros [Hsh Hmd Hex Hev] Hs Hin He ev room. unfold fromApp, crack, onMessage_md.
  set (f1 := fx_set_seq f _ _). assert (Hsh1 : fix_shape f1) by (destruct Hsh; by split).
  rewrite (md_parse_event f1 msg _ _ s es Hsh1 Hs Hin He). fold ev.
  change (event_of (clock (fix_now f)) (symbol_id f1 s) (md_seq_ f1) es) with ev.
  destruct (q_push_law _ _ (md_ring_ f1) ev kMdCap_legal Hmd) as (r & -> & Hr & Hc).
  change (md_ring_ f1) with (md_ring_ f) in *. fold room in Hc |- *.
  eexists. split; [reflexivity|]. cbn [md_ring_ fx_set_md fix_metrics md_seq_]. split; [done|].
  by destruct room.
Qed.

(** The known symbols are told apart: a name that is ours gets the index
    of its first occurrence, any other name UINT32_MAX, never an index. *)
Theorem symbol_id_inverse (f : FixApp) (s : chars) :
  fix_shape f ->
  (s ∈ ours f -> 0 <= symbol_id f s < kMaxSymbols /\ ours f !! Z.to_nat (symbol_id f s) = Some s /\
     forall j, (j < Z.to_nat (symbol_id f s))%nat -> ours f !! j <> Some s) /\
  (s ∉ ours f -> symbol_id f s = UINT32_MAX).
Proof.
  intros Hf. destruct (symbol_id_cases f s Hf) as [(k & Hk & He & Hr & Hj)|[Hn He]].
  - split; [|intros Hn; destruct Hn; by eapply list_elem_of_lookup_2].
    intros _. split; [done|]. rewrite He, Nat2Z.id. by split.
  - by split.
Qed.

(** The text of an id fits its buffer and reads back. *)
Lemma id_text_fits id : in_u64 id -> id_text id = fmt_llu id /\ snd (snprintf 24 (fmt_llu id)) < 24.
Proof.
  intros Hid. pose proof (fmt_llu_length id Hid) as Hl. split; [|cbn [snd snprintf]; lia].
  unfold id_text, snprintf. cbn [fst]. apply take_ge. lia.
Qed.

Lemma id_text_reads id : in_u64 id -> strtoull (c_str (id_text id)) = id.
Proof.
  intros Hid. rewrite (proj1 (id_text_fits id Hid)).
  assert (Hz : Forall (fun c => code c <> 0) (fmt_llu id)) by (apply fmt_llu_no_zero; unfold in_u64 in Hid; lia).
  rewrite (proj2 (c_str_no_zero _) Hz). rewrite <- (app_nil_r (fmt_llu id)). by apply strtoull_fmt.
Qed.

(** What a report says of its order. *)
Lemma exec_parse_id f msg t ev :
  exec_parse f msg t = Ok ev ->
  x_cl_ord_id ev = match er_cl_ord_id msg with Some s => strtoull (c_str s) | None => 0 end /\
  exec_kind msg = Ok (x_kind ev) /\
  x_symbol_id ev = match er_symbol msg with Some s => symbol_id f s | None => 0 end.
Proof.
  unfold exec_parse. intros Hp. apply res_bind_inv in Hp as (k & Hk & Hp).
  do 4 (apply res_bind_inv in Hp as (? & _ & Hp)). by injection Hp as <-.
Qed.

(** ClOrdIDs survive the wire: the text an order carries is never cut by
    its 24-byte buffer, and a report that echoes it parses back to the id. *)
Theorem cl_ord_id_roundtrip (id : Z) (f : FixApp) (msg : ErMsg) (t : Z) (ev : ExecEvent) :
  in_u64 id -> er_cl_ord_id msg = Some (id_text id) -> exec_parse f msg t = Ok ev ->
  x_cl_ord_id ev = id /\ id_text id = fmt_llu id /\ snd (snprintf 24 (fmt_llu id)) < 24.
Proof.
  intros Hid Hm Hp. split; [|by apply id_text_fits].
  rewrite (proj1 (exec_parse_id _ _ _ _ Hp)), Hm. by apply id_text_reads.
Qed.

(** Sending.  A New command of a known instrument becomes one limit day
    order with the command's id, side, quantity and price, and its latency is
    recorded; a Cancel becomes one cancel request naming both ids; each counts
    once, and a throwing session leaves neither message nor count. *)
Theorem send_order_cmd_message (cfg : EngineConfig) (send : FixOut -> option SessionID -> Res bool)
    (c : OrderCmd) (f : FixApp) (symbol : chars) :
  zget (symbols_ f) (c_symbol_id c) = Some symbol -> metrics_ok (fix_metrics f) ->
  0 <= clock (fix_now f) < 2 ^ 62 -> 0 <= c_t_md_ns c < 2 ^ 62 ->
  match send (order_message cfg symbol c) (session_id_ f) with
  | Ok _ =>
      exists f', send_order_cmd cfg clock send c f = Ok f' /\
        outbox f' = outbox f ++ [order_message cfg symbol c] /\ metrics_ok (fix_metrics f') /\
        (match c_type c with
         | CmdNew => orders_sent_total (fix_metrics f') = u64 (orders_sent_total (fix_metrics f) + 1) /\
                     LatencyHistogram.record (clock (fix_now f) - c_t_md_ns c) (tick_to_trade (fix_metrics f))
                       = Ok (tick_to_trade (fix_metrics f'))
         | CmdCancel => cancels_sent_total (fix_metrics f') = u64 (cancels_sent_total (fix_metrics f) + 1) /\
                        tick_to_trade (fix_metrics f') = tick_to_trade (fix_metrics f)
         end)
  | Err e => send_order_cmd cfg clock send c f = Err e
  end.
Proof.
  intros Hsym [Hm1 Hm2 Hm3] Hc Ht. unfold send_order_cmd. rewrite (array_read_ok _ _ _ Hsym). cbn [res_bind].
  destruct (send _ _) as [b|e]; cbn [res_bind]; [|done].
  destruct (c_type c).
  - unfold sub64. rewrite checked64_ok by lia. cbn [res_bind].
    destruct (record_total (tick_to_trade (fix_metrics f)) (clock (fix_now f) - c_t_md_ns c) Hm2) as (h & Hr & Hh); [lia|].
    rewrite Hr. cbn [res_bind]. eexists. split; [reflexivity|]. split; [done|]. split; [by split|done].
  - eexists. split; [reflexivity|]. split; [done|]. split; [by split|done].
Qed.
End Properties.

(** ** Witnesses *)

Definition tick_clock (n : nat) : Z := 5000000 + Z.of_nat n.

Definition demo_report (symbol : chars) (id : chars) : DemoEr :=
  mkDemoEr (Some id) (Some ExecType_TRADE) (Some OrdStatus_PARTIALLY_FILLED) (Some Side_BUY)
    (Some symbol) (Some (double_of_Z 2)) (Some (chars_of_string "X1")).


Lemma demo_decodes : @decodes demo_qf demo_md_msg (dm_entries demo_md_msg).
Proof.
  split; [reflexivity|]. intros k e Hk. exists e. cbn [md_get_group demo_qf].
  replace (Z.of_nat k + 1 - 1) with (Z.of_nat k) by lia. rewrite zget_nat, Hk. done.
Qed.

Lemma md_snapshot_queued_witness :
  exists f', @fromApp list_ops demo_qf tick_clock (@MarketDataSnapshotFullRefresh demo_qf demo_md_msg) demo_fix = Ok f' /\
    md_ring_ f' = [mkMdEvent 5000000 1 2 1
      (map double_of_Z [1000; 999; 0; 0; 0]) (map double_of_Z [3; 8; 0; 0; 0])
      (map double_of_Z [1002; 0; 0; 0; 0]) (map double_of_Z [4; 0; 0; 0; 0]) (double_of_Z 1001) 1].
Proof.
  destruct (@md_snapshot_queued list_ops list_laws demo_qf tick_clock demo_md_msg demo_fix
    (chars_of_string "DLR/JUL26") (dm_entries demo_md_msg)) as (f' & H & Hq & _);
    [exact demo_fix_ok|reflexivity| |exact demo_decodes|].
  { apply (list_elem_of_lookup_2 _ 1). reflexivity. }
  exists f'. split; [exact H|]. change (md_ring_ f') with (@q_contents list_ops list_laws _ _ (md_ring_ f')).
  rewrite Hq. vm_compute. reflexivity.
Defined.

Lemma symbol_id_inverse_witness : symbol_id demo_fix (chars_of_string "GGAL") = UINT32_MAX.
Proof.
  apply (symbol_id_inverse demo_fix (chars_of_string "GGAL")); [apply fix_init_shape|].
  apply (bool_decide_eq_false_1 (chars_of_string "GGAL" ∈ ours demo_fix)). vm_compute. reflexivity.
Defined.

Lemma cl_ord_id_roundtrip_witness :
  exists ev, @exec_parse list_ops demo_qf demo_fix (demo_report (chars_of_string "DLR/JUN26") (id_text UINT64_MAX)) 0 = Ok ev /\
    x_cl_ord_id ev = UINT64_MAX.
Proof.
  eexists. split; [vm_compute; reflexivity|].
  apply (@cl_ord_id_roundtrip list_ops demo_qf UINT64_MAX demo_fix
    (demo_report (chars_of_string "DLR/JUN26") (id_text UINT64_MAX)) 0);
    [unfold in_u64, UINT64_MAX; lia|reflexivity|vm_compute; reflexivity].
Defined.

Lemma send_order_cmd_message_witness :
  let c := mkOrderCmd CmdCancel Sell 1 dzero (double_of_Z 1) 5002 5001 5000000 5000001 in
  exists f', @send_order_cmd list_ops demo_qf demo_fix_config tick_clock (fun _ _ => Ok true) c demo_fix = Ok f' /\
    outbox f' = [OrderCancelRequest (chars_of_string "5002") Side_SELL (chars_of_string "5001")
                   (chars_of_string "REM22479") (chars_of_string "DLR/JUL26") rofx (double_of_Z 1)].
Proof.
  intros c. destruct (@send_order_cmd_message list_ops demo_qf tick_clock demo_fix_config (fun _ _ => Ok true) c demo_fix
    (chars_of_string "DLR/JUL26")) as (f' & H & Ho & _);
    [reflexivity|apply metrics_ok_init|unfold tick_clock; cbn; lia|cbn; lia|].
  exists f'. split; [exact H|]. rewrite Ho. vm_compute. reflexivity.
Defined.
