(* ===== verification/Typing.v ===== *)
(** * Values stay in their C++ types

    The model's integers are unbounded and its arrays lists; here every struct
    of the engine gets the predicate that its declaration implies (each
    integer in the range of its type, each array of its declared length, each
    element of a queue a value of its type), and every operation keeps it.  The
    predicates are the instances of one class; the monadic operations are
    checked by the rules of [keeps]. *)
From S2P Require Import Prelude.
From S2P Require Import Double.
From S2P Require Import Events.
From S2P Require Import SpscRing.
From S2P Require Import Queue.
From S2P Require Import Text.
From S2P Require Import LatencyHistogram.
From S2P Require Import Metrics.
From S2P Require Import OrderBook.
From S2P Require Import OrderManager.
From S2P Require Import AsyncLogger.
From S2P Require Import Persister.
From S2P Require Import Config.
From S2P Require Import MarketMaker.
From S2P Require Import MarketMakerFacts.
From S2P Require Import StrategySteps.
From S2P Require Import StrategyProps.
From S2P Require Import FixApp.
From S2P Require Import FixProps.
From Stdlib Require Import Ascii.

(** ** The types *)

Definition in_u16 (z : Z) : Prop := 0 <= z < 2 ^ 16.

(** [typed x]: [x] is a value of the C++ type it models. *)
Class CppType (A : Type) := typed : A -> Prop.

#[export] Instance MdEvent_type : CppType MdEvent := fun e =>
  in_i64 (md_t_recv_ns e) /\ in_u32 (md_symbol_id e) /\ in_u16 (md_n_bids e) /\ in_u16 (md_n_asks e) /\
  levels_ok (md_bid_px e) /\ levels_ok (md_bid_qty e) /\ levels_ok (md_ask_px e) /\
  levels_ok (md_ask_qty e) /\ in_u32 (md_seq e).

#[export] Instance OrderCmd_type : CppType OrderCmd := fun c =>
  in_u32 (c_symbol_id c) /\ in_u64 (c_cl_ord_id c) /\ in_u64 (c_orig_cl_ord_id c) /\
  in_i64 (c_t_md_ns c) /\ in_i64 (c_t_decided_ns c).

#[export] Instance ExecEvent_type : CppType ExecEvent := fun e =>
  in_i64 (x_t_recv_ns e) /\ in_u64 (x_cl_ord_id e) /\ in_u32 (x_symbol_id e) /\
  length (x_order_id e) = Z.to_nat order_id_size.

#[export] Instance LogRecord_type : CppType LogRecord := fun r =>
  in_i64 (l_t_ns r) /\ in_u32 (l_symbol_id r) /\ in_u64 (l_cl_ord_id r) /\
  length (l_text r) = Z.to_nat text_size.

#[export] Instance BookSnapshot_type : CppType BookSnapshot := fun s =>
  in_i64 (s_t_ns s) /\ in_u32 (s_symbol_id s) /\ in_u16 (s_n_bids s) /\ in_u16 (s_n_asks s) /\
  levels_ok (s_bid_px s) /\ levels_ok (s_bid_qty s) /\ levels_ok (s_ask_px s) /\ levels_ok (s_ask_qty s).

#[export] Instance OrderBook_type : CppType OrderBook := fun b =>
  levels_ok (bid_px b) /\ levels_ok (bid_qty b) /\ levels_ok (ask_px b) /\ levels_ok (ask_qty b) /\
  in_u16 (n_bids b) /\ in_u16 (n_asks b) /\ in_i64 (last_update_ns b) /\ in_u32 (seq b).

#[export] Instance Quote_type : CppType Quote := fun q =>
  in_u64 (q_cl_ord_id q) /\ length (q_exch_order_id q) = Z.to_nat order_id_size.

#[export] Instance OrderManager_type : CppType OrderManager := fun o =>
  oms_shape o /\ Forall (Forall typed) (q_ o).

#[export] Instance Histogram_type : CppType LatencyHistogram.t := fun h =>
  hist_ok h /\ Forall in_u64 (LatencyHistogram.buckets_ h) /\ in_u64 (LatencyHistogram.count_ h) /\
  in_i64 (LatencyHistogram.max_ h).

#[export] Instance Metrics_type : CppType Metrics := fun m =>
  typed (md_processing m) /\ typed (tick_to_trade m) /\ typed (queue_wait m) /\
  in_u64 (md_msgs_total m) /\ in_u64 (md_dropped_total m) /\ in_u64 (orders_sent_total m) /\
  in_u64 (cancels_sent_total m) /\ in_u64 (execs_total m) /\
  in_u64 (md_queue_max m) /\ in_u64 (ord_queue_max m) /\ in_u64 (log_queue_max m).

(** A conjunction of typing facts, each at hand or by computation. *)
Ltac typed_conj := repeat (assumption || reflexivity || split).

Section Types.
Context {QO : QueueOps} {QL : QueueLaws}.

#[export] Instance Queue_type {c A} `{!CppType A} : CppType (Queue c A) := fun q =>
  q_ok q /\ Forall typed (q_contents q).

#[export] Instance AsyncLogger_type : CppType AsyncLogger := fun l => typed (log_ring_ l).

#[export] Instance LmdbPersister_type : CppType LmdbPersister := fun p =>
  in_u64 (snap_seq_ p) /\ in_u64 (trade_seq_ p) /\ typed (snap_ring_ p) /\ typed (trade_ring_ p).

#[export] Instance Engine_type : CppType Engine := fun s =>
  typed (md_ s) /\ typed (exec_ s) /\ typed (out_ s) /\ typed (log_ s) /\ typed (db_ s) /\
  typed (metrics_ s) /\ typed (oms_ s) /\
  (length (books_ s) = Z.to_nat kMaxSymbols /\ Forall typed (books_ s)) /\
  in_u64 (cl_ord_seed_ s) /\ in_i64 (next_snapshot_ns s).

Lemma metrics_typed_ok m : typed m -> metrics_ok m.
Proof. intros ([? _] & [? _] & [? _] & _). by split. Qed.

(** The types imply the shapes the strategy is proved against. *)
Lemma engine_typed_ok s : typed s -> engine_ok s.
Proof.
  intros ([? _] & [? _] & [? _] & [? _] & (_ & _ & [? _] & [? _]) & Hm & [? _] & [? _] & _).
  split; try done. by apply metrics_typed_ok.
Qed.

(** ** Queues *)

Lemma queue_init_typed c A `{!CppType A} : LegalCapacity c -> typed (q_init c A).
Proof. intros H. split; [by apply q_init_ok|]. rewrite q_init_empty by done. constructor. Qed.

Lemma push_typed {c A} `{!CppType A} {HC : LegalCapacity c} (q q' : Queue c A) x b :
  typed q -> typed x -> q_push x q = Ok (b, q') -> typed q'.
Proof.
  intros [Hok Hq] Hx H. destruct (q_push_inv q x b q' Hok H) as (Hok' & Hc & _).
  split; [done|]. rewrite Hc. destruct b; [|done]. apply Forall_app. split; [done|]. by constructor.
Qed.

Lemma pop_typed {c A} `{!CppType A} {HC : LegalCapacity c} (q q' : Queue c A) o :
  typed q -> q_pop q = Ok (o, q') -> typed q' /\ (forall x, o = Some x -> typed x).
Proof.
  intros [Hok Hq] H. destruct (q_pop_inv q o q' Hok H) as (Hok' & -> & Hc). split.
  - split; [done|]. rewrite Hc. by destruct Hq.
  - intros x Hx. destruct Hq; [done|]. by injection Hx as <-.
Qed.

Lemma drained_typed {c A B} `{!CppType A} {HC : LegalCapacity c} (body : A -> B -> Res B) (q q' : Queue c A) a a' :
  typed q -> q_drain (drain_fuel q) body q a = Ok (a', q') -> typed q'.
Proof.
  intros [Hok _] H. destruct (q_drain_all body q a Hok) as (q2 & Hq2 & Hc & E). rewrite E in H.
  apply res_bind_inv in H as (? & _ & [= _ <-]). split; [done|]. rewrite Hc. constructor.
Qed.

Lemma queue_size_u64 {c A} `{!CppType A} {HC : LegalCapacity c} (q : Queue c A) :
  typed q -> in_u64 (q_size q).
Proof.
  intros [Hok _]. destruct (q_size_law c A q HC Hok) as [E Hle]. pose proof (@cap_range c HC).
  unfold in_u64. lia.
Qed.
End Types.

(** ** The registry *)

Lemma cas_max_range (P : Z -> Prop) v m : P v -> P m -> P (cas_max v m).
Proof. unfold cas_max. by destruct (v <=? m). Qed.

Lemma record_typed ns h h' :
  typed h -> in_i64 ns -> LatencyHistogram.record ns h = Ok h' -> typed h'.
Proof.
  intros (Hok & Hb & Hc & Hm) Hns H. unfold LatencyHistogram.record in H.
  apply res_bind_inv in H as (b & _ & H). apply res_bind_inv in H as (bs & Hbs & [= <-]).
  unfold array_write in Hbs. destruct (in_bounds _ _); [|done]. injection Hbs as <-.
  split; [|split; [|split]]; cbn [LatencyHistogram.buckets_ LatencyHistogram.count_ LatencyHistogram.max_].
  - unfold hist_ok. cbn. by rewrite length_insert.
  - apply Forall_insert; [done|apply u64_range].
  - apply u64_range.
  - apply cas_max_range; [|done]. destruct (ns <? 0); unfold in_i64 in *; lia.
Qed.

Lemma metrics_init_typed : typed metrics_init.
Proof.
  assert (H : typed LatencyHistogram.init).
  { split; [apply length_replicate|]. split; [|split; unfold in_u64, in_i64; cbn; lia].
    apply Forall_replicate. unfold in_u64. lia. }
  unfold typed, Metrics_type, in_u64. cbn. repeat split; try apply H; lia.
Qed.

(** A registry update: unfold, split, close each field. *)
Ltac registry :=
  unfold typed, Metrics_type in *; cbn in *;
  repeat match goal with H : _ /\ _ |- _ => destruct H end;
  repeat match goal with |- _ /\ _ => split end;
  try assumption; try apply u64_range; try (unfold track_max; by apply (cas_max_range in_u64)).

Lemma inc_md_msgs_typed m : typed m -> typed (inc_md_msgs m).
Proof. intros. registry. Qed.
Lemma inc_md_dropped_typed m : typed m -> typed (inc_md_dropped m).
Proof. intros. registry. Qed.
Lemma inc_execs_typed m : typed m -> typed (inc_execs m).
Proof. intros. registry. Qed.
Lemma inc_orders_sent_typed m : typed m -> typed (inc_orders_sent m).
Proof. intros. registry. Qed.
Lemma inc_cancels_sent_typed m : typed m -> typed (inc_cancels_sent m).
Proof. intros. registry. Qed.
Lemma track_md_queue_typed m v : in_u64 v -> typed m -> typed (track_md_queue m v).
Proof. intros. registry. Qed.
Lemma track_ord_queue_typed m v : in_u64 v -> typed m -> typed (track_ord_queue m v).
Proof. intros. registry. Qed.
Lemma track_log_queue_typed m v : in_u64 v -> typed m -> typed (track_log_queue m v).
Proof. intros. registry. Qed.
Lemma set_md_processing_typed m h : typed h -> typed m -> typed (set_md_processing m h).
Proof. intros. registry. Qed.
Lemma set_tick_to_trade_typed m h : typed h -> typed m -> typed (set_tick_to_trade m h).
Proof. intros. registry. Qed.
Lemma set_queue_wait_typed m h : typed h -> typed m -> typed (set_queue_wait m h).
Proof. intros. registry. Qed.

#[export] Hint Resolve inc_md_msgs_typed inc_md_dropped_typed inc_execs_typed inc_orders_sent_typed
  inc_cancels_sent_typed track_md_queue_typed track_ord_queue_typed track_log_queue_typed
  set_md_processing_typed set_tick_to_trade_typed set_queue_wait_typed : mm.

(** ** A logic for the monad: invariants kept by computations that return *)
Section Keeps.
Context {S : Type}.

Definition keeps (I : S -> Prop) {A} (m : M S A) (Q : A -> Prop) : Prop :=
  forall s a s', I s -> m s = Ok (a, s') -> I s' /\ Q a.

Context (I : S -> Prop).

Lemma keeps_ret {A} (a : A) (Q : A -> Prop) : Q a -> keeps I (ret a) Q.
Proof. intros H s b s' Hs [= <- <-]. by split. Qed.

Lemma keeps_bind {A B} (m : M S A) (f : A -> M S B) (P : A -> Prop) (Q : B -> Prop) :
  keeps I m P -> (forall a, P a -> keeps I (f a) Q) -> keeps I (bind m f) Q.
Proof.
  intros Hm Hf s b s' Hs H. apply bind_inv in H as (a & s1 & H1 & H2).
  destruct (Hm _ _ _ Hs H1) as [Hs1 Ha]. by eapply Hf.
Qed.

Lemma keeps_weaken {A} (m : M S A) (P Q : A -> Prop) :
  keeps I m P -> (forall a, P a -> Q a) -> keeps I m Q.
Proof. intros Hm HPQ s a s' Hs H. destruct (Hm _ _ _ Hs H). auto. Qed.

Lemma keeps_any {A} (m : M S A) (P : A -> Prop) : keeps I m P -> keeps I m (fun _ => True).
Proof. intros H. eapply keeps_weaken; [exact H|done]. Qed.

Lemma keeps_when (b : bool) (m : M S unit) :
  (b = true -> keeps I m (fun _ => True)) -> keeps I (when b m) (fun _ => True).
Proof. destruct b; intros H; [by apply H|by apply keeps_ret]. Qed.

Lemma keeps_modify (f : S -> S) : (forall s, I s -> I (f s)) -> keeps I (modify f) (fun _ => True).
Proof. intros H s a s' Hs [= <- <-]. auto. Qed.

Lemma keeps_gets {A} (f : S -> A) (Q : A -> Prop) : (forall s, I s -> Q (f s)) -> keeps I (gets f) Q.
Proof. intros H s a s' Hs [= <- <-]. auto. Qed.

Lemma keeps_state {A} (m : M S A) (Q : A -> Prop) :
  (forall s a s', I s -> m s = Ok (a, s') -> I s' /\ Q a) -> keeps I m Q.
Proof. done. Qed.
End Keeps.

(** ** The strategy *)
Section Strategy.
Context {QO : QueueOps} {QL : QueueLaws} (cfg : EngineConfig) (clock : nat -> Z).
Context {HK : ClockOk clock}.

Abbreviation keep m Q := (keeps (S := Engine) typed m Q).

(** Each field of an updated engine is known. *)
Ltac fields_typed := do 9 (split; [assumption|]); assumption.

Lemma time_i64 n : in_i64 (clock n).
Proof. pose proof (HK n). unfold in_i64. lia. Qed.

Lemma now_typed : keep (now_ns clock) in_i64.
Proof. intros s a s' Hs [= <- <-]. split; [exact Hs|apply time_i64]. Qed.

Lemma emit_typed c : typed c -> keep (emit cfg c) (fun _ => True).
Proof.
  intros Hc. unfold emit. destruct (dry_run cfg); [by apply keeps_ret|].
  intros s a s' Hs H. apply res_bind_inv in H as ([b q] & H & [= <- <-]). split; [|done].
  destruct Hs as (?&?&Ho&?&?&?&?&?&?&?). pose proof (push_typed _ _ _ _ Ho Hc H). fields_typed.
Qed.

Lemma log_typed r lg m b lg' m' :
  typed r -> typed lg -> typed m -> log r (lg, m) = Ok (b, (lg', m')) -> typed lg' /\ typed m'.
Proof.
  intros Hr Hl Hm H. unfold log in H. apply res_bind_inv in H as ([ok ring] & H & [= _ <- <-]).
  pose proof (push_typed _ _ _ _ Hl Hr H). split; [done|].
  apply track_log_queue_typed; [by apply queue_size_u64|done].
Qed.

Lemma log_record_typed r : typed r -> keep (log_record r) (fun _ => True).
Proof.
  intros Hr s a s' Hs H. apply res_bind_inv in H as ([b [lg m]] & H & [= <- <-]). split; [|done].
  destruct Hs as (?&?&?&Hl&?&Hm&?&?&?&?). destruct (log_typed _ _ _ _ _ _ Hr Hl Hm H). fields_typed.
Qed.

Lemma slot_read_typed o sym i q : typed o -> slot_read o sym i = Ok q -> typed q.
Proof.
  intros [_ HF] H. unfold slot_read, zget2 in H.
  destruct (zget (q_ o) sym) as [r|] eqn:Er; [|done]. apply zget_Some in Er as [_ Er].
  destruct (zget r i) as [x|] eqn:Ex; [|done]. injection H as <-. apply zget_Some in Ex as [_ Ex].
  eapply Forall_lookup_1 in HF; [|exact Er]. by eapply Forall_lookup_1 in HF; [|exact Ex].
Qed.

Lemma zset_Forall {A} (P : A -> Prop) l i x : Forall P l -> P x -> Forall P (zset l i x).
Proof. unfold zset. destruct (in_bounds l i); [apply Forall_insert|done]. Qed.

Lemma slot_write_typed o sym i q : typed o -> typed q -> typed (slot_write o sym i q).
Proof.
  intros [Hs HF] Hq. split; [by apply is_matrix_zset2|]. cbn [q_ slot_write]. unfold zset2.
  destruct (zget (q_ o) sym) as [r|] eqn:Er; [|done]. apply zset_Forall; [done|].
  apply zget_Some in Er as [_ Er]. eapply Forall_lookup_1 in HF; [|exact Er]. by apply zset_Forall.
Qed.

Lemma read_slot_typed sym side : keep (read_slot sym side) typed.
Proof.
  intros s a s' Hs H. apply res_bind_inv in H as (q & H & [= <- <-]). split; [done|].
  eapply slot_read_typed; [|exact H]. apply Hs.
Qed.

Lemma write_slot_typed sym side q : typed q -> keep (MarketMaker.write_slot sym side q) (fun _ => True).
Proof.
  intros Hq. apply keeps_modify. intros s (?&?&?&?&?&?&Ho&?&?&?).
  pose proof (slot_write_typed _ sym (side_index side) q Ho Hq). fields_typed.
Qed.

Lemma next_id_typed : keep next_cl_ord_id in_u64.
Proof.
  intros s a s' (?&?&?&?&?&?&?&?&Hc&?) [= <- <-]. split; [|done].
  pose proof (u64_range (cl_ord_seed_ s + 1)). fields_typed.
Qed.

Lemma track_out_typed : keep track_out_queue (fun _ => True).
Proof.
  apply keeps_modify. intros s (?&?&Ho&?&?&Hm&?&?&?&?).
  pose proof (track_ord_queue_typed _ _ (queue_size_u64 _ Ho) Hm). fields_typed.
Qed.

(** *** The methods *)

Lemma cmd_typed ty side sym px q id oid t now :
  in_u32 sym -> in_u64 id -> in_u64 oid -> in_i64 t -> in_i64 now ->
  typed (mkOrderCmd ty side sym px q id oid t now).
Proof. intros. typed_conj. Qed.

Lemma log_rec_typed t k side sym px q id :
  in_i64 t -> in_u32 sym -> in_u64 id -> typed (mkLogRecord t k side sym px q id (zero_chars text_size)).
Proof. intros. typed_conj. Qed.

Lemma cancel_side_typed sym side t :
  in_u32 sym -> in_i64 t -> keep (cancel_side cfg clock sym side t) (fun _ => True).
Proof.
  intros Hs Ht. eapply keeps_bind; [apply read_slot_typed|]. intros q [Hid Hex].
  destruct (decide (q_state q <> Live)); [by apply keeps_ret|].
  eapply keeps_bind; [apply next_id_typed|]. intros id Hi.
  eapply keeps_bind; [apply now_typed|]. intros now Hn.
  eapply keeps_bind; [by apply emit_typed, cmd_typed|]. intros pushed _. apply keeps_when. intros _.
  eapply keeps_bind; [by apply write_slot_typed|]. intros _ _. by apply log_record_typed, log_rec_typed.
Qed.

Lemma requote_typed sym side px t :
  in_u32 sym -> in_i64 t -> keep (requote cfg clock sym side px t) (fun _ => True).
Proof.
  intros Hs Ht. eapply keeps_bind; [apply read_slot_typed|]. intros q [Hid Hex].
  destruct (decide _); [by apply keeps_ret|]. destruct (decide _).
  { destruct (already_there _ _ _); [by apply keeps_ret|by apply cancel_side_typed]. }
  eapply keeps_bind; [apply next_id_typed|]. intros id Hi.
  eapply keeps_bind; [apply now_typed|]. intros now Hn.
  eapply keeps_bind; [apply emit_typed, cmd_typed; try done; unfold in_u64; lia|].
  intros pushed _. apply keeps_when. intros _.
  eapply keeps_bind; [by apply write_slot_typed|]. intros _ _.
  eapply keeps_bind; [apply track_out_typed|]. intros _ _. by apply log_record_typed, log_rec_typed.
Qed.

Lemma decide_typed sym ob t :
  in_u32 sym -> in_i64 t -> keep (decide_quotes cfg clock sym ob t) (fun _ => True).
Proof.
  intros Hs Ht. unfold decide_quotes. destruct (dge _ _); [destruct (dlt _ _); [by apply keeps_ret|]|];
    (eapply keeps_bind; [by (apply requote_typed || apply cancel_side_typed)|]); intros _ _;
    by (apply requote_typed || apply cancel_side_typed).
Qed.

Lemma push_one_typed t i s s' :
  in_i64 t -> in_u32 i -> typed s -> push_one_snapshot t i s = Ok s' -> typed s'.
Proof.
  intros Ht Hi Hs Hrun. pose proof Hs as (?&?&?&?&(?&?&Hr&?)&?&?&[Hl Hb]&?&?). unfold push_one_snapshot in Hrun.
  apply res_bind_inv in Hrun as (ob & Hob & Hrun). unfold array_read in Hob.
  destruct (zget (books_ s) i) as [x|] eqn:Ex; [|done]. injection Hob as ->.
  apply zget_Some in Ex as [_ Ex]. eapply Forall_lookup_1 in Hb as Hx; [|exact Ex].
  destruct (_ && _); [by injection Hrun as <-|].
  apply res_bind_inv in Hrun as ([b db] & Hp & [= <-]). unfold push_snapshot in Hp.
  apply res_bind_inv in Hp as ([ok r] & Hp & [= _ <-]).
  assert (Hsn : typed (snapshot_of t i ob)) by (destruct Hx as (?&?&?&?&?&?&_); typed_conj).
  pose proof (push_typed _ _ _ _ Hr Hsn Hp). do 4 (split; [assumption|]).
  split; [by repeat (split; [assumption|])|]. do 4 (split; [assumption || by split|]). assumption.
Qed.

Lemma push_snapshots_typed t : in_i64 t -> keep (push_snapshots t) (fun _ => True).
Proof.
  intros Ht s a s' Hs H. apply res_bind_inv in H as (s1 & H & [= <- <-]). split; [|done].
  assert (HF : Forall in_u32 (map Z.of_nat (List.seq 0 (Z.to_nat kMaxSymbols)))).
  { by repeat constructor. }
  revert s Hs H. induction HF as [|i l Hi _ IH]; intros s Hs H; cbn [res_fold] in H; [by injection H as <-|].
  apply res_bind_inv in H as (s2 & H1 & H2). eapply IH; [|exact H2]. by eapply push_one_typed.
Qed.

Lemma exec_quote_typed e q : typed e -> typed q -> typed (exec_quote e q).
Proof. intros (?&?&?&?) [? ?]. unfold exec_quote. by destruct (x_kind e). Qed.

Lemma on_exec_typed e o o' : typed e -> typed o -> on_exec e o = Ok o' -> typed o'.
Proof.
  intros He Ho. unfold on_exec. generalize [0; 1]. intros sides. revert Ho.
  induction sides as [|i sides IH]; intros Ho H; cbn [on_exec_loop] in H; [by injection H as <-|].
  apply res_bind_inv in H as (q & Hq & H). pose proof (slot_read_typed _ _ _ _ Ho Hq) as Hqt.
  destruct (_ =? _); [|by apply IH]. injection H as <-. by apply slot_write_typed, exec_quote_typed.
Qed.

Lemma handle_exec_typed e : typed e -> keep (handle_exec e) (fun _ => True).
Proof.
  intros He. pose proof He as (?&?&?&?). eapply (keeps_bind _ _ _ (fun _ => True)).
  { intros s a s' (?&?&?&?&?&?&Ho&?&?&?) H'. apply res_bind_inv in H' as (o & Hx & [= <- <-]).
    pose proof (on_exec_typed _ _ _ He Ho Hx). split; [fields_typed|exact I]. }
  intros _ _. apply keeps_when. intros _. eapply (keeps_bind _ _ _ (fun _ => True)).
  { intros s a s' (?&?&?&?&(?&?&?&Hr)&?&?&?&?&?) H'. apply res_bind_inv in H' as ([b db] & Hp & [= <- <-]).
    unfold push_trade in Hp. apply res_bind_inv in Hp as ([ok r] & Hp & [= _ <-]).
    pose proof (push_typed _ _ _ _ Hr He Hp). split; [|exact I]. do 4 (split; [assumption|]).
    split; [by repeat (split; [assumption|])|]. do 4 (split; [assumption|]). assumption. }
  intros _ _. by apply log_record_typed, log_rec_typed.
Qed.

Lemma checked64_typed z t : checked64 z = Ok t -> in_i64 t.
Proof.
  unfold checked64. destruct (_ && _) eqn:E; [|done]. intros [= <-].
  apply andb_true_iff in E as [?%Z.leb_le ?%Z.ltb_lt]. by split.
Qed.

Lemma record_in_typed get set ns :
  (forall t, ns = Ok t -> in_i64 t) -> (forall m, typed m -> typed (get m)) ->
  (forall m h, typed h -> typed m -> typed (set m h)) -> keep (record_in get set ns) (fun _ => True).
Proof.
  intros Hn Hg Hset s a s' (?&?&?&?&?&Hm&?&?&?&?) H'. unfold record_in in H'.
  apply res_bind_inv in H' as (t & Ht & H'). apply res_bind_inv in H' as (h & Hh & [= <- <-]).
  pose proof (record_typed _ _ _ (Hg _ Hm) (Hn _ Ht) Hh) as Hh'. pose proof (Hset _ _ Hh' Hm).
  split; [fields_typed|exact I].
Qed.

Lemma apply_snapshot_typed e d ob : typed e -> typed (apply_snapshot e d ob).
Proof.
  intros (?&?&Hb&Ha&?&?&?&?&?). do 4 (split; [assumption|]). split; [|split; [|by split]];
    cbn [n_bids n_asks apply_snapshot]; unfold cap_levels; destruct (_ <? _); try done;
    apply Z.mod_pos_bound; lia.
Qed.

Lemma md_update_typed ev : typed ev -> keep (md_update cfg clock ev) (fun '(t, ob) => in_i64 t /\ typed ob).
Proof.
  intros He. unfold md_update. eapply keeps_bind; [apply now_typed|]. intros t Ht.
  eapply keeps_bind.
  { apply record_in_typed; [intros x; apply checked64_typed|by intros m (?&?&?&_)|auto with mm]. }
  intros _ _. eapply (keeps_bind _ _ _ (fun _ => True)).
  { intros s a s' Hs H'. apply res_bind_inv in H' as (ob & _ & [= <- <-]). by split. }
  intros ob _. pose proof (apply_snapshot_typed ev (book_depth cfg) ob He) as Hob. eapply (keeps_bind _ _ _ (fun _ => True)).
  { intros s a s' (?&?&?&?&?&?&?&[Hl Hb]&?&?) H'. apply res_bind_inv in H' as (b & Hw & [= <- <-]).
    unfold array_write in Hw. destruct (in_bounds _ _); [|done]. injection Hw as <-. split; [|exact I].
    do 7 (split; [assumption|]). split; [|by split]. cbn [books_ set_books]. split; [by rewrite length_insert|].
    by apply Forall_insert. }
  intros _ _. eapply keeps_bind; [apply now_typed|]. intros t2 Ht2. eapply keeps_bind.
  { apply record_in_typed; [intros x; apply checked64_typed|by intros m (?&_)|auto with mm]. }
  intros _ _. by apply keeps_ret.
Qed.

Lemma handle_md_typed ev : typed ev -> keep (handle_md cfg clock ev) (fun _ => True).
Proof.
  intros He. pose proof He as (?&?&_). eapply keeps_bind; [by apply md_update_typed|]. intros [t ob] [Ht Hob].
  eapply keeps_bind. { apply keeps_when. intros _. by apply decide_typed. }
  intros _ _. unfold snapshot_if_due. eapply (keeps_bind _ _ _ (fun _ => True)); [by apply keeps_gets|].
  intros due _. apply keeps_when. intros _. eapply (keeps_bind _ _ _ (fun _ => True)).
  { intros s a s' (?&?&?&?&?&?&?&?&?&?) H'. apply res_bind_inv in H' as (x & Hx & [= <- <-]).
    pose proof (checked64_typed _ _ Hx). split; [fields_typed|exact I]. }
  intros _ _. by apply push_snapshots_typed.
Qed.
End Strategy.

(** ** The FIX application and the cold threads *)
Section Edges.
Context {QO : QueueOps} {QL : QueueLaws} {QF : QuickFix} {LO : LmdbOps}.
Context (cfg : EngineConfig) (clock : nat -> Z).
Context {HK : ClockOk clock}.

#[export] Instance FixApp_type : CppType FixApp := fun f =>
  fix_shape f /\ in_u32 (md_seq_ f) /\ typed (md_ring_ f) /\ typed (exec_ring_ f) /\ typed (fix_metrics f).

(** *** Parsed messages *)

Lemma symbol_id_u32 f s : fix_shape f -> in_u32 (symbol_id f s).
Proof.
  intros Hf. destruct (symbol_id_cases f s Hf) as [(_ & _ & _ & H & _)|[_ ->]];
    unfold in_u32, UINT32_MAX, kMaxSymbols in *; lia.
Qed.

Lemma add_entry_seq ev t p q ev' : add_entry ev t p q = Ok ev' -> md_seq ev' = md_seq ev.
Proof.
  unfold add_entry. destruct (_ && _).
  { unfold add_bid. intros H. apply res_bind_inv in H as (? & _ & H). by apply res_bind_inv in H as (? & _ & [= <-]). }
  destruct (_ && _).
  { unfold add_ask. intros H. apply res_bind_inv in H as (? & _ & H). by apply res_bind_inv in H as (? & _ & [= <-]). }
  destruct (bool_decide _); by intros [= <-].
Qed.

Lemma md_entries_seq n i msg ev ev' : md_entries n i msg ev = Ok ev' -> md_seq ev' = md_seq ev.
Proof.
  revert i ev. induction n as [|n IH]; intros i ev H; cbn [md_entries] in H; [by injection H as <-|].
  do 4 (apply res_bind_inv in H as (? & _ & H)). apply res_bind_inv in H as (ev1 & H1 & H).
  rewrite (IH _ _ H). by eapply add_entry_seq.
Qed.

Lemma md_parse_typed {QFL : QuickFixLaws} f msg t0 seq ev :
  fix_shape f -> in_i64 t0 -> in_u32 seq -> md_parse f msg t0 seq = Ok (Some ev) -> typed ev.
Proof.
  intros Hf Ht Hs H. destruct (md_parse_pushed f msg t0 seq Hf) as [_ Hp].
  destruct (Hp ev H) as [[Hsym Hnb Hna ? ? ? ?] Htm].
  assert (Hseq : md_seq ev = seq).
  { unfold md_parse in H. apply res_bind_inv in H as (s & _ & H). destruct (_ =? _); [done|].
    apply res_bind_inv in H as (n & _ & H). apply res_bind_inv in H as (ev1 & H & [= <-]).
    by apply md_entries_seq in H. }
  split; [by rewrite Htm|]. unfold kMaxSymbols, kMaxDepth, in_u32, in_u16 in *.
  split; [lia|]. split; [lia|]. split; [lia|]. do 4 (split; [done|]). by rewrite Hseq.
Qed.

Lemma exec_parse_typed f msg t ev :
  fix_shape f -> in_i64 t -> exec_parse f msg t = Ok ev -> typed ev.
Proof.
  intros Hf Ht H. unfold exec_parse in H. do 5 (apply res_bind_inv in H as (? & _ & H)).
  injection H as <-. split; [exact Ht|]. split; [|split]; cbn [x_cl_ord_id x_symbol_id x_order_id].
  - destruct (er_cl_ord_id msg); [apply strtoull_u64|unfold in_u64; lia].
  - destruct (er_symbol msg); [by apply symbol_id_u32|unfold in_u32; lia].
  - destruct (er_order_id msg) as [s|]; [|done]. rewrite strncpy_length; [done|].
    unfold zero_chars. rewrite length_replicate. unfold order_id_size. lia.
Qed.

(** *** The callbacks *)

Lemma seq_typed f n k : in_u32 n -> typed f -> typed (fx_set_seq f n k).
Proof. intros Hn ([? ?]&?&?&?&?). split; [by split|]. by do 3 (split; [assumption|]). Qed.

Lemma fromApp_typed {QFL : QuickFixLaws} msg f f' : typed f -> fromApp clock msg f = Ok f' -> typed f'.
Proof.
  intros Hf. unfold fromApp.
  assert (H : forall r g, crack clock msg f = (r, g) -> typed g).
  { intros r g. destruct msg as [m|m|]; cbn [crack]; [unfold onMessage_md|unfold onMessage_exec|by intros [= _ <-]].
    - set (f1 := fx_set_seq f _ _). assert (Hf1 : typed f1) by (apply seq_typed; [apply u32_range|done]).
      pose proof Hf1 as (Hsh & Hseq & Hmd & Hex & Hm).
      destruct (md_parse f1 m _ _) as [[ev|]|e] eqn:Ep; [|by intros [= _ <-]..].
      pose proof (md_parse_typed _ _ _ _ _ Hsh (time_i64 clock (fix_now f)) Hseq Ep) as Hev.
      destruct (q_push ev (md_ring_ f1)) as [[ok q]|e] eqn:Eq; [|by intros [= _ <-]].
      pose proof (push_typed _ _ _ _ Hmd Hev Eq) as Hq. intros [= _ <-].
      split; [by destruct Hsh; split|]. do 3 (split; [done|]). cbn [fix_metrics fx_set_md].
      apply track_md_queue_typed; [by apply queue_size_u64|]. destruct ok; auto with mm.
    - set (f1 := fx_set_seq f _ _). assert (Hf1 : typed f1) by (apply seq_typed; [apply Hf|done]).
      pose proof Hf1 as (Hsh & Hseq & Hmd & Hex & Hm).
      destruct (exec_parse f1 m _) as [ev|e] eqn:Ep; [|by intros [= _ <-]].
      pose proof (exec_parse_typed _ _ _ _ Hsh (time_i64 clock (fix_now f)) Ep) as Hev.
      destruct (q_push ev (exec_ring_ f1)) as [[ok q]|e] eqn:Eq; [|by intros [= _ <-]].
      pose proof (push_typed _ _ _ _ Hex Hev Eq) as Hq. intros [= _ <-].
      split; [by destruct Hsh; split|]. do 3 (split; [done|]). cbn [fix_metrics fx_set_exec]. auto with mm. }
  destruct (crack clock msg f) as [r g] eqn:E. specialize (H r g eq_refl).
  destruct r as [|[|]]; try done; by intros [= <-].
Qed.

Lemma session_typed f l sid : typed f -> typed (fx_set_session f l sid).
Proof. intros ([? ?]&?&?&?&?). split; [by split|]. by do 3 (split; [assumption|]). Qed.

Lemma out_typed f o m n : typed m -> typed f -> typed (fx_set_out f o m n).
Proof. intros Hm ([? ?]&?&?&?&?). split; [by split|]. by do 3 (split; [assumption|]). Qed.

Lemma onLogon_typed send f f' : typed f -> onLogon cfg send f = Ok f' -> typed f'.
Proof.
  intros Hf H. unfold onLogon, subscribe_market_data in H. apply res_bind_inv in H as (b & _ & [= <-]).
  apply out_typed; [apply Hf|by apply session_typed].
Qed.

Lemma send_order_cmd_typed send c f f' :
  typed f -> send_order_cmd cfg clock send c f = Ok f' -> typed f'.
Proof.
  intros Hf H. pose proof Hf as (_ & _ & _ & _ & Hm). unfold send_order_cmd in H.
  do 2 (apply res_bind_inv in H as (? & _ & H)). destruct (c_type c).
  - apply res_bind_inv in H as (ns & Hns & H). apply res_bind_inv in H as (h & Hh & [= <-]).
    apply out_typed; [|done]. apply inc_orders_sent_typed, set_tick_to_trade_typed; [|done].
    eapply record_typed; [|by eapply checked64_typed|exact Hh]. apply Hm.
  - injection H as <-. apply out_typed; [auto with mm|done].
Qed.

(** *** The cold threads *)

Lemma log_iter_typed lg lg' : typed lg -> log_iter lg = Ok lg' -> typed lg'.
Proof.
  intros Hl H. unfold log_iter in H. apply res_bind_inv in H as ([[f n] ring] & H & [= <-]).
  by eapply drained_typed in H.
Qed.

Lemma persist_loop_typed {T} `{!CppType T} (key : T -> Z -> Res chars) wrap fuel db ring txn seq n :
  (forall x s, typed x -> in_u64 s -> exists k, key x s = Ok k) -> typed ring -> in_u64 seq ->
  exists txn' seq' n' ring', persist_loop key wrap fuel db ring (txn, seq, n) = Ok ((txn', seq', n'), ring') /\
    typed ring' /\ in_u64 seq'.
Proof.
  intros Hk. revert ring txn seq n. induction fuel as [|fuel IH]; intros ring txn seq n Hr Hs; cbn [persist_loop].
  { by do 4 eexists. }
  destruct (q_pop_law _ _ ring kSnapCap_legal (proj1 Hr)) as (r1 & Hp & _).
  destruct (pop_typed _ _ _ Hr Hp) as [Hr1 Hx]. rewrite Hp. cbn [res_bind].
  destruct (head (q_contents ring)) as [x|]; [|by do 4 eexists].
  destruct (ensure_txn db txn) as [t|]; [|by do 4 eexists].
  destruct (Hk x seq (Hx x eq_refl) Hs) as [k ->]. cbn [res_bind]. apply IH; [done|apply u64_range].
Qed.

(** A cycle of the persister always returns, and keeps the types. *)
Lemma persist_cycle_typed p db : typed p -> exists p' db', persist_cycle p db = Ok (p', db') /\ typed p'.
Proof.
  intros (Hs & Ht & Hsr & Htr). unfold persist_cycle, snap_loop, trade_loop.
  destruct (persist_loop_typed (fun s seq => snap_key (s_symbol_id s) seq) BSnap (drain_fuel (snap_ring_ p)) db
    (snap_ring_ p) None (snap_seq_ p) 0) as (txn & sseq & n & sr & -> & Hsr' & Hs'); [|done..|].
  { intros x sq (_ & Hx & _) Hq. eexists. by apply snap_key_ok. }
  cbn [res_bind].
  destruct (persist_loop_typed (fun (_ : ExecEvent) seq => trade_key seq) BTrade (drain_fuel (trade_ring_ p)) db
    (trade_ring_ p) txn (trade_seq_ p) n) as (txn' & tseq & n' & tr & -> & Htr' & Ht'); [|done..|].
  { intros x sq _ Hq. eexists. by apply trade_key_ok. }
  cbn [res_bind]. destruct txn'; do 2 eexists; (split; [reflexivity|]); by do 3 (split; [done|]).
Qed.
End Edges.
