(* ===== verification/Storage.v ===== *)
(** * The life of the database handle (src/src/storage/lmdb_persister.hpp)

    LmdbPersister::open, put, run and the destructor as the sequence of LMDB
    calls they make, for every combination of return codes.  [lmdb_step] is
    the order in which lmdb.h allows the calls; the theorems say that the
    program keeps to it, and where it does not: [put] does not look at the
    code of its mdb_dbi_open. *)
From S2P Require Import Prelude.
From S2P Require Import Double.
From S2P Require Import Events.
From S2P Require Import SpscRing.
From S2P Require Import Queue.
From S2P Require Import Text.
From S2P Require Import Persister.
From S2P Require Import MarketMaker.
From S2P Require Import Typing.
From Stdlib Require Import Ascii.

(** ** Calls *)

Inductive env_flag := MDB_NOSUBDIR | MDB_NOSYNC.

Inductive LmdbCall :=
| EnvCreate
| EnvSetMapsize (bytes : Z)
| EnvOpen (path : chars) (flags : list env_flag) (mode : Z)
| TxnBegin
| DbiOpen
| Put (key : chars) (v : blob)
| TxnAbort
| TxnCommit
| EnvSync (force : Z)
| EnvClose.

(** A call and the code it returned. *)
Definition history : Type := list (LmdbCall * Z).

(** ** What lmdb.h allows

    A handle exists from a successful mdb_env_create to mdb_env_close; it is
    opened once, and only closed after an open that failed; a transaction is
    begun on an open environment and ended by a commit or an abort; data is
    put through a database handle opened in the transaction. *)
Inductive EnvState := NoEnv | Created | OpenFailed | Opened | InTxn (dbi : bool).

#[export] Instance EnvState_eq_dec : EqDecision EnvState.
Proof. solve_decision. Defined.

Definition lmdb_step (s : EnvState) (c : LmdbCall * Z) : option EnvState :=
  let '(call, rc) := c in
  let ok := rc =? 0 in
  match s, call with
  | NoEnv, EnvCreate => Some (if ok then Created else NoEnv)
  | Created, EnvSetMapsize _ => Some Created
  | Created, EnvOpen _ _ _ => Some (if ok then Opened else OpenFailed)
  | Opened, TxnBegin => Some (if ok then InTxn false else Opened)
  | InTxn d, DbiOpen => Some (InTxn (d || ok))
  | InTxn true, Put _ _ => Some (InTxn true)
  | InTxn _, (TxnAbort | TxnCommit) => Some Opened
  | Opened, EnvSync _ => Some Opened
  | (Created | OpenFailed | Opened), EnvClose => Some NoEnv
  | _, _ => None
  end.

Fixpoint lmdb_run (s : EnvState) (h : history) : option EnvState :=
  match h with
  | [] => Some s
  | c :: h => match lmdb_step s c with Some s' => lmdb_run s' h | None => None end
  end.

Lemma lmdb_run_app s h1 h2 :
  lmdb_run s (h1 ++ h2) = match lmdb_run s h1 with Some s' => lmdb_run s' h2 | None => None end.
Proof.
  revert s. induction h1 as [|c h1 IH]; intros s; cbn [app lmdb_run]; [done|].
  destruct (lmdb_step s c); [apply IH|done].
Qed.

(** ** Paths, as std::filesystem sees them on POSIX *)

Definition slash : ascii := chr 47.
Definition is_slash (c : ascii) : bool := bool_decide (c = slash).

(** The longest prefix of the reversed path that is a directory. *)
Fixpoint drop_name (rev_path : chars) : chars :=
  match rev_path with
  | [] => []
  | c :: s => if is_slash c then rev_path else drop_name s
  end.

Fixpoint drop_slashes (rev_path : chars) : chars :=
  match rev_path with
  | [] => []
  | c :: s => if is_slash c then drop_slashes s else rev_path
  end.

(** [p.parent_path()]: the root of a path below the root; empty for a name
    without directory. *)
Definition parent_path (p : chars) : chars :=
  let dir := drop_name (rev p) in
  match drop_slashes dir with
  | [] => match dir with [] => [] | _ => [slash] end
  | d => rev d
  end.

Definition has_parent_path (p : chars) : bool := negb (bool_decide (parent_path p = [])).

(** ** LmdbPersister *)
Section Open.
(** The return code of the next call, given those made. *)
Context (rc : history -> LmdbCall -> Z).

Record Handle := mkHandle {
  env_ : bool;                  (* [env_ != nullptr] *)
  dirs_made : list chars;       (* directories asked for *)
  calls : history
}.

Definition handle_init : Handle := mkHandle false [] [].

Definition call (c : LmdbCall) : M Handle Z := fun h =>
  let r := rc (calls h) c in Ok (r, mkHandle (env_ h) (dirs_made h) (calls h ++ [(c, r)])).

(** The error code of create_directories is ignored. *)
Definition create_directories (p : chars) : M Handle unit :=
  modify (fun h => mkHandle (env_ h) (dirs_made h ++ [p]) (calls h)).

(** [mdb_env_create] writes the handle when it succeeds. *)
Definition env_create : M Handle Z :=
  let! r := call EnvCreate in
  modify (fun h => mkHandle (if r =? 0 then true else env_ h) (dirs_made h) (calls h)) ;;;
  ret r.

Definition open (path : chars) : M Handle bool :=
  when (has_parent_path path) (create_directories (parent_path path)) ;;;
  let! r := env_create in
  if negb (r =? 0) then ret false
  else
    let! _ := call (EnvSetMapsize (Z.shiftl 1 30)) in
    let! r := call (EnvOpen (c_str path) [MDB_NOSUBDIR; MDB_NOSYNC] 436) in
    if negb (r =? 0) then ret false
    else
      let! r := call TxnBegin in
      if negb (r =? 0) then ret false
      else
        let! r := call DbiOpen in
        if negb (r =? 0) then (let! _ := call TxnAbort in ret false)
        else (let! _ := call TxnCommit in ret true).

(** [~LmdbPersister]. *)
Definition close : M Handle unit :=
  fun h => if env_ h then res_bind (call EnvClose h) (fun '(_, h) => Ok (tt, h)) else Ok (tt, h).
End Open.

(** ** The persister thread *)

(** LMDB as a recorder of calls: the database and its transaction are the
    history.  [put] opens the unnamed database again for every record; a begin
    that fails leaves no transaction behind and is not recorded. *)
Definition traced (rc : history -> LmdbCall -> Z) : LmdbOps := {|
  Db := history;
  Txn := history;
  mdb_txn_begin := fun h => let r := rc h TxnBegin in if r =? 0 then Some (h ++ [(TxnBegin, r)]) else None;
  mdb_put := fun k v h =>
    let h := h ++ [(DbiOpen, rc h DbiOpen)] in
    let r := rc h (Put k v) in (r =? 0, h ++ [(Put k v, r)]);
  mdb_txn_commit := fun h _ => let r := rc h TxnCommit in (r =? 0, h ++ [(TxnCommit, r)]);
  mdb_get := fun _ _ => None;
  txn_get := fun _ _ => None
|}.

Section Life.
Context {QO : QueueOps} (rc : history -> LmdbCall -> Z).

(** [run], and the final sync when it leaves its loop. *)
Definition db_thread (script : list persist_in) (p : LmdbPersister) : M Handle unit := fun h =>
  res_bind (@persist_run QO (traced rc) script p (calls h)) (fun '(left_loop, (_, cs)) =>
  let h := mkHandle (env_ h) (dirs_made h) cs in
  if left_loop : bool then res_bind (call rc (EnvSync 1) h) (fun '(_, h) => Ok (tt, h)) else Ok (tt, h)).

(** An engine's database from start to exit: main opens it and gives up when
    that fails; the persister thread runs; the destructor closes it. *)
Definition db_life (path : chars) (script : list persist_in) (p : LmdbPersister) : M Handle bool :=
  let! ok := open rc path in
  when ok (db_thread script p) ;;;
  close rc ;;;
  ret ok.
End Life.

(** ** The loop of the persister thread returns *)
Section Loop.
Context {QO : QueueOps} {QL : QueueLaws} {LO : LmdbOps}.

Definition input_typed (i : persist_in) : Prop := Forall typed (fst (fst i)) /\ Forall typed (snd (fst i)).

Lemma persist_push_typed i p : input_typed i -> typed p -> exists p', persist_push i p = Ok p' /\ typed p'.
Proof.
  destruct i as [[ss es] r]. intros [Hss Hes] Hp. unfold persist_push.
  edestruct (res_fold_total (fun s p => res_bind (push_snapshot s p) (fun '(_, p) => Ok p)) typed typed ss p)
    as (p1 & -> & Hp1); [|done|done|].
  { intros s q Hs (?&?&Hr&?). unfold push_snapshot.
    destruct (q_push_law _ _ (snap_ring_ q) s kSnapCap_legal (proj1 Hr)) as (r' & Hpu & _).
    rewrite Hpu. eexists. split; [reflexivity|]. do 2 (split; [assumption|]). split; [by eapply push_typed|done]. }
  cbn [res_bind].
  apply (res_fold_total (fun e p => res_bind (push_trade e p) (fun '(_, p) => Ok p)) typed typed es p1); [|done|done].
  intros e q He (?&?&?&Hr). unfold push_trade.
  destruct (q_push_law _ _ (trade_ring_ q) e kSnapCap_legal (proj1 Hr)) as (r' & Hpu & _).
  rewrite Hpu. eexists. split; [reflexivity|]. do 3 (split; [assumption|]). by eapply push_typed.
Qed.

Lemma persist_run_total script p db :
  Forall input_typed script -> typed p ->
  exists b p' db', persist_run script p db = Ok (b, (p', db')) /\ typed p'.
Proof.
  intros Hs. revert p db. induction Hs as [|i script Hi Hs IH]; intros p db Hp; cbn [persist_run]; [by do 3 eexists|].
  destruct (persist_push_typed i p Hi Hp) as (p1 & -> & Hp1). cbn [res_bind].
  destruct (_ || _); [|by do 3 eexists].
  destruct (persist_cycle_typed p1 db Hp1) as (p2 & db2 & -> & Hp2). cbn [res_bind]. by apply IH.
Qed.

(** A drain loop takes one record at least, whatever LMDB answers. *)
Lemma persist_loop_shrinks {T} (key : T -> Z -> Res chars) wrap fuel db ring st st' ring' :
  q_ok ring -> fuel <> O -> persist_loop key wrap fuel db ring st = Ok (st', ring') ->
  q_ok ring' /\ (length (q_contents ring') <= Nat.pred (length (q_contents ring)))%nat.
Proof.
  revert ring st. induction fuel as [|fuel IH]; intros ring [[txn seq] n] Hok Hf H; cbn [persist_loop] in H; [done|].
  destruct (q_pop_law _ _ ring kSnapCap_legal Hok) as (r1 & Hp & Hok1 & Hc). rewrite Hp in H. cbn [res_bind] in H.
  apply (f_equal length) in Hc as Hlen.
  assert (Hpred : (length (q_contents r1) <= Nat.pred (length (q_contents ring)))%nat)
    by (rewrite Hlen; by destruct (q_contents ring)).
  destruct (head (q_contents ring)) as [x|]; [|injection H as _ <-; split; [done|lia]].
  destruct (ensure_txn db txn); [|injection H as _ <-; split; [done|lia]].
  apply res_bind_inv in H as (k & _ & H). destruct fuel as [|fuel].
  - injection H as _ <-. done.
  - destruct (IH _ _ Hok1 ltac:(done) H). split; [done|]. lia.
Qed.

(** What is left to store. *)
Definition pending (p : LmdbPersister) : nat := Nat.max (length (snaps p)) (length (trades p)).

Lemma persist_cycle_shrinks p db p' db' :
  typed p -> persist_cycle p db = Ok (p', db') -> (pending p' <= Nat.pred (pending p))%nat.
Proof.
  intros (_&_&[Hs _]&[Ht _]) H. unfold persist_cycle in H.
  apply res_bind_inv in H as ([[[t1 sq] n] r] & H1 & H).
  apply res_bind_inv in H as ([[[t2 tq] n2] r2] & H2 & H).
  apply persist_loop_shrinks in H1 as [_ H1]; [|done|done]. apply persist_loop_shrinks in H2 as [_ H2]; [|done|done].
  unfold pending, snaps, trades in *. destruct t2; injection H as <- _; cbn [snap_ring_ trade_ring_]; lia.
Qed.

Lemma persist_run_drains n p db :
  (pending p <= n)%nat -> typed p ->
  exists p' db', persist_run (replicate (S n) ([], [], false)) p db = Ok (true, (p', db')) /\
    snaps p' = [] /\ trades p' = [].
Proof.
  revert p db. induction n as [|n IH]; intros p db Hn Hp; pose proof Hp as (_&_&[Hs _]&[Ht _]);
    destruct (q_size_law _ _ (snap_ring_ p) kSnapCap_legal Hs) as [Es _];
    destruct (q_size_law _ _ (trade_ring_ p) kSnapCap_legal Ht) as [Et _];
    cbn [replicate persist_run persist_push res_fold res_bind snd orb];
    fold (snaps p) in Es; fold (trades p) in Et; rewrite Es, Et.
  - assert (H1 : snaps p = []) by (apply length_zero_iff_nil; unfold pending in Hn; lia).
    assert (H2 : trades p = []) by (apply length_zero_iff_nil; unfold pending in Hn; lia).
    rewrite H1, H2. by exists p, db.
  - destruct (Z.eqb_spec (Z.of_nat (length (snaps p))) 0), (Z.eqb_spec (Z.of_nat (length (trades p))) 0);
      cbn [negb orb]; [|destruct (persist_cycle_typed p db Hp) as (p2 & db2 & E & Hp2); rewrite E; cbn [res_bind];
        apply persist_cycle_shrinks in E; [|done]; apply (IH p2 db2); [lia|done]..].
    exists p, db. split; [done|]. split; apply length_zero_iff_nil; lia.
Qed.

Lemma persist_run_app s1 s2 p db b p1 db1 :
  persist_run s1 p db = Ok (b, (p1, db1)) ->
  persist_run (s1 ++ s2) p db = if b : bool then Ok (true, (p1, db1)) else persist_run s2 p1 db1.
Proof.
  revert p db. induction s1 as [|i s1 IH]; intros p db; cbn [app persist_run]; [by intros [= <- <- <-]|].
  destruct (persist_push i p) as [p2|]; [|done]. cbn [res_bind]. destruct (_ || _); [|by intros [= <- <- <-]].
  destruct (persist_cycle p2 db) as [[p3 db3]|]; [|done]. apply IH.
Qed.

Lemma persister_init_typed : typed persister_init.
Proof.
  repeat apply conj; cbn [persister_init snap_seq_ trade_seq_ snap_ring_ trade_ring_]; unfold in_u64; try lia;
    try (apply q_init_ok, kSnapCap_legal); rewrite (q_init_empty kSnapCap _ kSnapCap_legal); constructor.
Qed.

(** What is pushed while the flag is set, then nothing more until the loop ends. *)
Definition whole_run (pushed : list persist_in) : list persist_in :=
  pushed ++ replicate (S (Z.to_nat kSnapCap)) ([], [], false).

Lemma whole_run_ends pushed db :
  Forall input_typed pushed -> exists p' db', persist_run (whole_run pushed) persister_init db = Ok (true, (p', db')).
Proof.
  intros Hin. destruct (persist_run_total pushed persister_init db Hin persister_init_typed) as (b & p1 & db1 & E & Hp1).
  unfold whole_run. rewrite (persist_run_app _ _ _ _ _ _ _ E). destruct b; [by do 2 eexists|].
  destruct (persist_run_drains (Z.to_nat kSnapCap) p1 db1) as (p' & db' & H & _); [|done|by do 2 eexists].
  destruct Hp1 as (_&_&[Hs _]&[Ht _]).
  pose proof (q_size_law _ _ (snap_ring_ p1) kSnapCap_legal Hs). pose proof (q_size_law _ _ (trade_ring_ p1) kSnapCap_legal Ht).
  unfold pending, snaps, trades. lia.
Qed.

(** C27: the persister thread ends.  Once the running flag is cleared and nothing
    is pushed any more, run leaves its loop after at most as many cycles as the
    longer of its two rings holds records, with both rings empty, whatever LMDB
    answers (also when no transaction can be begun). *)
Theorem persist_run_stops (p : LmdbPersister) (db : Db) :
  typed p ->
  exists p' db', persist_run (replicate (S (pending p)) ([], [], false)) p db = Ok (true, (p', db')) /\
    snaps p' = [] /\ trades p' = [].
Proof. by apply persist_run_drains. Qed.
End Loop.

(** ** The calls are legal *)
Section Facts.
Context {QO : QueueOps} {QL : QueueLaws} (rc : history -> LmdbCall -> Z).

(** The one thing [run] does that lmdb.h does not allow: up to here every call
    was legal, the next is the mdb_dbi_open of a [put], which fails in a
    transaction with no handle yet, and the put follows all the same. *)
Definition unguarded_put (h : history) : Prop :=
  exists pre c k v r post, h = pre ++ [(DbiOpen, c); (Put k v, r)] ++ post /\ c <> 0 /\
    lmdb_run NoEnv pre = Some (InTxn false).

Definition env_open (h : history) : Prop := lmdb_run NoEnv h = Some Opened \/ unguarded_put h.
Definition env_txn (h : history) : Prop := (exists d, lmdb_run NoEnv h = Some (InTxn d)) \/ unguarded_put h.

Lemma unguarded_app h1 h2 : unguarded_put h1 -> unguarded_put (h1 ++ h2).
Proof.
  intros (pre & c & k & v & r & post & -> & Hc & Hr). exists pre, c, k, v, r, (post ++ h2).
  by rewrite <- !app_assoc.
Qed.

Lemma begin_legal h t : env_open h -> @mdb_txn_begin (traced rc) h = Some t -> env_txn t.
Proof.
  cbn. destruct (rc h TxnBegin =? 0) eqn:E; [|done]. intros [Hr|Hu] [= <-]; [left|right; by apply unguarded_app].
  exists false. rewrite lmdb_run_app, Hr. cbn. by rewrite E.
Qed.

Lemma put_legal k v h : env_txn h -> env_txn (snd (@mdb_put (traced rc) k v h)).
Proof.
  cbn. intros [[d Hr]|Hu]; [|right; by do 2 apply unguarded_app].
  destruct (d || (rc h DbiOpen =? 0)) eqn:E.
  - left. exists true. rewrite !lmdb_run_app, Hr. destruct d; cbn in *; [done|by rewrite E].
  - right. apply orb_false_iff in E as [-> E%Z.eqb_neq]. rewrite <- app_assoc.
    by exists h, (rc h DbiOpen), k, v, (rc (h ++ [(DbiOpen, rc h DbiOpen)]) (Put k v)), [].
Qed.

Lemma commit_legal h db : env_txn h -> env_open (snd (@mdb_txn_commit (traced rc) h db)).
Proof.
  cbn. intros [[d Hr]|Hu]; [left|right; by apply unguarded_app]. rewrite lmdb_run_app, Hr. by destruct d.
Qed.

(** A dead handle: nothing but its creation, or its closing after a failed open,
    is allowed any more; no call of [run] revives it. *)
Definition env_dead (h : history) : Prop :=
  lmdb_run NoEnv h = Some NoEnv \/ lmdb_run NoEnv h = Some OpenFailed \/ lmdb_run NoEnv h = None.
Definition txn_dead (h : history) : Prop := lmdb_run NoEnv h = None.

Lemma dead_app h1 h2 : txn_dead h1 -> txn_dead (h1 ++ h2).
Proof. unfold txn_dead. rewrite lmdb_run_app. by intros ->. Qed.

Lemma begin_dead h t : env_dead h -> @mdb_txn_begin (traced rc) h = Some t -> txn_dead t.
Proof.
  cbn. destruct (rc h TxnBegin =? 0) eqn:E; [|done]. unfold txn_dead.
  intros Hd [= <-]. rewrite lmdb_run_app. by destruct Hd as [-> |[-> | ->]].
Qed.

Lemma put_dead k v h : txn_dead h -> txn_dead (snd (@mdb_put (traced rc) k v h)).
Proof. intros H. by do 2 apply dead_app. Qed.

Lemma commit_dead h db : txn_dead h -> env_dead (snd (@mdb_txn_commit (traced rc) h db)).
Proof. intros H. right. right. by apply dead_app. Qed.

(** What the calls of a cycle keep, [run] keeps. *)
Section Keeps.
Context (O X : history -> Prop).
Context (begin_keeps : forall h t, O h -> @mdb_txn_begin (traced rc) h = Some t -> X t)
  (put_keeps : forall k v h, X h -> X (snd (@mdb_put (traced rc) k v h)))
  (commit_keeps : forall h db, X h -> O (snd (@mdb_txn_commit (traced rc) h db))).

Lemma loop_keeps {T} (key : T -> Z -> Res chars) wrap fuel db ring txn seq n txn' seq' n' ring' :
  O db -> (forall t, txn = Some t -> X t) ->
  @persist_loop QO (traced rc) T key wrap fuel db ring (txn, seq, n) = Ok ((txn', seq', n'), ring') ->
  forall t, txn' = Some t -> X t.
Proof.
  intros Hdb. revert ring txn seq n. induction fuel as [|fuel IH]; intros ring txn seq n Ht H; cbn [persist_loop] in H.
  { by injection H as <- _ _ _. }
  apply res_bind_inv in H as ([[x|] ring1] & _ & H); [|by injection H as <- _ _ _].
  destruct (@ensure_txn (traced rc) db txn) as [t|] eqn:E; [|injection H as <- _ _ _; done].
  apply res_bind_inv in H as (k & _ & H). eapply IH; [|exact H]. intros ? [= <-]. apply put_keeps.
  destruct txn as [u|]; cbn [ensure_txn] in E; [injection E as <-; by apply Ht|by eapply begin_keeps].
Qed.

Lemma cycle_keeps p db p' db' : O db -> @persist_cycle QO (traced rc) p db = Ok (p', db') -> O db'.
Proof.
  intros Hdb H. unfold persist_cycle, snap_loop, trade_loop in H.
  apply res_bind_inv in H as ([[[t1 sq] n] r] & H1 & H).
  apply res_bind_inv in H as ([[[t2 tq] n2] r2] & H2 & H).
  assert (H0 : forall t, @None history = Some t -> X t) by done.
  pose proof (loop_keeps _ _ _ _ _ _ _ _ _ _ _ _ Hdb H0 H1) as Ht1.
  pose proof (loop_keeps _ _ _ _ _ _ _ _ _ _ _ _ Hdb Ht1 H2) as Ht2.
  destruct t2 as [t|]; injection H as _ <-; [exact (commit_keeps t db (Ht2 t eq_refl))|done].
Qed.

Lemma run_keeps script p db b p' db' : O db -> @persist_run QO (traced rc) script p db = Ok (b, (p', db')) -> O db'.
Proof.
  revert p db. induction script as [|i script IH]; intros p db Hdb H; cbn [persist_run] in H.
  { by injection H as _ _ <-. }
  apply res_bind_inv in H as (p1 & _ & H). destruct (_ || _); [|by injection H as _ _ <-].
  apply res_bind_inv in H as ([p2 db2] & Hc & H). eapply IH; [|exact H]. by eapply cycle_keeps.
Qed.
End Keeps.

Definition run_legal := run_keeps env_open env_txn begin_legal put_legal commit_legal.
Definition run_dead := run_keeps env_dead txn_dead begin_dead put_dead commit_dead.

(** The persister thread of a program that ends: it leaves its loop, and its last
    call is the sync. *)
Lemma db_thread_ends pushed h :
  Forall input_typed pushed ->
  exists h', db_thread rc (whole_run pushed) persister_init h = Ok (tt, h') /\ env_ h' = env_ h /\
    (env_open (calls h) -> env_open (calls h')) /\ (env_dead (calls h) -> txn_dead (calls h')).
Proof.
  intros Hin. unfold db_thread.
  destruct (@whole_run_ends QO QL (traced rc) pushed (calls h) Hin) as (p' & cs & E). rewrite E. cbn [res_bind].
  eexists. split; [reflexivity|]. split; [done|]. cbn [calls]. split; intros H.
  - apply (run_legal _ _ _ _ _ _ H) in E as [Hr|Hu]; [left; by rewrite lmdb_run_app, Hr|right; by apply unguarded_app].
  - apply (run_dead _ _ _ _ _ _ H) in E. unfold txn_dead. rewrite lmdb_run_app. by destruct E as [-> |[-> | ->]].
Qed.

(** The codes [open] looks at. *)
Definition looked_at (c : LmdbCall) : bool :=
  match c with EnvSetMapsize _ | TxnAbort | TxnCommit => false | _ => true end.
Definition call_ok (c : LmdbCall * Z) : bool := negb (looked_at (fst c)) || (snd c =? 0).

(** What [open] leaves behind. *)
Record open_left (b : bool) (h : Handle) : Prop := {
  ol_result : b = forallb call_ok (calls h);
  ol_state : exists s, lmdb_run NoEnv (calls h) = Some s /\ env_ h = bool_decide (s <> NoEnv) /\
    s <> Created /\ (forall d, s <> InTxn d) /\ (b = true -> s = Opened)
}.

Ltac codes := repeat match goal with E : (rc ?h ?c =? 0) = _ |- _ => rewrite E; clear E end.

(** The calls of [open] are legal, and what they leave is decided by the first
    that fails. *)
Lemma open_spec path : exists b h, open rc path handle_init = Ok (b, h) /\ open_left b h.
Proof.
  unfold open. destruct (has_parent_path path); cbn;
    repeat (match goal with |- context [rc ?h ?c =? 0] => destruct (rc h c =? 0) eqn:? end; cbn);
    (do 2 eexists; split; [reflexivity|]); split; try done; cbn;
    try (unfold call_ok; cbn; codes; reflexivity);
    try (eexists; split; [codes; reflexivity|done]).
Qed.

(** The destructor closes what there is to close. *)
Lemma close_ends h s :
  lmdb_run NoEnv (calls h) = Some s -> env_ h = bool_decide (s <> NoEnv) -> (forall d, s <> InTxn d) ->
  exists h', close rc h = Ok (tt, h') /\ lmdb_run NoEnv (calls h') = Some NoEnv.
Proof.
  intros Hs He Ht. unfold close. rewrite He.
  destruct s as [| | | |d]; cbn; eexists; (split; [reflexivity|]); cbn [calls]; rewrite ?lmdb_run_app, Hs; try done.
  by destruct (Ht d).
Qed.

Lemma close_unguarded h : unguarded_put (calls h) -> exists h', close rc h = Ok (tt, h') /\ unguarded_put (calls h').
Proof.
  intros Hu. unfold close. destruct (env_ h); cbn; eexists; (split; [reflexivity|]); [by apply unguarded_app|done].
Qed.

End Facts.

(** ** Witnesses *)

Lemma demo_snap_typed : typed demo_snap.
Proof. repeat split; cbn; unfold in_i64, in_u32, in_u16; lia. Qed.

(** One snapshot queued, and a database that refuses every transaction. *)
Definition one_snapshot : @LmdbPersister list_ops := @mkPersister list_ops 0 0 [demo_snap] [].

Lemma one_snapshot_typed : @typed _ (@LmdbPersister_type list_ops list_laws) one_snapshot.
Proof.
  do 2 (split; [unfold in_u64; cbn; lia|]). split; (split; [vm_compute; discriminate|]);
    repeat constructor; apply demo_snap_typed.
Qed.

Lemma persist_run_stops_witness :
  exists p' db', @persist_run list_ops broken_db [([], [], false); ([], [], false)] one_snapshot tt = Ok (true, (p', db')) /\
    @snaps list_ops list_laws p' = [].
Proof.
  destruct (@persist_run_stops list_ops list_laws broken_db one_snapshot tt one_snapshot_typed) as (p' & db' & H & Hs & _).
  exists p', db'. split; [exact H|exact Hs].
Defined.

(** Every call succeeds: the snapshot is put between a begin and a commit. *)
Definition all_ok : history -> LmdbCall -> Z := fun _ _ => 0.
Definition demo_life : list persist_in := [([demo_snap], [], true); ([], [], false)].

Example demo_life_calls :
  option_map (fun h => map fst (calls h))
    (match @db_life list_ops all_ok (chars_of_string "data/lmdb") demo_life (@persister_init list_ops) handle_init with
     | Ok (_, h) => Some h | Err _ => None end) =
  Some [EnvCreate; EnvSetMapsize 1073741824; EnvOpen (chars_of_string "data/lmdb") [MDB_NOSUBDIR; MDB_NOSYNC] 436;
        TxnBegin; DbiOpen; TxnCommit; TxnBegin; DbiOpen; Put (chars_of_string "ob|3|0000000000") (BSnap demo_snap);
        TxnCommit; EnvSync 1; EnvClose].
Proof. vm_compute. reflexivity. Qed.

(** The second mdb_dbi_open fails: its code is 12 once one has succeeded. *)
Definition dbi_fails_again : history -> LmdbCall -> Z := fun h c =>
  match c with DbiOpen => if existsb (fun c => match fst c with DbiOpen => true | _ => false end) h then 12 else 0 | _ => 0 end.

Definition demo_calls (rc : history -> LmdbCall -> Z) : history :=
  match @db_life list_ops rc (chars_of_string "data/lmdb") demo_life (@persister_init list_ops) handle_init with
  | Ok (_, h) => calls h | Err _ => []
  end.

Example both_ends : lmdb_run NoEnv (demo_calls all_ok) = Some NoEnv /\ lmdb_run NoEnv (demo_calls dbi_fails_again) = None.
Proof. vm_compute. auto. Qed.

