(* ===== verification/Platform.v ===== *)
(** * Clocks and processor affinity (src/src/common/timestamp.hpp, affinity.hpp)

    The calibration of the time stamp counter against the steady clock, the
    conversion of ticks, and the two operating-system requests by which a
    thread pins and prioritises itself.  The clocks and the answers of the
    operating system are parameters. *)
From S2P Require Import Prelude.
From S2P Require Import Double.
From S2P Require Import Dyadic.
From S2P Require Import MarketMaker.
From S2P Require Import MarketMakerFacts.
From S2P Require Import StrategyProps.

(** ** Conversion of a double to a 64-bit integer *)

(** [static_cast<int64_t>(x)]: truncation; a value out of range, an infinity
    or a NaN is undefined behaviour. *)
Definition double_to_i64 (x : double) : Res Z :=
  match x with
  | S754_zero _ => Ok 0
  | S754_finite s m e =>
      let a := if 0 <=? e then Z.shiftl (Zpos m) e else Z.shiftr (Zpos m) (- e) in
      let v := if s then - a else a in
      if (- 2 ^ 63 <=? v) && (v <? 2 ^ 63) then Ok v else Err (UB BadConversion)
  | _ => Err (UB BadConversion)
  end.

(** ** TscCal *)
Section Calibration.
(** The successive readings of the steady clock and of the counter, as this
    thread makes them. *)
Context (clock : nat -> Z) (rdtsc : nat -> Z).

Record TscCal := mkCal { ticks_per_ns : double }.
Definition cal_init : TscCal := mkCal (double_of_Z 1).

(** [while (now_ns() - t0n < 50'000'000) {}] from reading [i] on: the index of
    the next reading after the loop. *)
Fixpoint busy_wait (fuel : nat) (t0n : Z) (i : nat) : Res (option nat) :=
  match fuel with
  | O => Ok None
  | S fuel =>
      res_bind (sub64 (clock i) t0n) (fun d =>
      if d <? 50000000 then busy_wait fuel t0n (S i) else Ok (Some (S i)))
  end.

(** [calibrate], from the clock's reading [i] and the counter's reading [j]. *)
Definition calibrate (fuel : nat) (i j : nat) : Res (option TscCal) :=
  let t0n := clock i in
  let t0t := rdtsc j in
  res_bind (busy_wait fuel t0n (S i)) (fun w =>
  match w with
  | None => Ok None
  | Some k =>
      let t1n := clock k in
      let t1t := rdtsc (S j) in
      res_bind (sub64 t1n t0n) (fun ns =>
      let t := ddiv (double_of_Z (u64 (t1t - t0t))) (double_of_Z ns) in
      Ok (Some (mkCal (if dle t dzero then double_of_Z 1 else t))))
  end).

Definition to_ns (c : TscCal) (ticks : Z) : Res Z :=
  double_to_i64 (ddiv (double_of_Z ticks) (ticks_per_ns c)).
End Calibration.

(** ** Affinity *)

Inductive OsRequest :=
| SetAffinity (cores : gset Z)      (* pthread_setaffinity_np *)
| SetFifo (priority : Z).           (* pthread_setschedparam, SCHED_FIFO *)

Section Affinity.
(** The operating system's return code. *)
Context (os : OsRequest -> Z).

(** The POSIX branch: the set is emptied, and [core] put into it (for the cores
    that a cpu_set_t can hold). *)
Definition pin_this_thread (core : Z) : bool * list OsRequest :=
  if core <? 0 then (false, [])
  else
    let set : gset Z := {[core]} ∪ ∅ in
    (os (SetAffinity set) =? 0, [SetAffinity set]).

(** The Windows branch: the mask [DWORD_PTR(1) << core], undefined from 64 on;
    [win] is SetThreadAffinityMask. *)
Definition pin_this_thread_win (win : Z -> Z) (core : Z) : Res bool :=
  if core <? 0 then Ok false
  else if 64 <=? core then Err (UB BadShift)
  else Ok (negb (win (u64 (Z.shiftl 1 core)) =? 0)).

(** The answer is ignored. *)
Definition boost_priority : list OsRequest := [SetFifo 80].
End Affinity.

(** ** Facts *)

(** *** Rounding keeps the sign *)

(** Zero, finite or infinite, with the sign given. *)
Definition signed (s : bool) (x : double) : Prop :=
  x = S754_zero s \/ (exists m e, x = S754_finite s m e) \/ x = S754_infinity s.

Lemma shr_1_nonneg r : 0 <= shr_m r -> 0 <= shr_m (shr_1 r).
Proof. destruct r as [[|p|p] a b]; cbn; [lia| |lia]. destruct p; cbn; lia. Qed.

Lemma shr_nonneg r e n : 0 <= shr_m r -> 0 <= shr_m (fst (shr r e n)).
Proof.
  intros H. destruct n as [|p|p]; cbn [shr fst]; try done.
  rewrite iter_pos_iter. apply Pos.iter_invariant; [|done]. intros x Hx. by apply shr_1_nonneg.
Qed.

Lemma shr_record_nonneg m l : 0 <= m -> 0 <= shr_m (shr_record_of_loc m l).
Proof. intros H. by destruct l as [|[]]. Qed.

Lemma round_nonneg m l : 0 <= m -> 0 <= round_nearest_even m l.
Proof. intros H. unfold round_nearest_even. destruct l as [|[]]; try lia. destruct (Z.even m); lia. Qed.

Lemma binary_round_aux_signed s m e l : 0 <= m -> signed s (binary_round_aux prec64 emax64 s m e l).
Proof.
  intros H. unfold binary_round_aux, shr_fexp.
  pose proof (shr_nonneg (shr_record_of_loc m l) e (fexp prec64 emax64 (Zdigits2 m + e) - e)
    (shr_record_nonneg m l H)) as H1.
  destruct (shr _ e _) as [r1 e1]. cbn [fst] in H1.
  pose proof (round_nonneg _ (loc_of_shr_record r1) H1) as H2.
  set (m2 := round_nearest_even _ _) in *.
  pose proof (shr_nonneg (shr_record_of_loc m2 loc_Exact) e1 (fexp prec64 emax64 (Zdigits2 m2 + e1) - e1)
    (shr_record_nonneg m2 _ H2)) as H3.
  destruct (shr _ e1 _) as [r2 e2]. cbn [fst] in H3.
  destruct (shr_m r2) as [|p|p]; [by left| |lia]. right. destruct (e2 <=? _); [left; by do 2 eexists|by right].
Qed.

Lemma double_of_Z_signed z : 0 <= z -> signed false (double_of_Z z).
Proof.
  intros H. unfold double_of_Z, binary_normalize. destruct z as [|p|p]; [by left| |lia].
  unfold binary_round. destruct (shl_align _ _ _) as [mz ez]. by apply binary_round_aux_signed.
Qed.

Lemma aligned_nonneg s m : 0 <= m -> 0 <= match s with Zpos _ => Z.shiftl m s | Z0 => m | Zneg _ => 0 end.
Proof. intros H. destruct s; [done|by apply Z.shiftl_nonneg|lia]. Qed.

(** A quotient of a non-negative number and a positive finite one. *)
Lemma ddiv_signed x m e : signed false x -> signed false (ddiv x (S754_finite false m e)).
Proof.
  intros [->|[(mx & ex & ->)| ->]]; unfold ddiv; cbn [SFdiv xorb]; [by left| |by right; right].
  destruct (SFdiv_core_binary _ _ _ _ _ _) as [[q e'] l] eqn:E. apply binary_round_aux_signed.
  unfold SFdiv_core_binary in E.
  match type of E with context [Z.div_eucl ?a ?b] =>
    assert (Ha : 0 <= a) by (apply aligned_nonneg; lia); pose proof (Z_div_pos a b ltac:(lia) Ha) as Hq;
    unfold Z.div in Hq; destruct (Z.div_eucl a b) as [q0 r0] end.
  by injection E as <- _ _.
Qed.

(** A positive integer of fewer than 54 bits is a positive double. *)
Lemma double_of_Z_pos z : 0 < z < 2 ^ 53 -> exists m e, double_of_Z z = S754_finite false m e.
Proof.
  intros H. rewrite dyadic_int.
  assert (Hf : fits53 z) by (unfold fits53; lia).
  assert (Hg : grid_exp 0) by (unfold grid_exp; lia).
  destruct (dyadic_has_shape z 0 Hf Hg) as [|r]; [lia|]. destruct (Z.ltb_spec z 0); [lia|]. by do 2 eexists.
Qed.

(** *** The calibration *)
Section Calibrated.
Context (clock rdtsc : nat -> Z) {HK : ClockOk clock}.

(** The busy-wait returns at the first reading 50 ms after the start. *)
Lemma busy_wait_returns t0 k i :
  0 <= t0 < 2 ^ 62 -> 50000000 <= clock (i + k)%nat - t0 ->
  exists j, busy_wait clock (S k) t0 i = Ok (Some (S j)) /\ (i <= j <= i + k)%nat /\
    50000000 <= clock j - t0 /\ (forall n, (i <= n < j)%nat -> clock n - t0 < 50000000).
Proof.
  intros Ht. revert i. induction k as [|k IH]; intros i Hk; cbn [busy_wait];
    pose proof (clock_range i); unfold sub64; rewrite checked64_ok by lia; cbn [res_bind].
  - rewrite Nat.add_0_r in Hk. destruct (Z.ltb_spec (clock i - t0) 50000000); [lia|]. exists i. split; [done|]. split; [lia|]. split; [lia|]. intros n Hin. lia.
  - destruct (Z.ltb_spec (clock i - t0) 50000000).
    + destruct (IH (S i)) as (j & Hj & ? & ? & Hn); [by replace (S i + k)%nat with (i + S k)%nat by lia|].
      exists j. split; [exact Hj|]. split; [lia|]. split; [done|]. intros n Hin.
      destruct (decide (n = i)) as [->|]; [done|apply Hn; lia].
    + exists i. split; [done|]. split; [lia|]. split; [lia|]. intros n Hin. lia.
Qed.

(** The calibration ends, with a usable factor.  On a monotone clock that
    some reading shows to have advanced by 50 ms, and whose readings are less
    than 26 days apart, calibrate returns whatever the counter does (wraps
    and steps back included), and the factor is a positive number, so that no
    later conversion divides by zero. *)
Theorem calibrate_returns (i j k : nat) :
  (forall n, clock n <= clock (S n) < clock n + 2 ^ 51) ->
  50000000 <= clock (S i + k)%nat - clock i ->
  exists c, calibrate clock rdtsc (S k) i j = Ok (Some c) /\
    dgt (ticks_per_ns c) dzero = true /\ is_nan (ticks_per_ns c) = false.
Proof.
  intros Hmono Hk.
  pose proof (clock_range i) as Hi.
  destruct (busy_wait_returns (clock i) k (S i) Hi Hk) as (n & Hw & Hn & Hd & Hbefore).
  unfold calibrate. rewrite Hw. cbn [res_bind]. pose proof (clock_range (S n)).
  unfold sub64. rewrite checked64_ok by lia. cbn [res_bind]. eexists. split; [reflexivity|]. cbn [ticks_per_ns].
  assert (Hlt : clock n < clock i + 50000000 + 2 ^ 51).
  { destruct n as [|n]; [lia|]. pose proof (Hmono n). destruct (decide (n = i)) as [->|]; [lia|].
    pose proof (Hbefore n ltac:(lia)). lia. }
  pose proof (Hmono n).
  destruct (double_of_Z_pos (clock (S n) - clock i)) as (m & e & ->); [lia|].
  set (x := double_of_Z _). assert (Hx : signed false (ddiv x (S754_finite false m e))).
  { apply ddiv_signed, double_of_Z_signed, u64_range. }
  destruct Hx as [->|[(m' & e' & ->)| ->]]; cbn; vm_compute; done.
Qed.
End Calibrated.

(** *** Affinity *)

(** A negative core leaves the thread where it is and asks nothing of the
    system; otherwise the answer is whether the system accepted the set of
    exactly that core. *)
Lemma pin_this_thread_spec (os : OsRequest -> Z) (core : Z) :
  pin_this_thread os core =
  if core <? 0 then (false, []) else (bool_decide (os (SetAffinity {[core]}) = 0), [SetAffinity {[core]}]).
Proof.
  unfold pin_this_thread. destruct (core <? 0); [done|]. rewrite (right_id_L ∅ (∪)).
  f_equal. destruct (Z.eqb_spec (os (SetAffinity {[core]})) 0).
  - by rewrite bool_decide_true.
  - by rewrite bool_decide_false.
Qed.

(** ** Witnesses *)

(** A clock that ticks every 20 ms, a 2.5 GHz counter. *)
Definition coarse_clock (n : nat) : Z := Z.min (Z.of_nat n * 20000000) (2 ^ 50).
#[export] Instance coarse_clock_ok : ClockOk coarse_clock.
Proof. intros n. unfold coarse_clock. lia. Qed.

Lemma calibrate_returns_witness :
  exists c, calibrate coarse_clock (fun n => Z.of_nat n * 200000000) 3 0 0 = Ok (Some c) /\ is_nan (ticks_per_ns c) = false.
Proof.
  destruct (calibrate_returns coarse_clock (fun n => Z.of_nat n * 200000000) 0 0 2) as (c & H & _ & Hn).
  - intros n. unfold coarse_clock. lia.
  - vm_compute. discriminate.
  - exists c. split; [exact H|exact Hn].
Defined.

(** Ticks are converted by the factor. *)
Example to_ns_2_5GHz : to_ns (mkCal (dlit 5 2)) 1000000 = Ok 400000.
Proof. vm_compute. reflexivity. Qed.
