(* ===== verification/Main.v ===== *)
(** * Threads of the program (src/src/main.cpp)

    The order-sender loop, the credentials reader, and the sink and generator
    of the load test.  Starting, stopping and joining are in Startup, the
    producer loop of the load test in Bench. *)
From S2P Require Import Prelude.
From S2P Require Import Double.
From S2P Require Import Events.
From S2P Require Import SpscRing.
From S2P Require Import Queue.
From S2P Require Import Text.
From S2P Require Import LatencyHistogram.
From S2P Require Import Metrics.
From S2P Require Import OrderBook.
From S2P Require Import OrderManager.
From S2P Require Import AsyncLogger.
From S2P Require Import Persister.
From S2P Require Import Config.
From S2P Require Import MarketMaker.
From S2P Require Import MarketMakerFacts.
From S2P Require Import FixApp.
From S2P Require Import FixProps.
From Stdlib Require Import Ascii.

(** ** Order sender *)
Section Sender.
Context {QO : QueueOps} {QF : QuickFix} (cfg : EngineConfig) (clock : nat -> Z).
Context (sendToTarget : FixOut -> option SessionID -> Res bool).

(** [if (app.logged_on()) app.send_order_cmd(c);] *)
Definition sender_body (c : OrderCmd) (f : FixApp) : Res FixApp :=
  if logged_on_ f then send_order_cmd cfg clock sendToTarget c f else Ok f.

(** [while (out.try_pop(c)) {...}] *)
Definition sender_drain (out : Queue kOrdCap OrderCmd) (f : FixApp) : Res (FixApp * Queue kOrdCap OrderCmd) :=
  q_drain (drain_fuel out) sender_body out f.

(** The consumer of the bench mode, which only counts. *)
Definition sink_body (c : OrderCmd) (st : Metrics * nat) : Res (Metrics * nat) :=
  let '(m, n) := st in
  match c_type c with
  | CmdNew =>
      res_bind (sub64 (clock n) (c_t_md_ns c)) (fun ns =>
      res_bind (LatencyHistogram.record ns (tick_to_trade m)) (fun h =>
      Ok (inc_orders_sent (set_tick_to_trade m h), S n)))
  | CmdCancel => Ok (inc_cancels_sent m, n)
  end.

Definition sink_drain (out : Queue kOrdCap OrderCmd) (st : Metrics * nat)
    : Res ((Metrics * nat) * Queue kOrdCap OrderCmd) :=
  q_drain (drain_fuel out) sink_body out st.
End Sender.

(** ** Credentials *)

Definition password_key : chars := chars_of_string "password=".

(** [line.rfind(prefix, 0) == 0] *)
Fixpoint starts_with (p s : chars) : bool :=
  match p, s with
  | [], _ => true
  | a :: p, b :: s => bool_decide (a = b) && starts_with p s
  | _, [] => false
  end.

Fixpoint password_in (lines : list chars) : chars :=
  match lines with
  | [] => []
  | l :: lines => if starts_with password_key l then rstrip (drop 9 l) else password_in lines
  end.

Definition read_password (file : option chars) : chars := password_in (getlines file).

(** ** Load generator *)

(** [mid - half - d * 0.05] and its mirror; quantities [10 + d]. *)
Definition bench_bid (mid half : double) (d : Z) : double :=
  dsub (dsub mid half) (dmul (double_of_Z d) (dlit 5 100)).
Definition bench_ask (mid half : double) (d : Z) : double :=
  dadd (dadd mid half) (dmul (double_of_Z d) (dlit 5 100)).

Definition bench_half (i : Z) : double := if i mod 7 =? 0 then dlit 1 100 else dlit 1 10.

(** Snapshot [i]: [i % n_syms] divides by zero without instruments. *)
Definition bench_event (n_syms i t : Z) (jig : double) : Res MdEvent :=
  if n_syms =? 0 then Err (UB DivideByZero)
  else
    let mid := dadd (double_of_Z 1050) jig in
    let half := bench_half i in
    let ds := [0; 1; 2; 3; 4] in
    Ok (mkMdEvent t (u32 (i mod n_syms)) 5 5
          (map (bench_bid mid half) ds) (map (fun d => double_of_Z (10 + d)) ds)
          (map (bench_ask mid half) ds) (map (fun d => double_of_Z (10 + d)) ds)
          dzero (u32 i)).

Definition bench_syms (cfg : EngineConfig) : Z := Z.min (Z.of_nat (length (symbols cfg))) kMaxSymbols.

Section Bench.
Context {QO : QueueOps}.

(** [while (!md.try_push(ev)) {...}]: between two pushes the other threads do
    something to the ring; the loop ends with the push that succeeds, or after
    the last entry, when the running flag was cleared.  Was it pushed? *)
Fixpoint push_spin (waits : list (Queue kMdCap MdEvent -> Queue kMdCap MdEvent)) (ev : MdEvent)
    (q : Queue kMdCap MdEvent) : Res (bool * Queue kMdCap MdEvent) :=
  res_bind (q_push ev q) (fun '(ok, q) =>
  if ok : bool then Ok (true, q)
  else match waits with
       | [] => Ok (false, q)
       | w :: waits => push_spin waits ev (w q)
       end).
End Bench.

(** ** Properties *)
Section Facts.
Context {QO : QueueOps} {QL : QueueLaws} {QF : QuickFix} (cfg : EngineConfig) (clock : nat -> Z).
Context (sendToTarget : FixOut -> option SessionID -> Res bool).

(** The command's message, on the instrument array of the application. *)
Definition message_of (f : FixApp) (c : OrderCmd) : FixOut :=
  order_message cfg (default [] (zget (symbols_ f) (c_symbol_id c))) c.

Record sendable (f : FixApp) (c : OrderCmd) : Prop := {
  sn_sym : 0 <= c_symbol_id c < kMaxSymbols;
  sn_time : 0 <= c_t_md_ns c < 2 ^ 62
}.

(** Sending a command hands its message to the session, or ends in what the
    session throws, and in nothing else. *)
Lemma send_or_throw c f :
  fix_shape f -> metrics_ok (fix_metrics f) -> sendable f c -> (forall n, 0 <= clock n < 2 ^ 62) ->
  match sendToTarget (message_of f c) (session_id_ f) with
  | Ok _ =>
      exists f', send_order_cmd cfg clock sendToTarget c f = Ok f' /\ outbox f' = outbox f ++ [message_of f c] /\
        symbols_ f' = symbols_ f /\ n_symbols_ f' = n_symbols_ f /\ logged_on_ f' = logged_on_ f /\
        metrics_ok (fix_metrics f')
  | Err e => send_order_cmd cfg clock sendToTarget c f = Err e
  end.
Proof.
  intros [Hl Hn] [M1 M2 M3] [Hs Ht] Hk. unfold send_order_cmd, message_of.
  destruct (zget_is_Some (symbols_ f) (c_symbol_id c)) as [s Hsym]; [rewrite Hl; unfold kMaxSymbols in *; lia|].
  rewrite (array_read_ok _ _ _ Hsym), Hsym. cbn [res_bind]. change (default [] (Some s)) with s.
  destruct (sendToTarget (order_message cfg s c) (session_id_ f)) as [b|e]; cbn [res_bind]; [|done].
  pose proof (Hk (fix_now f)). destruct (c_type c).
  - unfold sub64. rewrite checked64_ok by lia. cbn [res_bind].
    destruct (record_total (tick_to_trade (fix_metrics f)) (clock (fix_now f) - c_t_md_ns c) M2) as (h & -> & Hh); [lia|].
    cbn [res_bind]. eexists. split; [reflexivity|]. do 4 (split; [done|]). by split.
  - eexists. split; [reflexivity|]. do 4 (split; [done|]). by split.
Qed.

Lemma send_ok_step c f :
  fix_shape f -> metrics_ok (fix_metrics f) -> sendable f c -> (forall n, 0 <= clock n < 2 ^ 62) ->
  (forall m s, exists b, sendToTarget m s = Ok b) ->
  exists f', send_order_cmd cfg clock sendToTarget c f = Ok f' /\ outbox f' = outbox f ++ [message_of f c] /\
    symbols_ f' = symbols_ f /\ n_symbols_ f' = n_symbols_ f /\ logged_on_ f' = logged_on_ f /\
    metrics_ok (fix_metrics f').
Proof.
  intros Hf Hm Hc Hk Hsend. pose proof (send_or_throw c f Hf Hm Hc Hk) as H.
  destruct (Hsend (message_of f c) (session_id_ f)) as [b Hb]. by rewrite Hb in H.
Qed.

(** While the session is up, the sender forwards every queued command, in
    the order the strategy emitted them, one message each, and leaves the ring
    empty. *)
Theorem sender_forwards_in_order (out : Queue kOrdCap OrderCmd) (f : FixApp) :
  q_ok out -> fix_shape f -> metrics_ok (fix_metrics f) -> logged_on_ f = true ->
  Forall (sendable f) (q_contents out) -> (forall n, 0 <= clock n < 2 ^ 62) ->
  (forall m s, exists b, sendToTarget m s = Ok b) ->
  exists f' out', sender_drain cfg clock sendToTarget out f = Ok (f', out') /\
    q_contents out' = [] /\ outbox f' = outbox f ++ map (message_of f) (q_contents out).
Proof.
  intros Hq Hf Hm Hon Hs Hk Hsend. unfold sender_drain.
  destruct (q_drain_all (sender_body cfg clock sendToTarget) out f Hq) as (out' & Hq' & Hc' & ->).
  assert (H : forall cs g, Forall (sendable f) cs -> fix_shape g -> metrics_ok (fix_metrics g) ->
    logged_on_ g = true -> symbols_ g = symbols_ f ->
    exists g', res_fold (sender_body cfg clock sendToTarget) cs g = Ok g' /\
      outbox g' = outbox g ++ map (message_of f) cs).
  { intros cs. induction cs as [|c cs IH]; intros g HF Hg Hmg Hong Hsy; cbn [res_fold map].
    - exists g. by rewrite app_nil_r.
    - apply Forall_cons_iff in HF as [Hc HF]. unfold sender_body at 1. rewrite Hong.
      assert (Hcg : sendable g c) by (destruct Hc; by split).
      destruct (send_ok_step c g Hg Hmg Hcg Hk Hsend) as (g1 & -> & Ho & Hs1 & Hn1 & Hl1 & Hm1). cbn [res_bind].
      destruct (IH g1) as (g' & Hr & Ho'); [done| |done|congruence|congruence|].
      { destruct Hg as [A B]. split; [by rewrite Hs1|by rewrite Hn1]. }
      exists g'. split; [done|]. rewrite Ho', Ho, <- app_assoc. cbn [app]. unfold message_of. by rewrite Hsy. }
  destruct (H (q_contents out) f Hs Hf Hm Hon eq_refl) as (f' & -> & Ho). cbn [res_bind].
  exists f', out'. done.
Qed.

(** While the session is down, the sender takes every command off the ring
    and sends none of them: the orders are lost, and nothing tells the strategy
    thread, which goes on waiting for their reports. *)
Theorem sender_drops_when_logged_out (out : Queue kOrdCap OrderCmd) (f : FixApp) :
  q_ok out -> logged_on_ f = false ->
  exists out', sender_drain cfg clock sendToTarget out f = Ok (f, out') /\ q_contents out' = [].
Proof.
  intros Hq Hoff. unfold sender_drain.
  destruct (q_drain_all (sender_body cfg clock sendToTarget) out f Hq) as (out' & _ & Hc' & ->).
  exists out'. split; [|done].
  assert (H : forall cs, res_fold (sender_body cfg clock sendToTarget) cs f = Ok f).
  { intros cs. induction cs as [|c cs IH]; cbn [res_fold]; [done|].
    unfold sender_body at 1. rewrite Hoff. cbn [res_bind]. exact IH. }
  by rewrite H.
Qed.
End Facts.

(** *** The reader finds the first password line. *)
Lemma starts_with_app p s : starts_with p (p ++ s) = true.
Proof. induction p as [|c p IH]; [done|]. cbn [app starts_with]. by rewrite bool_decide_true, IH. Qed.

(** The password read is the rest of the first line that starts with
    "password=", without the carriage return and spaces at its end, whatever
    precedes it (including commented-out keys) and follows it. *)
Theorem read_password_first (before : list chars) (pw pad after : chars) :
  Forall (fun l => starts_with password_key l = false /\ no_newline l) before ->
  no_newline pw -> rstrip pw = pw -> Forall (fun c => is_trailer c = true) pad ->
  read_password (Some (flat_map (fun l => l ++ [newline]) before ++
                       password_key ++ pw ++ pad ++ newline :: after)) = pw.
Proof.
  intros HF Hpw Hr Hpad. unfold read_password. induction HF as [|l before [Hl Hn] HF IH].
  - cbn [flat_map app]. rewrite (app_assoc pw), (app_assoc password_key), getlines_line.
    + cbn [password_in]. rewrite starts_with_app.
      change (drop 9 (password_key ++ pw ++ pad)) with (pw ++ pad). by rewrite rstrip_app.
    + repeat (apply Forall_app; split); [|done|by apply trailer_no_newline].
      by repeat constructor.
  - cbn [flat_map]. rewrite <- !app_assoc. cbn [app]. rewrite getlines_line by done.
    cbn [password_in]. by rewrite Hl.
Qed.

(** The load generator needs an instrument: with none configured its
    first snapshot divides by zero, and with some, every snapshot it makes is
    one the strategy accepts: an instrument in range, five levels a side. *)
Theorem bench_event_ok (cfg : EngineConfig) (i t : Z) (jig : double) :
  0 <= i < 2 ^ 64 -> 0 <= t < 2 ^ 62 ->
  (symbols cfg = [] -> bench_event (bench_syms cfg) i t jig = Err (UB DivideByZero)) /\
  (symbols cfg <> [] -> exists ev, bench_event (bench_syms cfg) i t jig = Ok ev /\
     md_event_ok ev /\ md_pushed ev /\ md_symbol_id ev = i mod bench_syms cfg /\
     has_bba (apply_snapshot ev 5 book_init) = true).
Proof.
  intros Hi Ht. unfold bench_event, bench_syms. split.
  - intros ->. reflexivity.
  - intros Hne. set (n := Z.min _ _).
    assert (Hn : 0 < n <= kMaxSymbols).
    { unfold n. destruct (symbols cfg); [done|]. cbn [length]. unfold kMaxSymbols. lia. }
    destruct (Z.eqb_spec n 0); [lia|]. eexists. split; [reflexivity|].
    pose proof (Z.mod_pos_bound i n ltac:(lia)) as Hm. unfold kMaxSymbols in Hn.
    assert (Hu : u32 (i mod n) = i mod n) by (apply u32_id; unfold in_u32; lia).
    split; [split; cbn; rewrite ?Hu; unfold kMaxSymbols; lia|].
    split; [split; cbn; rewrite ?Hu; try done; unfold kMaxSymbols, kMaxDepth; lia|].
    split; [exact Hu|done].
Qed.

(** ** Witnesses *)

Definition demo_orders : @Queue list_ops kOrdCap OrderCmd :=
  [mkOrderCmd CmdNew Buy 0 (double_of_Z 1000) (double_of_Z 1) 5000 0 5000000 5000001;
   mkOrderCmd CmdCancel Sell 1 dzero (double_of_Z 1) 5002 5001 5000000 5000002].

(** The demonstration application after its session came up. *)
Definition demo_session (up : bool) : @FixApp list_ops demo_qf := fx_set_session demo_fix up (Some tt).

Lemma demo_session_shape up : @fix_shape list_ops demo_qf (demo_session up).
Proof. destruct (fo_shape _ demo_fix_ok) as [H1 H2]. by split. Qed.

Definition send_ok : FixOut -> option (@SessionID demo_qf) -> Res bool := fun _ _ => Ok true.

Lemma demo_clock_range n : 0 <= Z.min (tick_clock n) 6000000 < 2 ^ 62.
Proof. unfold tick_clock. lia. Qed.

Lemma sender_forwards_in_order_witness :
  exists f' out', @sender_drain list_ops demo_qf demo_fix_config (fun n => Z.min (tick_clock n) 6000000) send_ok
      demo_orders (demo_session true) = Ok (f', out') /\ length (outbox f') = 2%nat.
Proof.
  destruct (@sender_forwards_in_order list_ops list_laws demo_qf demo_fix_config
    (fun n => Z.min (tick_clock n) 6000000) send_ok demo_orders (demo_session true)) as (f' & out' & H & _ & Ho);
    [vm_compute; discriminate|apply demo_session_shape|apply metrics_ok_init|reflexivity| |apply demo_clock_range
    |intros m s; by exists true|].
  { repeat constructor; cbn; unfold kMaxSymbols; lia. }
  exists f', out'. split; [exact H|]. rewrite Ho. reflexivity.
Defined.

Lemma sender_drops_when_logged_out_witness :
  exists out', @sender_drain list_ops demo_qf demo_fix_config tick_clock send_ok demo_orders (demo_session false)
    = Ok (demo_session false, out') /\ @q_contents list_ops list_laws _ _ out' = [].
Proof.
  apply (@sender_drops_when_logged_out list_ops list_laws demo_qf demo_fix_config tick_clock send_ok
    demo_orders (demo_session false)); [vm_compute; discriminate|reflexivity].
Defined.

Lemma chars_no_newline l : forallb (fun c => negb (bool_decide (c = newline))) l = true -> no_newline l.
Proof.
  intros Hl. apply List.Forall_forall. intros c Hc. rewrite forallb_forall in Hl.
  specialize (Hl c Hc). by destruct (bool_decide_reflect (c = newline)).
Qed.

Lemma read_password_first_witness :
  read_password (Some (chars_of_string "username=me" ++ [newline] ++ chars_of_string "password=s3cret" ++
    [chr 32; chr 13; newline] ++ chars_of_string "password=other")) = chars_of_string "s3cret".
Proof.
  apply (read_password_first [chars_of_string "username=me"] (chars_of_string "s3cret") [chr 32; chr 13]
    (chars_of_string "password=other")).
  - constructor; [|constructor]. split; [reflexivity|by apply chars_no_newline].
  - by apply chars_no_newline.
  - reflexivity.
  - by repeat constructor.
Defined.

Lemma bench_event_ok_witness :
  exists ev, bench_event (bench_syms demo_fix_config) 7 5000000 dzero = Ok ev /\ md_symbol_id ev = 1.
Proof.
  destruct (bench_event_ok demo_fix_config 7 5000000 dzero) as [_ H]; [lia|lia|].
  destruct H as (ev & H & _ & _ & Hs & _); [discriminate|].
  exists ev. split; [exact H|]. rewrite Hs. reflexivity.
Defined.
