(* ===== verification/Bench.v ===== *)
(** * The load test (src/src/main.cpp, run_bench)

    The producer loop of the bench mode around the generator and the spinning
    push of Main: its iterations, what it counts, and the report it prints.
    The consumers are the strategy thread and the sink of Main; what they do
    to the market-data ring while the producer works is a parameter. *)
From S2P Require Import Prelude.
From S2P Require Import Double.
From S2P Require Import Events.
From S2P Require Import SpscRing.
From S2P Require Import Queue.
From S2P Require Import Text.
From S2P Require Import LatencyHistogram.
From S2P Require Import Metrics.
From S2P Require Import OrderBook.
From S2P Require Import Config.
From S2P Require Import MarketMaker.
From S2P Require Import MarketMakerFacts.
From S2P Require Import StrategyProps.
From S2P Require Import FixApp.
From S2P Require Import FixProps.
From S2P Require Import Main.

(** [cfg.dry_run = false]. *)
Definition bench_config (cfg : EngineConfig) : EngineConfig :=
  mkConfig (minimum_spread cfg) (order_spread cfg) (tick_size cfg) (order_qty cfg) (book_depth cfg)
    (account cfg) (sender cfg) (fix_cfg cfg) (symbols_file cfg) (strategy_core cfg) (fix_core cfg)
    (metrics_port cfg) (lmdb_path cfg) (snapshot_interval_ms cfg) false (symbols cfg).

(** ** The producer loop *)
Section Feed.
Context {QO : QueueOps} (cfg : EngineConfig) (clock : nat -> Z) (jig : Z -> double).

Record Feed := mkFeed {
  fd_md : Queue kMdCap MdEvent;
  fd_metrics : Metrics;
  fd_now : nat;
  fd_pushed : list MdEvent      (* accepted by the ring, in order *)
}.

(** What the other threads do during an iteration: before the first push, and
    between a push that fails and the next; the spin is left with the event
    dropped when the last of them has cleared the running flag. *)
Definition consumer : Type := Queue kMdCap MdEvent -> Queue kMdCap MdEvent.

Definition feed_one (i : Z) (before : consumer) (waits : list consumer) (st : Feed) : Res Feed :=
  res_bind (bench_event (bench_syms cfg) i (clock (fd_now st)) (jig i)) (fun ev =>
  let m := inc_md_msgs (fd_metrics st) in
  res_bind (push_spin waits ev (before (fd_md st))) (fun '(ok, md) =>
  Ok (mkFeed md (track_md_queue m (q_size md)) (S (fd_now st))
        (if ok : bool then fd_pushed st ++ [ev] else fd_pushed st)))).

(** [for (i = 0; i < n_msgs && running; ++i)]: an entry of the script per
    iteration; the script ends when the flag is cleared. *)
Fixpoint feed (n : nat) (i : Z) (script : list (consumer * list consumer)) (st : Feed) : Res Feed :=
  match n, script with
  | S n, (before, waits) :: script => res_bind (feed_one i before waits st) (feed n (i + 1) script)
  | _, _ => Ok st
  end.
End Feed.

(** ** The report *)

Record BenchReport := mkReport {
  br_messages : Z;
  br_secs : double;
  br_rate : double;
  br_f1 : LatencyHistogram.Percentiles;
  br_f2 : LatencyHistogram.Percentiles;
  br_wait : LatencyHistogram.Percentiles;
  br_backlog : Z * Z * Z;
  br_orders : Z
}.

(** [double(t1 - t0) / 1e9]; the rate is infinite, not an error, when the
    clock did not move. *)
Definition bench_report (n t0 t1 : Z) (m : Metrics) : Res BenchReport :=
  res_bind (sub64 t1 t0) (fun ns =>
  let secs := ddiv (double_of_Z ns) (double_of_Z 1000000000) in
  Ok (mkReport n secs (ddiv (double_of_Z n) secs)
        (LatencyHistogram.snapshot (md_processing m)) (LatencyHistogram.snapshot (tick_to_trade m))
        (LatencyHistogram.snapshot (queue_wait m))
        (md_queue_max m, ord_queue_max m, log_queue_max m) (orders_sent_total m))).

(** ** Facts *)
Section Facts.
Context {QO : QueueOps} {QL : QueueLaws} (cfg : EngineConfig) (clock : nat -> Z) (jig : Z -> double).
Context {HK : ClockOk clock}.

(** The strategy thread only takes from the ring; [k] elements or more. *)
Definition takes (k : nat) (w : consumer) : Prop := forall q : Queue kMdCap MdEvent, q_ok q ->
  q_ok (w q) /\ q_contents (w q) `suffix_of` drop k (q_contents q).

Lemma push_ok ev (q : Queue kMdCap MdEvent) :
  q_ok q -> Z.of_nat (length (q_contents q)) < kMdCap ->
  exists q', q_push ev q = Ok (true, q') /\ q_ok q' /\ q_contents q' = q_contents q ++ [ev].
Proof.
  intros Hq Hl. destruct (q_push_law _ _ q ev kMdCap_legal Hq) as (r & -> & Hr & Hc).
  destruct (Z.ltb_spec (Z.of_nat (length (q_contents q))) kMdCap); [|lia]. by exists r.
Qed.

Lemma suffix_both {A} (l1 l2 k : list A) : l1 `suffix_of` l2 -> l1 ++ k `suffix_of` l2 ++ k.
Proof. intros [p ->]. exists p. by rewrite app_assoc. Qed.

Lemma drop_suffix {A} n (l : list A) : drop n l `suffix_of` l.
Proof. exists (take n l). by rewrite take_drop. Qed.

(** The spin ends at the first take. *)
Lemma push_spin_ok (w : consumer) waits ev (q : Queue kMdCap MdEvent) :
  q_ok q -> takes 1 w ->
  exists q', push_spin (w :: waits) ev q = Ok (true, q') /\ q_ok q' /\
    q_contents q' `suffix_of` q_contents q ++ [ev].
Proof.
  intros Hq Hw. cbn [push_spin]. destruct (q_push_law _ _ q ev kMdCap_legal Hq) as (r & -> & Hr & Hc).
  cbn [res_bind]. destruct (Z.ltb_spec (Z.of_nat (length (q_contents q))) kMdCap) as [Hlt|Hge].
  - exists r. by rewrite Hc.
  - destruct (Hw r Hr) as (Hwr & Hcj). rewrite Hc in Hcj.
    destruct (q_size_law _ _ r kMdCap_legal Hr) as [Hsz Hcap]. rewrite Hsz, Hc in Hcap.
    destruct (push_ok ev (w r) Hwr) as (q' & Hp & Hq' & Hc').
    { apply suffix_length in Hcj. rewrite length_drop in Hcj. assert (0 < kMdCap) by (vm_compute; done). lia. }
    exists q'. split; [destruct waits; cbn [push_spin]; by rewrite Hp|]. split; [done|].
    rewrite Hc'. apply suffix_both. etransitivity; [exact Hcj|apply drop_suffix].
Qed.

(** An iteration's others: any takes before the push, one that makes room
    first if it fails. *)
Definition entry_ok (e : consumer * list consumer) : Prop :=
  takes 0 (fst e) /\ exists w ws, snd e = w :: ws /\ takes 1 w.

Definition made (i : Z) (ev : MdEvent) : Prop :=
  exists t, 0 <= t < 2 ^ 62 /\ bench_event (bench_syms cfg) i t (jig i) = Ok ev.

Lemma feed_one_ok i before waits st :
  symbols cfg <> [] -> 0 <= i < 2 ^ 64 -> entry_ok (before, waits) -> q_ok (fd_md st) ->
  exists st' ev, feed_one cfg clock jig i before waits st = Ok st' /\ q_ok (fd_md st') /\ made i ev /\
    fd_pushed st' = fd_pushed st ++ [ev] /\ q_contents (fd_md st') `suffix_of` q_contents (fd_md st) ++ [ev] /\
    md_msgs_total (fd_metrics st') = u64 (md_msgs_total (fd_metrics st) + 1).
Proof.
  intros Hs Hi [Hb (w & ws & E & Hw)] Hq. cbn [fst snd] in *. subst waits. unfold feed_one.
  destruct (bench_event_ok cfg i (clock (fd_now st)) (jig i) Hi (clock_range _)) as [_ Hev].
  destruct (Hev Hs) as (ev & He & _). rewrite He. cbn [res_bind].
  destruct (Hb _ Hq) as (Hq1 & Hc1).
  destruct (push_spin_ok w ws ev _ Hq1 Hw) as (q' & -> & Hq' & Hc'). cbn [res_bind].
  exists (mkFeed q' (track_md_queue (inc_md_msgs (fd_metrics st)) (q_size q')) (S (fd_now st))
    (fd_pushed st ++ [ev])), ev.
  split; [done|]. split; [done|]. split; [exists (clock (fd_now st)); split; [apply clock_range|exact He]|].
  split; [done|]. split; [|done]. cbn [fd_md]. rewrite drop_0 in Hc1. etransitivity; [exact Hc'|by apply suffix_both].
Qed.

Lemma feed_ok n i script st :
  symbols cfg <> [] -> 0 <= i -> i + Z.of_nat n <= 2 ^ 64 -> length script = n -> Forall entry_ok script ->
  q_ok (fd_md st) -> in_u64 (md_msgs_total (fd_metrics st)) ->
  exists st' evs, feed cfg clock jig n i script st = Ok st' /\ length evs = n /\
    fd_pushed st' = fd_pushed st ++ evs /\
    (forall j ev, evs !! j = Some ev -> made (i + Z.of_nat j) ev) /\
    q_contents (fd_md st') `suffix_of` q_contents (fd_md st) ++ evs /\
    md_msgs_total (fd_metrics st') = u64 (md_msgs_total (fd_metrics st) + Z.of_nat n).
Proof.
  intros Hs. revert i script st. induction n as [|n IH]; intros i script st Hi Hn Hlen HF Hq Hm.
  - exists st, []. rewrite !app_nil_r, Z.add_0_r, u64_id by done. by destruct script.
  - destruct HF as [|[before waits] script He HF]; [done|]. cbn [feed]. injection Hlen as Hlen.
    destruct (feed_one_ok i before waits st Hs ltac:(lia) He Hq) as (st1 & ev & -> & Hq1 & Hev & Hp & Hc & Hm1).
    cbn [res_bind].
    destruct (IH (i + 1) script st1) as (st' & evs & -> & Hl & Hp' & Hevs & Hc' & Hm'); [lia|lia|done..| |].
    { rewrite Hm1. apply u64_range. }
    exists st', (ev :: evs). split; [done|]. split; [cbn; lia|].
    split; [by rewrite Hp', Hp, <- app_assoc|]. split; [|split].
    + intros [|j] x Hx; [injection Hx as <-; by rewrite Z.add_0_r|].
      specialize (Hevs j x Hx). by replace (i + Z.of_nat (S j)) with (i + 1 + Z.of_nat j) by lia.
    + etransitivity; [exact Hc'|]. change (ev :: evs) with ([ev] ++ evs). rewrite (app_assoc (q_contents _)).
      by apply suffix_both.
    + rewrite Hm', Hm1. unfold u64. rewrite Zplus_mod_idemp_l. f_equal. lia.
Qed.

(** The load test feeds what it was asked for.  From an empty ring, with
    instruments configured and other threads that only take from the ring and
    make room whenever the producer spins: n iterations push exactly n
    snapshots, none dropped or repeated, the i-th made for index i (sequence
    number, instrument i modulo their number); at the end the ring holds the most
    recent ones in order, and the message counter counts n. *)
Theorem bench_feed_complete (n : nat) (script : list (consumer * list consumer)) (m : Metrics) :
  symbols cfg <> [] -> Z.of_nat n <= 2 ^ 64 -> length script = n -> Forall entry_ok script ->
  in_u64 (md_msgs_total m) ->
  exists st evs, feed cfg clock jig n 0 script (mkFeed (q_init kMdCap MdEvent) m 0 []) = Ok st /\
    fd_pushed st = evs /\ length evs = n /\
    (forall i ev, evs !! i = Some ev ->
       md_seq ev = u32 (Z.of_nat i) /\ md_symbol_id ev = Z.of_nat i mod bench_syms cfg /\ md_event_ok ev) /\
    q_contents (fd_md st) `suffix_of` evs /\
    md_msgs_total (fd_metrics st) = u64 (md_msgs_total m + Z.of_nat n).
Proof.
  intros Hs Hn Hl HF Hm.
  destruct (feed_ok n 0 script (mkFeed (q_init kMdCap MdEvent) m 0 [])) as (st & evs & Hf & Hlen & Hp & Hev & Hc & Hmm);
    [done|lia|lia|done|done|by apply q_init_ok, kMdCap_legal|done|].
  cbn [fd_md fd_pushed fd_metrics] in *. rewrite q_init_empty in Hc by exact kMdCap_legal.
  exists st, evs. do 3 (split; [done|]). split; [|split; done].
  intros i ev Hi. pose proof (lookup_lt_Some _ _ _ Hi). destruct (Hev i ev Hi) as (t & Ht & He).
  rewrite Z.add_0_l in He. destruct (bench_event_ok cfg (Z.of_nat i) t (jig (Z.of_nat i))) as [_ Hok]; [lia|done|].
  destruct (Hok Hs) as (ev' & He' & Hev' & _ & Hsym & _). rewrite He in He'. injection He' as <-.
  split; [|by split]. unfold bench_event in He. destruct (_ =? 0); [done|]. by injection He as <-.
Qed.

(** Without instruments the first iteration divides by zero. *)
Lemma bench_feed_empty n before waits script st :
  symbols cfg = [] -> feed cfg clock jig (S n) 0 ((before, waits) :: script) st = Err (UB DivideByZero).
Proof.
  intros Hs. cbn [feed]. unfold feed_one.
  destruct (bench_event_ok cfg 0 (clock (fd_now st)) (jig 0) ltac:(lia) (clock_range _)) as [He _]. by rewrite He.
Qed.
End Facts.

(** ** Witnesses *)

(** A steady clock for the witnesses. *)
Definition coarse (n : nat) : Z := Z.min (Z.of_nat n * 1000) (2 ^ 50).
#[export] Instance coarse_ok : ClockOk coarse.
Proof. intros n. unfold coarse. lia. Qed.

(** Every spin finds the ring emptied by one snapshot. *)
Definition pop_one : @consumer list_ops := fun q => tail q.

Lemma pop_one_takes : @takes list_ops list_laws 1 pop_one.
Proof.
  intros q Hq. split; [|by exists []; destruct q].
  unfold q_ok in *. cbn in *. destruct q; cbn in *; lia.
Qed.

Lemma entries_ok n : Forall (@entry_ok list_ops list_laws) (replicate n ((fun q => q), [pop_one])).
Proof.
  apply Forall_replicate. split.
  - intros q Hq. split; [exact Hq|]. by rewrite drop_0.
  - exists pop_one, []. split; [reflexivity|exact pop_one_takes].
Qed.

Lemma bench_feed_complete_witness :
  exists st, @feed list_ops demo_fix_config coarse (fun _ => dzero) 3 0 (replicate 3 ((fun q => q), [pop_one]))
      (@mkFeed list_ops [] metrics_init 0 []) = Ok st /\ length (@fd_pushed list_ops st) = 3%nat.
Proof.
  destruct (@bench_feed_complete list_ops list_laws demo_fix_config coarse (fun _ => dzero) _ 3
    (replicate 3 ((fun q => q), [pop_one])) metrics_init) as (st & evs & H & Hp & Hl & _).
  - discriminate.
  - lia.
  - reflexivity.
  - apply entries_ok.
  - unfold in_u64. cbn. lia.
  - exists st. split; [exact H|]. rewrite Hp. exact Hl.
Defined.
