(* ===== verification/Startup.v ===== *)
(** * Starting and stopping (src/src/main.cpp, main)

    The main thread: what it opens and starts, in which order, what it waits
    for, and how it ends, for every answer of the outside world (the files,
    LMDB, QuickFIX, the metrics exposer, thread creation).  An exception keeps
    the state it left, because the destructors that run during unwinding decide
    how the program ends: destroying a std::thread that was not joined calls
    std::terminate. *)
From S2P Require Import Prelude.
From S2P Require Import Double.
From S2P Require Import Events.
From S2P Require Import SpscRing.
From S2P Require Import Queue.
From S2P Require Import Text.
From S2P Require Import Metrics.
From S2P Require Import Config.
From S2P Require Import MarketMaker.
From S2P Require Import FixApp.
From S2P Require Import FixProps.
From S2P Require Import Persister.
From S2P Require Import Storage.
From S2P Require Import Platform.
From S2P Require Import Main.
From S2P Require Import Bench.
From Stdlib Require Import Ascii.

(** ** The main thread's world *)

Inductive Thread := TMetrics | TLog | TDb | TStrat | TSender | TSink.

#[export] Instance Thread_eq_dec : EqDecision Thread.
Proof. solve_decision. Defined.

(** What the main thread does, in order. *)
Inductive MainStep :=
| MCalibrate
| MSettings (path : chars)
| MOpenDb (path : chars)
| MPassword
| MInitiator
| MExposer (port : Z)
| MSpawn (t : Thread)
| MStartSession
| MWaitSignal
| MStopSession
| MFeed (n : Z)
| MClearRunning
| MJoin (t : Thread)
| MReport.

#[export] Instance MainStep_eq_dec : EqDecision MainStep.
Proof. solve_decision. Defined.

(** How the program ends. *)
Inductive Outcome :=
| Returned (code : Z)       (* main returns *)
| Terminated                (* std::terminate *)
| Undefined (k : ub_kind).

(** The answers of the outside world: the text of a file, the SenderCompIDs of
    the sessions of the settings (in the order of the set), the LMDB codes, the
    exceptions of the constructors and calls that may throw; and for the load test
    the message before which a signal clears [g_running], if one does, and what
    the strategy pushes to the persister between two tests of that flag. *)
Record World := mkWorld {
  w_files : chars -> option chars;
  w_settings : chars -> cxx_exception + list chars;
  w_lmdb : history -> LmdbCall -> Z;
  w_initiator : option cxx_exception;
  w_exposer : Z -> option cxx_exception;
  w_spawn : Thread -> option cxx_exception;
  w_start : option cxx_exception;
  w_stop : option cxx_exception;
  w_signal : option Z;
  w_pushed : list persist_in
}.

(** A call that throws what it is given, if anything. *)
Definition threw (o : option cxx_exception) : Res unit :=
  match o with Some x => Err (Throw x) | None => Ok tt end.

Section Main.
Context {QO : QueueOps} {QF : QuickFix} (w : World).

Record MainState := mkMain {
  config : EngineConfig;          (* [cfg], the object the stages keep references to *)
  joinable : list Thread;         (* started and not joined *)
  running : bool;                 (* [g_running] *)
  db_handle : Handle;
  app : option FixApp;            (* as handed to the initiator; its [cfg_] is [config] *)
  done_steps : list MainStep
}.

Definition main_init (cfg : EngineConfig) : MainState := mkMain cfg [] true handle_init None [].

(** ** Computations that may throw and keep their state *)

Definition Act (A : Type) : Type := MainState -> Res A * MainState.

Definition aret {A} (a : A) : Act A := fun s => (Ok a, s).
Definition athrow {A} (e : fault) : Act A := fun s => (Err e, s).
Definition abind {A B} (m : Act A) (f : A -> Act B) : Act B := fun s =>
  match m s with
  | (Ok a, s) => f a s
  | (Err e, s) => (Err e, s)
  end.

(** A step, and what the world answers to it. *)
Definition try_step {A} (m : MainStep) (r : Res A) : Act A := fun s =>
  (r, mkMain (config s) (joinable s) (running s) (db_handle s) (app s) (done_steps s ++ [m])).
Definition step (m : MainStep) : Act unit := try_step m (Ok tt).

Definition spawn (t : Thread) : Act unit :=
  abind (try_step (MSpawn t) (threw (w_spawn w t))) (fun _ s =>
  (Ok tt, mkMain (config s) (joinable s ++ [t]) (running s) (db_handle s) (app s) (done_steps s))).

(** [t.join()] returns when the thread has returned. *)
Definition join (t : Thread) : Act unit :=
  abind (step (MJoin t)) (fun _ s =>
  (Ok tt, mkMain (config s) (filter (fun u => u <> t) (joinable s)) (running s) (db_handle s) (app s) (done_steps s))).

Definition clear_running (m : MainStep) : Act unit :=
  abind (step m) (fun _ s => (Ok tt, mkMain (config s) (joinable s) false (db_handle s) (app s) (done_steps s))).

(** [db.open(path)]; it throws nothing. *)
Definition open_db (path : chars) : Act bool :=
  abind (step (MOpenDb path)) (fun _ s =>
  match open (w_lmdb w) path (db_handle s) with
  | Ok (ok, h) => (Ok ok, mkMain (config s) (joinable s) (running s) h (app s) (done_steps s))
  | Err e => (Err e, s)
  end).

Fixpoint each {A} (f : A -> Act unit) (l : list A) : Act unit :=
  match l with
  | [] => aret tt
  | x :: l => abind (f x) (fun _ => each f l)
  end.

(** ** Live mode *)

Definition with_sender (cfg : EngineConfig) (s : chars) : EngineConfig :=
  mkConfig (minimum_spread cfg) (order_spread cfg) (tick_size cfg) (order_qty cfg) (book_depth cfg)
    (account cfg) s (fix_cfg cfg) (symbols_file cfg) (strategy_core cfg) (fix_core cfg)
    (metrics_port cfg) (lmdb_path cfg) (snapshot_interval_ms cfg) (dry_run cfg) (symbols cfg).

(** [settings.getSessions().begin()->getSenderCompID()]: dereferencing the
    end of an empty set is undefined. *)
Definition first_sender (sessions : list chars) : Act chars :=
  match sessions with
  | [] => athrow (UB EndDereference)
  | s :: _ => aret s
  end.

(** The configuration object: read, and [cfg.sender = ...]. *)
Definition this_config : Act EngineConfig := fun s => (Ok (config s), s).
Definition assign_sender (sender : chars) : Act unit := fun s =>
  (Ok tt, mkMain (with_sender (config s) sender) (joinable s) (running s) (db_handle s) (app s) (done_steps s)).

Definition credentials : chars := chars_of_string "config/credentials.txt".

(** [FixApp app(cfg, md, ex); app.set_password(read_password(...))]. *)
Definition make_app : Act unit :=
  abind (step MPassword) (fun _ s =>
  let f := fix_init (config s) (q_init kMdCap MdEvent) (q_init kExecCap ExecEvent) metrics_init in
  (Ok tt, mkMain (config s) (joinable s) (running s) (db_handle s)
    (Some (set_password (read_password (w_files w credentials)) f)) (done_steps s))).

Definition live_threads : list Thread := [TMetrics; TLog; TDb; TStrat; TSender].
Definition live_joins : list Thread := [TSender; TStrat; TDb; TLog; TMetrics].

Definition settings_of (cfg : EngineConfig) : Res (list chars) :=
  match w_settings w (fix_cfg cfg) with inl x => Err (Throw x) | inr l => Ok l end.

(** The body of the try block. *)
Definition live_body : Act Z :=
  abind this_config (fun cfg =>
  abind (try_step (MSettings (fix_cfg cfg)) (settings_of cfg)) (fun sessions =>
  abind (first_sender sessions) (fun sender =>
  abind (assign_sender sender) (fun _ =>
  abind this_config (fun cfg =>
  abind (open_db (lmdb_path cfg)) (fun ok =>
  if negb ok then aret 1
  else
    abind make_app (fun _ =>
    abind (try_step MInitiator (threw (w_initiator w))) (fun _ =>
    abind (try_step (MExposer (metrics_port cfg)) (threw (w_exposer w (metrics_port cfg)))) (fun _ =>
    abind (each spawn live_threads) (fun _ =>
    abind (try_step MStartSession (threw (w_start w))) (fun _ =>
    abind (clear_running MWaitSignal) (fun _ =>
    abind (try_step MStopSession (threw (w_stop w))) (fun _ =>
    abind (each join live_joins) (fun _ =>
    aret 0)))))))))))))).

(** ** Leaving a scope *)

(** ~LmdbPersister, when the scope is left. *)
Definition destroy (s : MainState) : MainState :=
  match close (w_lmdb w) (db_handle s) with
  | Ok (_, h) => mkMain (config s) (joinable s) (running s) h (app s) (done_steps s)
  | Err _ => s
  end.

(** The scope of the try block: a thread destroyed while joinable terminates
    the program, before any handler runs; otherwise [code] is what the handler
    (or the statement after it) returns. *)
Definition leave (r : Res Z) (code : Z) (s : MainState) : Outcome * MainState :=
  match r with
  | Err (UB k) => (Undefined k, s)
  | Err (Throw _) => if decide (joinable s = []) then (Returned code, destroy s) else (Terminated, s)
  | Ok c => if decide (joinable s = []) then (Returned c, destroy s) else (Terminated, s)
  end.

(** ** Bench mode *)

Definition bench_threads : list Thread := [TLog; TDb; TStrat; TSink].
Definition bench_joins : list Thread := [TStrat; TSink; TDb; TLog].

Definition bench_path (cfg : EngineConfig) : chars := lmdb_path cfg ++ chars_of_string "_bench".

(** What a thread asks of the system before its loop; the answers are not
    looked at. *)
Definition prologue (os : OsRequest -> Z) (cfg : EngineConfig) (t : Thread) : list OsRequest :=
  match t with
  | TStrat => snd (pin_this_thread os (strategy_core cfg)) ++ boost_priority
  | TSender | TSink => snd (pin_this_thread os (fix_core cfg))
  | TMetrics | TLog | TDb => []
  end.

(** The producer of the load test: [pin_this_thread(cfg.strategy_core + 2)], a
    sum of ints. *)
Definition producer_prologue (os : OsRequest -> Z) (cfg : EngineConfig) : Res (list OsRequest) :=
  let core := strategy_core cfg + 2 in
  if core <? 2 ^ 31 then Ok (snd (pin_this_thread os core)) else Err (UB SignedOverflow).

(** The persister thread of the load test, up to its return: the LMDB calls it
    makes on the handle the main thread opened, all of them between its start and
    its join, where the main thread makes none.  A call that lmdb.h does not allow
    is undefined behaviour. *)
Definition persister_thread : Act unit := fun s =>
  match db_thread (w_lmdb w) (whole_run (w_pushed w)) persister_init (db_handle s) with
  | Ok (_, h) =>
      (if decide (lmdb_run NoEnv (calls h) = None) then Err (UB LibraryMisuse) else Ok tt,
       mkMain (config s) (joinable s) (running s) h (app s) (done_steps s))
  | Err e => (Err e, s)
  end.

Definition bench_join (t : Thread) : Act unit :=
  match t with
  | TDb => abind persister_thread (fun _ => join TDb)
  | _ => join t
  end.

(** How many messages of [n] the feed loop makes: its test reads [g_running]. *)
Definition fed (n : Z) : Z := match w_signal w with Some k => Z.min n k | None => n end.

(** The answer of [db.open] only decides whether a warning is printed. *)
Definition run_bench (cfg : EngineConfig) (n : Z) : Act unit :=
  let cfg := bench_config cfg in
  abind (open_db (bench_path cfg)) (fun _ =>
  abind (each spawn bench_threads) (fun _ =>
  abind (try_step (MFeed (fed n))
    (if (0 <? fed n) && (bench_syms cfg =? 0) then Err (UB DivideByZero) else Ok tt)) (fun _ =>
  abind (clear_running MClearRunning) (fun _ =>
  abind (each bench_join bench_joins) (fun _ =>
  abind (step MReport) (fun _ s => (Ok tt, destroy s))))))).

(** [argc > 2 ? strtoull(argv[2], nullptr, 10) : 2'000'000]. *)
Definition bench_count (args : list chars) : Z :=
  match args with
  | a :: _ => strtoull (c_str a)
  | [] => 2000000
  end.

Definition bench_body (args : list chars) : Act Z :=
  abind this_config (fun cfg =>
  abind (try_step (MExposer (metrics_port cfg)) (threw (w_exposer w (metrics_port cfg)))) (fun _ =>
  abind (spawn TMetrics) (fun _ =>
  abind (run_bench cfg (bench_count args)) (fun _ =>
  abind (join TMetrics) (fun _ => aret 0))))).

(** ** main *)

Definition strategy_cfg : chars := chars_of_string "config/strategy.cfg".
Definition bench_flag : chars := chars_of_string "--bench".

(** Outside the try block nothing catches. *)
Definition uncaught (r : Res Z) (s : MainState) : Outcome * MainState :=
  match r with
  | Err (UB k) => (Undefined k, s)
  | Err (Throw _) => (Terminated, s)
  | Ok c => (if decide (joinable s = []) then Returned c else Terminated, s)
  end.

(** [args] are argv[1], argv[2], ...; before [load] returns [cfg] holds nothing
    the program looks at. *)
Definition main (args : list chars) : Outcome * MainState :=
  match load (w_files w) strategy_cfg with
  | Err e => uncaught (Err e) (main_init config_default)
  | Ok cfg =>
      let s := snd (step MCalibrate (main_init cfg)) in
      match args with
      | a :: args =>
          if decide (c_str a = bench_flag) then let '(r, s) := bench_body args s in uncaught r s
          else let '(r, s) := live_body s in leave r 1 s
      | [] => let '(r, s) := live_body s in leave r 1 s
      end
  end.
End Main.

(** ** Facts *)
Section Facts.
Context {QO : QueueOps} {QL : QueueLaws} {QF : QuickFix} (w : World).

Definition add_steps (l : list MainStep) (s : MainState) : MainState :=
  mkMain (config s) (joinable s) (running s) (db_handle s) (app s) (done_steps s ++ l).
Definition add_threads (l : list Thread) (s : MainState) : MainState :=
  mkMain (config s) (joinable s ++ l) (running s) (db_handle s) (app s) (done_steps s).

(** The threads that start before one cannot be. *)
Fixpoint started (l : list Thread) : list Thread * option cxx_exception :=
  match l with
  | [] => ([], None)
  | t :: l =>
      match w_spawn w t with
      | Some x => ([], Some x)
      | None => let '(ts, x) := started l in (t :: ts, x)
      end
  end.

Lemma abind_ok {A B} (m : Act A) (f : A -> Act B) s a s' :
  m s = (Ok a, s') -> abind m f s = f a s'.
Proof. intros H. unfold abind. by rewrite H. Qed.

Lemma abind_err {A B} (m : Act A) (f : A -> Act B) s e s' :
  m s = (Err e, s') -> abind m f s = (Err e, s').
Proof. intros H. unfold abind. by rewrite H. Qed.

Lemma add_steps_nil s : add_steps [] s = s.
Proof. unfold add_steps. rewrite app_nil_r. by destruct s. Qed.
Lemma add_threads_nil s : add_threads [] s = s.
Proof. unfold add_threads. rewrite app_nil_r. by destruct s. Qed.

(** Spawning in a row: all of them, or up to the first that throws. *)
Lemma spawn_each l s :
  exists steps, each (spawn w) l s = (threw (snd (started l)), add_threads (fst (started l)) (add_steps steps s)) /\
    (snd (started l) = None -> fst (started l) = l /\ steps = map MSpawn l).
Proof.
  revert s. induction l as [|t l IH]; intros s; cbn [each started].
  - exists []. by rewrite add_steps_nil, add_threads_nil.
  - destruct (w_spawn w t) as [x|] eqn:E.
    + exists [MSpawn t]. cbn [fst snd]. rewrite add_threads_nil. split; [|done].
      unfold spawn. do 2 (erewrite abind_err; [reflexivity|]); unfold try_step; by rewrite E.
    + destruct (IH (add_threads [t] (add_steps [MSpawn t] s))) as (steps & Hr & H).
      destruct (started l) as [ts x]. cbn [fst snd] in *. exists (MSpawn t :: steps). split.
      * erewrite abind_ok; [rewrite Hr|unfold spawn; erewrite abind_ok; [reflexivity|unfold try_step; by rewrite E]].
        unfold add_threads, add_steps. cbn. by rewrite <- !app_assoc.
      * intros Hx. by destruct (H Hx) as [-> ->].
Qed.

Lemma join_each l s :
  each join l s = (Ok tt, mkMain (config s) (foldl (fun js t => filter (fun u => u <> t) js) (joinable s) l) (running s)
    (db_handle s) (app s) (done_steps s ++ map MJoin l)).
Proof.
  revert s. induction l as [|t l IH]; intros s; cbn [each foldl map].
  - unfold aret. rewrite app_nil_r. by destruct s.
  - erewrite abind_ok; [|reflexivity]. rewrite IH. cbn. by rewrite <- app_assoc.
Qed.

(** What has to go well before the first thread runs, and after. *)
Definition quiet_call (o : option cxx_exception) : bool := bool_decide (o = None).
Definition launchable (cfg : EngineConfig) : bool :=
  quiet_call (w_initiator w) && quiet_call (w_exposer w (metrics_port cfg)) && quiet_call (w_spawn w TMetrics).
Definition runs_through : bool :=
  forallb (fun t => quiet_call (w_spawn w t)) [TLog; TDb; TStrat; TSender] &&
  quiet_call (w_start w) && quiet_call (w_stop w).

(** The steps of a run in which nothing fails. *)
Definition live_steps (cfg : EngineConfig) : list MainStep :=
  [MCalibrate; MSettings (fix_cfg cfg); MOpenDb (lmdb_path cfg); MPassword; MInitiator; MExposer (metrics_port cfg);
   MSpawn TMetrics; MSpawn TLog; MSpawn TDb; MSpawn TStrat; MSpawn TSender; MStartSession; MWaitSignal;
   MStopSession; MJoin TSender; MJoin TStrat; MJoin TDb; MJoin TLog; MJoin TMetrics].

(** The part of the body after the database is open. *)
Definition live_rest (cfg : EngineConfig) : Act Z :=
  abind (make_app w) (fun _ =>
  abind (try_step MInitiator (threw (w_initiator w))) (fun _ =>
  abind (try_step (MExposer (metrics_port cfg)) (threw (w_exposer w (metrics_port cfg)))) (fun _ =>
  abind (each (spawn w) live_threads) (fun _ =>
  abind (try_step MStartSession (threw (w_start w))) (fun _ =>
  abind (clear_running MWaitSignal) (fun _ =>
  abind (try_step MStopSession (threw (w_stop w))) (fun _ =>
  abind (each join live_joins) (fun _ =>
  aret 0)))))))).

(** The application it hands to QuickFIX. *)
Definition the_app (cfg : EngineConfig) : FixApp :=
  set_password (read_password (w_files w credentials))
    (fix_init cfg (q_init kMdCap MdEvent) (q_init kExecCap ExecEvent) metrics_init).

(** How that part leaves the main thread. *)
Inductive rest_end (cfg : EngineConfig) (s : MainState) : Res Z -> MainState -> Prop :=
| rest_refused x s' : launchable cfg = false -> joinable s' = [] -> rest_end cfg s (Err (Throw x)) s'
| rest_crashed x s' : launchable cfg = true -> runs_through = false -> joinable s' <> [] -> rest_end cfg s (Err (Throw x)) s'
| rest_done s' : launchable cfg = true -> runs_through = true -> joinable s' = [] -> running s' = false ->
    done_steps s' = done_steps s ++ drop 3 (live_steps cfg) -> rest_end cfg s (Ok 0) s'.

Ltac answers := unfold launchable, runs_through; cbn [forallb];
  repeat match goal with E : _ = _ :> option cxx_exception |- _ => rewrite E; clear E end; reflexivity.

Ltac stuck_at o := destruct o eqn:?; cbn;
  [do 2 eexists; split; [reflexivity|]; split; [reflexivity|]; split; [reflexivity|]; split; [reflexivity|];
   first [apply rest_refused; [answers|reflexivity] | apply rest_crashed; [answers|answers|done]]|].

Lemma live_rest_end cfg s :
  joinable s = [] -> config s = cfg ->
  exists r s', live_rest cfg s = (r, s') /\ db_handle s' = db_handle s /\ config s' = cfg /\
    app s' = Some (the_app cfg) /\ rest_end cfg s r s'.
Proof.
  intros Hj Hcfg. destruct s as [c js run h a steps]. cbn in Hj, Hcfg. subst js c.
  unfold live_rest, abind, make_app, step, try_step, clear_running. cbn [each live_threads].
  unfold spawn, abind, step, try_step.
  stuck_at (w_initiator w). stuck_at (w_exposer w (metrics_port cfg)).
  stuck_at (w_spawn w TMetrics). stuck_at (w_spawn w TLog). stuck_at (w_spawn w TDb).
  stuck_at (w_spawn w TStrat). stuck_at (w_spawn w TSender). stuck_at (w_start w). stuck_at (w_stop w).
  do 2 eexists. do 4 (split; [reflexivity|]).
  apply rest_done; [answers|answers|reflexivity|reflexivity|]. cbn. by rewrite <- !app_assoc.
Qed.

Definition live_args (args : list chars) : bool :=
  match args with [] => true | a :: _ => negb (bool_decide (c_str a = bench_flag)) end.

Lemma main_live args cfg :
  load (w_files w) strategy_cfg = Ok cfg -> live_args args = true ->
  main w args = let '(r, s) := live_body w (add_steps [MCalibrate] (main_init cfg)) in leave w r 1 s.
Proof.
  intros Hl Ha. unfold main. rewrite Hl. destruct args as [|a args]; [done|].
  cbn [live_args] in Ha. destruct (decide (c_str a = bench_flag)) as [E|E]; [|done].
  by rewrite bool_decide_true in Ha.
Qed.

Lemma leave_closes r code s h0 st :
  db_handle s = h0 -> lmdb_run NoEnv (calls h0) = Some st -> env_ h0 = bool_decide (st <> NoEnv) ->
  (forall d, st <> InTxn d) -> joinable s = [] ->
  exists s', leave w r code s = (match r with
      | Err (UB k) => (Undefined k, s) | Err (Throw _) => (Returned code, s') | Ok c => (Returned c, s') end) /\
    joinable s' = [] /\ lmdb_run NoEnv (calls (db_handle s')) = Some NoEnv /\ running s' = running s /\
    done_steps s' = done_steps s.
Proof.
  intros <- Hs He Ht Hj. destruct (close_ends (w_lmdb w) (db_handle s) st Hs He Ht) as (h & Hc & Hr).
  exists (destroy w s). unfold leave. split.
  - destruct r as [c|[k|x]]; [by rewrite decide_True|done|by rewrite decide_True].
  - unfold destroy. by rewrite Hc.
Qed.

(** How live mode ends, given the answers. *)
Definition live_outcome_spec (cfg : EngineConfig) (opened : bool) : Outcome :=
  match w_settings w (fix_cfg cfg) with
  | inl _ => Returned 1
  | inr [] => Undefined EndDereference
  | inr _ => if opened && launchable cfg then if runs_through then Returned 0 else Terminated else Returned 1
  end.

(** The body once the settings name a session: the database, then the rest, on a
    configuration with the sender in it. *)
Lemma live_body_session cfg sender sessions s0 :
  w_settings w (fix_cfg cfg) = inr (sender :: sessions) -> config s0 = cfg -> db_handle s0 = handle_init -> app s0 = None ->
  exists opened h s2, open (w_lmdb w) (lmdb_path cfg) handle_init = Ok (opened, h) /\
    live_body w s0 = (if opened then live_rest (with_sender cfg sender) s2 else (Ok 1, s2)) /\
    s2 = mkMain (with_sender cfg sender) (joinable s0) (running s0) h None
      (done_steps s0 ++ [MSettings (fix_cfg cfg); MOpenDb (lmdb_path cfg)]).
Proof.
  intros Hset <- Hh Ha. destruct (open_spec (w_lmdb w) (lmdb_path (config s0))) as (opened & h & Ho & _).
  exists opened, h. eexists. split; [done|]. split; [|reflexivity].
  unfold live_body, settings_of. erewrite abind_ok; [|reflexivity]. rewrite Hset.
  do 4 (erewrite abind_ok; [|reflexivity]). cbn [config].
  erewrite (abind_ok _ _ _ opened); [destruct opened; reflexivity|].
  unfold open_db. erewrite abind_ok; [|reflexivity]. cbn. rewrite Hh. cbn in Ho. rewrite Ho, Ha. by rewrite <- app_assoc.
Qed.


Lemma leave_app r code s : app (snd (leave w r code s)) = app s /\ config (snd (leave w r code s)) = config s.
Proof.
  destruct r as [c|[k|x]]; cbn; [|done|]; (destruct (decide (joinable s = [])); [|done]);
    unfold destroy; cbn; by destruct (close _ _) as [[? ?]|].
Qed.

(** C30: the session logs on with the configured identity.  When the settings
    name a session and the database opens, main leaves its configuration object
    and the application it handed to QuickFIX, which reads that object, such that
    the application puts into every Logon, and into no other message, the
    SenderCompID of the first session as user name and the password of
    config/credentials.txt: the rest of its first line that starts with
    "password=", without trailing blanks. *)
Theorem logon_credentials (args : list chars) (cfg : EngineConfig) (sender : chars) (sessions : list chars) (h : Handle)
    (before : list chars) (pw pad after : chars) :
  load (w_files w) strategy_cfg = Ok cfg -> live_args args = true ->
  w_settings w (fix_cfg cfg) = inr (sender :: sessions) ->
  open (w_lmdb w) (lmdb_path cfg) handle_init = Ok (true, h) ->
  w_files w credentials = Some (flat_map (fun l => l ++ [newline]) before ++
                                password_key ++ pw ++ pad ++ newline :: after) ->
  Forall (fun l => starts_with password_key l = false /\ no_newline l) before ->
  no_newline pw -> rstrip pw = pw -> Forall (fun c => is_trailer c = true) pad ->
  let s := snd (main w args) in
  exists f, app s = Some f /\
    forall ty, toAdmin (config s) ty f = if decide (ty = chars_of_string "A") then Some (sender, pw) else None.
Proof.
  intros Hl Ha Hset Ho Hf HB Hpw Hr Hpad s. exists (the_app (with_sender cfg sender)).
  assert (app s = Some (the_app (with_sender cfg sender)) /\ config s = with_sender cfg sender) as [-> ->].
  { subst s. rewrite (main_live args cfg Hl Ha).
    destruct (live_body_session cfg sender sessions (add_steps [MCalibrate] (main_init cfg)) Hset eq_refl eq_refl eq_refl)
      as (op & h' & s2 & Ho' & -> & E2). rewrite Ho in Ho'. injection Ho' as <- <-.
    destruct (live_rest_end (with_sender cfg sender) s2) as (r & s3 & -> & _ & Hcfg & Happ & _); [by rewrite E2..|].
    destruct (leave_app r 1 s3) as [-> ->]. by split. }
  split; [done|]. intros ty. unfold toAdmin, the_app. cbn [password_ set_password]. rewrite Hf.
  by rewrite read_password_first.
Qed.

(** *** Bench mode *)

(** What has to go well in the load test. *)
Definition bench_quiet (cfg : EngineConfig) : bool :=
  quiet_call (w_exposer w (metrics_port cfg)) &&
  forallb (fun t => quiet_call (w_spawn w t)) (TMetrics :: bench_threads).

Lemma bench_syms_zero cfg : (bench_syms cfg =? 0) = bool_decide (symbols cfg = []).
Proof.
  unfold bench_syms. destruct (symbols cfg) as [|x l]; [done|]. rewrite bool_decide_false by done.
  apply Z.eqb_neq. cbn [length]. unfold kMaxSymbols. lia.
Qed.

Lemma try_step_ok {A} m (r : Res A) s a : r = Ok a -> try_step m r s = (Ok a, add_steps [m] s).
Proof. by intros ->. Qed.

Lemma try_step_throw m x s o : o = Some x -> try_step m (threw o) s = (Err (Throw x), add_steps [m] s).
Proof. by intros ->. Qed.

Lemma spawn_ok t s : w_spawn w t = None -> spawn w t s = (Ok tt, add_threads [t] (add_steps [MSpawn t] s)).
Proof. intros E. unfold spawn. erewrite abind_ok; [|by apply try_step_ok; rewrite E]. done. Qed.

Lemma spawn_err t s x : w_spawn w t = Some x -> spawn w t s = (Err (Throw x), add_steps [MSpawn t] s).
Proof. intros E. unfold spawn. erewrite abind_err; [done|]. by apply try_step_throw. Qed.

Lemma started_quiet l : forallb (fun t => quiet_call (w_spawn w t)) l = bool_decide (snd (started l) = None).
Proof.
  induction l as [|t l IH]; [done|]. cbn [forallb started]. rewrite IH. unfold quiet_call.
  destruct (w_spawn w t); [done|]. by destruct (started l) as [ts [x|]].
Qed.

Lemma open_db_ok path s opened h :
  db_handle s = handle_init -> open (w_lmdb w) path handle_init = Ok (opened, h) ->
  open_db w path s = (Ok opened, mkMain (config s) (joinable s) (running s) h (app s) (done_steps s ++ [MOpenDb path])).
Proof. intros Hd Ho. unfold open_db. erewrite abind_ok; [|reflexivity]. cbn [db_handle]. by rewrite Hd, Ho. Qed.

Lemma unguarded_illegal h : unguarded_put h -> lmdb_run NoEnv h = None.
Proof.
  intros (pre & c & k & v & r & post & -> & Hc & Hpre). rewrite lmdb_run_app, Hpre. cbn.
  by rewrite (proj2 (Z.eqb_neq _ _) Hc).
Qed.

(** How the persister thread of the load test ends, on a handle as [open] leaves it. *)
Definition persister_end (h : history) (r : Res unit) (h' : history) : Prop :=
  if decide (lmdb_run NoEnv h = Some Opened) then
    (r = Ok tt /\ lmdb_run NoEnv h' = Some Opened) \/ (r = Err (UB LibraryMisuse) /\ unguarded_put h')
  else r = Err (UB LibraryMisuse).

Lemma persister_thread_end s b :
  Forall input_typed (w_pushed w) -> open_left b (db_handle s) ->
  exists r h', persister_thread w s = (r, mkMain (config s) (joinable s) (running s) h' (app s) (done_steps s)) /\
    env_ h' = env_ (db_handle s) /\ persister_end (calls (db_handle s)) r (calls h').
Proof.
  intros Hin [_ (st & Hs & _ & Hne & Hnt & _)]. unfold persister_thread, persister_end.
  destruct (db_thread_ends (w_lmdb w) (w_pushed w) (db_handle s) Hin) as (h' & E & He & Hop & Hdead).
  rewrite E, Hs. do 2 eexists. split; [reflexivity|]. split; [done|].
  destruct (decide (Some st = Some Opened)) as [[= ->]|Hno].
  - destruct Hop as [Hr|Hu]; [by left|left; split; [|done]; by rewrite decide_False; [|rewrite Hr]|].
    right. split; [|done]. rewrite decide_True; [done|]. by apply unguarded_illegal.
  - rewrite decide_True; [done|]. apply Hdead. unfold env_dead. rewrite Hs. destruct st; auto; try done. by destruct (Hnt dbi).
Qed.

Lemma bench_joined s b :
  Forall input_typed (w_pushed w) -> open_left b (db_handle s) ->
  exists r s', each (bench_join w) bench_joins s = (r, s') /\ env_ (db_handle s') = env_ (db_handle s) /\
    persister_end (calls (db_handle s)) r (calls (db_handle s')) /\
    (r = Ok tt -> joinable s' = foldl (fun js t => filter (fun u => u <> t) js) (joinable s) bench_joins /\
       running s' = running s /\ done_steps s' = done_steps s ++ map MJoin bench_joins).
Proof.
  intros Hin Ho. cbn [each bench_joins bench_join].
  do 2 (erewrite abind_ok; [|reflexivity]). cbn [config joinable running db_handle app done_steps].
  match goal with |- context [abind (abind (persister_thread w) _) _ ?s] => set (s1 := s) end.
  destruct (persister_thread_end s1 b Hin Ho) as (r & h' & E & He & Hend).
  assert (Hr : r = Ok tt \/ r = Err (UB LibraryMisuse)).
  { unfold persister_end in Hend. destruct (decide _); [destruct Hend as [[-> _]|[-> _]]|]; auto. }
  destruct Hr as [-> | ->].
  - erewrite abind_ok; [|erewrite abind_ok; [|exact E]; reflexivity]. erewrite abind_ok; [|reflexivity].
    do 2 eexists. split; [reflexivity|]. split; [done|]. split; [done|]. intros _. split; [done|]. split; [done|].
    cbn. by rewrite <- !app_assoc.
  - erewrite abind_err; [|erewrite abind_err; [reflexivity|exact E]].
    do 2 eexists. split; [reflexivity|]. split; [done|]. by split.
Qed.

(** The load test proper, around the thread of the metrics server. *)
Lemma run_bench_end cfg n s :
  Forall input_typed (w_pushed w) -> db_handle s = handle_init -> joinable s = [TMetrics] ->
  exists opened h r s', open (w_lmdb w) (bench_path cfg) handle_init = Ok (opened, h) /\
    run_bench w cfg n s = (r, s') /\
    if forallb (fun t => quiet_call (w_spawn w t)) bench_threads then
      if (0 <? fed w n) && bool_decide (symbols cfg = []) then r = Err (UB DivideByZero)
      else
        (r = Err (UB LibraryMisuse) /\
          (lmdb_run NoEnv (calls h) = Some Opened -> unguarded_put (calls (db_handle s')))) \/
        (r = Ok tt /\ lmdb_run NoEnv (calls h) = Some Opened /\ joinable s' = [TMetrics] /\ running s' = false /\
          lmdb_run NoEnv (calls (db_handle s')) = Some NoEnv /\
          done_steps s' = done_steps s ++ [MOpenDb (bench_path cfg); MSpawn TLog; MSpawn TDb; MSpawn TStrat;
            MSpawn TSink; MFeed (fed w n); MClearRunning; MJoin TStrat; MJoin TSink; MJoin TDb; MJoin TLog; MReport])
    else exists x, r = Err (Throw x).
Proof.
  destruct s as [c0 js run hd ap steps0]. cbn [db_handle joinable done_steps]. intros Hin Hd Hj. subst hd js.
  destruct (open_spec (w_lmdb w) (bench_path cfg)) as (opened & h & Ho & Hleft).
  exists opened, h. unfold run_bench. change (bench_path (bench_config cfg)) with (bench_path cfg).
  erewrite abind_ok; [|by eapply (open_db_ok _ _ opened h)].
  match goal with |- context [abind (each _ _) _ ?s] => set (s1 := s) end.
  destruct (spawn_each bench_threads s1) as (steps & Hsp & Hall). rewrite started_quiet.
  destruct (started bench_threads) as [ts [x|]]; cbn [fst snd] in *.
  { erewrite abind_err; [|exact Hsp]. do 2 eexists. split; [done|]. split; [reflexivity|]. by exists x. }
  destruct (Hall eq_refl) as [-> ->]. rewrite bool_decide_true by done. erewrite abind_ok; [|exact Hsp].
  change (bench_syms (bench_config cfg)) with (bench_syms cfg). rewrite bench_syms_zero.
  destruct ((0 <? fed w n) && bool_decide (symbols cfg = [])).
  { erewrite abind_err; [|reflexivity]. do 2 eexists. by split. }
  erewrite abind_ok; [|reflexivity]. erewrite abind_ok; [|reflexivity].
  match goal with |- context [abind (each (bench_join w) _) _ ?s] => set (s2 := s) end.
  destruct (bench_joined s2 opened Hin Hleft) as (r & s3 & E & He & Hend & Hok). unfold persister_end in Hend.
  change (calls (db_handle s2)) with (calls h) in Hend. change (env_ (db_handle s2)) with (env_ h) in He.
  destruct r as [[]|e]; [erewrite abind_ok; [|exact E]|erewrite abind_err; [|exact E]].
  - destruct (decide (lmdb_run NoEnv (calls h) = Some Opened)) as [Hop|]; [|done].
    destruct Hend as [[_ Hr]|[[=] _]]. destruct (Hok eq_refl) as (Hj & Hrn & Hst).
    erewrite abind_ok; [|reflexivity].
    destruct (ol_state _ _ Hleft) as (st & Hs & Heh & _). rewrite Hop in Hs. injection Hs as <-.
    destruct (close_ends (w_lmdb w) (db_handle s3) Opened Hr) as (h' & Hc & Hr'); [by rewrite He|done|].
    do 2 eexists. split; [done|]. split; [reflexivity|]. right. unfold destroy. cbn [db_handle]. rewrite Hc.
    cbn [joinable running db_handle done_steps]. rewrite Hj, Hrn, Hst. do 5 (split; [done|]).
    subst s2 s1. cbn. by rewrite <- !app_assoc.
  - do 2 eexists. split; [done|]. split; [reflexivity|]. left.
    destruct (decide _) as [Hop|Hop]; [destruct Hend as [[[=] _]|[[= ->] Hu]]; by split|].
    injection Hend as ->. by split.
Qed.

End Facts.

(** A negative STRATEGY_CORE turns the pinning of the strategy off, and pins the
    producer of the load test to core 0 or 1 when it is -2 or -1. *)
Lemma unpinned_strategy (os : OsRequest -> Z) (cfg : EngineConfig) :
  strategy_core cfg < 0 ->
  prologue os cfg TStrat = [SetFifo 80] /\
  producer_prologue os cfg = Ok (if strategy_core cfg <? -2 then [] else [SetAffinity {[strategy_core cfg + 2]}]).
Proof.
  intros H. unfold prologue, producer_prologue. rewrite !pin_this_thread_spec.
  destruct (Z.ltb_spec (strategy_core cfg) 0); [|lia]. split; [done|].
  destruct (Z.ltb_spec (strategy_core cfg + 2) (2 ^ 31)); [|lia].
  destruct (Z.ltb_spec (strategy_core cfg + 2) 0), (Z.ltb_spec (strategy_core cfg) (-2)); done || lia.
Qed.

(** ** Witnesses *)

(** The shipped configuration, a credentials file, one session, and a session
    start that throws what it is given. *)
Definition demo_files (path : chars) : option chars :=
  if decide (path = credentials) then
    Some (chars_of_string "username=me" ++ [newline] ++ password_key ++ chars_of_string "s3cret" ++ [chr 13] ++ [newline])
  else shipped_files path.

Definition demo_world (start : option cxx_exception) : World :=
  mkWorld demo_files (fun _ => inr [chars_of_string "REM22479"]) all_ok None (fun _ => None) (fun _ => None) start None None [].

Definition demo_main (w : World) (args : list chars) : Outcome * @MainState list_ops demo_qf := @main list_ops demo_qf w args.

Example demo_live : fst (demo_main (demo_world None) []) = Returned 0.
Proof. vm_compute. reflexivity. Qed.

Lemma demo_loads start : exists cfg, load (w_files (demo_world start)) strategy_cfg = Ok cfg /\
  open all_ok (lmdb_path cfg) handle_init = Ok (true, mkHandle true [chars_of_string "data"]
    [(EnvCreate, 0); (EnvSetMapsize 1073741824, 0); (EnvOpen (chars_of_string "data/lmdb") [MDB_NOSUBDIR; MDB_NOSYNC] 436, 0);
     (TxnBegin, 0); (DbiOpen, 0); (TxnCommit, 0)]).
Proof.
  destruct (load demo_files strategy_cfg) as [cfg|] eqn:E; [|vm_compute in E; discriminate E].
  exists cfg. split; [exact E|].
  assert (H : match load demo_files strategy_cfg with Ok c => lmdb_path c = chars_of_string "data/lmdb" | Err _ => False end)
    by (vm_compute; reflexivity).
  rewrite E in H. rewrite H. vm_compute. reflexivity.
Qed.


Lemma logon_credentials_witness :
  exists f, @app list_ops demo_qf (snd (demo_main (demo_world None) [])) = Some f /\
    @toAdmin list_ops demo_qf (config (snd (demo_main (demo_world None) []))) (chars_of_string "A") f =
      Some (chars_of_string "REM22479", chars_of_string "s3cret").
Proof.
  destruct (demo_loads None) as (cfg & Hl & Ho).
  destruct (@logon_credentials list_ops demo_qf (demo_world None) [] cfg (chars_of_string "REM22479") [] _
    [chars_of_string "username=me"] (chars_of_string "s3cret") [chr 13] [] Hl eq_refl eq_refl Ho) as (f & Hf & Ha).
  - vm_compute. reflexivity.
  - constructor; [|constructor]. split; [reflexivity|by apply chars_no_newline].
  - by apply chars_no_newline.
  - reflexivity.
  - by repeat constructor.
  - exists f. split; [exact Hf|]. exact (Ha (chars_of_string "A")).
Defined.

(** Fifty messages, a signal before the twentieth; on a database that opens, and
    on one that does not. *)
Definition no_database : history -> LmdbCall -> Z :=
  fun _ c => match c with EnvOpen _ _ _ => 2 | _ => 0 end.
Definition bench_world (lmdb : history -> LmdbCall -> Z) : World :=
  mkWorld demo_files (fun _ => inr []) lmdb None (fun _ => None) (fun _ => None) None None (Some 20) [([demo_snap], [], true)].

Example bench_returns : fst (demo_main (bench_world all_ok) [bench_flag; chars_of_string "50"]) = Returned 0.
Proof. vm_compute. reflexivity. Qed.

