(* ===== verification/MetricsServer.v ===== *)
(** * Metrics thread (src/src/metrics/metrics_server.hpp)

    Once a second the registry is read and published as Prometheus gauges and
    counters.  prometheus-cpp is not part of the repository: [Prometheus] is
    the interface the code calls, [PrometheusLaws] its documented behaviour. *)
From S2P Require Import Prelude.
From S2P Require Import Double.
From S2P Require Import Dyadic.
From S2P Require Import Text.
From S2P Require Import LatencyHistogram.
From S2P Require Import Metrics.

Class Prometheus := {
  Counter : Type;
  c_new : Counter;
  c_value : Counter -> double;
  c_increment : double -> Counter -> Counter
}.

(** A counter starts at 0 and an increment that is not negative is added. *)
Class PrometheusLaws `{!Prometheus} : Prop := {
  new_value : c_value c_new = dzero;
  increment_value : forall d c, dlt d dzero = false -> c_value (c_increment d c) = dadd (c_value c) d
}.

Section Server.
Context {PR : Prometheus}.

(** The registered metrics; [gauges_] is keyed by "flow:percentile", [last_md]
    is a local variable of [run]. *)
Record MetricsServer := mkServer {
  gauges_ : gmap chars double;
  tps_ : double;
  g_mdq_ : double;
  g_ordq_ : double;
  g_logq_ : double;
  c_md_ : Counter;
  c_drop_ : Counter;
  c_orders_ : Counter;
  c_cxl_ : Counter;
  c_exec_ : Counter;
  last_md : Z
}.

Definition gauge_key (flow p : string) : chars :=
  chars_of_string flow ++ chars_of_string ":" ++ chars_of_string p.

Definition flows : list string := ["md_processing"; "tick_to_trade"; "queue_wait"]%string.
Definition quantiles : list string := ["p50"; "p90"; "p99"; "max"]%string.

(** The constructor: every gauge at 0. *)
Definition server_init : MetricsServer :=
  mkServer
    (fold_left (fun g k => <[k := dzero]> g)
       (flat_map (fun flow => map (gauge_key flow) quantiles) flows) ∅)
    dzero dzero dzero dzero c_new c_new c_new c_new c_new 0.

Definition publish (flow : string) (p : LatencyHistogram.Percentiles) (g : gmap chars double)
    : gmap chars double :=
  <[gauge_key flow "max" := double_of_Z (LatencyHistogram.pmax p)]>
  (<[gauge_key flow "p99" := double_of_Z (LatencyHistogram.p99 p)]>
  (<[gauge_key flow "p90" := double_of_Z (LatencyHistogram.p90 p)]>
  (<[gauge_key flow "p50" := double_of_Z (LatencyHistogram.p50 p)]> g))).

Definition set_counter (c : Counter) (target : double) : Counter :=
  let cur := c_value c in
  if dgt target cur then c_increment (dsub target cur) c else c.

(** One iteration of [run], after the sleep, on a registry no other thread
    changes meanwhile; the summary line on stdout is left out. *)
Definition server_iter (m : Metrics) (st : MetricsServer) : MetricsServer :=
  let md := md_msgs_total m in
  mkServer
    (publish "queue_wait" (LatencyHistogram.snapshot (queue_wait m))
    (publish "tick_to_trade" (LatencyHistogram.snapshot (tick_to_trade m))
    (publish "md_processing" (LatencyHistogram.snapshot (md_processing m)) (gauges_ st))))
    (double_of_Z (u64 (md - last_md st)))
    (double_of_Z (md_queue_max m)) (double_of_Z (ord_queue_max m)) (double_of_Z (log_queue_max m))
    (set_counter (c_md_ st) (double_of_Z md))
    (set_counter (c_drop_ st) (double_of_Z (md_dropped_total m)))
    (set_counter (c_orders_ st) (double_of_Z (orders_sent_total m)))
    (set_counter (c_cxl_ st) (double_of_Z (cancels_sent_total m)))
    (set_counter (c_exec_ st) (double_of_Z (execs_total m)))
    md.

Fixpoint server_run (ms : list Metrics) (st : MetricsServer) : MetricsServer :=
  match ms with
  | [] => st
  | m :: ms => server_run ms (server_iter m st)
  end.
End Server.

(** ** Properties *)

Section Facts.
Context {PR : Prometheus} {PL : PrometheusLaws}.

(** A counter that shows an exact whole number is moved to the larger one. *)
Lemma set_counter_value c n target :
  c_value c = double_of_Z n -> 0 <= n < 2 ^ 53 -> 0 <= target < 2 ^ 53 ->
  c_value (set_counter c (double_of_Z target)) = double_of_Z (Z.max n target).
Proof.
  intros Hc Hn Ht. unfold set_counter. rewrite Hc, !dyadic_int.
  assert (He : grid_exp 0) by (unfold grid_exp; lia).
  unfold dgt. change (SFltb (dyadic n 0) (dyadic target 0)) with (dlt (dyadic n 0) (dyadic target 0)).
  rewrite dlt_dyadic by (unfold fits53; lia || done).
  destruct (Z.ltb_spec n target) as [H|H].
  - rewrite dsub_dyadic by (unfold fits53; lia || done). rewrite increment_value.
    + rewrite Hc, dyadic_int, dadd_dyadic by (unfold fits53; lia || done). f_equal. lia.
    + rewrite <- (dyadic_0 0). rewrite dlt_dyadic by (unfold fits53; lia || done). apply Z.ltb_ge. lia.
  - rewrite Hc, dyadic_int. f_equal. lia.
Qed.

(** What a server shows of the registry's counters. *)
Record shows (st : MetricsServer) (md drop orders cxl exec : Z) : Prop := {
  sh_md : c_value (c_md_ st) = double_of_Z md;
  sh_drop : c_value (c_drop_ st) = double_of_Z drop;
  sh_orders : c_value (c_orders_ st) = double_of_Z orders;
  sh_cxl : c_value (c_cxl_ st) = double_of_Z cxl;
  sh_exec : c_value (c_exec_ st) = double_of_Z exec;
  sh_last : last_md st = md
}.

Definition shows_metrics (st : MetricsServer) (m : Metrics) : Prop :=
  shows st (md_msgs_total m) (md_dropped_total m) (orders_sent_total m) (cancels_sent_total m) (execs_total m).

(** The counters of the registry stay exact in a double, and never go back. *)
Record counters_grow (m m' : Metrics) : Prop := {
  cg_md : 0 <= md_msgs_total m <= md_msgs_total m' /\ md_msgs_total m' < 2 ^ 53;
  cg_drop : 0 <= md_dropped_total m <= md_dropped_total m' /\ md_dropped_total m' < 2 ^ 53;
  cg_orders : 0 <= orders_sent_total m <= orders_sent_total m' /\ orders_sent_total m' < 2 ^ 53;
  cg_cxl : 0 <= cancels_sent_total m <= cancels_sent_total m' /\ cancels_sent_total m' < 2 ^ 53;
  cg_exec : 0 <= execs_total m <= execs_total m' /\ execs_total m' < 2 ^ 53
}.

(** The exported counters follow the registry exactly.  An iteration of
    the metrics thread on a registry that has only grown since the last one
    leaves every Prometheus counter at the registry's value, the throughput
    gauge at the messages received since, and the latency gauges at the
    percentiles of the histograms. *)
Theorem server_iter_exports (m m' : Metrics) (st : MetricsServer) :
  shows_metrics st m -> counters_grow m m' ->
  let st' := server_iter m' st in
  shows_metrics st' m' /\
  tps_ st' = double_of_Z (md_msgs_total m' - md_msgs_total m) /\
  g_mdq_ st' = double_of_Z (md_queue_max m') /\
  (forall flow h, In (flow, h) [("md_processing"%string, md_processing m'); ("tick_to_trade"%string, tick_to_trade m');
                                ("queue_wait"%string, queue_wait m')] ->
     gauges_ st' !! gauge_key flow "p50" = Some (double_of_Z (LatencyHistogram.p50 (LatencyHistogram.snapshot h))) /\
     gauges_ st' !! gauge_key flow "p90" = Some (double_of_Z (LatencyHistogram.p90 (LatencyHistogram.snapshot h))) /\
     gauges_ st' !! gauge_key flow "p99" = Some (double_of_Z (LatencyHistogram.p99 (LatencyHistogram.snapshot h))) /\
     gauges_ st' !! gauge_key flow "max" = Some (double_of_Z (LatencyHistogram.pmax (LatencyHistogram.snapshot h)))).
Proof.
  intros [Hmd Hdr Hor Hcx Hex Hla] [G1 G2 G3 G4 G5] st'. split; [|split; [|split; [done|]]].
  - split; cbn [server_iter c_md_ c_drop_ c_orders_ c_cxl_ c_exec_ last_md st']; [..|done].
    + rewrite (set_counter_value _ _ _ Hmd) by lia. by rewrite Z.max_r by lia.
    + rewrite (set_counter_value _ _ _ Hdr) by lia. by rewrite Z.max_r by lia.
    + rewrite (set_counter_value _ _ _ Hor) by lia. by rewrite Z.max_r by lia.
    + rewrite (set_counter_value _ _ _ Hcx) by lia. by rewrite Z.max_r by lia.
    + rewrite (set_counter_value _ _ _ Hex) by lia. by rewrite Z.max_r by lia.
  - cbn [server_iter tps_ st']. rewrite Hla. f_equal. apply u64_id. unfold in_u64. lia.
  - intros flow h Hin. cbn [In] in Hin. unfold st', server_iter, publish. cbn [gauges_].
    destruct Hin as [[= <- <-]|[[= <- <-]|[[= <- <-]|[]]]];
      (repeat split); repeat (rewrite lookup_insert_ne by (by vm_compute)); apply lookup_insert_eq.
Qed.
End Facts.

(** A Prometheus that keeps the value, for the witness. *)
Definition plain_prometheus : Prometheus := {|
  Counter := double; c_new := dzero; c_value := fun c => c;
  c_increment := fun d c => if dlt d dzero then c else dadd c d
|}.

Lemma plain_prometheus_laws : @PrometheusLaws plain_prometheus.
Proof. split; cbn; [done|]. by intros d c ->. Qed.

Lemma server_iter_exports_witness :
  @c_value plain_prometheus (c_md_ (@server_iter plain_prometheus (inc_md_msgs metrics_init) (@server_init plain_prometheus)))
  = double_of_Z 1.
Proof.
  destruct (@server_iter_exports plain_prometheus plain_prometheus_laws metrics_init (inc_md_msgs metrics_init)
    (@server_init plain_prometheus)) as ([H _ _ _ _ _] & _); [by split| |].
  - split; vm_compute; repeat split; discriminate.
  - exact H.
Defined.
