(* ===== verification/System.v ===== *)
(** * The whole engine (src/src/main.cpp, live mode)

    The threads of main.cpp around one set of shared objects: the QuickFIX
    reader (FIX callbacks), the strategy, the order sender, the logger and the
    persister.  A step of the system is one callback, one step of the strategy
    loop, one command forwarded, or one drain of a cold thread.  The theorems
    discharge the interface the strategy was proved against: what the other
    threads do is an [env_step], what the FIX side queues is what the strategy
    may assume, and the properties of the strategy's trace reach the wire.

    A call that faults, or whose exception leaves the thread, is not a step but a
    [sys_fault], which ends the program; SystemProps says which there are. *)
From S2P Require Import Prelude.
From S2P Require Import Double.
From S2P Require Import Events.
From S2P Require Import SpscRing.
From S2P Require Import Queue.
From S2P Require Import Text.
From S2P Require Import LatencyHistogram.
From S2P Require Import Metrics.
From S2P Require Import OrderBook.
From S2P Require Import OrderManager.
From S2P Require Import AsyncLogger.
From S2P Require Import Persister.
From S2P Require Import Config.
From S2P Require Import MarketMaker.
From S2P Require Import MarketMakerFacts.
From S2P Require Import StrategySteps.
From S2P Require Import StrategyProps.
From S2P Require Import DecisionProps.
From S2P Require Import FixApp.
From S2P Require Import FixProps.
From S2P Require Import Main.

Section System.
Context {QO : QueueOps} {QL : QueueLaws} {QF : QuickFix} {LO : LmdbOps}.
Context (cfg : EngineConfig).
(** Each thread reads the steady clock through its own sequence of readings. *)
Context (fclock sclock : nat -> Z).
Context (sendToTarget : FixOut -> option SessionID -> Res bool).

(** The engine record holds the shared rings, the logger, the persister and the
    registry; [sy_fix] the private part of the FIX application. *)
Record System := mkSystem {
  sy_pc : pc;
  sy_engine : Engine;
  sy_fix : FixApp;
  sy_db : Db
}.

(** The FIX application on the shared objects, and back. *)
Definition fix_view (s : System) : FixApp :=
  let f := sy_fix s in let e := sy_engine s in
  mkFix (symbols_ f) (n_symbols_ f) (md_seq_ f) (logged_on_ f) (session_id_ f) (password_ f)
    (md_ e) (exec_ e) (metrics_ e) (fix_now f) (outbox f).

Definition with_engine (s : System) (e : Engine) : System := mkSystem (sy_pc s) e (sy_fix s) (sy_db s).

Definition put_fix (s : System) (f : FixApp) : System :=
  mkSystem (sy_pc s)
    (set_metrics (set_exec (set_md (sy_engine s) (md_ring_ f)) (exec_ring_ f)) (fix_metrics f)) f (sy_db s).

(** Live mode before [initiator.start()]: the rings and the registry are
    fresh, no session exists yet. *)
Definition system_init (log_open : bool) (db : Db) : System :=
  let e := engine_init sclock log_open in
  mkSystem AtExec e (fix_init cfg (md_ e) (exec_ e) (metrics_ e)) db.

Inductive sys_label :=
| SMsg (msg : FixMessage)                    (* reader: [fromApp] *)
| SCreate (sid : SessionID)                  (* reader: [onCreate] *)
| SLogon                                     (* reader: [onLogon] *)
| SLogout                                    (* reader: [onLogout] *)
| SStrat (l : StrategySteps.label)           (* strategy: a step of [run] *)
| SSend (c : OrderCmd) (forwarded : bool)    (* sender: a command popped *)
| SLog                                       (* logger: a drain *)
| SPersist.                                  (* persister: a cycle *)

Inductive sys_step : System -> sys_label -> System -> Prop :=
| sy_msg s msg f :
    fromApp fclock msg (fix_view s) = Ok f -> sys_step s (SMsg msg) (put_fix s f)
| sy_create s sid :
    sys_step s (SCreate sid) (put_fix s (onCreate sid (fix_view s)))
| sy_logon s f :
    onLogon cfg sendToTarget (fix_view s) = Ok f -> sys_step s SLogon (put_fix s f)
| sy_logout s :
    sys_step s SLogout (put_fix s (onLogout (fix_view s)))
| sy_strat s l p e :
    l <> LEnv -> strat_step cfg sclock (sy_pc s, sy_engine s) l (p, e) ->
    sys_step s (SStrat l) (mkSystem p e (sy_fix s) (sy_db s))
| sy_send s c out f :
    q_pop (out_ (sy_engine s)) = Ok (Some c, out) ->
    sender_body cfg fclock sendToTarget c (fix_view s) = Ok f ->
    sys_step s (SSend c (logged_on_ (sy_fix s))) (put_fix (with_engine s (set_out (sy_engine s) out)) f)
| sy_log s lg :
    log_iter (log_ (sy_engine s)) = Ok lg ->
    sys_step s SLog (with_engine s (set_log (sy_engine s) lg (metrics_ (sy_engine s))))
| sy_persist s p db :
    persist_cycle (db_ (sy_engine s)) (sy_db s) = Ok (p, db) ->
    sys_step s SPersist (mkSystem (sy_pc s) (set_db (sy_engine s) p) (sy_fix s) db).

Definition sys_run := run sys_step.

(** The threads of the engine. *)
Inductive engine_thread := Reader | Strategy | Sender | Logger | Persisting.

(** A thread faults: what it runs next ends in undefined behaviour or in an
    exception that it does not catch.  ([sys_step] has a step where it does not.) *)
Inductive sys_fault (s : System) : engine_thread -> fault -> Prop :=
| sf_msg msg e : fromApp fclock msg (fix_view s) = Err e -> sys_fault s Reader e
| sf_logon e : onLogon cfg sendToTarget (fix_view s) = Err e -> sys_fault s Reader e
| sf_pop_exec e : sy_pc s = AtExec -> pop_exec (sy_engine s) = Err e -> sys_fault s Strategy e
| sf_exec x e1 e :
    sy_pc s = AtExec -> pop_exec (sy_engine s) = Ok (Some x, e1) -> handle_exec x e1 = Err e -> sys_fault s Strategy e
| sf_pop_md e : sy_pc s = AtMd -> pop_md (sy_engine s) = Err e -> sys_fault s Strategy e
| sf_md ev e1 e :
    sy_pc s = AtMd -> pop_md (sy_engine s) = Ok (Some ev, e1) -> handle_md cfg sclock ev e1 = Err e -> sys_fault s Strategy e
| sf_pop_out e : q_pop (out_ (sy_engine s)) = Err e -> sys_fault s Sender e
| sf_send c out e :
    q_pop (out_ (sy_engine s)) = Ok (Some c, out) -> sender_body cfg fclock sendToTarget c (fix_view s) = Err e ->
    sys_fault s Sender e
| sf_log e : log_iter (log_ (sy_engine s)) = Err e -> sys_fault s Logger e
| sf_persist e : persist_cycle (db_ (sy_engine s)) (sy_db s) = Err e -> sys_fault s Persisting e.

(** ** What is read off a system trace *)

(** The strategy's own trace: what the other threads do is the environment. *)
Definition strat_label (l : sys_label) : StrategySteps.label :=
  match l with SStrat l => l | _ => LEnv end.

Definition emitted (tr : list sys_label) : list event := events (map strat_label tr).

(** The commands the strategy pushed, and those the sender popped. *)
Definition commands (evs : list event) : list OrderCmd :=
  omap (fun e => match e with EvCmd c => Some c | EvExec _ => None end) evs.
Definition popped (tr : list sys_label) : list OrderCmd :=
  omap (fun l => match l with SSend c _ => Some c | _ => None end) tr.

(** The messages a step hands to the session. *)
Definition messages_of (f0 : FixApp) (l : sys_label) : list FixOut :=
  match l with
  | SLogon => [market_data_request cfg f0]
  | SSend c true => [message_of cfg f0 c]
  | _ => []
  end.

(** Reports received in a trace, as the events they are queued as. *)
Definition received (f0 : FixApp) (tr : list sys_label) (e : ExecEvent) : Prop :=
  exists m t, SMsg (ExecutionReport m) ∈ tr /\ exec_parse f0 m t = Ok e.

(** The exchange reports on the instruments we trade, or on none. *)
Definition label_ok (f0 : FixApp) (l : sys_label) : Prop :=
  match l with
  | SMsg (ExecutionReport m) => forall s, er_symbol m = Some s -> s ∈ ours f0
  | _ => True
  end.
End System.

(** ** Facts *)
Section Facts.
Context {QO : QueueOps} {QL : QueueLaws} {QF : QuickFix} {QFL : QuickFixLaws} {LO : LmdbOps}.
Context (cfg : EngineConfig) (fclock sclock : nat -> Z).
Context {HF : ClockOk fclock} {HK : ClockOk sclock} {HI : IntervalOk cfg}.
Context (sendToTarget : FixOut -> option SessionID -> Res bool).

(** *** The FIX callbacks *)

(** Everything but the rings, the registry and the counters. *)
Record same_session (f f' : FixApp) : Prop := {
  ss_symbols : symbols_ f' = symbols_ f;
  ss_n : n_symbols_ f' = n_symbols_ f
}.

Lemma exec_parse_same f f' m t : same_session f f' -> exec_parse f' m t = exec_parse f m t.
Proof. intros [Hs Hn]. unfold exec_parse, symbol_id. by rewrite Hs, Hn. Qed.

Lemma first_named_same f f' i : same_session f f' -> first_named f' i -> first_named f i.
Proof. intros [Hs Hn]. unfold first_named, symbol_id. by rewrite Hs, Hn. Qed.

Lemma same_shape f f' : same_session f f' -> fix_shape f -> fix_shape f'.
Proof. intros [Hs Hn] [? ?]. split; by rewrite ?Hs, ?Hn. Qed.

(** A queued snapshot is of one of the instruments. *)
Definition md_known (f : FixApp) (ev : MdEvent) : Prop := md_event_ok ev /\ first_named f (md_symbol_id ev).

(** A callback of the reader thread, as the rest of the engine sees it. *)
Record fix_effect (msg : FixMessage) (f f' : FixApp) : Prop := {
  fe_same : same_session f f';
  fe_outbox : outbox f' = outbox f;
  fe_metrics : metrics_ok (fix_metrics f');
  fe_md_ok : q_ok (md_ring_ f');
  fe_exec_ok : q_ok (exec_ring_ f');
  fe_md : exists l, q_contents (md_ring_ f') = q_contents (md_ring_ f) ++ l /\ Forall (md_known f) l;
  fe_exec : exists l, q_contents (exec_ring_ f') = q_contents (exec_ring_ f) ++ l /\ (length l <= 1)%nat /\
    forall e, e ∈ l -> exists m t, msg = ExecutionReport m /\ exec_parse f m t = Ok e
}.

Lemma fix_effect_none msg f n k :
  metrics_ok (fix_metrics f) -> q_ok (md_ring_ f) -> q_ok (exec_ring_ f) ->
  fix_effect msg f (fx_set_seq f n k).
Proof.
  intros Hm Hmd Hex. split; try done; exists []; (split; [by rewrite app_nil_r|]).
  - constructor.
  - split; [cbn; lia|]. intros e H. by apply elem_of_nil in H.
Qed.

Lemma onMessage_exec_effect m f :
  metrics_ok (fix_metrics f) -> q_ok (md_ring_ f) -> q_ok (exec_ring_ f) ->
  exists r f', onMessage_exec fclock m f = (r, f') /\ throws_only r /\ fix_effect (ExecutionReport m) f f'.
Proof.
  intros Hm Hmd Hex. unfold onMessage_exec. set (f1 := fx_set_seq f _ _).
  assert (H1 : same_session f f1) by by split.
  rewrite (exec_parse_same f f1 _ _ H1). pose proof (exec_parse_throws f m (fclock (fix_now f))) as Ht.
  destruct (exec_parse f m _) as [ev|e] eqn:Ep.
  - destruct (q_push_law _ _ (exec_ring_ f1) ev kExecCap_legal Hex) as (r & -> & Hr & Hc).
    do 2 eexists. split; [reflexivity|]. split; [apply throws_ok|].
    split; try done; cbn [md_ring_ exec_ring_ fx_set_exec].
    + by destruct Hm.
    + exists []. by rewrite app_nil_r.
    + rewrite Hc. destruct (_ <? _); [exists [ev]|exists []; rewrite app_nil_r]; (split; [done|]); (split; [cbn; lia|]).
      * intros e ->%list_elem_of_singleton. eauto.
      * intros e H. by apply elem_of_nil in H.
  - do 2 eexists. split; [reflexivity|]. split; [by intros k [= ->]; destruct (Ht k)|].
    by apply fix_effect_none.
Qed.

Lemma onMessage_md_effect m f :
  fix_shape f -> metrics_ok (fix_metrics f) -> q_ok (md_ring_ f) -> q_ok (exec_ring_ f) ->
  exists r f', onMessage_md fclock m f = (r, f') /\ throws_only r /\
    fix_effect (MarketDataSnapshotFullRefresh m) f f'.
Proof.
  intros Hsh Hm Hmd Hex. unfold onMessage_md. set (f1 := fx_set_seq f _ _).
  assert (Hsh1 : fix_shape f1) by (by apply (same_shape f)).
  destruct (md_parse_pushed f1 m (fclock (fix_now f)) (md_seq_ f1) Hsh1) as [Ht Hp].
  pose proof (md_parse_known f1 m (fclock (fix_now f)) (md_seq_ f1)) as Hkn.
  destruct (md_parse f1 m _ _) as [[ev|]|e].
  - specialize (Hkn ev Hsh1 eq_refl). destruct (Hp ev eq_refl) as [Hpu Htm].
    destruct (q_push_law _ _ (md_ring_ f1) ev kMdCap_legal Hmd) as (r & -> & Hr & Hc).
    do 2 eexists. split; [reflexivity|]. split; [apply throws_ok|].
    split; try done; cbn [md_ring_ exec_ring_ fx_set_md].
    + destruct Hm, (_ <? _); by split.
    + rewrite Hc. destruct (_ <? _); [exists [ev]|exists []; rewrite app_nil_r]; (split; [done|]);
        [|constructor]. constructor; [|constructor].
      split; [split; [apply Hpu|rewrite Htm; apply HF]|]. exact Hkn.
    + exists []. rewrite app_nil_r. split; [done|]. split; [cbn; lia|]. intros e H. by apply elem_of_nil in H.
  - do 2 eexists. split; [reflexivity|]. split; [apply throws_ok|]. by apply fix_effect_none.
  - do 2 eexists. split; [reflexivity|]. split; [by intros k [= ->]; destruct (Ht k)|].
    by apply fix_effect_none.
Qed.

Lemma fromApp_effect msg f :
  fix_shape f -> metrics_ok (fix_metrics f) -> q_ok (md_ring_ f) -> q_ok (exec_ring_ f) ->
  exists f', fromApp fclock msg f = Ok f' /\ fix_effect msg f f'.
Proof.
  intros Hsh Hm Hmd Hex. unfold fromApp.
  assert (exists r f', crack fclock msg f = (r, f') /\ throws_only r /\ fix_effect msg f f')
    as (r & f' & -> & Ht & He).
  { destruct msg as [m|m|]; cbn [crack].
    - by apply onMessage_md_effect.
    - by apply onMessage_exec_effect.
    - do 2 eexists. split; [reflexivity|]. split; [done|].
      replace f with (fx_set_seq f (md_seq_ f) (fix_now f)) at 2 by by destruct f. by apply fix_effect_none. }
  exists f'. destruct r as [|[k|x]]; [done|by destruct (Ht k)|done].
Qed.

(** *** The strategy's steps *)

Lemma intent_side_for d sym side t q seed now c :
  intent_side cfg d sym side t q seed now = Some c -> c_symbol_id c = sym /\ c_t_md_ns c = t.
Proof.
  unfold intent_side, intent_requote, intent_cancel.
  destruct d; try done; [destruct side; try done|]; destruct (q_state q); try done;
    repeat case_match; naive_solver.
Qed.

(** The commands of a market-data step carry its instrument and time stamp. *)
Definition cmd_from (ev : MdEvent) (c : OrderCmd) : Prop :=
  c_symbol_id c = md_symbol_id ev /\ c_t_md_ns c = md_t_recv_ns ev.

Lemma side_run_cmds d ev side q s s' :
  side_run cfg sclock d (md_symbol_id ev) side (md_t_recv_ns ev) q s s' ->
  exists cmds, out_cmds s' = out_cmds s ++ cmds /\ Forall (cmd_from ev) cmds.
Proof.
  intros [_ Hout _ _ _ _ _ _ _ _ _]. eexists. split; [exact Hout|].
  destruct (sent cfg s _) as [c|] eqn:E; cbn [option_list option_rect]; [|constructor].
  constructor; [|constructor]. apply sent_inv in E. by apply intent_side_for in E.
Qed.

Lemma md_effect_cmds ev ob s s' cmds :
  md_effect cfg sclock ev ob s s' -> out_cmds s' = out_cmds s ++ cmds -> Forall (cmd_from ev) cmds.
Proof.
  intros [_ _ _ _ _ Hd] Hout. destruct (has_bba ob).
  - destruct Hd as (qb & qs & sa & sb & sc & _ & _ & Hqa & Hb & Hs & Hqc).
    destruct (side_run_cmds _ _ _ _ _ _ Hb) as (c1 & O1 & F1).
    destruct (side_run_cmds _ _ _ _ _ _ Hs) as (c2 & O2 & F2).
    rewrite (quiet_out _ _ Hqc), O2, O1, (quiet_out _ _ Hqa), <- app_assoc in Hout.
    apply app_inv_head in Hout as <-. by apply Forall_app.
  - rewrite (quiet_out _ _ Hd), <- (app_nil_r (out_cmds s)) in Hout at 1.
    apply app_inv_head in Hout as <-. constructor.
Qed.

(** What a step of the strategy takes from and puts into the rings. *)
Definition handled (l : StrategySteps.label) : list ExecEvent :=
  match l with LExec e => [e] | _ => [] end.

Record strat_effect (e : Engine) (l : StrategySteps.label) (e' : Engine) : Prop := {
  te_ok : engine_ok e';
  te_exec : q_contents (exec_ e) = handled l ++ q_contents (exec_ e');
  te_md : forall P, Forall P (q_contents (md_ e)) -> Forall P (q_contents (md_ e'));
  te_out : out_cmds e' = out_cmds e ++ commands (events_of l);
  te_send : Forall (fun c => 0 <= c_symbol_id c < kMaxSymbols /\ 0 <= c_t_md_ns c < 2 ^ 62)
    (commands (events_of l));
  te_from : forall P : Z -> Prop, Forall (fun ev => P (md_symbol_id ev)) (q_contents (md_ e)) ->
    Forall (fun c => P (c_symbol_id c)) (commands (events_of l))
}.

Lemma commands_cmds cmds : commands (map EvCmd cmds) = cmds.
Proof. induction cmds as [|c cmds IH]; [done|]. unfold commands in *. cbn. by rewrite IH. Qed.

Lemma Forall_tail {A} (P : A -> Prop) l : Forall P l -> Forall P (tail l).
Proof. by destruct 1. Qed.

Lemma strat_step_effect p e l p' e' :
  engine_ok e -> l <> LEnv -> strat_step cfg sclock (p, e) l (p', e') -> strat_effect e l e'.
Proof.
  intros Hok Hl Hst.
  inversion Hst as [? x s1 ? Hpop Hh|? ? Hpop|? ev s1 ? cmds Hpop Hev Hh Hout|? ? Hpop|]; subst; clear Hst; [| | | |done].
  - destruct (pop_exec_spec e Hok) as (q & Hp & Hok1 & Hc). rewrite Hp in Hpop. injection Hpop as Hx <-.
    destruct (handle_exec_inv _ _ _ Hok1 Hh) as [Hok2 Ho _ _ _ He Hm].
    split; [done| |by rewrite Hm| |constructor|constructor]; cbn [handled events_of].
    + rewrite He. cbn [exec_ set_exec]. rewrite Hc. by destruct (q_contents (exec_ e)); [|injection Hx as ->].
    + unfold out_cmds. rewrite Ho. cbn. by rewrite app_nil_r.
  - destruct (pop_exec_spec e Hok) as (q & Hp & Hok1 & Hc). rewrite Hp in Hpop. injection Hpop as Hx <-.
    split; [done| |done| |constructor|constructor]; cbn [handled events_of exec_ set_exec]; [|by rewrite app_nil_r].
    rewrite Hc. by destruct (q_contents (exec_ e)).
  - destruct (pop_md_spec e Hok) as (q & Hp & Hok1 & Hc). rewrite Hp in Hpop. injection Hpop as Hx <-.
    destruct (handle_md_inv cfg sclock clock_range interval_range _ _ _ Hok1 Hev Hh) as (ob0 & _ & E).
    split; cbn [events_of handled]; rewrite ?commands_cmds.
    + apply E.
    + by rewrite (me_exec _ _ _ _ _ _ E).
    + intros P HP. rewrite (me_md _ _ _ _ _ _ E). cbn [md_ set_md]. rewrite Hc. by apply Forall_tail.
    + exact Hout.
    + eapply Forall_impl; [|exact (md_effect_cmds _ _ _ _ _ E Hout)]. intros c [-> ->]. by destruct Hev.
    + intros P HP. destruct (q_contents (md_ e)) as [|ev' l]; [done|]. injection Hx as ->. apply Forall_cons_iff in HP as [HP _].
      eapply Forall_impl; [|exact (md_effect_cmds _ _ _ _ _ E Hout)]. by intros c [-> _].
  - destruct (pop_md_spec e Hok) as (q & Hp & Hok1 & Hc). rewrite Hp in Hpop. injection Hpop as Hx <-.
    split; [done|done| | |constructor|constructor]; cbn [handled events_of md_ set_md]; [|by rewrite app_nil_r].
    intros P HP. rewrite Hc. by apply Forall_tail.
Qed.

(** *** The cold threads keep the rings well-formed *)

Lemma log_iter_ok lg lg' : logger_ok lg -> log_iter lg = Ok lg' -> logger_ok lg'.
Proof.
  intros Hok. unfold log_iter.
  destruct (q_drain_all write_row (log_ring_ lg) (f_ lg, 0) Hok) as (q' & Hq' & _ & ->).
  rewrite write_rows. cbn [res_bind]. by intros [= <-].
Qed.

Lemma persist_loop_queue {T} (key : T -> Z -> Res chars) wrap fuel db ring st st' ring' :
  q_ok ring -> persist_loop key wrap fuel db ring st = Ok (st', ring') -> q_ok ring'.
Proof.
  revert ring st. induction fuel as [|fuel IH]; intros ring [[txn seq] n] Hok; cbn [persist_loop].
  { by intros [= _ <-]. }
  destruct (q_pop_law _ _ ring kSnapCap_legal Hok) as (r1 & -> & Hok1 & _). cbn [res_bind].
  destruct (head (q_contents ring)) as [x|]; [|by intros [= _ <-]].
  destruct (ensure_txn db txn) as [t|]; [|by intros [= _ <-]].
  destruct (key x seq) as [k|]; [|done]. cbn [res_bind]. by apply IH.
Qed.

Lemma persist_cycle_queues p db p' db' :
  q_ok (snap_ring_ p) -> q_ok (trade_ring_ p) -> persist_cycle p db = Ok (p', db') ->
  q_ok (snap_ring_ p') /\ q_ok (trade_ring_ p').
Proof.
  intros Hs Ht H. unfold persist_cycle in H.
  apply res_bind_inv in H as ([[[txn sseq] n] sring] & H1 & H).
  apply res_bind_inv in H as ([[[txn' tseq] n'] tring] & H2 & H).
  apply persist_loop_queue in H1; [|done]. apply persist_loop_queue in H2; [|done].
  destruct txn'; injection H as <- _; by split.
Qed.

(** *** Every reachable state *)
Context (log_open : bool) (db0 : Db).
Let s0 : System := system_init cfg sclock log_open db0.
Let f0 : FixApp := sy_fix s0.

Record sys_inv (tr : list sys_label) (s : System) : Prop := {
  si_engine : engine_ok (sy_engine s);
  si_same : same_session f0 (sy_fix s);
  si_md : Forall (md_known f0) (q_contents (md_ (sy_engine s)));
  si_exec : Forall (received f0 tr) (q_contents (exec_ (sy_engine s)));
  si_handled : forall e, EvExec e ∈ emitted tr -> received f0 tr e;
  si_cmds : commands (emitted tr) = popped tr ++ out_cmds (sy_engine s);
  si_send : Forall (sendable f0) (out_cmds (sy_engine s));
  si_known : Forall (fun c => 0 <= c_symbol_id c < kMaxSymbols /\ first_named f0 (c_symbol_id c)) (commands (emitted tr));
  si_outbox : outbox (sy_fix s) = flat_map (messages_of cfg f0) tr;
  si_run : strat_run cfg sclock (AtExec, engine_init sclock log_open) (map strat_label tr)
             (sy_pc s, sy_engine s)
}.

Lemma sys_inv_init : sys_inv [] s0.
Proof.
  assert (Hq : forall c T (H : LegalCapacity c), q_contents (q_init c T) = []) by (intros; by apply q_init_empty).
  split; unfold out_cmds, s0; cbn [sy_engine sy_fix sy_pc system_init md_ exec_ out_ engine_init map].
  - apply engine_init_ok.
  - by split.
  - rewrite Hq; [constructor|exact kMdCap_legal].
  - rewrite Hq; [constructor|exact kExecCap_legal].
  - intros e H. by apply elem_of_nil in H.
  - by rewrite Hq by exact kOrdCap_legal.
  - rewrite Hq; [constructor|exact kOrdCap_legal].
  - constructor.
  - done.
  - apply run_nil.
Qed.

(** A command of the list of commands, in the events. *)
Lemma commands_split evs l1 c l2 :
  commands evs = l1 ++ c :: l2 -> exists pre post, evs = pre ++ EvCmd c :: post /\ commands post = l2.
Proof.
  revert l1. induction evs as [|[e|d] evs IH]; intros l1 H; cbn [commands omap list_omap] in H.
  - by destruct l1.
  - destruct (IH l1 H) as (pre & post & -> & Hp). by exists (EvExec e :: pre), post.
  - destruct l1 as [|d' l1]; injection H as -> H.
    + by exists [], evs.
    + destruct (IH l1 H) as (pre & post & -> & Hp). by exists (EvCmd d' :: pre), post.
Qed.

Lemma emitted_snoc tr l : emitted (tr ++ [l]) = emitted tr ++ events_of (strat_label l).
Proof. unfold emitted. rewrite map_app. apply events_snoc. Qed.

Lemma popped_app tr tr' : popped (tr ++ tr') = popped tr ++ popped tr'.
Proof. unfold popped. by rewrite omap_app. Qed.

Lemma commands_app evs evs' : commands (evs ++ evs') = commands evs ++ commands evs'.
Proof. unfold commands. by rewrite omap_app. Qed.

Lemma received_snoc tr l e : received f0 tr e -> received f0 (tr ++ [l]) e.
Proof. intros (m & t & H & ?). exists m, t. split; [|done]. apply elem_of_app. by left. Qed.

(** A step of another thread than the strategy. *)
Record other_effect (s : System) (l : sys_label) (s' : System) : Prop := {
  oe_label : strat_label l = LEnv;
  oe_pc : sy_pc s' = sy_pc s;
  oe_env : env_step (sy_engine s) (sy_engine s');
  oe_same : same_session (sy_fix s) (sy_fix s');
  oe_md : exists evs, q_contents (md_ (sy_engine s')) = q_contents (md_ (sy_engine s)) ++ evs /\
    Forall (md_known f0) evs;
  oe_exec : exists evs, q_contents (exec_ (sy_engine s')) = q_contents (exec_ (sy_engine s)) ++ evs /\
    forall e, e ∈ evs -> exists m t, l = SMsg (ExecutionReport m) /\ exec_parse f0 m t = Ok e;
  oe_out : out_cmds (sy_engine s) = popped [l] ++ out_cmds (sy_engine s');
  oe_outbox : outbox (sy_fix s') = outbox (sy_fix s) ++ messages_of cfg f0 l
}.

Lemma other_inv tr s l s' : sys_inv tr s -> other_effect s l s' -> sys_inv (tr ++ [l]) s'.
Proof.
  intros [] [].
  assert (Hev : emitted (tr ++ [l]) = emitted tr) by (rewrite emitted_snoc, oe_label0; apply app_nil_r).
  split; rewrite ?Hev.
  - apply oe_env0.
  - destruct si_same0, oe_same0. split; congruence.
  - destruct oe_md0 as (evs & -> & H). by apply Forall_app.
  - destruct oe_exec0 as (evs & -> & H). apply Forall_app. split.
    + eapply Forall_impl; [|exact si_exec0]. intros e. apply received_snoc.
    + apply List.Forall_forall. intros e He%list_elem_of_In. destruct (H e He) as (m & t & -> & Hp).
      exists m, t. split; [|done]. apply elem_of_app. right. by apply list_elem_of_singleton.
  - intros e He. by apply received_snoc, si_handled0.
  - by rewrite si_cmds0, oe_out0, popped_app, app_assoc.
  - rewrite oe_out0 in si_send0. by apply Forall_app in si_send0 as [_ H].
  - done.
  - rewrite oe_outbox0, si_outbox0, flat_map_app. cbn [flat_map]. by rewrite app_nil_r.
  - rewrite map_app. eapply run_snoc; [exact si_run0|]. cbn [map]. rewrite oe_label0, oe_pc0.
    by apply st_env.
Qed.

Lemma strat_inv_sys tr s l p e :
  sys_inv tr s -> l <> LEnv -> strat_step cfg sclock (sy_pc s, sy_engine s) l (p, e) ->
  sys_inv (tr ++ [SStrat l]) (mkSystem p e (sy_fix s) (sy_db s)).
Proof.
  intros [] Hl Hst. destruct (strat_step_effect _ _ _ _ _ si_engine0 Hl Hst) as [Hok Hx Hm Ho Hs Hf].
  rewrite Hx in si_exec0. apply Forall_app in si_exec0 as [Hh Hx0].
  split; cbn [sy_engine sy_fix sy_pc]; rewrite ?emitted_snoc; cbn [strat_label].
  - done.
  - done.
  - by apply Hm.
  - eapply Forall_impl; [|exact Hx0]. intros x. apply received_snoc.
  - intros x [Hin|Hin]%elem_of_app; apply received_snoc; [by apply si_handled0|].
    destruct l as [|y|ev cmds|]; cbn [events_of handled] in *; try by apply elem_of_nil in Hin.
    + apply list_elem_of_singleton in Hin as [= ->]. by apply Forall_cons_iff in Hh as [? _].
    + apply list_elem_of_In, in_map_iff in Hin as (? & [=] & _).
  - rewrite commands_app, si_cmds0, Ho, popped_app. cbn [popped omap list_omap]. by rewrite app_nil_r, app_assoc.
  - rewrite Ho. apply Forall_app. split; [done|]. eapply Forall_impl; [|exact Hs]. intros c [? ?]. by split.
  - rewrite commands_app. apply Forall_app. split; [done|].
    specialize (Hf (first_named f0)). apply Forall_and; [eapply Forall_impl; [|exact Hs]; by intros c [? _]|].
    apply Hf. eapply Forall_impl; [|exact si_md0]. by intros ev [_ ?].
  - rewrite flat_map_app, si_outbox0. by rewrite app_nil_r.
  - rewrite map_app. eapply run_snoc; [exact si_run0|exact Hst].
Qed.

(** *** The other threads' steps *)

Lemma view_same s : same_session (sy_fix s) (fix_view s).
Proof. by split. Qed.

Lemma same_trans f g h : same_session f g -> same_session g h -> same_session f h.
Proof. intros [] []. split; congruence. Qed.

Lemma f0_shape : fix_shape f0.
Proof. apply fix_init_shape. Qed.

(** A callback that only changes the private part. *)
Lemma private_effect s l f :
  engine_ok (sy_engine s) -> strat_label l = LEnv -> popped [l] = [] ->
  same_session (sy_fix s) f -> md_ring_ f = md_ (sy_engine s) -> exec_ring_ f = exec_ (sy_engine s) ->
  fix_metrics f = metrics_ (sy_engine s) ->
  outbox f = outbox (sy_fix s) ++ messages_of cfg f0 l ->
  other_effect s l (put_fix s f).
Proof.
  intros Hok Hl Hp Hss Hmd Hex Hm Ho. destruct s as [p e g db]. cbn [sy_engine sy_fix] in *.
  split; cbn [put_fix sy_engine sy_fix sy_pc md_ exec_ set_metrics set_exec set_md]; rewrite ?Hmd, ?Hex, ?Hm, ?Hp; try done.
  - split; try done. destruct Hok. ok_fields.
  - exists []. by rewrite app_nil_r.
  - exists []. rewrite app_nil_r. split; [done|]. intros x H. by apply elem_of_nil in H.
Qed.

Lemma msg_effect tr s msg f :
  sys_inv tr s -> fromApp fclock msg (fix_view s) = Ok f -> other_effect s (SMsg msg) (put_fix s f).
Proof.
  intros [] H. pose proof si_engine0 as [].
  destruct (fromApp_effect msg (fix_view s)) as (f' & Hf & []); [|done..|].
  { apply (same_shape f0); [|apply f0_shape]. eapply same_trans; [exact si_same0|apply view_same]. }
  rewrite H in Hf. injection Hf as <-.
  split; cbn [put_fix sy_engine sy_fix sy_pc md_ exec_ set_metrics set_exec set_md]; try done.
  - eapply same_trans; [apply view_same|exact fe_same0].
  - destruct fe_md0 as (l & Hl & Hk). exists l. split; [done|]. eapply Forall_impl; [|exact Hk].
    intros ev [H1 H2]. split; [done|]. by apply (first_named_same f0 (fix_view s));
      [eapply same_trans; [exact si_same0|apply view_same]|].
  - destruct fe_exec0 as (l & Hl & _ & He). exists l. split; [done|]. intros e Hin.
    destruct (He e Hin) as (m & t & -> & Hp). exists m, t. split; [done|].
    rewrite <- Hp. symmetry. apply exec_parse_same. eapply same_trans; [exact si_same0|apply view_same].
  - rewrite fe_outbox0. symmetry. apply app_nil_r.
Qed.

Lemma logon_effect tr s f :
  sys_inv tr s -> onLogon cfg sendToTarget (fix_view s) = Ok f -> other_effect s SLogon (put_fix s f).
Proof.
  intros [] H. unfold onLogon, subscribe_market_data in H. apply res_bind_inv in H as (b & _ & H).
  injection H as <-. apply private_effect; try done.
  cbn [outbox fx_set_out fix_view fx_set_session messages_of]. destruct si_same0 as [Hs Hn].
  unfold market_data_request. cbn [symbols_ n_symbols_ fx_set_session fix_view]. by rewrite Hs, Hn.
Qed.

Lemma send_order_cmd_inv c f f' :
  metrics_ok (fix_metrics f) -> send_order_cmd cfg fclock sendToTarget c f = Ok f' ->
  outbox f' = outbox f ++ [message_of cfg f c] /\ same_session f f' /\
  md_ring_ f' = md_ring_ f /\ exec_ring_ f' = exec_ring_ f /\ metrics_ok (fix_metrics f').
Proof.
  intros [M1 M2 M3] H. unfold send_order_cmd in H. apply res_bind_inv in H as (sym & Hsym & H).
  apply res_bind_inv in H as (b & _ & H). unfold message_of.
  unfold array_read in Hsym. destruct (zget (symbols_ f) (c_symbol_id c)) as [x|]; [|done].
  injection Hsym as ->. cbn [default]. unfold default, id.
  destruct (c_type c).
  - apply res_bind_inv in H as (ns & Hns & H). apply res_bind_inv in H as (h & Hh & [= <-]).
    assert (Hr : ns < 2 ^ 63).
    { unfold sub64, checked64 in Hns. destruct (_ && _) eqn:E; [|done]. injection Hns as <-.
      apply andb_true_iff in E as [_ E]. by apply Z.ltb_lt. }
    destruct (record_total _ ns M2 Hr) as (h' & Hh' & Hok). rewrite Hh in Hh'. injection Hh' as <-.
    split; [done|]. split; [by split|]. by repeat split.
  - injection H as <-. split; [done|]. split; [by split|]. by repeat split.
Qed.

Lemma send_effect tr s c out f :
  sys_inv tr s -> q_pop (out_ (sy_engine s)) = Ok (Some c, out) ->
  sender_body cfg fclock sendToTarget c (fix_view s) = Ok f ->
  other_effect s (SSend c (logged_on_ (sy_fix s))) (put_fix (with_engine s (set_out (sy_engine s) out)) f).
Proof.
  intros [] Hp Hb. pose proof si_engine0 as [].
  destruct (q_pop_inv (out_ (sy_engine s)) _ _ eo_out Hp) as (Hok & Hh & Hc).
  assert (Hout : out_cmds (sy_engine s) = c :: q_contents out).
  { unfold out_cmds. rewrite Hc. by destruct (q_contents (out_ (sy_engine s))); [|injection Hh as ->]. }
  assert (H : outbox f = outbox (sy_fix s) ++ messages_of cfg f0 (SSend c (logged_on_ (sy_fix s))) /\
    same_session (fix_view s) f /\ md_ring_ f = md_ (sy_engine s) /\ exec_ring_ f = exec_ (sy_engine s) /\
    metrics_ok (fix_metrics f)).
  { unfold sender_body in Hb. cbn [logged_on_ fix_view] in Hb. destruct (logged_on_ (sy_fix s)).
    - apply send_order_cmd_inv in Hb as (-> & ?); [|done]. split; [|done]. cbn [messages_of outbox fix_view].
      unfold message_of. cbn [symbols_ fix_view]. by rewrite (ss_symbols _ _ si_same0).
    - injection Hb as <-. cbn [messages_of]. by rewrite app_nil_r. }
  destruct H as (Ho & Hs & Hmd & Hex & Hm).
  split; cbn [put_fix with_engine sy_engine sy_fix sy_pc md_ exec_ set_metrics set_exec set_md set_out];
    rewrite ?Hmd, ?Hex; try done.
  - eapply same_trans; [apply view_same|exact Hs].
  - exists []. by rewrite app_nil_r.
  - exists []. rewrite app_nil_r. split; [done|]. intros x H. by apply elem_of_nil in H.
Qed.

(** The logger and the persister touch no pipeline ring. *)
Lemma cold_effect s l e db :
  engine_ok e -> strat_label l = LEnv -> popped [l] = [] -> messages_of cfg f0 l = [] ->
  oms_ e = oms_ (sy_engine s) -> books_ e = books_ (sy_engine s) ->
  cl_ord_seed_ e = cl_ord_seed_ (sy_engine s) -> next_snapshot_ns e = next_snapshot_ns (sy_engine s) ->
  md_ e = md_ (sy_engine s) -> exec_ e = exec_ (sy_engine s) -> out_ e = out_ (sy_engine s) ->
  other_effect s l (mkSystem (sy_pc s) e (sy_fix s) db).
Proof.
  intros Hok Hl Hp Hm Ho Hb Hs Hn Hmd Hex Hout.
  split; cbn [sy_engine sy_fix sy_pc]; unfold out_cmds; rewrite ?Hmd, ?Hex, ?Hout, ?Hp, ?Hm, ?app_nil_r; try done.
  - exists []. by rewrite app_nil_r.
  - exists []. rewrite app_nil_r. split; [done|]. intros x H. by apply elem_of_nil in H.
Qed.

Lemma step_other_effect tr s l s' :
  sys_inv tr s -> sys_step cfg fclock sclock sendToTarget s l s' -> strat_label l = LEnv -> other_effect s l s'.
Proof.
  intros Hi Hst Hl. pose proof Hi as []. pose proof si_engine0 as [].
  destruct Hst; try done.
  - by eapply msg_effect.
  - apply private_effect; try done. symmetry. apply app_nil_r.
  - by eapply logon_effect.
  - apply private_effect; try done. symmetry. apply app_nil_r.
  - by eapply send_effect.
  - apply cold_effect; try done. pose proof (log_iter_ok _ _ eo_log H). ok_fields.
  - apply cold_effect; try done. destruct (persist_cycle_queues _ _ _ _ eo_snap eo_trade H). ok_fields.
Qed.

Lemma sys_inv_step tr s l s' :
  sys_inv tr s -> sys_step cfg fclock sclock sendToTarget s l s' -> sys_inv (tr ++ [l]) s'.
Proof.
  intros Hi Hst.
  destruct l; try (apply (other_inv tr s); [done|]; by eapply step_other_effect).
  inversion Hst; subst. by apply strat_inv_sys.
Qed.

Lemma sys_reach tr s : sys_run cfg fclock sclock sendToTarget s0 tr s -> sys_inv tr s.
Proof.
  assert (H : forall a, sys_run cfg fclock sclock sendToTarget a tr s -> a = s0 -> sys_inv tr s); [|by intros; eapply H].
  intros a H. induction H as [a|a t b l d H IH Hs]; intros ->; [apply sys_inv_init|].
  eapply sys_inv_step; [by apply IH|exact Hs].
Qed.

(** A report on one of our instruments, or on none, has an index in range. *)
Lemma received_range tr e :
  Forall (label_ok f0) tr -> received f0 tr e -> 0 <= x_symbol_id e < kMaxSymbols.
Proof.
  intros HL (m & t & Hin & Hp). rewrite List.Forall_forall in HL.
  specialize (HL _ (proj1 (list_elem_of_In _ _) Hin)). cbn [label_ok] in HL. unfold exec_parse in Hp.
  do 5 (apply res_bind_inv in Hp as (? & _ & Hp)). injection Hp as <-. cbn [x_symbol_id].
  destruct (er_symbol m) as [sym|]; [|unfold kMaxSymbols; lia].
  destruct (symbol_id_cases f0 sym f0_shape) as [(k & _ & _ & H & _)|[Hno _]]; [exact H|].
  destruct Hno. by apply HL.
Qed.

(** Any other carries UINT32_MAX. *)
Definition unknown_report (tr : list sys_label) (e : ExecEvent) : Prop :=
  received f0 tr e /\ x_symbol_id e = UINT32_MAX.

Lemma received_index tr e :
  received f0 tr e -> 0 <= x_symbol_id e < kMaxSymbols \/ unknown_report tr e.
Proof.
  intros Hr. pose proof Hr as (m & t & _ & Hp). apply exec_parse_pushed in Hp as [[H|H] _ _ _]; [by left| |apply f0_shape].
  by right.
Qed.

Lemma no_unknown_report tr e : Forall (label_ok f0) tr -> ~ unknown_report tr e.
Proof. intros HL [Hr E]. pose proof (received_range tr e HL Hr). unfold UINT32_MAX, kMaxSymbols in *. lia. Qed.

(** What the strategy does next: its next step, or the fault of an unknown
    report. *)
Lemma strat_next tr s :
  sys_inv tr s ->
  (exists l ps', l <> LEnv /\ strat_step cfg sclock (sy_pc s, sy_engine s) l ps') /\
    (forall e, ~ sys_fault cfg fclock sclock sendToTarget s Strategy e) \/
  (exists x, unknown_report tr x) /\ sys_fault cfg fclock sclock sendToTarget s Strategy (UB OutOfBounds) /\
    (forall e, sys_fault cfg fclock sclock sendToTarget s Strategy e -> e = UB OutOfBounds).
Proof.
  intros []. destruct (sy_pc s) eqn:Epc.
  - destruct (pop_exec_spec _ si_engine0) as (q & Hp & Hok1 & _).
    destruct (q_contents (exec_ (sy_engine s))) as [|x l] eqn:E; cbn [head] in Hp.
    + left. split; [exists LTau; eexists; split; [done|]; by apply st_exec_done|].
      intros e. inversion 1; congruence.
    + apply Forall_cons_iff in si_exec0 as [Hx _]. destruct (received_index tr x Hx) as [Hin|Hun].
      * destruct (handle_exec_effect x _ Hok1 Hin) as (e' & He & _). left.
        split; [exists (LExec x); eexists; split; [done|]; by eapply st_exec|]. intros e. inversion 1; congruence.
      * right. pose proof (no_index_faults x _ Hok1 (proj2 Hun)) as He. split; [by exists x|].
        split; [by eapply sf_exec|]. intros e. inversion 1; congruence.
  - left. destruct (pop_md_spec _ si_engine0) as (q & Hp & Hok1 & _).
    destruct (q_contents (md_ (sy_engine s))) as [|ev l] eqn:E; cbn [head] in Hp.
    + split; [exists LTau; eexists; split; [done|]; by apply st_md_none|]. intros e. inversion 1; congruence.
    + apply Forall_cons_iff in si_md0 as [[Hev _] _].
      destruct (handle_md_effect cfg sclock clock_range interval_range ev _ Hok1 Hev) as (ob & e' & _ & He & E').
      destruct (md_effect_out cfg sclock _ _ _ _ E') as [cmds Hout].
      split; [exists (LMd ev cmds); eexists; split; [done|]; by eapply st_md|]. intros e. inversion 1; congruence.
Qed.

(** With known reports the strategy thread can always take its next step. *)
Lemma strat_progress tr s :
  Forall (label_ok f0) tr -> sys_inv tr s ->
  exists l ps', l <> LEnv /\ strat_step cfg sclock (sy_pc s, sy_engine s) l ps'.
Proof.
  intros HL Hi. destruct (strat_next tr s Hi) as [[H _]|[(x & Hx) _]]; [done|]. by destruct (no_unknown_report tr x HL).
Qed.

(** The reader can, on any message; *)
Lemma msg_progress tr s msg :
  sys_inv tr s -> exists s', sys_step cfg fclock sclock sendToTarget s (SMsg msg) s'.
Proof.
  intros []. pose proof si_engine0 as [].
  destruct (fromApp_effect msg (fix_view s)) as (f & Hf & _); [|done..|].
  { apply (same_shape f0); [|apply f0_shape]. eapply same_trans; [exact si_same0|apply view_same]. }
  eexists. by apply sy_msg.
Qed.

(** a logon sends the subscription, or throws what the session throws; *)
Lemma logon_next tr s :
  sys_inv tr s ->
  match sendToTarget (market_data_request cfg f0) (session_id_ (sy_fix s)) with
  | Ok _ => exists s', sys_step cfg fclock sclock sendToTarget s SLogon s'
  | Err e => onLogon cfg sendToTarget (fix_view s) = Err e
  end.
Proof.
  intros []. destruct si_same0 as [Hs Hn].
  assert (E : onLogon cfg sendToTarget (fix_view s) = res_bind (sendToTarget (market_data_request cfg f0) (session_id_ (sy_fix s)))
    (fun _ => Ok (fx_set_out (fx_set_session (fix_view s) true (session_id_ (sy_fix s)))
       (outbox (sy_fix s) ++ [market_data_request cfg f0]) (metrics_ (sy_engine s)) (fix_now (sy_fix s))))).
  { unfold onLogon, subscribe_market_data, market_data_request. cbn [symbols_ n_symbols_ fx_set_session fix_view]. by rewrite Hs, Hn. }
  destruct (sendToTarget (market_data_request cfg f0) _) as [b|e]; [|exact E]. eexists. by apply sy_logon.
Qed.

(** and so does the sender, on the command at the head of its ring. *)
Lemma send_next tr s c cs :
  sys_inv tr s -> out_cmds (sy_engine s) = c :: cs ->
  (exists s', sys_step cfg fclock sclock sendToTarget s (SSend c (logged_on_ (sy_fix s))) s' /\
     out_cmds (sy_engine s') = cs) /\ (forall e, ~ sys_fault cfg fclock sclock sendToTarget s Sender e) \/
  (logged_on_ (sy_fix s) = true /\
   exists e, sendToTarget (message_of cfg f0 c) (session_id_ (sy_fix s)) = Err e /\
     sys_fault cfg fclock sclock sendToTarget s Sender e /\
     forall e', sys_fault cfg fclock sclock sendToTarget s Sender e' -> e' = e).
Proof.
  intros [] Hc. pose proof si_engine0 as [].
  destruct (q_pop_law _ _ (out_ (sy_engine s)) kOrdCap_legal eo_out) as (q & Hp & _ & Hq).
  unfold out_cmds in *. rewrite Hc in Hp, Hq, si_send0. apply Forall_cons_iff in si_send0 as [[Hs Ht] _]. cbn [head] in Hp.
  destruct (sender_body cfg fclock sendToTarget c (fix_view s)) as [f|e] eqn:Ef.
  { left. split; [eexists; split; [by eapply sy_send|exact Hq]|]. intros e. inversion 1; congruence. }
  right. unfold sender_body in Ef. destruct (logged_on_ (fix_view s)) eqn:El; [|done]. split; [exact El|].
  pose proof (send_or_throw cfg fclock sendToTarget c (fix_view s)) as Hsend.
  assert (Hm : message_of cfg (fix_view s) c = message_of cfg f0 c).
  { unfold message_of. cbn [symbols_ fix_view]. by rewrite (ss_symbols _ _ si_same0). }
  rewrite Hm in Hsend. cbn [session_id_ fix_view] in Hsend.
  destruct (sendToTarget (message_of cfg f0 c) (session_id_ (sy_fix s))) as [b|e1].
  - destruct Hsend as (f & Hf & _); [|done..|congruence].
    apply (same_shape f0); [|apply f0_shape]. eapply same_trans; [exact si_same0|apply view_same].
  - assert (Hb : sender_body cfg fclock sendToTarget c (fix_view s) = Err e1).
    { unfold sender_body. rewrite El. apply Hsend; [|done..].
      apply (same_shape f0); [|apply f0_shape]. eapply same_trans; [exact si_same0|apply view_same]. }
    exists e1. split; [done|]. split; [by eapply sf_send|]. intros e'. inversion 1; congruence.
Qed.

Lemma send_progress tr s c cs :
  sys_inv tr s -> (forall m sid, exists b, sendToTarget m sid = Ok b) -> out_cmds (sy_engine s) = c :: cs ->
  exists s', sys_step cfg fclock sclock sendToTarget s (SSend c (logged_on_ (sy_fix s))) s' /\
    out_cmds (sy_engine s') = cs.
Proof.
  intros Hi Hsend Hc. destruct (send_next tr s c cs Hi Hc) as [[H _]|(_ & e & He & _)]; [done|].
  destruct (Hsend (message_of cfg f0 c) (session_id_ (sy_fix s))). congruence.
Qed.

(** The logger always can drain its ring. *)
Lemma log_progress tr s :
  sys_inv tr s -> exists s', sys_step cfg fclock sclock sendToTarget s SLog s'.
Proof.
  intros []. pose proof si_engine0 as [].
  destruct (q_drain_all write_row (log_ring_ (log_ (sy_engine s))) (f_ (log_ (sy_engine s)), 0) eo_log)
    as (q' & _ & _ & Hd). rewrite write_rows in Hd. cbn [res_bind] in Hd.
  eexists. apply sy_log. unfold log_iter. rewrite Hd. reflexivity.
Qed.
End Facts.
