(* ===== verification/BenchSystem.v ===== *)
(** * The load test as a system of threads (src/src/main.cpp, run_bench)

    The producer, the strategy, the sink, the logger and the persister of the
    bench mode, interleaved: the producer makes a snapshot and pushes it until
    the ring takes it, the sink takes one command at a time and counts it.
    Nobody acknowledges an order here, and the theorem says what follows: the
    load test measures order flow on at most two orders per instrument.  The
    shutdown after the last message is in Startup. *)
From S2P Require Import Prelude.
From S2P Require Import Double.
From S2P Require Import Events.
From S2P Require Import SpscRing.
From S2P Require Import Queue.
From S2P Require Import Text.
From S2P Require Import LatencyHistogram.
From S2P Require Import Metrics.
From S2P Require Import OrderBook.
From S2P Require Import OrderManager.
From S2P Require Import AsyncLogger.
From S2P Require Import Persister.
From S2P Require Import Config.
From S2P Require Import MarketMaker.
From S2P Require Import MarketMakerFacts.
From S2P Require Import StrategySteps.
From S2P Require Import StrategyProps.
From S2P Require Import DecisionProps.
From S2P Require Import FixApp.
From S2P Require Import FixProps.
From S2P Require Import Main.
From S2P Require Import Bench.
From S2P Require Import System.
From S2P Require Import Ledger.

(** ** The threads *)
Section Threads.
Context {QO : QueueOps} {QL : QueueLaws} {LO : LmdbOps}.
Context (cfg : EngineConfig) (pclock sclock kclock : nat -> Z) (jig : Z -> double) (n_msgs : Z).

(** [bn_i] is the producer's loop variable, [bn_pending] the event of an
    iteration that has not been pushed yet; producer and sink read the clock
    through their own sequences. *)
Record BenchState := mkBench {
  bn_pc : pc;
  bn_engine : Engine;
  bn_db : Db;
  bn_i : Z;
  bn_pending : option MdEvent;
  bn_pnow : nat;
  bn_snow : nat
}.

Definition bench_start (log_open : bool) (db : Db) : BenchState :=
  mkBench AtExec (engine_init sclock log_open) db 0 None 0 0.

Definition bn_with (s : BenchState) (e : Engine) : BenchState :=
  mkBench (bn_pc s) e (bn_db s) (bn_i s) (bn_pending s) (bn_pnow s) (bn_snow s).

Inductive bench_label :=
| BMake                           (* producer: a snapshot made and counted *)
| BPush (ok : bool)               (* producer: a try_push *)
| BStrat (l : StrategySteps.label)
| BSink (c : OrderCmd)            (* sink: a command popped and counted *)
| BLog
| BPersist.

Inductive bench_step : BenchState -> bench_label -> BenchState -> Prop :=
| be_make s ev :
    bn_pending s = None -> bn_i s < n_msgs ->
    bench_event (bench_syms cfg) (bn_i s) (pclock (bn_pnow s)) (jig (bn_i s)) = Ok ev ->
    bench_step s BMake
      (mkBench (bn_pc s) (set_metrics (bn_engine s) (inc_md_msgs (metrics_ (bn_engine s)))) (bn_db s)
         (bn_i s) (Some ev) (S (bn_pnow s)) (bn_snow s))
| be_push_full s ev q :
    bn_pending s = Some ev -> q_push ev (md_ (bn_engine s)) = Ok (false, q) ->
    bench_step s (BPush false) (bn_with s (set_md (bn_engine s) q))
| be_push s ev q :
    bn_pending s = Some ev -> q_push ev (md_ (bn_engine s)) = Ok (true, q) ->
    bench_step s (BPush true)
      (mkBench (bn_pc s)
         (set_metrics (set_md (bn_engine s) q) (track_md_queue (metrics_ (bn_engine s)) (q_size q)))
         (bn_db s) (u64 (bn_i s + 1)) None (bn_pnow s) (bn_snow s))
| be_strat s l p e :
    l <> LEnv -> strat_step (bench_config cfg) sclock (bn_pc s, bn_engine s) l (p, e) ->
    bench_step s (BStrat l) (mkBench p e (bn_db s) (bn_i s) (bn_pending s) (bn_pnow s) (bn_snow s))
| be_sink s c out m n :
    q_pop (out_ (bn_engine s)) = Ok (Some c, out) ->
    sink_body kclock c (metrics_ (bn_engine s), bn_snow s) = Ok (m, n) ->
    bench_step s (BSink c)
      (mkBench (bn_pc s) (set_metrics (set_out (bn_engine s) out) m) (bn_db s)
         (bn_i s) (bn_pending s) (bn_pnow s) n)
| be_log s lg :
    log_iter (log_ (bn_engine s)) = Ok lg ->
    bench_step s BLog (bn_with s (set_log (bn_engine s) lg (metrics_ (bn_engine s))))
| be_persist s p db :
    persist_cycle (db_ (bn_engine s)) (bn_db s) = Ok (p, db) ->
    bench_step s BPersist
      (mkBench (bn_pc s) (set_db (bn_engine s) p) db (bn_i s) (bn_pending s) (bn_pnow s) (bn_snow s)).

Definition bench_run := run bench_step.

(** The commands the sink has taken. *)
Definition sunk (tr : list bench_label) : list OrderCmd :=
  omap (fun l => match l with BSink c => Some c | _ => None end) tr.
End Threads.

(** ** Without reports *)
Section Facts.
Context {QO : QueueOps} {QL : QueueLaws} {LO : LmdbOps}.
Context (cfg : EngineConfig) (pclock sclock kclock : nat -> Z) (jig : Z -> double) (n_msgs : Z).
Context {HP : ClockOk pclock} {HS : ClockOk sclock} {HK : ClockOk kclock} {HI : IntervalOk cfg}.
Context (log_open : bool) (db0 : Db).

Abbreviation n_syms := (bench_syms cfg).
Abbreviation start := (bench_start sclock log_open db0).
Abbreviation step := (bench_step cfg pclock sclock kclock jig n_msgs).

Definition key (c : OrderCmd) : Z * OrdSide := (c_symbol_id c, c_side c).

(** Every command so far is a New, the only one of its instrument and side,
    and an instrument and side that has one waits for its first report. *)
Record first_orders (o : OrderManager) (cmds : list OrderCmd) : Prop := {
  fo_new : Forall (fun c => c_type c = CmdNew /\ real_side (c_side c) /\ 0 <= c_symbol_id c < n_syms) cmds;
  fo_once : NoDup (map key cmds);
  fo_slot : forall sym side q, real_side side -> slot_at o sym side = Some q ->
    (q_state q = QsNone /\ (sym, side) ∉ map key cmds) \/ q_state q = PendingNew
}.

Lemma first_orders_side d sym side t q s s' cmds :
  real_side side -> 0 <= sym < n_syms -> slot_at (oms_ s) sym side = Some q ->
  side_run (bench_config cfg) sclock d sym side t q s s' -> first_orders (oms_ s) cmds ->
  exists l, out_cmds s' = out_cmds s ++ l /\ first_orders (oms_ s') (cmds ++ l).
Proof.
  intros Hside Hsym Hq [_ Hout Hslot Hframe _ _ _ _ _ _ _] [Hn Ho Hs].
  eexists. split; [exact Hout|].
  set (i := intent_side _ _ _ _ _ _ _ _) in *.
  assert (Hsame : forall sym' side', real_side side' -> (sym', side') <> (sym, side) ->
            slot_at (oms_ s') sym' side' = slot_at (oms_ s) sym' side').
  { intros sym' side' Hr Hne. apply Hframe. intros E. injection E as -> E. apply Hne. f_equal.
    by destruct Hside, Hr; subst. }
  destruct (sent (bench_config cfg) s i) as [c|] eqn:Es; cbn [option_list option_rect slot_after] in *.
  - apply sent_inv in Es. apply intent_side_ok in Es as ([Hcs Hcd] & _ & Hty).
    destruct (Hs sym side q Hside Hq) as [[Hq0 Hnot]|Hq0].
    2: { destruct (c_type c); [|destruct Hty as [Hty _]]; congruence. }
    destruct (c_type c) eqn:Et; [|destruct Hty; congruence].
    assert (Hk : key c = (sym, side)) by (unfold key; by rewrite Hcs, Hcd).
    split.
    + apply Forall_app. split; [done|]. constructor; [|constructor]. rewrite Hcs, Hcd. done.
    + rewrite map_app. cbn [map]. rewrite Hk. apply list.NoDup_app. split; [done|].
      split; [|apply NoDup_singleton]. by intros x Hx ->%list_elem_of_singleton.
    + intros sym' side' q' Hr Hq'. destruct (decide ((sym', side') = (sym, side))) as [E|E].
      * injection E as -> ->. rewrite Hslot in Hq'. injection Hq' as <-. by right.
      * rewrite Hsame in Hq' by done. destruct (Hs _ _ _ Hr Hq') as [[? Hin]|]; [left|by right].
        split; [done|]. rewrite map_app. cbn [map]. rewrite Hk, elem_of_app.
        by intros [?|E'%list_elem_of_singleton].
  - rewrite app_nil_r. split; [done|done|]. intros sym' side' q' Hr Hq'.
    destruct (decide ((sym', side') = (sym, side))) as [E|E].
    + injection E as -> ->. rewrite Hslot in Hq'. injection Hq' as <-. by apply Hs.
    + rewrite Hsame in Hq' by done. by apply Hs.
Qed.

(** There are two sides to an instrument. *)
Lemma first_orders_bound o cmds : first_orders o cmds -> Z.of_nat (length cmds) <= 2 * n_syms.
Proof.
  intros [Hn Ho _].
  assert (Hlen : 0 <= n_syms) by (unfold bench_syms, kMaxSymbols; lia).
  set (all := flat_map (fun i : nat => [(Z.of_nat i, Buy); (Z.of_nat i, Sell)]) (List.seq 0 (Z.to_nat n_syms))).
  assert (Hall : length all = (2 * Z.to_nat n_syms)%nat).
  { unfold all. rewrite (flat_map_constant_length (c := 2%nat)) by done. rewrite length_seq. lia. }
  assert (Hle : (length (map key cmds) <= length all)%nat).
  { apply List.NoDup_incl_length; [by apply NoDup_ListNoDup|]. intros [sym side] Hin.
    apply in_map_iff in Hin as (c & Hk & Hc). rewrite List.Forall_forall in Hn.
    destruct (Hn c Hc) as (_ & Hs & Hr). unfold key in Hk. injection Hk as <- <-.
    apply in_flat_map. exists (Z.to_nat (c_symbol_id c)). rewrite in_seq. split; [lia|].
    rewrite Z2Nat.id by lia. destruct Hs as [-> | ->]; cbn; auto. }
  rewrite length_map in Hle. lia.
Qed.
(** ** Every reachable state *)

Definition fed_ok (ev : MdEvent) : Prop := md_event_ok ev /\ 0 <= md_symbol_id ev < n_syms.

Record bench_inv (tr : list bench_label) (s : BenchState) : Prop := {
  bi_ok : engine_ok (bn_engine s);
  bi_exec : q_contents (exec_ (bn_engine s)) = [];
  bi_md : Forall fed_ok (q_contents (md_ (bn_engine s)));
  bi_pending : forall ev, bn_pending s = Some ev -> fed_ok ev;
  bi_i : in_u64 (bn_i s);
  bi_cmds : first_orders (oms_ (bn_engine s)) (sunk tr ++ out_cmds (bn_engine s));
  bi_orders : orders_sent_total (metrics_ (bn_engine s)) = u64 (Z.of_nat (length (sunk tr)));
  bi_cancels : cancels_sent_total (metrics_ (bn_engine s)) = 0;
  bi_f2 : exists ns, length ns = length (sunk tr) /\
    LatencyHistogram.record_all ns LatencyHistogram.init = Ok (tick_to_trade (metrics_ (bn_engine s)))
}.

Lemma sunk_snoc tr l : sunk (tr ++ [l]) = sunk tr ++ match l with BSink c => [c] | _ => [] end.
Proof. unfold sunk. rewrite omap_app. cbn. by destruct l. Qed.

Lemma bench_inv_start : bench_inv [] start.
Proof.
  split; cbn; try done.
  - apply engine_init_ok.
  - by rewrite (q_init_empty _ _ kExecCap_legal).
  - rewrite (q_init_empty _ _ kMdCap_legal). constructor.
  - unfold out_cmds. cbn. rewrite (q_init_empty _ _ kOrdCap_legal). split; [constructor|constructor|].
    intros sym side q _ Hq. left. rewrite (oms_init_slot _ _ _ Hq). split; [done|]. apply not_elem_of_nil.
  - by exists [].
Qed.

(** The producer makes snapshots of the configured instruments only. *)
Lemma bench_event_fed i t j ev :
  in_u64 i -> 0 <= t < 2 ^ 62 -> bench_event n_syms i t j = Ok ev -> fed_ok ev.
Proof.
  intros Hi Ht He. destruct (bench_event_ok cfg i t j Hi Ht) as [H0 H1].
  destruct (decide (symbols cfg = [])) as [Hs|Hs]; [rewrite (H0 Hs) in He; done|].
  destruct (H1 Hs) as (ev' & He' & Hev & _ & Hsym & _). rewrite He in He'. injection He' as <-.
  split; [done|]. rewrite Hsym. apply Z.mod_pos_bound. unfold bench_syms, kMaxSymbols.
  destruct (symbols cfg); [done|]. cbn [length]. lia.
Qed.

Lemma bench_interval : IntervalOk (bench_config cfg).
Proof. exact HI. Qed.

(** The strategy: nothing to report, and one side after the other. *)
Lemma bench_inv_strat tr s l p e :
  bench_inv tr s -> l <> LEnv -> strat_step (bench_config cfg) sclock (bn_pc s, bn_engine s) l (p, e) ->
  bench_inv (tr ++ [BStrat l]) (mkBench p e (bn_db s) (bn_i s) (bn_pending s) (bn_pnow s) (bn_snow s)).
Proof.
  intros [Hok Hx Hm Hp Hi Hc Ho Hcx Hf2] Hl Hst. pose proof bench_interval as HB.
  destruct (strat_step_entered (bench_config cfg) sclock _ _ _ _ _ Hok Hl Hst) as (ld & _ & He).
  pose proof (strat_step_effect (bench_config cfg) sclock _ _ _ _ _ Hok Hl Hst) as [Hok' Hte Htm _ _].
  pose proof (en_totals _ _ _ He) as Ht. unfold totals in Ht. injection Ht as _ _ T3 T4 _.
  rewrite Hx in Hte. symmetry in Hte. apply app_nil in Hte as [Hh Hx'].
  split; cbn [bn_engine bn_pending bn_i]; rewrite ?sunk_snoc, ?app_nil_r, ?T3, ?T4, ?(en_f2 _ _ _ He); try done.
  - by apply Htm.
  - clear Htm. inversion Hst as [? x s1 ? Hpop Hxe|? ? Hpop|? ev s1 ? cmds Hpop Hev Hxe Hout|? ? Hpop|]; subst; [done| | | |done].
    + destruct (pop_exec_spec (bn_engine s) Hok) as (q & E & _). rewrite E in Hpop. by injection Hpop as _ <-.
    + destruct (pop_md_spec (bn_engine s) Hok) as (q & E & Hok1 & _). rewrite E in Hpop. injection Hpop as Hev0 <-.
      destruct (handle_md_inv (bench_config cfg) sclock clock_range interval_range _ _ _ Hok1 Hev Hxe)
        as (ob0 & _ & [_ _ _ _ _ Hd]).
      assert (Hsym : 0 <= md_symbol_id ev < n_syms).
      { destruct (q_contents (md_ (bn_engine s))); [done|]. injection Hev0 as ->. apply Forall_cons_iff in Hm as [[_ Hr] _]. exact Hr. }
      destruct (has_bba _).
      * destruct Hd as (qb & qs & sa & sb & sc & Hqb & Hqs & Hqa & Hb & Hs & Hqc).
        destruct (first_orders_side _ _ Buy _ qb sa sb (sunk tr ++ out_cmds (bn_engine s)) (or_introl eq_refl) Hsym
          ltac:(by rewrite (qu_oms _ _ Hqa)) Hb ltac:(by rewrite (qu_oms _ _ Hqa))) as (l1 & O1 & F1).
        destruct (first_orders_side _ _ Sell _ qs sb sc _ (or_intror eq_refl) Hsym
          ltac:(by rewrite (se_frame _ _ _ _ _ _ _ Hb), (qu_oms _ _ Hqa) by (by intros [=])) Hs F1) as (l2 & O2 & F2).
        rewrite (qu_oms _ _ Hqc), (quiet_out _ _ Hqc), O2, O1, (quiet_out _ _ Hqa), !app_assoc.
        exact F2.
      * by rewrite (qu_oms _ _ Hd), (quiet_out _ _ Hd).
    + destruct (pop_md_spec (bn_engine s) Hok) as (q & E & _). rewrite E in Hpop. by injection Hpop as _ <-.
Qed.

(** The sink: one more order counted and measured. *)
Lemma bench_inv_sink tr s c out m n :
  bench_inv tr s -> q_pop (out_ (bn_engine s)) = Ok (Some c, out) ->
  sink_body kclock c (metrics_ (bn_engine s), bn_snow s) = Ok (m, n) ->
  bench_inv (tr ++ [BSink c])
    (mkBench (bn_pc s) (set_metrics (set_out (bn_engine s) out) m) (bn_db s) (bn_i s) (bn_pending s) (bn_pnow s) n).
Proof.
  intros [Hok Hx Hm Hp Hi Hc Ho Hcx (ns & Hl & Hf2)] Hpop Hb. pose proof Hok as [].
  destruct (q_pop_inv (out_ (bn_engine s)) _ _ eo_out Hpop) as (Hq & Hh & Ht).
  assert (Hout : out_cmds (bn_engine s) = c :: q_contents out).
  { unfold out_cmds. rewrite Ht. by destruct (q_contents (out_ (bn_engine s))); [|injection Hh as ->]. }
  rewrite Hout in Hc. pose proof (fo_new _ _ Hc) as Hn. apply Forall_app in Hn as [_ Hn].
  apply Forall_cons_iff in Hn as [[Hnew _] _]. unfold sink_body in Hb. rewrite Hnew in Hb.
  apply res_bind_inv in Hb as (x & Hxs & Hb). apply res_bind_inv in Hb as (h & Hh' & [= <- <-]).
  apply sub64_lapse in Hxs as [_ Hx63]. destruct eo_metrics as [M1 M2 M3].
  destruct (record_total _ x M2 Hx63) as (h' & E & Hhok). rewrite Hh' in E. injection E as <-.
  split; cbn [bn_engine bn_pending bn_i]; rewrite ?sunk_snoc; try done.
  - unfold out_cmds. cbn [out_ set_metrics set_out oms_]. rewrite <- app_assoc. exact Hc.
  - cbn. unfold fetch_add1. by rewrite Ho, u64_add_l, length_app, Nat2Z.inj_add.
  - exists (ns ++ [x]). rewrite !length_app, Hl. split; [done|]. rewrite record_all_app, Hf2. cbn. by rewrite Hh'.
Qed.

Lemma bench_inv_step tr s l s' : bench_inv tr s -> step s l s' -> bench_inv (tr ++ [l]) s'.
Proof.
  intros Hi Hst. pose proof Hi as [Hok Hx Hm Hp Hn Hc Ho Hcx Hf2]. pose proof Hok as [].
  destruct Hst; [| | |by apply bench_inv_strat|by apply bench_inv_sink| |];
    (split; cbn [bn_engine bn_pending bn_i bn_with]; rewrite ?sunk_snoc, ?app_nil_r; try done).
  - ok_fields. by destruct eo_metrics; split.
  - intros ev' [= <-]. eapply bench_event_fed; [exact Hn| |exact H1]; apply clock_range.
  - destruct (q_push_inv _ _ _ _ eo_md H0) as (Hq & _). ok_fields.
  - destruct (q_push_inv _ _ _ _ eo_md H0) as (_ & Hq & _). cbn [md_ set_md]. by rewrite Hq.
  - destruct (q_push_inv _ _ _ _ eo_md H0) as (Hq & _). ok_fields. by destruct eo_metrics; split.
  - destruct (q_push_inv _ _ _ _ eo_md H0) as (_ & Hq & _). cbn [md_ set_md set_metrics]. rewrite Hq.
    apply Forall_app. split; [done|]. constructor; [by apply Hp|constructor].
  - apply u64_range.
  - pose proof (log_iter_ok _ _ eo_log H). ok_fields.
  - destruct (persist_cycle_queues _ _ _ _ eo_snap eo_trade H). ok_fields.
Qed.

Lemma bench_inv_reach tr s :
  bench_run cfg pclock sclock kclock jig n_msgs start tr s -> bench_inv tr s.
Proof.
  intros H. remember start as s0 eqn:E. induction H as [|a t b l d H IH Hst]; subst; [exact bench_inv_start|].
  eapply bench_inv_step; [by apply IH|exact Hst].
Qed.

(** C37: the load test orders once.  However long it runs and however its
    threads interleave, the strategy never gets a report, so it sends a New
    order at most once per instrument and side and never a cancellation: the
    commands it pushes are at most two per instrument, and what the report
    prints as orders generated and as tick-to-trade percentiles rests on that
    many samples. *)
Theorem bench_orders_once (tr : list bench_label) (s : BenchState) :
  bench_run cfg pclock sclock kclock jig n_msgs start tr s ->
  let cmds := sunk tr ++ out_cmds (bn_engine s) in
  Forall (fun c => c_type c = CmdNew) cmds /\ NoDup (map key cmds) /\
  Z.of_nat (length cmds) <= 2 * n_syms /\
  orders_sent_total (metrics_ (bn_engine s)) = Z.of_nat (length (sunk tr)) /\
  cancels_sent_total (metrics_ (bn_engine s)) = 0 /\
  (exists ns, length ns = length (sunk tr) /\
     LatencyHistogram.record_all ns LatencyHistogram.init = Ok (tick_to_trade (metrics_ (bn_engine s)))).
Proof.
  intros Hrun cmds. destruct (bench_inv_reach tr s Hrun) as [_ _ _ _ _ Hc Ho Hcx Hf2].
  pose proof (first_orders_bound _ _ Hc) as Hb. destruct Hc as [Hn Hd _].
  split; [eapply Forall_impl; [|exact Hn]; by intros c (? & _)|]. split; [done|]. split; [done|].
  split; [|by split]. rewrite Ho. apply u64_id. rewrite length_app in Hb.
  unfold in_u64, bench_syms, kMaxSymbols in *. lia.
Qed.
End Facts.

(** ** Playing a script *)
Section Play.
Context {QO : QueueOps} {QL : QueueLaws} {LO : LmdbOps}.
Context (cfg : EngineConfig) (pclock sclock kclock : nat -> Z) (jig : Z -> double) (n_msgs : Z).

Inductive bench_action := AMake | APush | AStrat | ASink.

Definition bench_act (a : bench_action) (s : BenchState) : option (bench_label * BenchState) :=
  let e := bn_engine s in
  match a with
  | AMake =>
      match bn_pending s with
      | None =>
          if bn_i s <? n_msgs then
            match bench_event (bench_syms cfg) (bn_i s) (pclock (bn_pnow s)) (jig (bn_i s)) with
            | Ok ev => Some (BMake, mkBench (bn_pc s) (set_metrics e (inc_md_msgs (metrics_ e))) (bn_db s)
                                      (bn_i s) (Some ev) (S (bn_pnow s)) (bn_snow s))
            | Err _ => None
            end
          else None
      | Some _ => None
      end
  | APush =>
      match bn_pending s with
      | Some ev =>
          match q_push ev (md_ e) with
          | Ok (true, q) =>
              Some (BPush true, mkBench (bn_pc s) (set_metrics (set_md e q) (track_md_queue (metrics_ e) (q_size q)))
                                  (bn_db s) (u64 (bn_i s + 1)) None (bn_pnow s) (bn_snow s))
          | Ok (false, q) => Some (BPush false, bn_with s (set_md e q))
          | Err _ => None
          end
      | None => None
      end
  | AStrat =>
      match run_next (bench_config cfg) sclock (bn_pc s, e) with
      | Some (l, (p, e')) =>
          match l with
          | LEnv => None
          | _ => Some (BStrat l, mkBench p e' (bn_db s) (bn_i s) (bn_pending s) (bn_pnow s) (bn_snow s))
          end
      | None => None
      end
  | ASink =>
      match q_pop (out_ e) with
      | Ok (Some c, out) =>
          match sink_body kclock c (metrics_ e, bn_snow s) with
          | Ok (m, n) => Some (BSink c, mkBench (bn_pc s) (set_metrics (set_out e out) m) (bn_db s)
                                          (bn_i s) (bn_pending s) (bn_pnow s) n)
          | Err _ => None
          end
      | _ => None
      end
  end.

Lemma bench_act_sound a s l s' :
  bench_act a s = Some (l, s') -> bench_step cfg pclock sclock kclock jig n_msgs s l s'.
Proof.
  destruct a; cbn [bench_act].
  - destruct (bn_pending s) eqn:Ep; [done|]. destruct (Z.ltb_spec (bn_i s) n_msgs); [|done].
    destruct (bench_event _ _ _ _) as [ev|] eqn:E; [|done]. intros [= <- <-]. by apply be_make.
  - destruct (bn_pending s) as [ev|] eqn:Ep; [|done].
    destruct (q_push ev _) as [[[] q]|] eqn:E; [| |done]; intros [= <- <-];
      [by eapply be_push|by eapply be_push_full].
  - destruct (run_next _ _ _) as [[l0 [p e]]|] eqn:E; [|done]. apply run_next_sound in E.
    destruct l0; try done; intros [= <- <-]; by apply be_strat.
  - destruct (q_pop _) as [[[c|] out]|] eqn:E; [|done|done].
    destruct (sink_body _ _ _) as [[m n]|] eqn:E2; [|done]. intros [= <- <-]. by eapply be_sink.
Qed.

Fixpoint bench_play (script : list bench_action) (s : BenchState) (tr : list bench_label)
    : list bench_label * BenchState :=
  match script with
  | [] => (tr, s)
  | a :: script =>
      match bench_act a s with
      | Some (l, s') => bench_play script s' (tr ++ [l])
      | None => bench_play script s tr
      end
  end.

(** An action that is not possible is skipped. *)
Lemma bench_play_sound script s0 s tr :
  bench_run cfg pclock sclock kclock jig n_msgs s0 tr s ->
  bench_run cfg pclock sclock kclock jig n_msgs s0 (fst (bench_play script s tr)) (snd (bench_play script s tr)).
Proof.
  revert s tr. induction script as [|a script IH]; intros s tr H; [done|]. cbn [bench_play].
  destruct (bench_act a s) as [[l s1]|] eqn:E; [|by apply IH]. apply IH. eapply run_snoc; [exact H|by eapply bench_act_sound].
Qed.
End Play.

(** ** Witness *)

(** A tick the synthetic spreads have room for, two instruments. *)
Definition bench_demo_config : EngineConfig :=
  mkConfig (dlit 5 100) (dlit 2 100) (dlit 1 1000) (double_of_Z 1) 5 [] [] [] [] 2 3 9091 [] 1000 false
    (symbols demo_fix_config).

#[export] Existing Instance list_laws.
#[export] Existing Instance map_db.
#[export] Instance bench_demo_interval : IntervalOk bench_demo_config.
Proof. unfold IntervalOk. cbn. lia. Qed.

(** Five snapshots, the first one narrow: the second one wide on each instrument is not quoted again. *)
Definition bench_script : list bench_action :=
  concat (replicate 5 [AMake; APush; AStrat; AStrat; ASink]).

Definition bench_demo : list bench_label * @BenchState list_ops map_db :=
  bench_play bench_demo_config coarse coarse coarse (fun _ => dzero) 10 bench_script
    (bench_start coarse true (∅ : @Db map_db)) [].

Lemma bench_orders_once_witness :
  length (sunk (fst bench_demo) ++ out_cmds (bn_engine (snd bench_demo))) = 4%nat /\
  NoDup (map key (sunk (fst bench_demo) ++ out_cmds (bn_engine (snd bench_demo)))) /\
  4 <= 2 * bench_syms bench_demo_config.
Proof.
  assert (H4 : length (sunk (fst bench_demo) ++ out_cmds (bn_engine (snd bench_demo))) = 4%nat) by (vm_compute; reflexivity).
  assert (H : bench_run bench_demo_config coarse coarse coarse (fun _ => dzero) 10
    (bench_start coarse true (∅ : @Db map_db)) (fst bench_demo) (snd bench_demo)).
  { unfold bench_demo. apply bench_play_sound. constructor. }
  destruct (bench_orders_once bench_demo_config coarse coarse coarse (fun _ => dzero) 10 true ∅ _ _ H)
    as (_ & Hd & Hb & _). rewrite H4 in Hb. split; [exact H4|]. split; [exact Hd|exact Hb].
Defined.
