(* ===== verification/BenchTick.v ===== *)
(** * The load test and the tick size (src/src/main.cpp, config/strategy.cfg)

    The synthetic markets of the load test are 0.20 or 0.02 wide.  When the
    tick is an eighth or more on the price grid, as the 0.5 of the shipped
    configuration is, the quotes one tick inside such a market cross: the
    decision leaves every one of them alone.  The prices are computed with
    rounding; Dyadic bounds what it does. *)
From S2P Require Import Prelude.
From S2P Require Import Double.
From S2P Require Import Dyadic.
From S2P Require Import Events.
From S2P Require Import SpscRing.
From S2P Require Import Queue.
From S2P Require Import Text.
From S2P Require Import LatencyHistogram.
From S2P Require Import Metrics.
From S2P Require Import OrderBook.
From S2P Require Import OrderManager.
From S2P Require Import AsyncLogger.
From S2P Require Import Persister.
From S2P Require Import Config.
From S2P Require Import MarketMaker.
From S2P Require Import MarketMakerFacts.
From S2P Require Import StrategySteps.
From S2P Require Import StrategyProps.
From S2P Require Import DecisionProps.
From S2P Require Import FixApp.
From S2P Require Import FixProps.
From S2P Require Import Main.
From S2P Require Import Bench.
From S2P Require Import System.
From S2P Require Import Ledger.
From S2P Require Import BenchSystem.

(** ** The best prices of a synthetic market *)

(** 1050 plus a number between -0.5 and 0.5, as a double: between 1024 and
    2048 the last place is 2^-42. *)
Definition mid_of (jig : double) : double := dadd (double_of_Z 1050) jig.
Definition centred (jig : double) : Prop :=
  exists n, mid_of jig = dyadic n (-42) /\ 2099 * 2 ^ 41 - 1 <= n <= 2101 * 2 ^ 41 + 1.

(** Less than a quarter wide. *)
Definition tight (b a : Z) : Prop := 1049 * 2 ^ 42 <= b /\ a <= 1051 * 2 ^ 42 /\ 0 <= a - b <= 2 ^ 40.

Definition tight_event (ev : MdEvent) : Prop :=
  exists b a, level (md_bid_px ev) 0 = dyadic b (-42) /\ level (md_ask_px ev) 0 = dyadic a (-42) /\ tight b a.

Lemma on_grid : grid_exp (-42) /\ grid_exp (-43) /\ grid_exp (-42 - 14) /\ grid_exp (-42 - 17).
Proof. unfold grid_exp. lia. Qed.

(** What the generator draws: a double of magnitude at most a half. *)
Definition drawn (jig : double) : Prop :=
  valid_binary prec64 emax64 jig = true /\ dle (dabs jig) dhalf = true.

Lemma pos_compare_le p q :
  match Pos.compare_cont Eq p q with Gt => false | _ => true end = true -> Zpos p <= Zpos q.
Proof.
  change (Pos.compare_cont Eq p q) with (Zpos p ?= Zpos q). by destruct (Z.compare_spec (Zpos p) (Zpos q)); [lia..|].
Qed.

(** A double is in canonical form; one of magnitude at most a half is [h * 2^(-42 - k)]
    with [h] at most [2^(41 + k)]. *)
Lemma drawn_dyadic sg h f :
  drawn (S754_finite sg h f) ->
  exists k, f = -42 - k /\ 11 <= k /\ grid_exp (-42 - k) /\ Zpos h < 2 ^ 53 /\ Zpos h <= 2 ^ (41 + k) /\
    dyadic (Zpos h) (-42 - k) = S754_finite false h f.
Proof.
  intros [Hv Hle]. cbn [valid_binary] in Hv. unfold bounded, canonical_mantissa in Hv.
  apply andb_prop in Hv as [Hc%Z.eqb_eq _]. rewrite digits2_log2 in Hc.
  assert (Hfe : - 1074 <= f /\ Z.log2 (Zpos h) < 53) by (unfold fexp, emin, prec64, emax64 in Hc; lia).
  destruct Hfe as [Hf Hlog]. apply Z.log2_lt_pow2 in Hlog as Hh; [|lia].
  assert (Hf53 : f < -53 \/ f = -53 /\ Zpos h <= 2 ^ 52).
  { unfold dle, dabs, SFabs, SFleb in Hle. rewrite dlit_half in Hle. cbn [SFcompare] in Hle.
    destruct (Z.compare_spec f (-53)) as [E|E|E]; [right|by left|done]. split; [done|].
    by apply pos_compare_le. }
  exists (-42 - f). replace (-42 - (-42 - f)) with f by lia.
  assert (Hg : grid_exp f) by (unfold grid_exp; lia).
  split; [done|]. split; [lia|]. split; [done|]. split; [done|]. split.
  - destruct Hf53 as [Hf53|[-> Hh52]]; [|exact Hh52]. transitivity (2 ^ 53); [lia|]. apply Z.pow_le_mono_r; lia.
  - destruct (dyadic_has_shape (Zpos h) f) as [?|r' _ Hr' _]; [unfold fits53; lia|done|lia|].
    change (Z.abs (Zpos h)) with (Zpos h) in *. change (canon_exp (Zpos h) f = f) in Hc.
    rewrite Hc, Z.sub_diag in Hr'. rewrite Hc. f_equal. lia.
Qed.

Lemma drawn_centred jig : drawn jig -> centred jig.
Proof.
  intros Hd. unfold centred, mid_of. change (double_of_Z 1050) with (dyadic (1050 * 2 ^ 42) (-42)).
  destruct jig as [[]|[]| |sg h f]; [exists (1050 * 2 ^ 42); split; [reflexivity|lia]..|by destruct Hd|by destruct Hd|by destruct Hd|].
  destruct (drawn_dyadic sg h f Hd) as (k & -> & Hk & Hg & Hh & Hhk & Ed).
  destruct on_grid as (G & _).
  assert (Hq : - 2 ^ 41 <= - Zpos h / 2 ^ k <= 0 /\ 0 <= Zpos h / 2 ^ k <= 2 ^ 41).
  { rewrite Z.pow_add_r in Hhk by lia. pose proof (Z.pow_pos_nonneg 2 k ltac:(lia) ltac:(lia)).
    split; (split; [apply Z.div_le_lower_bound; lia|]); apply Z.div_le_upper_bound; lia. }
  pose proof (dsub_near (1050 * 2 ^ 42) (Zpos h) (-42) k G ltac:(lia) Hg ltac:(lia) ltac:(lia)) as Es.
  pose proof (dadd_near (1050 * 2 ^ 42) (Zpos h) (-42) k G ltac:(lia) Hg ltac:(lia) ltac:(lia)) as Ea.
  replace (1050 * 2 ^ 42 * 2 ^ k - Zpos h) with (1050 * 2 ^ 42 * 2 ^ k + - Zpos h) in Es by lia.
  rewrite Z.div_add_l in Es, Ea by lia. rewrite Ed in Es, Ea. revert Hq Es Ea.
  generalize (- Zpos h / 2 ^ k) as x, (Zpos h / 2 ^ k) as y. clear. intros x y Hq Es Ea.
  destruct sg.
  - destruct Es as (r & Er & Hr); [lia..|]. exists r. split; [exact Er|lia].
  - destruct Ea as (r & Er & Hr); [lia..|]. exists r. split; [exact Er|lia].
Qed.

Lemma level0_zero (d : Z) x : fits53 d -> x = dyadic d (-42) ->
  dsub x (dmul (double_of_Z 0) (dlit 5 100)) = x /\ dadd x (dmul (double_of_Z 0) (dlit 5 100)) = x.
Proof.
  intros Hd ->. change (dmul (double_of_Z 0) (dlit 5 100)) with dzero.
  by destruct (dyadic_has_shape d (-42) Hd (proj1 on_grid)).
Qed.

(** The two half spreads, 0.10 and 0.01, as doubles. *)
Lemma half_dyadic i : exists h k, bench_half i = dyadic h (-42 - k) /\
  (h = 7205759403792794 /\ k = 14 \/ h = 5764607523034235 /\ k = 17).
Proof.
  unfold bench_half. destruct (i mod 7 =? 0).
  - exists 5764607523034235, 17. split; [reflexivity|by right].
  - exists 7205759403792794, 14. split; [reflexivity|by left].
Qed.

Lemma best_tight mid i n :
  mid = dyadic n (-42) -> 2099 * 2 ^ 41 - 1 <= n <= 2101 * 2 ^ 41 + 1 ->
  exists b a, bench_bid mid (bench_half i) 0 = dyadic b (-42) /\
    bench_ask mid (bench_half i) 0 = dyadic a (-42) /\ tight b a.
Proof.
  intros -> Hn. destruct (half_dyadic i) as (h & k & -> & Hhk).
  destruct on_grid as (G & _ & G1 & G2).
  assert (Hk : 0 <= k /\ grid_exp (-42 - k) /\ 0 < h < 2 ^ 53) by (destruct Hhk as [[-> ->]|[-> ->]]; repeat split; done || lia).
  destruct Hk as (Hk & Gk & Hh).
  assert (Hb : n - 2 ^ 39 <= (n * 2 ^ k - h) / 2 ^ k <= n - 1 /\ n <= (n * 2 ^ k + h) / 2 ^ k <= n + 2 ^ 39 - 1).
  { replace (n * 2 ^ k - h) with (n * 2 ^ k + - h) by lia. rewrite !Z.div_add_l by lia.
    assert (- 2 ^ 39 <= - h / 2 ^ k <= -1 /\ 0 <= h / 2 ^ k <= 2 ^ 39 - 1); [|lia].
    by destruct Hhk as [[-> ->]|[-> ->]]. }
  assert (Hn53 : 0 < n < 2 ^ 53) by (clear -Hn; lia).
  pose proof (dsub_near n h (-42) k G Hk Gk Hn53 Hh) as Eb.
  pose proof (dadd_near n h (-42) k G Hk Gk Hn53 Hh) as Ea.
  revert Hb Eb Ea. generalize ((n * 2 ^ k - h) / 2 ^ k) as x, ((n * 2 ^ k + h) / 2 ^ k) as y.
  clear -Hn. intros x y [Hx Hy] Eb Ea.
  destruct Eb as (b & Eb & Hb); [lia..|]. destruct Ea as (a & Ea & Ha); [lia..|].
  assert (fits53 b /\ fits53 a) as [Fb Fa]. { unfold fits53. lia. }
  exists b, a. unfold bench_bid, bench_ask. rewrite Eb, Ea.
  destruct (level0_zero b _ Fb eq_refl) as [-> _].
  destruct (level0_zero a _ Fa eq_refl) as [_ ->].
  split; [done|]. split; [done|]. unfold tight. lia.
Qed.

Lemma bench_event_tight n_syms i t jig ev :
  drawn jig -> bench_event n_syms i t jig = Ok ev -> tight_event ev.
Proof.
  intros (n & Hm & Hn)%drawn_centred He. unfold bench_event in He. destruct (n_syms =? 0); [done|]. injection He as <-.
  exact (best_tight (mid_of jig) i n Hm Hn).
Qed.

(** ** The decision *)

(** Quotes one tick inside a market that is not two and a half ticks wide would
    come closer than half a tick. *)
Lemma tight_no_quotes cfg t ev d ob :
  tick_size cfg = dyadic t (-42) -> 2 ^ 39 <= t < 2 ^ 50 -> tight_event ev ->
  forall b a, quoting_of cfg (apply_snapshot ev d ob) <> Wide b a.
Proof.
  intros Ht Rt (b & a & Hb & Ha & Hlo & Hhi & Hw) b' a'. destruct on_grid as (G & G1 & _).
  rewrite (quoting_grid cfg (apply_snapshot ev d ob) (-42) b a t G G1 Hb Ha Ht) by (clear -Rt Hlo Hhi Hw; lia).
  destruct (dge _ _); [|done]. destruct (Z.ltb_spec (2 * (a - b - 2 * t)) t) as [_|H]; [done|lia].
Qed.

Section NoOrders.
Context {QO : QueueOps} {QL : QueueLaws} {LO : LmdbOps}.
Context (cfg : EngineConfig) (pclock sclock kclock : nat -> Z) (jig : Z -> double) (n_msgs : Z).
Context {HP : ClockOk pclock} {HS : ClockOk sclock} {HK : ClockOk kclock} {HI : IntervalOk cfg}.
Context (log_open : bool) (db0 : Db).
Context (t : Z) (Ht : tick_size cfg = dyadic t (-42)) (Rt : 2 ^ 39 <= t < 2 ^ 50).
Context (Hjig : forall i, drawn (jig i)).

Abbreviation start := (bench_start sclock log_open db0).
Abbreviation step := (bench_step cfg pclock sclock kclock jig n_msgs).

(** No order has been made, and none of the markets ahead will lead to one. *)
Record idle (tr : list bench_label) (s : BenchState) : Prop := {
  id_md : Forall tight_event (q_contents (md_ (bn_engine s)));
  id_pending : forall ev, bn_pending s = Some ev -> tight_event ev;
  id_out : out_cmds (bn_engine s) = [];
  id_sunk : sunk tr = [];
  id_slot : forall sym side q, real_side side -> slot_at (oms_ (bn_engine s)) sym side = Some q -> q_state q = QsNone
}.

Lemma idle_start : idle [] start.
Proof.
  split; cbn; try done.
  - rewrite (q_init_empty _ _ kMdCap_legal). constructor.
  - unfold out_cmds. cbn. by rewrite (q_init_empty _ _ kOrdCap_legal).
  - intros sym side q _ Hq. by rewrite (oms_init_slot _ _ _ Hq).
Qed.

Definition all_free (s : Engine) : Prop :=
  forall sym side q, real_side side -> slot_at (oms_ s) sym side = Some q -> q_state q = QsNone.

(** One side of such a decision. *)
Lemma idle_side d sym side t_md q s s' :
  (forall b a, d <> Wide b a) -> real_side side -> slot_at (oms_ s) sym side = Some q -> all_free s ->
  side_run (bench_config cfg) sclock d sym side t_md q s s' -> out_cmds s' = out_cmds s /\ all_free s'.
Proof.
  intros Hd Hside Hq Hfree [_ Hout Hslot Hframe _ _ _ _ _ _ _].
  assert (Hi : forall seed now, intent_side (bench_config cfg) d sym side t_md q seed now = None).
  { intros seed now. unfold intent_side, intent_cancel. pose proof (Hfree _ _ _ Hside Hq) as Hs.
    destruct d as [|b a|]; [done|by destruct (Hd b a)|by rewrite Hs]. }
  rewrite Hi in Hout, Hslot. cbn [sent option_list option_rect slot_after] in *. rewrite app_nil_r in Hout.
  split; [done|]. intros sym' side' q' Hr Hq'. destruct (decide ((sym, side_index side) = (sym', side_index side'))) as [E|E].
  - injection E as <- E. assert (side' = side) as -> by (by destruct Hside, Hr; subst).
    rewrite Hslot in Hq'. injection Hq' as <-. by apply (Hfree sym side).
  - rewrite Hframe in Hq' by done. by apply (Hfree sym' side').
Qed.

Lemma idle_strat tr s l p e :
  bench_inv cfg tr s -> idle tr s -> l <> LEnv ->
  strat_step (bench_config cfg) sclock (bn_pc s, bn_engine s) l (p, e) ->
  idle (tr ++ [BStrat l]) (mkBench p e (bn_db s) (bn_i s) (bn_pending s) (bn_pnow s) (bn_snow s)).
Proof.
  intros [Hok Hx _ _ _ _ _ _ _] [Hm Hp Ho Hs Hf] Hl Hst.
  pose proof (bench_interval cfg (HI := HI)) as HB.
  pose proof (strat_step_effect (bench_config cfg) sclock _ _ _ _ _ Hok Hl Hst) as [_ _ Htm _ _].
  assert (Hkeep : out_cmds e = out_cmds (bn_engine s) /\ all_free e).
  { clear Htm. inversion Hst as [? x s1 ? Hpop Hxe|? ? Hpop|? ev s1 ? cmds Hpop Hev Hxe Hout|? ? Hpop|]; subst; [| | | |done].
    - destruct (pop_exec_spec (bn_engine s) Hok) as (q & E & _). rewrite E, Hx in Hpop. done.
    - destruct (pop_exec_spec (bn_engine s) Hok) as (q & E & _). rewrite E in Hpop. by injection Hpop as _ <-.
    - destruct (pop_md_spec (bn_engine s) Hok) as (q & E & Hok1 & _). rewrite E in Hpop. injection Hpop as Hev0 <-.
      destruct (handle_md_inv (bench_config cfg) sclock clock_range interval_range _ _ _ Hok1 Hev Hxe)
        as (ob0 & _ & [_ _ _ _ _ Hd]).
      assert (Ht0 : tight_event ev).
      { destruct (q_contents (md_ (bn_engine s))); [done|]. injection Hev0 as ->. by apply Forall_cons_iff in Hm as [? _]. }
      destruct (has_bba _).
      + destruct Hd as (qb & qs & sa & sb & sc & Hqb & Hqs & Hqa & Hb & Hsl & Hqc).
        pose proof (tight_no_quotes (bench_config cfg) t ev (book_depth (bench_config cfg)) ob0 Ht Rt Ht0) as Hno.
        destruct (idle_side _ _ Buy _ _ _ _ Hno (or_introl eq_refl) ltac:(by rewrite (qu_oms _ _ Hqa))
          ltac:(unfold all_free; by rewrite (qu_oms _ _ Hqa)) Hb) as [O1 F1].
        destruct (idle_side _ _ Sell _ _ _ _ Hno (or_intror eq_refl)
          ltac:(by rewrite (se_frame _ _ _ _ _ _ _ Hb), (qu_oms _ _ Hqa) by (by intros [=])) F1 Hsl) as [O2 F2].
        unfold all_free. by rewrite (qu_oms _ _ Hqc), (quiet_out _ _ Hqc), O2, O1, (quiet_out _ _ Hqa).
      + unfold all_free. by rewrite (qu_oms _ _ Hd), (quiet_out _ _ Hd).
    - destruct (pop_md_spec (bn_engine s) Hok) as (q & E & _). rewrite E in Hpop. by injection Hpop as _ <-. }
  destruct Hkeep as [E1 E2]. split; cbn [bn_engine bn_pending]; rewrite ?sunk_snoc, ?app_nil_r, ?E1; try done.
  by apply Htm.
Qed.

Lemma idle_step tr s l s' : bench_inv cfg tr s -> idle tr s -> step s l s' -> idle (tr ++ [l]) s'.
Proof.
  intros Hi Hid Hst. pose proof Hid as [Hm Hp Ho Hs Hf]. pose proof (bi_ok _ _ _ Hi) as [].
  destruct Hst; [| | |by apply idle_strat| | |];
    (split; cbn [bn_engine bn_pending bn_with]; rewrite ?sunk_snoc, ?app_nil_r; try done).
  - intros ev' [= <-]. by eapply bench_event_tight.
  - destruct (q_push_inv _ _ _ _ eo_md H0) as (_ & Hq & _). cbn [md_ set_md]. by rewrite Hq.
  - destruct (q_push_inv _ _ _ _ eo_md H0) as (_ & Hq & _). cbn [md_ set_md set_metrics]. rewrite Hq.
    apply Forall_app. split; [done|]. constructor; [by apply Hp|constructor].
  - destruct (q_pop_inv _ _ _ eo_out H) as (_ & Hh & _). unfold out_cmds in Ho. by rewrite Ho in Hh.
  - destruct (q_pop_inv _ _ _ eo_out H) as (_ & Hh & _). unfold out_cmds in Ho. by rewrite Ho in Hh.
Qed.

Lemma idle_reach tr s : bench_run cfg pclock sclock kclock jig n_msgs start tr s -> idle tr s.
Proof.
  intros H. remember start as s0 eqn:E. induction H as [|a tr b l d H IH Hst]; subst; [exact idle_start|].
  eapply idle_step; [|by apply IH|exact Hst].
  by apply (bench_inv_reach cfg pclock sclock kclock jig n_msgs log_open db0).
Qed.

(** With a tick of an eighth or more the load test makes no order at all: in
    no state of any run has the strategy pushed a command, so the sink measures
    nothing and every snapshot takes the branch that returns early or, in a
    narrow market, the one that has no quote to cancel. *)
Theorem coarse_tick_never_orders (tr : list bench_label) (s : BenchState) :
  bench_run cfg pclock sclock kclock jig n_msgs start tr s ->
  sunk tr ++ out_cmds (bn_engine s) = [] /\ orders_sent_total (metrics_ (bn_engine s)) = 0.
Proof.
  intros H. destruct (idle_reach tr s H) as [_ _ Ho Hs _]. rewrite Hs, Ho. split; [done|].
  pose proof (bench_inv_reach cfg pclock sclock kclock jig n_msgs log_open db0 tr s H) as Hi.
  by rewrite (bi_orders _ _ _ Hi), Hs.
Qed.
End NoOrders.

(** ** The shipped configuration *)

(** config/strategy.cfg has TICK_SIZE=0.5. *)
Lemma shipped_tick : tick_size shipped_config = dyadic (2 ^ 41) (-42).
Proof. vm_compute. reflexivity. Qed.

#[export] Instance shipped_interval : IntervalOk shipped_config.
Proof. unfold IntervalOk. cbn. lia. Qed.

(** C34: the load test never orders with the shipped configuration.  TICK_SIZE
    is 0.5 there and the synthetic markets are at most 0.20 wide: whatever
    numbers are drawn (doubles of magnitude at most a half), in no state of any
    run of the threads has the strategy pushed a command or the sink counted an
    order. *)
Theorem shipped_load_test_never_orders {QO : QueueOps} {QL : QueueLaws} {LO : LmdbOps}
    (pclock sclock kclock : nat -> Z) (HP : ClockOk pclock) (HS : ClockOk sclock) (HK : ClockOk kclock)
    (jig : Z -> double) (n_msgs : Z) (log_open : bool) (db0 : Db) (tr : list bench_label) (s : BenchState) :
  (forall i, drawn (jig i)) ->
  bench_run shipped_config pclock sclock kclock jig n_msgs (bench_start sclock log_open db0) tr s ->
  sunk tr ++ out_cmds (bn_engine s) = [] /\ orders_sent_total (metrics_ (bn_engine s)) = 0.
Proof.
  intros Hj H.
  by apply (coarse_tick_never_orders shipped_config pclock sclock kclock jig n_msgs log_open db0 (2 ^ 41) shipped_tick
    ltac:(lia) Hj).
Qed.

(** ** Witness *)

(** The script that makes four orders with a small tick makes none here. *)
Definition idle_demo : list bench_label * @BenchState list_ops map_db :=
  bench_play shipped_config coarse coarse coarse (fun _ => dzero) 10 bench_script
    (bench_start coarse true (∅ : @Db map_db)) [].

Lemma shipped_load_test_never_orders_witness :
  length (fst idle_demo) = 20%nat /\ out_cmds (bn_engine (snd idle_demo)) = [].
Proof.
  split; [vm_compute; reflexivity|].
  assert (H : bench_run shipped_config coarse coarse coarse (fun _ => dzero) 10
    (bench_start coarse true (∅ : @Db map_db)) (fst idle_demo) (snd idle_demo)).
  { unfold idle_demo. apply bench_play_sound. constructor. }
  destruct (shipped_load_test_never_orders coarse coarse coarse _ _ _ (fun _ => dzero) 10 true ∅ _ _
    (fun _ => conj eq_refl eq_refl) H) as [E _].
  by apply app_nil in E as [_ E].
Defined.
