(* ===== verification/SystemTypes.v ===== *)
(** * The types of the whole engine

    The predicates of Typing on the state shared by the threads: they hold
    before the session starts and every step of every thread keeps them, so
    the integers of a reachable state are those a machine of the declared
    widths would hold. *)
From S2P Require Import Prelude.
From S2P Require Import Double.
From S2P Require Import Events.
From S2P Require Import SpscRing.
From S2P Require Import Queue.
From S2P Require Import Text.
From S2P Require Import LatencyHistogram.
From S2P Require Import Metrics.
From S2P Require Import OrderBook.
From S2P Require Import OrderManager.
From S2P Require Import AsyncLogger.
From S2P Require Import Persister.
From S2P Require Import Config.
From S2P Require Import MarketMaker.
From S2P Require Import MarketMakerFacts.
From S2P Require Import StrategySteps.
From S2P Require Import StrategyProps.
From S2P Require Import DecisionProps.
From S2P Require Import FixApp.
From S2P Require Import FixProps.
From S2P Require Import Typing.
From S2P Require Import Main.
From S2P Require Import System.

(** ** The state before the session starts *)
Section Start.
Context {QO : QueueOps} {QL : QueueLaws}.

Lemma oms_init_typed : typed oms_init.
Proof.
  split; [apply oms_init_wf|]. unfold oms_init. cbn [q_].
  do 2 apply Forall_replicate. split; [unfold in_u64; cbn; lia|reflexivity].
Qed.

Lemma book_init_typed : typed book_init.
Proof. repeat split; cbn; unfold in_u16, in_i64, in_u32; lia. Qed.

Lemma engine_init_typed (clock : nat -> Z) (log_open : bool) :
  ClockOk clock -> typed (engine_init clock log_open).
Proof.
  intros HK.
  assert (Hq : forall c A (T : CppType A), LegalCapacity c -> typed (q_init c A)) by (intros; by apply queue_init_typed).
  unfold engine_init. split; [apply Hq, kMdCap_legal|]. split; [apply Hq, kExecCap_legal|].
  split; [apply Hq, kOrdCap_legal|]. split; [apply Hq, kLogCap_legal|].
  split; [do 2 (split; [unfold in_u64; cbn; lia|]); split; apply Hq, kSnapCap_legal|].
  split; [apply metrics_init_typed|]. split; [apply oms_init_typed|].
  split; [split; [apply length_replicate|apply Forall_replicate, book_init_typed]|].
  split; [apply u64_range|]. by apply time_i64.
Qed.
End Start.

(** ** Every step *)
Section System.
Context {QO : QueueOps} {QL : QueueLaws} {QF : QuickFix} {QFL : QuickFixLaws} {LO : LmdbOps}.
Context (cfg : EngineConfig) (fclock sclock : nat -> Z).
Context {HF : ClockOk fclock} {HK : ClockOk sclock}.
Context (sendToTarget : FixOut -> option SessionID -> Res bool).

(** The shared objects, and the private part of the FIX application. *)
#[export] Instance System_type : CppType System := fun s =>
  typed (sy_engine s) /\ fix_shape (sy_fix s) /\ in_u32 (md_seq_ (sy_fix s)).

Lemma view_typed s : typed s -> typed (fix_view s).
Proof. intros ((?&?&_&_&_&?&_)&[]&?). split; [by split|]. by split. Qed.

Lemma put_typed s f : typed s -> typed f -> typed (put_fix s f).
Proof.
  intros ((?&?&?&?&?&?&?&?&?&?)&_&_) (?&?&?&?&?). split; [|by split]. cbn.
  do 9 (split; [assumption|]). assumption.
Qed.

Lemma sys_init_typed log_open db : typed (system_init cfg sclock log_open db).
Proof.
  split; [by apply engine_init_typed|]. split; [apply fix_init_shape|]. unfold in_u32. cbn. lia.
Qed.

Lemma strat_step_typed p e l p' e' :
  typed e -> l <> LEnv -> strat_step cfg sclock (p, e) l (p', e') -> typed e'.
Proof.
  intros He Hl Hst. pose proof He as (Hmd&Hex&?&?&?&?&?&?&?&?).
  assert (Hx : forall o s1, pop_exec e = Ok (o, s1) -> typed s1 /\ (forall x, o = Some x -> typed x)).
  { intros o s1 H'. unfold pop_exec in H'. apply res_bind_inv in H' as ([o' q] & Hp & [= <- <-]).
    destruct (pop_typed _ _ _ Hex Hp) as [Hq ?]. split; [|done]. split; [exact Hmd|]. split; [exact Hq|].
    do 7 (split; [assumption|]). assumption. }
  assert (Hm : forall o s1, pop_md e = Ok (o, s1) -> typed s1 /\ (forall x, o = Some x -> typed x)).
  { intros o s1 H'. unfold pop_md in H'. apply res_bind_inv in H' as ([o' q] & Hp & [= <- <-]).
    destruct (pop_typed _ _ _ Hmd Hp) as [Hq ?]. split; [|done]. split; [exact Hq|]. split; [exact Hex|].
    do 7 (split; [assumption|]). assumption. }
  inversion Hst as [? x s1 ? Hpop Hh|? ? Hpop|? ev s1 ? cmds Hpop Hev Hh Hout|? ? Hpop|]; subst; [| | | |done].
  - destruct (Hx _ _ Hpop) as [Ht Hv]. by eapply (handle_exec_typed x (Hv x eq_refl)) in Hh as [? _].
  - by destruct (Hx _ _ Hpop).
  - destruct (Hm _ _ Hpop) as [Ht Hv]. by eapply (handle_md_typed cfg sclock ev (Hv ev eq_refl)) in Hh as [? _].
  - by destruct (Hm _ _ Hpop).
Qed.

Lemma sys_step_typed s l s' :
  typed s -> sys_step cfg fclock sclock sendToTarget s l s' -> typed s'.
Proof.
  intros Hs Hst. pose proof Hs as (He&Hf&Hq). pose proof He as (?&?&Hout&Hlog&Hdb&?&?&?&?&?).
  destruct Hst as [s msg f H'|s sid|s f H'|s|s l p e Hl H'|s c out f Hp Hb|s lg H'|s p db H'].
  - apply put_typed; [done|]. apply (fromApp_typed fclock msg (fix_view s)); [by apply view_typed|exact H'].
  - apply put_typed; [done|]. by apply session_typed, view_typed.
  - apply put_typed; [done|]. apply (onLogon_typed cfg sendToTarget (fix_view s)); [by apply view_typed|exact H'].
  - apply put_typed; [done|]. by apply session_typed, view_typed.
  - split; [by eapply strat_step_typed|by split].
  - destruct (pop_typed _ _ _ Hout Hp) as [Ho _]. apply put_typed.
    + split; [|by split]. cbn. do 2 (split; [assumption|]). split; [exact Ho|]. do 6 (split; [assumption|]). assumption.
    + unfold sender_body in Hb. destruct (logged_on_ _); [|injection Hb as <-; by apply view_typed].
      eapply (send_order_cmd_typed cfg fclock _ c (fix_view s)); [by apply view_typed|exact Hb].
  - pose proof (log_iter_typed _ _ Hlog H'). split; [|by split]. cbn.
    do 9 (split; [assumption|]). assumption.
  - destruct (persist_cycle_typed (db_ (sy_engine s)) (sy_db s) Hdb) as (p' & db' & E & Hp'). rewrite H' in E. injection E as <- <-.
    split; [|by split]. cbn. do 9 (split; [assumption|]). assumption.
Qed.

Lemma sys_run_typed s tr s' :
  typed s -> sys_run cfg fclock sclock sendToTarget s tr s' -> typed s'.
Proof. intros Hs H. induction H as [|? ? ? ? ? ? IH H1]; [done|]. eapply sys_step_typed; [by apply IH|exact H1]. Qed.

Lemma sys_reach_typed log_open db tr s :
  sys_run cfg fclock sclock sendToTarget (system_init cfg sclock log_open db) tr s -> typed s.
Proof. apply sys_run_typed, sys_init_typed. Qed.
End System.
