(* ===== verification/SystemProps.v ===== *)
(** * The whole engine: properties

    The next step of every thread under any interleaving and the two faults there
    are instead, the order of commands from
    the strategy to the session, and the one-working-order property as seen on
    the wire; with an executable scheduler that plays the witnesses. *)
From S2P Require Import Prelude.
From S2P Require Import Double.
From S2P Require Import Events.
From S2P Require Import SpscRing.
From S2P Require Import Queue.
From S2P Require Import Text.
From S2P Require Import LatencyHistogram.
From S2P Require Import Metrics.
From S2P Require Import OrderBook.
From S2P Require Import OrderManager.
From S2P Require Import AsyncLogger.
From S2P Require Import Persister.
From S2P Require Import Config.
From S2P Require Import MarketMaker.
From S2P Require Import MarketMakerFacts.
From S2P Require Import StrategySteps.
From S2P Require Import StrategyProps.
From S2P Require Import DecisionProps.
From S2P Require Import FixApp.
From S2P Require Import FixProps.
From S2P Require Import Main.
From S2P Require Import System.
From S2P Require Import Typing.
From S2P Require Import SystemTypes.
From S2P Require Import StrategyDemo.
From Stdlib Require Import Ascii.

(** ** Properties *)
Section Properties.
Context {QO : QueueOps} {QL : QueueLaws} {QF : QuickFix} {QFL : QuickFixLaws} {LO : LmdbOps}.
Context (cfg : EngineConfig) (fclock sclock : nat -> Z).
Context {HF : ClockOk fclock} {HK : ClockOk sclock} {HI : IntervalOk cfg}.
Context (sendToTarget : FixOut -> option SessionID -> Res bool) (log_open : bool) (db : Db).

Abbreviation start := (system_init cfg sclock log_open db).

Abbreviation step := (sys_step cfg fclock sclock sendToTarget).
Abbreviation fault_at := (sys_fault cfg fclock sclock sendToTarget).
Abbreviation unknown := (unknown_report cfg sclock log_open db).

Lemma persist_progress tr s : sys_run cfg fclock sclock sendToTarget start tr s -> exists s', step s SPersist s'.
Proof.
  intros Hrun.
  pose proof (sys_reach_typed cfg fclock sclock sendToTarget log_open db tr s Hrun) as ((_ & _ & _ & _ & Hdb & _) & _).
  destruct (persist_cycle_typed _ (sy_db s) Hdb) as (p & d & Hp & _). eexists. by eapply sy_persist.
Qed.

(** Where a fault of a reachable state comes from. *)
Definition fault_cause (tr : list sys_label) (s : System) (th : engine_thread) (e : fault) : Prop :=
  (th = Strategy /\ e = UB OutOfBounds /\ exists x, unknown tr x) \/
  ((th = Sender \/ th = Reader) /\ exists m, sendToTarget m (session_id_ (sy_fix s)) = Err e).

Lemma fault_has_cause tr s th e :
  sys_run cfg fclock sclock sendToTarget start tr s -> fault_at s th e -> fault_cause tr s th e.
Proof.
  intros Hrun Hf. pose proof (sys_reach cfg fclock sclock sendToTarget log_open db tr s Hrun) as Hi.
  pose proof (si_engine _ _ _ _ _ _ Hi) as Hok. unfold fault_cause.
  destruct th.
  - inversion Hf as [msg ? H|? H| | | | | | | |]; subst.
    + destruct (msg_progress cfg fclock sclock sendToTarget log_open db tr s msg Hi) as [s' Hs]. inversion Hs; congruence.
    + right. split; [by right|]. exists (market_data_request cfg (sy_fix start)).
      pose proof (logon_next cfg fclock sclock sendToTarget log_open db tr s Hi) as Hl.
      destruct (sendToTarget _ _) as [b|e1]; [destruct Hl as [s' Hs]; inversion Hs; congruence|congruence].
  - destruct (strat_next cfg fclock sclock sendToTarget log_open db tr s Hi) as [[_ Hno]|(Hx & _ & He)]; [by destruct (Hno e)|].
    left. rewrite (He e Hf). by split.
  - destruct (out_cmds (sy_engine s)) as [|c cs] eqn:Eo.
    + exfalso. destruct (q_pop_law _ _ (out_ (sy_engine s)) kOrdCap_legal (eo_out _ Hok)) as (q & Hp & _).
      unfold out_cmds in Eo. rewrite Eo in Hp. cbn [head] in Hp. inversion Hf; congruence.
    + destruct (send_next cfg fclock sclock sendToTarget log_open db tr s c cs Hi Eo) as [[_ Hno]|(_ & e1 & Hs & _ & He)];
        [by destruct (Hno e)|]. right. split; [by left|]. rewrite (He e Hf). by eexists.
  - destruct (log_progress cfg fclock sclock sendToTarget log_open db tr s Hi) as [s' Hs]. inversion Hs; inversion Hf; congruence.
  - destruct (persist_progress tr s Hrun) as [s' Hs]. inversion Hs; inversion Hf; congruence.
Qed.

(** C1: the engine faults for two reasons only.  In every state the threads can
    reach together, whatever the messages, the session and the database answer:
    the reader handles every message and the logger and the persister can always
    go on; a logon sends the subscription unless sendToTarget throws; the strategy
    has a next step unless it has taken a report on an unknown instrument off its
    ring; and the sender forwards the next queued command unless it is logged on
    and sendToTarget throws for that command's message, which nothing in the thread
    catches.  No thread has any other undefined behaviour or escaping exception. *)
Theorem engine_progress (tr : list sys_label) (s : System) :
  sys_run cfg fclock sclock sendToTarget start tr s ->
  (forall msg, exists s', step s (SMsg msg) s') /\
  ((exists s', step s SLogon s') \/
   exists e, sendToTarget (market_data_request cfg (sy_fix start)) (session_id_ (sy_fix s)) = Err e /\ fault_at s Reader e) /\
  ((exists l s', step s (SStrat l) s') \/ (exists x, unknown tr x) /\ fault_at s Strategy (UB OutOfBounds)) /\
  (forall c cs, out_cmds (sy_engine s) = c :: cs ->
     (exists s', step s (SSend c (logged_on_ (sy_fix s))) s' /\ out_cmds (sy_engine s') = cs) \/
     (logged_on_ (sy_fix s) = true /\
      exists e, sendToTarget (message_of cfg (sy_fix start) c) (session_id_ (sy_fix s)) = Err e /\ fault_at s Sender e)) /\
  (exists s', step s SLog s') /\ (exists s', step s SPersist s') /\
  (forall th e, fault_at s th e ->
     (th = Strategy /\ e = UB OutOfBounds /\ exists x, unknown tr x) \/
     ((th = Sender \/ th = Reader) /\ exists m, sendToTarget m (session_id_ (sy_fix s)) = Err e)).
Proof.
  intros Hrun. pose proof (sys_reach cfg fclock sclock sendToTarget log_open db tr s Hrun) as Hi.
  split; [|split; [|split; [|split; [|split; [|split]]]]].
  - intros msg. by eapply msg_progress.
  - pose proof (logon_next cfg fclock sclock sendToTarget log_open db tr s Hi) as Hl.
    destruct (sendToTarget _ _) as [b|e]; [by left|right]. exists e. split; [done|]. by apply sf_logon.
  - destruct (strat_next cfg fclock sclock sendToTarget log_open db tr s Hi) as [[(l & [p e] & Hl & Hst) _]|(Hx & Hf & _)];
      [left|by right]. exists l. eexists. by apply sy_strat.
  - intros c cs Hc. destruct (send_next cfg fclock sclock sendToTarget log_open db tr s c cs Hi Hc)
      as [[H _]|(Hon & e & He & Hf & _)]; [by left|right]. split; [done|]. by exists e.
  - by eapply log_progress.
  - by eapply persist_progress.
  - intros th e. by apply fault_has_cause.
Qed.

(** C36: a report on an instrument that is not ours takes the engine down.  When
    the reader handles one in a reachable state with room in the ring, the event it
    queues, behind those that wait, carries UINT32_MAX for the instrument; and in
    every state reached from there in which the strategy polls the ring with that
    event at its head, it has no step: it indexes the order array out of bounds. *)
Theorem unknown_symbol_report_is_ub (tr : list sys_label) (s : System) (msg : ErMsg) (sym : chars) (ev : ExecEvent) :
  sys_run cfg fclock sclock sendToTarget start tr s ->
  er_symbol msg = Some sym -> sym ∉ ours (sy_fix start) ->
  exec_parse (sy_fix start) msg (fclock (fix_now (sy_fix s))) = Ok ev ->
  Z.of_nat (length (q_contents (exec_ (sy_engine s)))) < kExecCap ->
  exists s1, step s (SMsg (ExecutionReport msg)) s1 /\
    q_contents (exec_ (sy_engine s1)) = q_contents (exec_ (sy_engine s)) ++ [ev] /\ x_symbol_id ev = UINT32_MAX /\
    forall tr2 s2 rest, sys_run cfg fclock sclock sendToTarget s1 tr2 s2 -> sy_pc s2 = AtExec ->
      q_contents (exec_ (sy_engine s2)) = ev :: rest ->
      fault_at s2 Strategy (UB OutOfBounds) /\ forall l s3, ~ step s2 (SStrat l) s3.
Proof.
  intros Hrun Hsym Hno Hp Hroom. pose proof (sys_reach cfg fclock sclock sendToTarget log_open db tr s Hrun) as Hi.
  pose proof (si_engine _ _ _ _ _ _ Hi) as Hok0. pose proof (si_same _ _ _ _ _ _ Hi) as Hsame.
  pose proof (exec_parse_unknown _ _ _ _ _ (f0_shape cfg sclock log_open db) Hsym Hno Hp) as E.
  assert (Hsv : same_session (sy_fix start) (fix_view s)) by (eapply same_trans; [exact Hsame|apply view_same]).
  destruct (q_push_law _ _ (exec_ (sy_engine s)) ev kExecCap_legal (eo_exec _ Hok0)) as (r & Hpush & Hr & Hc).
  rewrite (proj2 (Z.ltb_lt _ _) Hroom) in Hc, Hpush.
  assert (Hst : exists s1, step s (SMsg (ExecutionReport msg)) s1 /\ exec_ (sy_engine s1) = r).
  { eexists. split; [apply sy_msg; unfold fromApp, crack, onMessage_exec|].
    - set (f1 := fx_set_seq _ _ _).
      assert (Hs1 : same_session (sy_fix start) f1) by (destruct Hsv; by split).
      rewrite (exec_parse_same _ f1 _ _ Hs1). change (fix_now (fix_view s)) with (fix_now (sy_fix s)). rewrite Hp.
      change (exec_ring_ f1) with (exec_ (sy_engine s)). rewrite Hpush. reflexivity.
    - done. }
  destruct Hst as (s1 & Hst & Hex). exists s1. split; [exact Hst|]. split; [by rewrite Hex|]. split; [exact E|].
  intros tr2 s2 rest Hrun2 Hpc Hq.
  assert (Hok2 : engine_ok (sy_engine s2)).
  { apply (si_engine _ _ _ _ _ _ (sys_reach cfg fclock sclock sendToTarget log_open db ((tr ++ [SMsg (ExecutionReport msg)]) ++ tr2) s2
      (run_app _ _ _ _ _ _ (run_snoc _ _ _ _ _ _ Hrun Hst) Hrun2))). }
  destruct (pop_exec_spec _ Hok2) as (q & Hpop & Hokq & _). rewrite Hq in Hpop. cbn [head] in Hpop.
  pose proof (no_index_faults ev _ Hokq E) as He. split; [by eapply sf_exec|].
  intros l s3 H. inversion H as [| | | |? ? p e Hl Hs| | |]; subst. rewrite Hpc in Hs. inversion Hs; subst; congruence.
Qed.

(** C15: values stay in their types.  In every state the threads can reach
    together each integer of the shared objects is in the range of its C++
    type, each array has its declared length, each queued element is a value
    of its type, and the rings, histograms and order slots are well-formed. *)
Theorem values_stay_in_type (tr : list sys_label) (s : System) :
  sys_run cfg fclock sclock sendToTarget start tr s -> typed s.
Proof. exact (sys_reach_typed cfg fclock sclock sendToTarget log_open db tr s). Qed.

(** C5: from the strategy to the wire.  In every reachable state the commands
    the strategy has pushed are those the sender has popped, in the same order,
    followed by those still in the ring: none is lost, repeated or overtaken;
    and the session has been handed exactly the messages of the commands popped
    while logged on, and a subscription per logon, in order. *)
Theorem commands_reach_session (tr : list sys_label) (s : System) :
  sys_run cfg fclock sclock sendToTarget start tr s ->
  commands (emitted tr) = popped tr ++ out_cmds (sy_engine s) /\
  outbox (sy_fix s) = flat_map (messages_of cfg (sy_fix start)) tr.
Proof.
  intros Hrun. apply sys_reach in Hrun as []; try done.
Qed.

(** C4: one working order on the wire.  When the sender takes a New command off
    the ring after an earlier New command for the same instrument and side, the
    reader has by then received a terminal execution report (filled, canceled
    or rejected) for that instrument with the ClOrdID of the earlier order. *)
Theorem wire_one_working_order (tr : list sys_label) (s s' : System) (c1 c2 : OrderCmd) (b1 b2 : bool) :
  sys_run cfg fclock sclock sendToTarget start tr s -> sys_step cfg fclock sclock sendToTarget s (SSend c2 b2) s' ->
  SSend c1 b1 ∈ tr -> c_type c1 = CmdNew -> c_type c2 = CmdNew ->
  c_symbol_id c1 = c_symbol_id c2 -> c_side c1 = c_side c2 ->
  exists e, received (sy_fix start) tr e /\ terminal (x_kind e) = true /\
    x_symbol_id e = c_symbol_id c1 /\ x_cl_ord_id e = c_cl_ord_id c1.
Proof.
  intros Hrun Hst Hin Ht1 Ht2 Hsym Hside. apply sys_reach in Hrun as []; try done.
  inversion Hst as [| | | | |? ? out f Hp Hb| |]; subst.
  destruct (q_pop_inv (out_ (sy_engine s)) _ _ (eo_out _ si_engine) Hp) as (_ & Hh & _).
  destruct (out_cmds (sy_engine s)) as [|c cs] eqn:E; unfold out_cmds in E; rewrite E in Hh; [done|].
  injection Hh as <-.
  apply list_elem_of_split in Hin as (t1 & t2 & ->).
  rewrite popped_app in si_cmds. change (SSend c1 b1 :: t2) with ([SSend c1 b1] ++ t2) in si_cmds.
  rewrite popped_app, <- !app_assoc in si_cmds. cbn [popped omap list_omap app] in si_cmds.
  apply commands_split in si_cmds as (pre & post & Hev & Hpost).
  apply commands_split in Hpost as (mid & rest & -> & _).
  pose proof (strat_inv_run cfg sclock clock_range interval_range _ _ _ [] (strat_inv_init sclock log_open) si_run)
    as (_ & _ & Hok). cbn [app] in Hok. unfold emitted in Hev.
  destruct (working_pair _ pre mid rest c1 c2 Hok Hev Ht1 Ht2 Hsym Hside) as (e & He & Hte & ? & ?).
  exists e. split; [|done]. apply si_handled. unfold emitted. rewrite Hev.
  apply elem_of_app. right. apply elem_of_cons. right. apply elem_of_app. by left.
Qed.

(** *** Dry run *)

Lemma dry_step_silent p e l p' e' :
  dry_run cfg = true -> engine_ok e -> l <> LEnv -> strat_step cfg sclock (p, e) l (p', e') ->
  commands (events_of l) = [].
Proof.
  intros Hdry Hok Hl Hst.
  assert (Hn : forall d sym side t q a b, side_run cfg sclock d sym side t q a b -> out_cmds b = out_cmds a).
  { intros d sym side t q a b [_ Hout _ _ _ _ _ _ _ _ _]. rewrite Hout. unfold sent. rewrite Hdry.
    destruct (intent_side _ _ _ _ _ _ _ _); apply app_nil_r. }
  inversion Hst as [| |? ev s1 ? cmds Hpop Hev Hh Hout|? ? Hpop|]; subst; try done.
  cbn [events_of]. rewrite commands_cmds.
  destruct (pop_md_spec e Hok) as (q & Hp & Hok1 & Hc). rewrite Hp in Hpop. injection Hpop as _ <-.
  destruct (handle_md_inv cfg sclock clock_range interval_range _ _ _ Hok1 Hev Hh) as (ob0 & _ & [_ _ _ _ _ Hd]).
  assert (Heq : out_cmds e' = out_cmds (set_md e q)).
  { destruct (has_bba _).
    - destruct Hd as (qb & qs & sa & sb & sc & _ & _ & Hqa & Hb & Hs & Hqc).
      by rewrite (quiet_out _ _ Hqc), (Hn _ _ _ _ _ _ _ Hs), (Hn _ _ _ _ _ _ _ Hb), (quiet_out _ _ Hqa).
    - by rewrite (quiet_out _ _ Hd). }
  rewrite Heq, <- (app_nil_r (out_cmds (set_md e q))) in Hout at 1. by apply app_inv_head in Hout.
Qed.

Lemma dry_run_emits_nothing tr s :
  dry_run cfg = true -> sys_run cfg fclock sclock sendToTarget start tr s -> commands (emitted tr) = [].
Proof.
  intros Hdry H. remember start as s0 eqn:E0. induction H as [|a t b l d H IH Hst]; subst; [done|].
  rewrite emitted_snoc, commands_app, IH by done.
  pose proof (sys_reach cfg fclock sclock sendToTarget log_open db _ _ H) as [].
  destruct Hst as [| | | |b l p e Hl Hst| | |]; [done..| |done|done|done]. by eapply dry_step_silent.
Qed.

Definition logons (tr : list sys_label) : nat :=
  length (omap (fun l => match l with SLogon => Some tt | _ => None end) tr).

Lemma subscriptions f tr :
  popped tr = [] -> flat_map (messages_of cfg f) tr = replicate (logons tr) (market_data_request cfg f).
Proof.
  induction tr as [|l tr IH]; intros Hp; [done|]. unfold popped, logons in *.
  destruct l; cbn [omap list_omap flat_map messages_of app length replicate] in *; by rewrite ?IH.
Qed.

(** C21: a dry run trades nothing.  With DRY_RUN set, in every reachable state of
    the whole engine and whatever the exchange sends, no order command has
    been queued or taken by the sender, and the session has been handed one
    market-data subscription per logon and no other message. *)
Theorem dry_run_never_trades (tr : list sys_label) (s : System) :
  sys_run cfg fclock sclock sendToTarget start tr s -> dry_run cfg = true ->
  popped tr = [] /\ out_cmds (sy_engine s) = [] /\
  outbox (sy_fix s) = replicate (logons tr) (market_data_request cfg (sy_fix start)).
Proof.
  intros Hrun Hdry. pose proof (dry_run_emits_nothing tr s Hdry Hrun) as He.
  apply sys_reach in Hrun as []; try done. rewrite He in si_cmds.
  symmetry in si_cmds. apply app_nil in si_cmds as [Hp Ho].
  split; [done|]. split; [done|]. rewrite si_outbox. by apply subscriptions.
Qed.
End Properties.

(** ** Playing a script *)

Section Play.
Context {QO : QueueOps} {QL : QueueLaws} {QF : QuickFix} {LO : LmdbOps}.
Context (cfg : EngineConfig) (fclock sclock : nat -> Z).
Context (sendToTarget : FixOut -> option SessionID -> Res bool).

Inductive sys_action :=
| PMsg (msg : FixMessage) | PCreate (sid : SessionID) | PLogon | PLogout | PStrat | PSend.

Definition sys_act (a : sys_action) (s : System) : option (sys_label * System) :=
  match a with
  | PMsg msg =>
      match fromApp fclock msg (fix_view s) with
      | Ok f => Some (SMsg msg, put_fix s f)
      | Err _ => None
      end
  | PCreate sid => Some (SCreate sid, put_fix s (onCreate sid (fix_view s)))
  | PLogon =>
      match onLogon cfg sendToTarget (fix_view s) with
      | Ok f => Some (SLogon, put_fix s f)
      | Err _ => None
      end
  | PLogout => Some (SLogout, put_fix s (onLogout (fix_view s)))
  | PStrat =>
      match run_next cfg sclock (sy_pc s, sy_engine s) with
      | Some (l, (p, e)) =>
          match l with LEnv => None | _ => Some (SStrat l, mkSystem p e (sy_fix s) (sy_db s)) end
      | None => None
      end
  | PSend =>
      match q_pop (out_ (sy_engine s)) with
      | Ok (Some c, out) =>
          match sender_body cfg fclock sendToTarget c (fix_view s) with
          | Ok f => Some (SSend c (logged_on_ (sy_fix s)),
                          put_fix (with_engine s (set_out (sy_engine s) out)) f)
          | Err _ => None
          end
      | _ => None
      end
  end.

Fixpoint sys_play (script : list sys_action) (s : System) : option (list sys_label * System) :=
  match script with
  | [] => Some ([], s)
  | a :: script =>
      match sys_act a s with
      | Some (l, s) =>
          match sys_play script s with Some (tr, s') => Some (l :: tr, s') | None => None end
      | None => None
      end
  end.

Lemma sys_act_sound a s l s' :
  sys_act a s = Some (l, s') -> sys_step cfg fclock sclock sendToTarget s l s'.
Proof.
  destruct a as [msg|sid| | | |]; cbn [sys_act].
  - destruct (fromApp _ _ _) as [f|] eqn:E; [|done]. intros [= <- <-]. by apply sy_msg.
  - intros [= <- <-]. apply sy_create.
  - destruct (onLogon _ _ _) as [f|] eqn:E; [|done]. intros [= <- <-]. by apply sy_logon.
  - intros [= <- <-]. apply sy_logout.
  - destruct (run_next _ _ _) as [[l0 [p e]]|] eqn:E; [|done]. apply run_next_sound in E.
    destruct l0; try done; intros [= <- <-]; by apply sy_strat.
  - destruct (q_pop _) as [[[c|] out]|] eqn:E; [|done|done].
    destruct (sender_body _ _ _ _ _) as [f|] eqn:E2; [|done]. intros [= <- <-]. by eapply sy_send.
Qed.

Lemma sys_play_sound script s tr s' :
  sys_play script s = Some (tr, s') -> sys_run cfg fclock sclock sendToTarget s tr s'.
Proof.
  revert s tr. induction script as [|a script IH]; intros s tr; cbn [sys_play].
  - intros [= <- <-]. constructor.
  - destruct (sys_act a s) as [[l s1]|] eqn:E; [|done].
    destruct (sys_play script s1) as [[t s2]|] eqn:E2; [|done]. intros [= <- <-].
    change (l :: t) with ([l] ++ t). eapply run_app; [apply run_one; by eapply sys_act_sound|by apply IH].
Qed.
End Play.

(** ** Witnesses *)

#[export] Existing Instance demo_qf.
#[export] Existing Instance demo_qf_laws.
#[export] Existing Instance map_db.

Definition demo_send : FixOut -> option (@SessionID demo_qf) -> Res bool := fun _ _ => Ok true.

(** A two-sided market in DLR/JUL26, and the fill of order 5000. *)
Definition wide_msg : FixMessage := @MarketDataSnapshotFullRefresh demo_qf demo_md_msg.
Definition fill_report : DemoEr :=
  mkDemoEr (Some (chars_of_string "5000")) (Some ExecType_TRADE) None (Some Side_BUY)
    (Some (chars_of_string "DLR/JUL26")) None None.
Definition fill_msg : FixMessage := @ExecutionReport demo_qf fill_report.

(** Both sides are quoted and sent, the Buy order fills, the Buy side is quoted
    again. *)
Definition demo_script : list sys_action :=
  [PCreate tt; PLogon; PMsg wide_msg; PStrat; PStrat; PSend; PSend;
   PMsg fill_msg; PMsg wide_msg; PStrat; PStrat; PStrat].

Definition demo_system : System := system_init demo_fix_config demo_clock true (∅ : @Db map_db).
#[export] Instance demo_interval_class : IntervalOk demo_fix_config.
Proof. unfold IntervalOk. cbn. lia. Qed.

(** The trace and the final state of a script. *)
Definition demo_play := sys_play demo_fix_config demo_clock demo_clock demo_send.
Definition labels_of (script : list sys_action) (s : System) : list sys_label :=
  match demo_play script s with Some (tr, _) => tr | None => [] end.
Definition final_of (script : list sys_action) (s : System) : System :=
  match demo_play script s with Some (_, s') => s' | None => s end.

Lemma system_play_ok script s :
  sys_run demo_fix_config demo_clock demo_clock demo_send s (labels_of script s) (final_of script s).
Proof.
  unfold labels_of, final_of. destruct (demo_play script s) as [[tr s']|] eqn:E; [|constructor].
  by eapply sys_play_sound.
Qed.

Definition demo_labels : list sys_label := labels_of demo_script demo_system.
Definition system_demo_state : System := final_of demo_script demo_system.

Lemma system_demo_run : sys_run demo_fix_config demo_clock demo_clock demo_send demo_system demo_labels system_demo_state.
Proof. exact (system_play_ok demo_script demo_system). Qed.

(** The state after one more step. *)
Definition next_state (a : sys_action) (s : System) : System :=
  match sys_act demo_fix_config demo_clock demo_clock demo_send a s with Some (_, s') => s' | None => s end.

(** The messages of a trace are those of its script. *)
Lemma played_msgs script s msg : SMsg msg ∈ labels_of script s -> PMsg msg ∈ script.
Proof.
  unfold labels_of, demo_play. revert s. induction script as [|a script IH]; intros s; cbn [sys_play].
  { intros H. by apply elem_of_nil in H. }
  specialize (IH (next_state a s)). unfold next_state in IH.
  destruct (sys_act _ _ _ _ a s) as [[l s1]|] eqn:E; [|intros H; by apply elem_of_nil in H].
  destruct (sys_play _ _ _ _ script s1) as [[tr s2]|]; [|intros H; by apply elem_of_nil in H].
  intros [Hl|H]%elem_of_cons; apply elem_of_cons; [left|right; by apply IH]. subst l.
  destruct a; cbn [sys_act] in E; repeat case_match; congruence.
Qed.


Lemma act_ok a s l :
  option_map fst (sys_act demo_fix_config demo_clock demo_clock demo_send a s) = Some l ->
  sys_step demo_fix_config demo_clock demo_clock demo_send s l (next_state a s).
Proof.
  intros H. apply (sys_act_sound _ _ _ _ a). unfold next_state.
  destruct (sys_act _ _ _ _ a s) as [[l' s']|]; [|done]. by injection H as ->.
Qed.

Definition buy_cmd (id t_md now : Z) : OrderCmd :=
  mkOrderCmd CmdNew Buy 1 (dadd (double_of_Z 1000) dhalf) (double_of_Z 1) id 0 (5000000 + t_md) (5000000 + now).
Definition sell_cmd (id t_md now : Z) : OrderCmd :=
  mkOrderCmd CmdNew Sell 1 (dadd (double_of_Z 1001) dhalf) (double_of_Z 1) id 0 (5000000 + t_md) (5000000 + now).

Example demo_popped : popped demo_labels = [buy_cmd 5000 0 4; sell_cmd 5001 0 5].
Proof. vm_compute. reflexivity. Qed.

Example demo_waiting : out_cmds (sy_engine system_demo_state) = [buy_cmd 5002 4 8].
Proof. vm_compute. reflexivity. Qed.

Lemma demo_first_sent : SSend (buy_cmd 5000 0 4) true ∈ demo_labels.
Proof. apply (list_elem_of_lookup_2 _ 5). vm_compute. reflexivity. Qed.

Definition demo_after : System := next_state PSend system_demo_state.

Lemma demo_next : sys_step demo_fix_config demo_clock demo_clock demo_send system_demo_state
  (SSend (buy_cmd 5002 4 8) true) demo_after.
Proof. apply act_ok. vm_compute. reflexivity. Qed.

Lemma demo_script_msgs msg : PMsg msg ∈ demo_script -> msg = wide_msg \/ msg = fill_msg.
Proof.
  unfold demo_script. rewrite !elem_of_cons.
  intros [E|[E|[E|[E|[E|[E|[E|[E|[E|[E|[E|[E|E]]]]]]]]]]]]; [..|by apply elem_of_nil in E];
    try discriminate E; injection E as ->; auto.
Qed.

Lemma fill_known : label_ok (sy_fix demo_system) (SMsg fill_msg).
Proof.
  assert (H : ours (sy_fix demo_system) !! 1%nat = Some (chars_of_string "DLR/JUL26")) by (vm_compute; reflexivity).
  intros s E. change (Some (chars_of_string "DLR/JUL26") = Some s) in E.
  rewrite E in H. exact (list_elem_of_lookup_2 _ _ _ H).
Qed.

Lemma demo_msgs msg : SMsg msg ∈ demo_labels -> PMsg msg ∈ demo_script.
Proof. unfold demo_labels. apply played_msgs. Qed.

Lemma demo_label_ok l : l ∈ demo_labels -> label_ok (sy_fix demo_system) l.
Proof.
  destruct l as [msg| | | | | | |]; try (intros _; exact I). intros Hl.
  destruct (demo_script_msgs msg (demo_msgs msg Hl)) as [-> | ->];
    [exact I|exact fill_known].
Qed.

Lemma demo_labels_ok : Forall (label_ok (sy_fix demo_system)) demo_labels.
Proof. apply List.Forall_forall. intros l Hl%list_elem_of_In. by apply demo_label_ok. Qed.

(** A session that refuses every order: the sender faults on the queued one. *)
Definition refusing : @FixOut -> option (@SessionID demo_qf) -> Res bool := fun m _ =>
  match m with MarketDataRequest _ _ _ _ _ _ _ => Ok true | _ => Err (Throw SessionNotFound) end.
Definition played (send : @FixOut -> option (@SessionID demo_qf) -> Res bool) (script : list sys_action) : list sys_label * System :=
  default ([], demo_system) (sys_play demo_fix_config demo_clock demo_clock send script demo_system).

Lemma played_run send script :
  sys_run demo_fix_config demo_clock demo_clock send demo_system (fst (played send script)) (snd (played send script)).
Proof.
  unfold played. destruct (sys_play _ _ _ send script demo_system) as [[tr s]|] eqn:E; [|constructor]. by eapply sys_play_sound.
Qed.

Definition quoting : list sys_action := [PCreate tt; PLogon; PMsg wide_msg; PStrat; PStrat].
Definition refused_labels : list sys_label := fst (played refusing quoting).
Definition refused_state : System := snd (played refusing quoting).

Lemma refused_queued : match out_cmds (sy_engine refused_state) with [] => false | _ => true end = true.
Proof. vm_compute. reflexivity. Qed.

Lemma refused_on : logged_on_ (sy_fix refused_state) = true.
Proof. vm_compute. reflexivity. Qed.

Lemma engine_progress_witness :
  sys_fault demo_fix_config demo_clock demo_clock refusing refused_state Sender (Throw SessionNotFound).
Proof.
  generalize (played_run refusing quoting : sys_run _ _ _ _ _ refused_labels refused_state), refused_queued, refused_on.
  generalize refused_labels, refused_state. intros tr s Hrun Hq Hon.
  destruct (engine_progress demo_fix_config demo_clock demo_clock refusing true ∅ tr s Hrun) as (_ & _ & _ & Hsend & _).
  destruct (out_cmds (sy_engine s)) as [|c cs] eqn:Eo; [discriminate Hq|].
  destruct (Hsend c cs eq_refl) as [(s' & Hst & _)|(_ & e & He & Hf)].
  - exfalso. inversion Hst as [| | | | |? ? out f Hp Hb| |]; subst. unfold sender_body in Hb. cbn [logged_on_ fix_view] in Hb.
    rewrite Hon in Hb. unfold send_order_cmd in Hb. destruct (array_read _ _); [|discriminate Hb]. cbn [res_bind] in Hb.
    unfold order_message in Hb. destruct (c_type c); discriminate Hb.
  - assert (e = Throw SessionNotFound) as ->; [|exact Hf]. unfold message_of, order_message in He.
    destruct (c_type c); injection He as <-; reflexivity.
Defined.

(** A report on an instrument that is not configured, as the first message. *)
Definition stray_report : @ErMsg demo_qf := demo_report (chars_of_string "GGAL") (chars_of_string "7").

Lemma unknown_symbol_report_is_ub_witness :
  exists s1, sys_step demo_fix_config demo_clock demo_clock demo_send demo_system (SMsg (@ExecutionReport demo_qf stray_report)) s1 /\
    sys_fault demo_fix_config demo_clock demo_clock demo_send s1 Strategy (UB OutOfBounds).
Proof.
  destruct (unknown_symbol_report_is_ub demo_fix_config demo_clock demo_clock demo_send true ∅ [] demo_system stray_report
    (chars_of_string "GGAL") (mkExecEvent (demo_clock 0) 7 ExPartFill Buy UINT32_MAX dzero dzero (double_of_Z 2)
       (strncpy (zero_chars order_id_size) (chars_of_string "X1") 23))) as (s1 & Hst & Hq & _ & Hf).
  - constructor.
  - reflexivity.
  - apply (bool_decide_eq_false_1 (chars_of_string "GGAL" ∈ ours (sy_fix demo_system))). vm_compute. reflexivity.
  - vm_compute. reflexivity.
  - vm_compute. reflexivity.
  - exists s1. split; [exact Hst|]. assert (Hpc : sy_pc s1 = AtExec) by (inversion Hst; reflexivity).
    exact (proj1 (Hf [] s1 [] (run_nil _ _) Hpc Hq)).
Defined.

(** The seed of the ClOrdIDs and the snapshot deadline, in the final state. *)
Lemma values_stay_in_type_witness :
  in_u64 (cl_ord_seed_ (sy_engine system_demo_state)) /\ in_i64 (next_snapshot_ns (sy_engine system_demo_state)).
Proof.
  pose proof (values_stay_in_type demo_fix_config demo_clock demo_clock demo_send true ∅ demo_labels system_demo_state
    system_demo_run) as ((_ & _ & _ & _ & _ & _ & _ & _ & H) & _). exact H.
Defined.

(** The same engine in a dry run: the market is wide, and nothing is quoted. *)
Definition dry_fix_config : EngineConfig :=
  mkConfig (dlit 5 100) (dlit 2 100) dhalf (double_of_Z 1) 5 [] [] [] [] 2 3 9091 [] 1000 true
    (symbols demo_fix_config).
#[export] Instance dry_interval : IntervalOk dry_fix_config.
Proof. unfold IntervalOk. cbn. lia. Qed.
Definition dry_system : System := system_init dry_fix_config demo_clock true (∅ : @Db map_db).
Definition dry_script : list sys_action := [PCreate tt; PLogon; PMsg wide_msg; PStrat; PStrat].
Definition dry_final : list sys_label * System :=
  default ([], dry_system) (sys_play dry_fix_config demo_clock demo_clock demo_send dry_script dry_system).

Lemma dry_final_run :
  sys_run dry_fix_config demo_clock demo_clock demo_send dry_system (fst dry_final) (snd dry_final).
Proof.
  unfold dry_final. destruct (sys_play _ _ _ _ dry_script dry_system) as [[tr s]|] eqn:E; [|constructor].
  by eapply sys_play_sound.
Qed.

Lemma dry_run_never_trades_witness :
  length (fst dry_final) = 5%nat /\ length (outbox (sy_fix (snd dry_final))) = 1%nat.
Proof.
  split; [vm_compute; reflexivity|].
  destruct (dry_run_never_trades dry_fix_config demo_clock demo_clock demo_send true ∅ (fst dry_final) (snd dry_final)
    dry_final_run eq_refl) as (_ & _ & H).
  apply (f_equal (@length FixOut)) in H. rewrite length_replicate in H. etransitivity; [exact H|]. vm_compute. reflexivity.
Defined.

Lemma commands_reach_session_witness :
  commands (emitted demo_labels) = [buy_cmd 5000 0 4; sell_cmd 5001 0 5; buy_cmd 5002 4 8].
Proof.
  destruct (commands_reach_session demo_fix_config demo_clock demo_clock demo_send true ∅ demo_labels system_demo_state
    system_demo_run) as [H _]. rewrite demo_popped in H. rewrite demo_waiting in H. exact H.
Defined.

Lemma wire_one_working_order_witness :
  exists e, received (sy_fix demo_system) demo_labels e /\ terminal (x_kind e) = true /\ x_cl_ord_id e = 5000.
Proof.
  destruct (wire_one_working_order demo_fix_config demo_clock demo_clock demo_send true ∅ demo_labels system_demo_state
    demo_after (buy_cmd 5000 0 4) (buy_cmd 5002 4 8) true true system_demo_run demo_next demo_first_sent)
    as (e & Hr & Ht & _ & Hid); [done..|]. exists e. split; [exact Hr|]. split; [exact Ht|exact Hid].
Defined.
