(* ===== verification/OrderFlow.v ===== *)
(** * Orders between the engine and an exchange

    What a closed system of the engine and an exchange does to its orders,
    without the wire: the engine queues commands, the exchange takes them and
    answers with reports, the engine handles the reports; both directions may
    lose messages.  ClosedLoop shows that the engine and the local exchange
    (scripts/mock_exchange.py) move like this; here is what follows. *)
From S2P Require Import Prelude.
From S2P Require Import Double.
From S2P Require Import Events.
From S2P Require Import MarketMaker.
From S2P Require Import StrategySteps.
From S2P Require Import StrategyProps.
From S2P Require Import System.
From Stdlib Require Import Sorted.

(** ** States and moves *)

(** What a report says: its kind, the ClOrdID it carries, and the instrument it
    is read for. *)
Record Item := mkItem { it_kind : ExecKind; it_id : Z; it_sym : Z }.

#[export] Instance Item_eq_dec : EqDecision Item.
Proof. solve_decision. Defined.

Definition exec_item (e : ExecEvent) : Item := mkItem (x_kind e) (x_cl_ord_id e) (x_symbol_id e).

Abbreviation ids l := (map c_cl_ord_id l).

(** The trace of the strategy, the commands on their way to the exchange, the
    reports on their way back, and the orders the exchange works. *)
Record Flow := mkFlow {
  fl_events : list event;
  fl_pending : list OrderCmd;
  fl_reports : list Item;
  fl_book : list OrderCmd
}.

Section Flow.
(** The instrument a report on a command is read for. *)
Context (sym_of : OrderCmd -> Z).

(** A New is acknowledged, and may be filled at once.  A cancel is acknowledged
    under its own ClOrdID. *)
Definition new_reports (c : OrderCmd) (fill : bool) : list Item :=
  mkItem ExNew (c_cl_ord_id c) (sym_of c) :: if fill then [mkItem ExFilled (c_cl_ord_id c) (sym_of c)] else [].

Definition book_without (id : Z) (l : list OrderCmd) : list OrderCmd :=
  filter (fun c => c_cl_ord_id c <> id) l.

Inductive flow_move : Flow -> Flow -> Prop :=
| fm_emit evs P Q B cmds :
    flow_move (mkFlow evs P Q B) (mkFlow (evs ++ map EvCmd cmds) (P ++ cmds) Q B)
| fm_report evs P e Q B :
    flow_move (mkFlow evs P (exec_item e :: Q) B) (mkFlow (evs ++ [EvExec e]) P Q B)
| fm_new evs c P Q B fill :
    c_type c = CmdNew ->
    flow_move (mkFlow evs (c :: P) Q B)
      (mkFlow evs P (Q ++ new_reports c fill) (if fill then B else B ++ [c]))
| fm_cancel evs c P Q B :
    c_type c = CmdCancel ->
    flow_move (mkFlow evs (c :: P) Q B)
      (mkFlow evs P (Q ++ [mkItem ExCanceled (c_cl_ord_id c) (sym_of c)]) (book_without (c_orig_cl_ord_id c) B))
| fm_lose evs P P' Q Q' B :
    P' ⊆+ P -> Q' ⊆+ Q -> flow_move (mkFlow evs P Q B) (mkFlow evs P' Q' B).

(** ** Facts on lists *)

Lemma submseteq_NoDup {A} (l k : list A) : l ⊆+ k -> NoDup k -> NoDup l.
Proof. intros [k' Hk]%submseteq_Permutation. rewrite Hk. by intros (? & _ & _)%list.NoDup_app. Qed.

Lemma submseteq_map {A B} (f : A -> B) l k : l ⊆+ k -> map f l ⊆+ map f k.
Proof.
  intros [k' Hk]%submseteq_Permutation. rewrite (Permutation_map f Hk), map_app. by apply submseteq_inserts_r.
Qed.

Lemma submseteq_omap {A B} (f : A -> option B) l k : l ⊆+ k -> omap f l ⊆+ omap f k.
Proof.
  intros [k' Hk]%submseteq_Permutation. rewrite Hk, omap_app. by apply submseteq_inserts_r.
Qed.

Lemma submseteq_flat_map {A B} (f : A -> list B) l k : l ⊆+ k -> flat_map f l ⊆+ flat_map f k.
Proof.
  intros [k' Hk]%submseteq_Permutation. rewrite (Permutation_flat_map f Hk), flat_map_app. by apply submseteq_inserts_r.
Qed.

Lemma elem_ids c l : c ∈ l -> c_cl_ord_id c ∈ ids l.
Proof. intros H. apply list_elem_of_In, in_map, list_elem_of_In, H. Qed.

(** No two commands share a ClOrdID. *)
Definition unique_ids (evs : list event) : Prop := NoDup (ids (commands evs)).

Lemma unique_eq evs c c' :
  unique_ids evs -> c ∈ commands evs -> c' ∈ commands evs -> c_cl_ord_id c = c_cl_ord_id c' -> c = c'.
Proof.
  unfold unique_ids. generalize (commands evs) as l. intros l. induction l as [|d l IH]; cbn [map].
  { intros _ H. by apply elem_of_nil in H. }
  intros [Hd Hn]%list.NoDup_cons [->|H]%elem_of_cons [->|H']%elem_of_cons E; [done| | |by apply IH].
  - destruct Hd. rewrite E. by apply elem_ids.
  - destruct Hd. rewrite <- E. by apply elem_ids.
Qed.

Lemma unique_fresh evs c post : unique_ids ((evs ++ [EvCmd c]) ++ post) -> c_cl_ord_id c ∉ ids (commands evs).
Proof.
  unfold unique_ids. rewrite !commands_app, !map_app. intros (Hu & _ & _)%list.NoDup_app Hin.
  apply list.NoDup_app in Hu as (_ & Hu & _). apply (Hu _ Hin). by apply list_elem_of_singleton.
Qed.

Lemma cmd_ids_commands evs : cmd_ids evs = ids (commands evs).
Proof. induction evs as [|[e|c] evs IH]; [done|exact IH|]. unfold commands in *. cbn. by f_equal. Qed.

Lemma sorted_NoDup l : StronglySorted Z.lt l -> NoDup l.
Proof.
  induction 1 as [|x l Hs IH Hx]; [constructor|]. apply list.NoDup_cons. split; [|done].
  intros Hin%list_elem_of_In. rewrite List.Forall_forall in Hx. specialize (Hx x Hin). lia.
Qed.

Lemma elem_commands c evs : c ∈ commands evs <-> EvCmd c ∈ evs.
Proof.
  unfold commands. rewrite list_elem_of_omap. split.
  - intros ([e|c'] & H & [=]). by subst.
  - intros H. by exists (EvCmd c).
Qed.

(** ** The invariant *)

(** The reports handled so far. *)
Definition handled_items (evs : list event) : list Item :=
  omap (fun ev => match ev with EvExec e => Some (exec_item e) | EvCmd _ => None end) evs.

Definition new_ids (l : list Item) : list Z :=
  omap (fun x => match it_kind x with ExNew => Some (it_id x) | _ => None end) l.

(** The command a report answers has been taken, and the report is of its kind. *)
Definition item_of (c : OrderCmd) (x : Item) : Prop :=
  c_cl_ord_id c = it_id x /\ it_sym x = sym_of c /\
  match c_type c with
  | CmdNew => it_kind x = ExNew \/ it_kind x = ExFilled
  | CmdCancel => it_kind x = ExCanceled
  end.

Definition works (evs : list event) (c : OrderCmd) : Prop :=
  working (c_symbol_id c) (c_side c) evs = Some (c_cl_ord_id c).

Definition all_items (f : Flow) : list Item := handled_items (fl_events f) ++ fl_reports f.

Record flow_inv (f : Flow) : Prop := {
  fi_pending : forall c, c ∈ fl_pending f -> c ∈ commands (fl_events f);
  fi_distinct : NoDup (ids (fl_pending f));
  fi_items : forall x, x ∈ all_items f ->
    exists c, c ∈ commands (fl_events f) /\ (c_cl_ord_id c ∉ ids (fl_pending f)) /\ item_of c x;
  fi_new_once : NoDup (new_ids (all_items f));
  fi_works : forall c, c ∈ fl_pending f -> c_type c = CmdNew -> works (fl_events f) c;
  fi_book : forall c, c ∈ fl_book f -> c ∈ commands (fl_events f) /\ c_type c = CmdNew /\
    (c_cl_ord_id c ∉ ids (fl_pending f)) /\ (mkItem ExFilled (c_cl_ord_id c) (sym_of c) ∉ all_items f) /\ works (fl_events f) c;
  fi_book_once : NoDup (ids (fl_book f))
}.

Definition flow_init : Flow := mkFlow [] [] [] [].

Lemma flow_inv_init : flow_inv flow_init.
Proof. split; try apply base.NoDup_nil_2; cbn; intros ? H; by apply elem_of_nil in H. Qed.

(** *** Lookups in the extended lists *)

Lemma commands_snoc evs c : commands (evs ++ [EvCmd c]) = commands evs ++ [c].
Proof. apply commands_app. Qed.

Lemma commands_exec evs e : commands (evs ++ [EvExec e]) = commands evs.
Proof. rewrite commands_app. apply app_nil_r. Qed.

Lemma handled_cmds evs cmds : handled_items (evs ++ map EvCmd cmds) = handled_items evs.
Proof.
  unfold handled_items. rewrite omap_app. assert (omap (fun ev => match ev with EvExec e => Some (exec_item e) | EvCmd _ => None end) (map EvCmd cmds) = []) as ->
    by (by induction cmds). apply app_nil_r.
Qed.

Lemma handled_exec evs e : handled_items (evs ++ [EvExec e]) = handled_items evs ++ [exec_item e].
Proof. unfold handled_items. by rewrite omap_app. Qed.

Lemma works_cmd evs c c' :
  cmd_ok evs c -> works evs c' -> works (evs ++ [EvCmd c]) c'.
Proof.
  unfold works. intros [_ H] Hw. rewrite working_snoc, Hw. cbn [working_step].
  rewrite decide_False; [done|]. intros (Ht & Hs & Hd). rewrite Ht, Hs, Hd, Hw in H. done.
Qed.

Lemma works_exec evs e c :
  (terminal (x_kind e) = true -> x_cl_ord_id e <> c_cl_ord_id c) -> works evs c -> works (evs ++ [EvExec e]) c.
Proof.
  unfold works. intros H Hw. rewrite working_snoc, Hw. cbn [working_step].
  rewrite decide_False; [done|]. intros (Ht & _ & [= Hi]). by apply (H Ht).
Qed.

(** *** Each move keeps it *)

Lemma inv_emit1 evs P Q B c :
  cmd_ok evs c -> c_cl_ord_id c ∉ ids (commands evs) ->
  flow_inv (mkFlow evs P Q B) -> flow_inv (mkFlow (evs ++ [EvCmd c]) (P ++ [c]) Q B).
Proof.
  intros Hok Hfresh []. unfold all_items in *. cbn [fl_events fl_pending fl_reports fl_book] in *.
  assert (Hold : forall d, d ∈ commands evs -> c_cl_ord_id d <> c_cl_ord_id c).
  { intros d Hd E. apply Hfresh. rewrite <- E. by apply elem_ids. }
  assert (Hp : forall i, i ∉ ids P -> i <> c_cl_ord_id c -> i ∉ ids (P ++ [c])).
  { intros i Hi Hn. rewrite map_app. intros [?|H%list_elem_of_singleton]%elem_of_app; done. }
  change [EvCmd c] with (map EvCmd [c]).
  split; unfold all_items; cbn [fl_events fl_pending fl_reports fl_book]; rewrite ?handled_cmds; cbn [map];
    rewrite ?commands_snoc.
  - intros d [H| ->%list_elem_of_singleton]%elem_of_app; apply elem_of_app; [left; auto|right; by apply list_elem_of_singleton].
  - rewrite map_app. apply list.NoDup_app. split; [done|]. split; [|apply list.NoDup_singleton].
    intros i Hi ->%list_elem_of_singleton. apply list_elem_of_In, in_map_iff in Hi as (d & E & Hd%list_elem_of_In).
    by apply (Hold d); [apply fi_pending0|].
  - intros x Hx. destruct (fi_items0 x Hx) as (d & Hd & Hn & Hi). exists d. split; [apply elem_of_app; by left|]. auto.
  - done.
  - intros d [H| ->%list_elem_of_singleton]%elem_of_app Ht; [apply works_cmd; auto|].
    unfold works. by apply working_cmd.
  - intros d Hd. destruct (fi_book0 d Hd) as (? & ? & ? & ? & ?).
    split; [apply elem_of_app; by left|]. split; [done|]. split; [auto|]. split; [done|]. by apply works_cmd.
  - done.
Qed.

Lemma inv_emit evs P Q B cmds :
  cmds_ok (evs ++ map EvCmd cmds) -> unique_ids (evs ++ map EvCmd cmds) ->
  flow_inv (mkFlow evs P Q B) -> flow_inv (mkFlow (evs ++ map EvCmd cmds) (P ++ cmds) Q B).
Proof.
  revert evs P. induction cmds as [|c cmds IH]; intros evs P Hok Hu Hi; cbn [map].
  { by rewrite !app_nil_r. }
  cbn [map] in Hok, Hu. change (EvCmd c :: map EvCmd cmds) with ([EvCmd c] ++ map EvCmd cmds) in *.
  change (c :: cmds) with ([c] ++ cmds). rewrite !app_assoc in *. apply IH; [done..|]. apply inv_emit1; [| |done].
  - apply (Hok evs c (map EvCmd cmds)). by rewrite <- app_assoc.
  - by eapply unique_fresh.
Qed.

Lemma inv_report evs P e Q B :
  unique_ids evs -> flow_inv (mkFlow evs P (exec_item e :: Q) B) -> flow_inv (mkFlow (evs ++ [EvExec e]) P Q B).
Proof.
  intros Hu []. unfold all_items in *. cbn [fl_events fl_pending fl_reports fl_book] in *.
  destruct (fi_items0 (exec_item e)) as (d & Hd & Hn & Hid & Hsym & Hk); [apply elem_of_app; right; by left|].
  cbn [exec_item it_id it_sym it_kind] in Hid, Hsym, Hk.
  pose proof (commands_exec evs e) as Hc.
  assert (Hw : forall c, c ∈ commands evs -> (c_type c = CmdNew -> x_kind e <> ExFilled \/ c <> d) ->
            c_type c = CmdNew -> works evs c -> works (evs ++ [EvExec e]) c).
  { intros c Hin Hf Ht. apply works_exec. intros Hterm E. assert (c = d) as -> by (apply (unique_eq evs); [done..|congruence]).
    rewrite Ht in Hk. destruct (Hf Ht) as [Hf'|]; [|done].
    destruct Hk as [E'|E']; [|done]. by rewrite E' in Hterm. }
  split; unfold all_items; cbn [fl_events fl_pending fl_reports fl_book]; rewrite ?Hc, ?handled_exec, <- ?app_assoc; try done.
  - intros c Hin Ht. apply Hw; auto. intros _. right. intros ->. apply Hn. by apply elem_ids.
  - intros c Hin. destruct (fi_book0 c Hin) as (? & ? & ? & Hno & ?).
    do 4 (split; [done|]). apply Hw; auto. intros _.
    destruct (decide (x_kind e = ExFilled)) as [Ef|]; [right|by left]. intros ->.
    rewrite Hid, <- Hsym, <- Ef in Hno. apply Hno, elem_of_app. right. by left.
Qed.

(** Reports added for a command that was waiting. *)
Lemma inv_taken evs c P Q B B' new :
  flow_inv (mkFlow evs (c :: P) Q B) ->
  (forall x, x ∈ new -> item_of c x) -> NoDup (new_ids new) ->
  (forall d, d ∈ B' -> (d ∈ B /\ ~ (c_type d = CmdNew /\ d = c)) \/ (d = c /\ c_type c = CmdNew /\ mkItem ExFilled (c_cl_ord_id c) (sym_of c) ∉ new)) ->
  NoDup (ids B') ->
  unique_ids evs -> flow_inv (mkFlow evs P (Q ++ new) B').
Proof.
  intros [] Hnew Hnn HB HBn Hu. unfold all_items in *. cbn [fl_events fl_pending fl_reports fl_book] in *.
  cbn [map] in *. apply list.NoDup_cons in fi_distinct0 as [Hc HP].
  assert (Hcin : c ∈ commands evs) by (apply fi_pending0; by left).
  assert (Hsub : forall i, i ∉ c_cl_ord_id c :: ids P -> i ∉ ids P) by (intros i H H'; apply H; by right).
  assert (Hfresh : forall x, x ∈ handled_items evs ++ Q -> it_id x <> c_cl_ord_id c).
  { intros x Hx E. destruct (fi_items0 x Hx) as (d & _ & Hn & Hid & _). apply Hn. rewrite Hid, E. left. }
  assert (Hnid : forall i, i ∈ new_ids new -> i = c_cl_ord_id c).
  { unfold new_ids. intros i (x & Hx & E)%list_elem_of_omap. destruct (Hnew x Hx) as [-> _]. destruct (it_kind x); congruence. }
  split; unfold all_items; cbn [fl_events fl_pending fl_reports fl_book]; rewrite ?app_assoc; try done.
  - intros d Hd. apply fi_pending0. by right.
  - intros x [Hx|Hx]%elem_of_app.
    + destruct (fi_items0 x Hx) as (d & Hd & Hn & Hi). exists d. auto.
    + exists c. auto.
  - unfold new_ids in *. rewrite omap_app. apply list.NoDup_app. split; [done|]. split; [|done].
    intros i (x & Hx & E)%list_elem_of_omap Hin%Hnid. apply (Hfresh x Hx). destruct (it_kind x); congruence.
  - intros d Hd Ht. apply fi_works0; [by right|done].
  - intros d Hd. destruct (HB d Hd) as [[HdB Hnd]|(-> & Ht & Hno)].
    + destruct (fi_book0 d HdB) as (H1 & H2 & H3 & H4 & H5). do 2 (split; [done|]). split; [auto|]. split; [|done].
      intros [H|H]%elem_of_app; [done|]. apply H3.
      destruct (Hnew _ H) as [E _]. cbn [it_id] in E. rewrite <- E. left.
    + split; [done|]. split; [done|]. split; [done|]. split; [|apply fi_works0; [by left|done]].
      intros [Hx|Hx]%elem_of_app; [|done]. by apply (Hfresh _ Hx).
Qed.

Lemma book_without_sub i B : forall d, d ∈ book_without i B -> d ∈ B.
Proof. unfold book_without. intros d H. by apply list_elem_of_filter in H as [_ H]. Qed.

Lemma NoDup_book_without i B : NoDup (ids B) -> NoDup (ids (book_without i B)).
Proof.
  unfold book_without. induction B as [|c B IH]; [done|]. cbn [map]. intros [Hc Hn]%list.NoDup_cons.
  rewrite filter_cons. case_decide; [|auto]. cbn [map]. apply list.NoDup_cons. split; [|auto].
  intros Hin. apply Hc. apply list_elem_of_In, in_map_iff in Hin as (d & E & Hd%list_elem_of_In).
  rewrite <- E. apply elem_ids. by eapply book_without_sub.
Qed.

Lemma inv_lose evs P P' Q Q' B :
  P' ⊆+ P -> Q' ⊆+ Q -> flow_inv (mkFlow evs P Q B) -> flow_inv (mkFlow evs P' Q' B).
Proof.
  intros HP HQ []. unfold all_items in *. cbn [fl_events fl_pending fl_reports fl_book] in *.
  assert (Hids : forall i, i ∉ ids P -> i ∉ ids P').
  { intros i Hi H. apply Hi. eapply elem_of_submseteq; [exact H|]. by apply submseteq_map. }
  assert (HW : handled_items evs ++ Q' ⊆+ handled_items evs ++ Q) by by apply submseteq_skips_l.
  split; unfold all_items; cbn [fl_events fl_pending fl_reports fl_book]; try done.
  - intros c Hc. apply fi_pending0. by eapply elem_of_submseteq.
  - eapply submseteq_NoDup; [|exact fi_distinct0]. by apply submseteq_map.
  - intros x Hx. destruct (fi_items0 x) as (d & ? & ? & ?); [by eapply elem_of_submseteq|]. exists d. auto.
  - eapply submseteq_NoDup; [|exact fi_new_once0]. by apply submseteq_omap.
  - intros c Hc. apply fi_works0. by eapply elem_of_submseteq.
  - intros c Hc. destruct (fi_book0 c Hc) as (? & ? & ? & Hno & ?). do 2 (split; [done|]). split; [auto|]. split; [|done].
    intros Hx. apply Hno. by eapply elem_of_submseteq.
Qed.

Lemma flow_inv_move f f' :
  cmds_ok (fl_events f') -> unique_ids (fl_events f') -> flow_move f f' -> flow_inv f -> flow_inv f'.
Proof.
  intros Hok Hu Hm Hi. destruct Hm as [evs P Q B cmds|evs P e Q B|evs c P Q B fill Ht|evs c P Q B Ht|evs P P' Q Q' B HP HQ];
    cbn [fl_events] in *.
  - by apply inv_emit.
  - apply inv_report; [|done]. unfold unique_ids in *. rewrite commands_app in Hu. by rewrite app_nil_r in Hu.
  - apply (inv_taken evs c P Q B); [done| | | | |done].
    + intros x [->|Hx]%elem_of_cons; [split; [done|]; split; [done|]; rewrite Ht; by left|].
      destruct fill; [apply list_elem_of_singleton in Hx as ->|by apply elem_of_nil in Hx].
      split; [done|]. split; [done|]. rewrite Ht. by right.
    + destruct fill; apply list.NoDup_singleton.
    + assert (Hnc : forall d, d ∈ B -> ~ (c_type d = CmdNew /\ d = c)).
      { intros d Hd [_ ->]. destruct Hi as [_ _ _ _ _ Hb _]. destruct (Hb c Hd) as (_ & _ & H & _).
        apply H. cbn [fl_pending map]. by left. }
      intros d. destruct fill; [auto|]. intros [Hd| ->%list_elem_of_singleton]%elem_of_app; [auto|right].
      split; [done|]. split; [done|]. by intros ?%list_elem_of_singleton.
    + destruct fill; [apply Hi|]. cbn [fl_book]. rewrite map_app. apply list.NoDup_app.
      split; [apply Hi|]. split; [|apply list.NoDup_singleton]. intros i Hin ->%list_elem_of_singleton.
      apply list_elem_of_In, in_map_iff in Hin as (d & E & Hd%list_elem_of_In).
      destruct (fi_book _ Hi d Hd) as (_ & _ & H & _). apply H. cbn [fl_pending map]. rewrite E. by left.
  - apply (inv_taken evs c P Q B); [done| | | | |done].
    + intros x ->%list_elem_of_singleton. split; [done|]. split; [done|]. by rewrite Ht.
    + constructor.
    + intros d Hd. left. split; [by eapply book_without_sub|]. intros [Hn ->]. congruence.
    + apply NoDup_book_without, Hi.
  - by apply (inv_lose evs P P' Q Q').
Qed.

(** ** What follows *)

(** At most one order per instrument and side. *)
Lemma book_one_per_slot f c c' :
  unique_ids (fl_events f) -> flow_inv f -> c ∈ fl_book f -> c' ∈ fl_book f ->
  c_symbol_id c = c_symbol_id c' -> c_side c = c_side c' -> c = c'.
Proof.
  intros Hu Hi Hc Hc' Hs Hd. destruct (fi_book _ Hi c Hc) as (H1 & _ & _ & _ & W1).
  destruct (fi_book _ Hi c' Hc') as (H2 & _ & _ & _ & W2). apply (unique_eq (fl_events f)); [done..|].
  unfold works in *. rewrite Hs, Hd, W2 in W1. congruence.
Qed.

Lemma book_slots_distinct f :
  unique_ids (fl_events f) -> flow_inv f -> NoDup (map (fun c => (c_symbol_id c, c_side c)) (fl_book f)).
Proof.
  intros Hu Hi. pose proof (fi_book_once _ Hi) as Hn.
  assert (Hone : forall c c', c ∈ fl_book f -> c' ∈ fl_book f -> c_symbol_id c = c_symbol_id c' -> c_side c = c_side c' -> c = c')
    by (intros c c'; by apply (book_one_per_slot f c c' Hu Hi)).
  induction (fl_book f) as [|c l IH]; cbn [map] in *; [constructor|].
  apply list.NoDup_cons in Hn as [Hc Hn]. apply list.NoDup_cons.
  split; [|apply IH; [done|]; intros; apply Hone; by try right].
  intros Hin. apply list_elem_of_In, in_map_iff in Hin as (d & [= E1 E2] & Hd%list_elem_of_In).
  apply Hc. rewrite (Hone c d); [by apply elem_ids|left|by right|done|done].
Qed.

(** Nothing on its way concerns the order. *)
Definition silent (id : Z) (f : Flow) : Prop :=
  id ∈ ids (commands (fl_events f)) /\ (id ∉ ids (fl_pending f)) /\ forall x, x ∈ fl_reports f -> it_id x <> id.

(** An acknowledged order that is not about to be filled: all reports on it have
    been handled, the exchange will say nothing more. *)
Lemma acked_silent f id :
  unique_ids (fl_events f) -> flow_inv f -> acked id (fl_events f) ->
  (forall x, x ∈ fl_reports f -> it_kind x = ExFilled -> it_id x <> id) -> silent id f.
Proof.
  intros Hu [] (e & He & Hid & Ht) Hno. unfold all_items in *.
  assert (Hin : exec_item e ∈ handled_items (fl_events f)).
  { unfold handled_items. apply list_elem_of_omap. by exists (EvExec e). }
  destruct (fi_items0 (exec_item e)) as (c & Hc & Hn & Hcid & _ & Hk); [apply elem_of_app; by left|].
  cbn [exec_item it_id it_kind] in Hcid, Hk.
  assert (Hnew : c_type c = CmdNew /\ x_kind e = ExNew).
  { destruct (c_type c); [|by rewrite Hk in Ht]. split; [done|]. destruct Hk as [|Hk]; [done|]. by rewrite Hk in Ht. }
  destruct Hnew as [Hty Hke].
  split; [rewrite <- Hid, <- Hcid; by apply elem_ids|]. split; [by rewrite <- Hid, <- Hcid|].
  intros x Hx Exi. destruct (fi_items0 x) as (d & Hd & _ & Hdid & _ & Hdk); [apply elem_of_app; by right|].
  assert (d = c) as -> by (apply (unique_eq (fl_events f)); [done..|congruence]). rewrite Hty in Hdk.
  destruct x as [k i m]. cbn [it_id it_kind] in *. subst i. destruct Hdk as [->| ->]; [|by eapply Hno].
  unfold new_ids in fi_new_once0. rewrite omap_app in fi_new_once0. apply list.NoDup_app in fi_new_once0 as (_ & Hdis & _).
  apply (Hdis id).
  - apply list_elem_of_omap. exists (exec_item e). split; [done|]. unfold exec_item. cbn. by rewrite Hke, Hid.
  - apply list_elem_of_omap. by exists (mkItem ExNew id m).
Qed.

(** Silence lasts, and no report handled meanwhile names the order. *)
Lemma silent_move f f' id :
  unique_ids (fl_events f') -> flow_move f f' -> silent id f ->
  silent id f' /\ forall evs e, fl_events f' = fl_events f ++ evs -> EvExec e ∈ evs -> x_cl_ord_id e <> id.
Proof.
  intros Hu Hm (Hk & Hp & Hq). destruct Hm as [evs P Q B cmds|evs P e Q B|evs c P Q B fill Ht|evs c P Q B Ht|evs P P' Q Q' B HP HQ];
    unfold silent; cbn [fl_events fl_pending fl_reports] in *.
  1: { split.
    - rewrite commands_app, commands_cmds, !map_app. split; [apply elem_of_app; by left|]. split; [|done].
      unfold unique_ids in Hu. rewrite commands_app, commands_cmds, map_app in Hu.
      apply list.NoDup_app in Hu as (_ & Hu & _). intros [?|?]%elem_of_app; [done|]. by apply (Hu id).
    - intros evs' e <-%app_inv_head He. apply list_elem_of_In, in_map_iff in He as (? & [=] & _). }
  1: { split.
    - rewrite commands_app. cbn. rewrite app_nil_r. do 2 (split; [done|]). intros x Hx. apply Hq. by right.
    - intros evs' e' <-%app_inv_head [= ->]%list_elem_of_singleton. apply (Hq (exec_item e)). by left. }
  all: split; [split; [done|]|intros evs' e' E He; rewrite <- (app_nil_r evs) in E at 1;
    apply app_inv_head in E as <-; by apply elem_of_nil in He].
  all: cbn [map] in Hp; try (split; [intros H; apply Hp; by right|]).
  1, 2: assert (Hc : c_cl_ord_id c <> id) by (intros <-; apply Hp; left).
  - intros x [?|[->|Hx]%elem_of_cons]%elem_of_app; [auto|done|].
    destruct fill; [by apply list_elem_of_singleton in Hx as ->|by apply elem_of_nil in Hx].
  - intros x [?| ->%list_elem_of_singleton]%elem_of_app; [auto|done].
  - split; [intros H; apply Hp; eapply elem_of_submseteq; [exact H|]; by apply submseteq_map|].
    intros x Hx. apply Hq. by eapply elem_of_submseteq.
Qed.

(** ** When nothing is lost *)

(** What is under way, and what has arrived: a move that does not shrink it has
    lost nothing. *)
Definition traffic (f : Flow) : nat := length (fl_pending f) + length (all_items f).

(** Where a New that has been taken is: on the book, filled, or named by a cancel
    that has been taken too. *)
Definition canceled_by (evs : list event) (P : list OrderCmd) (c : OrderCmd) : Prop :=
  exists d, d ∈ commands evs /\ c_type d = CmdCancel /\ c_orig_cl_ord_id d = c_cl_ord_id c /\ (c_cl_ord_id d ∉ ids P).

Record kept_inv (f : Flow) : Prop := {
  ki_taken : forall c, c ∈ commands (fl_events f) -> c_type c = CmdNew -> (c_cl_ord_id c ∉ ids (fl_pending f)) ->
    mkItem ExNew (c_cl_ord_id c) (sym_of c) ∈ all_items f /\
    (c ∈ fl_book f \/ mkItem ExFilled (c_cl_ord_id c) (sym_of c) ∈ all_items f \/
     canceled_by (fl_events f) (fl_pending f) c);
  ki_book : forall c d, c ∈ fl_book f -> d ∈ commands (fl_events f) -> c_type d = CmdCancel ->
    c_orig_cl_ord_id d = c_cl_ord_id c -> c_cl_ord_id d ∈ ids (fl_pending f);
  ki_filled : forall c, c ∈ commands (fl_events f) -> c_type c = CmdNew ->
    mkItem ExFilled (c_cl_ord_id c) (sym_of c) ∈ handled_items (fl_events f) -> ~ works (fl_events f) c
}.

Lemma kept_inv_init : kept_inv flow_init.
Proof. split; cbn; intros ? **; exfalso; eapply not_elem_of_nil; eassumption. Qed.

Lemma canceled_cmd evs P c d :
  c_cl_ord_id c ∉ ids (commands evs) -> canceled_by evs P d -> canceled_by (evs ++ [EvCmd c]) (P ++ [c]) d.
Proof.
  intros Hf (x & Hx & Ht & Ho & Hn). exists x. rewrite commands_snoc, map_app. split; [apply elem_of_app; by left|].
  do 2 (split; [done|]). intros [?|E%list_elem_of_singleton]%elem_of_app; [done|].
  apply Hf. rewrite <- E. by apply elem_ids.
Qed.

Lemma canceled_sub evs P P' c :
  (forall i, i ∉ ids P -> i ∉ ids P') -> canceled_by evs P c -> canceled_by evs P' c.
Proof. intros H (d & ? & ? & ? & ?). exists d. auto. Qed.

(** An order still works after a command only if it did before, or is its own. *)
Lemma works_cmd_inv evs c d : works (evs ++ [EvCmd c]) d -> works evs d \/ c_cl_ord_id d = c_cl_ord_id c.
Proof. unfold works. rewrite working_snoc. cbn [working_step]. case_decide; [intros [= ->]; by right|by left]. Qed.

Lemma works_exec_inv evs e d :
  works (evs ++ [EvExec e]) d ->
  works evs d /\ (terminal (x_kind e) = true -> x_symbol_id e = c_symbol_id d -> x_cl_ord_id e <> c_cl_ord_id d).
Proof.
  unfold works. rewrite working_snoc. cbn [working_step]. case_decide as H; [done|]. intros Hw. split; [done|].
  intros Ht Hs E. apply H. by rewrite Hw, E.
Qed.

Lemma kept_emit1 evs P Q B c :
  c_cl_ord_id c ∉ ids (commands evs) -> flow_inv (mkFlow evs P Q B) ->
  kept_inv (mkFlow evs P Q B) -> kept_inv (mkFlow (evs ++ [EvCmd c]) (P ++ [c]) Q B).
Proof.
  intros Hfresh Hi [K1 K2 K3]. unfold all_items in *. cbn [fl_events fl_pending fl_reports fl_book] in *.
  change [EvCmd c] with (map EvCmd [c]).
  split; unfold all_items; cbn [fl_events fl_pending fl_reports fl_book]; rewrite ?handled_cmds; cbn [map]; rewrite commands_snoc, ?map_app.
  - intros d [Hd| ->%list_elem_of_singleton]%elem_of_app Ht Hn.
    + destruct (K1 d Hd Ht) as (H1 & H2); [intros H; apply Hn, elem_of_app; by left|]. split; [done|].
      destruct H2 as [|[|]]; [auto|auto|right; right; by apply canceled_cmd].
    + destruct Hn. apply elem_of_app. right. by apply list_elem_of_singleton.
  - intros d x Hd [Hx| ->%list_elem_of_singleton]%elem_of_app Ht Ho; apply elem_of_app; [left; by eapply K2|right; by apply list_elem_of_singleton].
  - intros d Hd Ht Hin Hw.
    assert (Hold : c_cl_ord_id d <> c_cl_ord_id c).
    { intros E. destruct (fi_items _ Hi (mkItem ExFilled (c_cl_ord_id d) (sym_of d))) as (x & Hx & _ & Hid & _).
      - unfold all_items. cbn [fl_events fl_reports]. apply elem_of_app. by left.
      - cbn [it_id fl_events] in *. apply Hfresh. rewrite <- E, <- Hid. by apply elem_ids. }
    apply elem_of_app in Hd as [Hd| ->%list_elem_of_singleton]; [|done].
    destruct (works_cmd_inv _ _ _ Hw); [by eapply K3|done].
Qed.

Lemma kept_emit evs P Q B cmds :
  cmds_ok (evs ++ map EvCmd cmds) -> unique_ids (evs ++ map EvCmd cmds) -> flow_inv (mkFlow evs P Q B) ->
  kept_inv (mkFlow evs P Q B) -> kept_inv (mkFlow (evs ++ map EvCmd cmds) (P ++ cmds) Q B).
Proof.
  revert evs P. induction cmds as [|c cmds IH]; intros evs P Hok Hu Hi Hk; cbn [map].
  { by rewrite !app_nil_r. }
  cbn [map] in Hok, Hu. change (EvCmd c :: map EvCmd cmds) with ([EvCmd c] ++ map EvCmd cmds) in *.
  change (c :: cmds) with ([c] ++ cmds). rewrite !app_assoc in *.
  assert (Hf : c_cl_ord_id c ∉ ids (commands evs)) by (by eapply unique_fresh).
  assert (Hc : cmd_ok evs c) by (apply (Hok evs c (map EvCmd cmds)); by rewrite <- app_assoc).
  apply IH; [done|done|by apply inv_emit1|by apply kept_emit1].
Qed.

Lemma kept_report evs P e Q B :
  (forall c, c ∈ commands evs -> sym_of c = c_symbol_id c) ->
  kept_inv (mkFlow evs P (exec_item e :: Q) B) -> kept_inv (mkFlow (evs ++ [EvExec e]) P Q B).
Proof.
  intros Hsym [K1 K2 K3]. unfold all_items in *. cbn [fl_events fl_pending fl_reports fl_book] in *.
  pose proof (commands_exec evs e) as Hc.
  split; unfold all_items, canceled_by; cbn [fl_events fl_pending fl_reports fl_book]; rewrite ?Hc, ?handled_exec, <- ?app_assoc; try done.
  intros c Hin Ht [Hx|Hx%list_elem_of_singleton]%elem_of_app [Hw Hno]%works_exec_inv; [by eapply K3|].
  unfold exec_item in Hx. injection Hx as Hk Hid Hs. apply Hno; [by rewrite <- Hk|by rewrite <- Hs, Hsym|done].
Qed.

(** A command is taken. *)
Lemma kept_taken evs c P Q B B' new :
  unique_ids evs -> flow_inv (mkFlow evs (c :: P) Q B) -> kept_inv (mkFlow evs (c :: P) Q B) ->
  (c_type c = CmdNew -> mkItem ExNew (c_cl_ord_id c) (sym_of c) ∈ new /\
     (c ∈ B' \/ mkItem ExFilled (c_cl_ord_id c) (sym_of c) ∈ new)) ->
  (forall d, d ∈ B -> d ∈ B' \/ c_type c = CmdCancel /\ c_orig_cl_ord_id c = c_cl_ord_id d) ->
  (forall d x, d ∈ B' -> x ∈ commands evs -> c_type x = CmdCancel -> c_orig_cl_ord_id x = c_cl_ord_id d ->
     x <> c /\ d ∈ B) ->
  kept_inv (mkFlow evs P (Q ++ new) B').
Proof.
  intros Hu Hi [K1 K2 K3] Hnew Hlost Hnone. pose proof (fi_pending _ Hi) as Hp. pose proof (fi_distinct _ Hi) as Hd.
  unfold all_items in *. cbn [fl_events fl_pending fl_reports fl_book map] in *.
  apply list.NoDup_cons in Hd as [Hc _].
  assert (Hcin : c ∈ commands evs) by (apply Hp; by left).
  split; unfold all_items; cbn [fl_events fl_pending fl_reports fl_book]; rewrite ?app_assoc; [| |done].
  - intros d Hdin Ht Hn. destruct (decide (c_cl_ord_id d = c_cl_ord_id c)) as [E|E].
    + apply (unique_eq evs) in E as ->; [|done..]. destruct (Hnew Ht) as [H1 H2].
      split; [apply elem_of_app; by right|]. destruct H2; [by left|right; left; apply elem_of_app; by right].
    + destruct (K1 d Hdin Ht) as [H1 H2]; [by intros [?|?]%elem_of_cons|]. split; [apply elem_of_app; by left|].
      destruct H2 as [H2|[H2|H2]].
      * destruct (Hlost d H2) as [?|[? ?]]; [by left|right; right]. by exists c.
      * right. left. apply elem_of_app. by left.
      * right. right. eapply canceled_sub; [|exact H2]. intros i H H'. apply H. by right.
  - intros d x Hd Hx Ht Ho. destruct (Hnone d x Hd Hx Ht Ho) as [Hne HdB].
    destruct (elem_of_cons (ids P) (c_cl_ord_id x) (c_cl_ord_id c)) as [He _].
    destruct (He (K2 d x HdB Hx Ht Ho)) as [E|]; [|done]. destruct Hne. by apply (unique_eq evs).
Qed.

(** No cancel names an order that has not been taken. *)
Lemma pending_not_canceled evs P Q B c d :
  cmds_ok evs -> unique_ids evs -> flow_inv (mkFlow evs P Q B) -> c ∈ P -> d ∈ commands evs -> c_type d = CmdCancel ->
  c_orig_cl_ord_id d <> c_cl_ord_id c.
Proof.
  intros Hok Hu Hi Hc Hd Ht E. apply elem_commands, list_elem_of_split in Hd as (pre & post & Hs).
  destruct (Hok _ _ _ Hs) as [_ H]. rewrite Ht in H. destruct H as [_ (e & He & Hid & _)].
  destruct (fi_items _ Hi (exec_item e)) as (x & Hx & Hn & Hxid & _).
  - unfold all_items, handled_items. cbn [fl_events fl_reports]. apply elem_of_app. left. apply list_elem_of_omap.
    exists (EvExec e). split; [|done]. rewrite Hs. apply elem_of_app. by left.
  - apply Hn. cbn [fl_pending exec_item it_id] in *. rewrite Hxid, Hid, E. by apply elem_ids.
Qed.

Lemma kept_inv_move f f' :
  cmds_ok (fl_events f') -> unique_ids (fl_events f') -> (forall c, c ∈ commands (fl_events f) -> sym_of c = c_symbol_id c) ->
  flow_move f f' -> (traffic f <= traffic f')%nat -> flow_inv f -> kept_inv f -> kept_inv f'.
Proof.
  intros Hok Hu Hsym Hm Ht Hi Hk. destruct Hm as [evs P Q B cmds|evs P e Q B|evs c P Q B fill Hty|evs c P Q B Hty|evs P P' Q Q' B HP HQ];
    cbn [fl_events] in *.
  - by apply kept_emit.
  - by apply kept_report.
  - apply (kept_taken evs c P Q B); [done..| | |].
    + intros _. split; [left|]. destruct fill; [right; right; by left|left]. apply elem_of_app. right. by left.
    + intros d Hd. left. destruct fill; [done|]. apply elem_of_app. by left.
    + intros d x Hd Hx Hxt Ho. split; [by intros ->; congruence|]. destruct fill; [done|].
      apply elem_of_app in Hd as [?| ->%list_elem_of_singleton]; [done|].
      exfalso. eapply pending_not_canceled; [exact Hok|exact Hu|exact Hi|left|exact Hx|done|done].
  - apply (kept_taken evs c P Q B); [done..|by rewrite Hty| |].
    + intros d Hd. destruct (decide (c_cl_ord_id d = c_orig_cl_ord_id c)) as [E|E]; [by right|left].
      unfold book_without. by apply list_elem_of_filter.
    + intros d x [Hne Hd]%list_elem_of_filter Hx Hxt Ho. split; [by intros ->; congruence|done].
  - unfold traffic, all_items in Ht. cbn [fl_events fl_pending fl_reports] in Ht. rewrite !length_app in Ht.
    pose proof (submseteq_length _ _ HP). pose proof (submseteq_length _ _ HQ).
    apply submseteq_length_Permutation in HP; [|lia]. apply submseteq_length_Permutation in HQ; [|lia].
    assert (HQs : forall x, x ∈ handled_items evs ++ Q' <-> x ∈ handled_items evs ++ Q) by (intros x; by rewrite HQ).
    assert (HPs : forall i, i ∈ ids P' <-> i ∈ ids P) by (intros i; by rewrite (Permutation_map c_cl_ord_id HP)).
    destruct Hk as [K1 K2 K3]. unfold all_items in *. cbn [fl_events fl_pending fl_reports fl_book] in *.
    split; unfold all_items; cbn [fl_events fl_pending fl_reports fl_book]; [| |done].
    + intros c Hc Hct Hn. rewrite !HQs. destruct (K1 c Hc Hct) as [H1 H2]; [by rewrite <- HPs|]. split; [done|].
      destruct H2 as [|[|H2]]; [auto|auto|right; right]. eapply canceled_sub; [|exact H2]. intros i. by rewrite HPs.
    + intros c d Hc Hd Hdt Ho. rewrite HPs. by eapply K2.
Qed.
End Flow.
