(* ===== verification/ClosedLoop.v ===== *)
(** * The engine against the local exchange

    The whole engine (System) and a session of scripts/mock_exchange.py
    (MockExchange) joined by a connection: what the engine hands to its session
    reaches the exchange in order, what the exchange sends reaches the engine in
    order, and either may be lost (a full socket, a disconnection).  QuickFIX
    turns outbound messages into text and text into inbound messages; it is not
    part of the repository, and [FixWire] is what the loop relies on. *)
From S2P Require Import Prelude.
From S2P Require Import Double.
From S2P Require Import Events.
From S2P Require Import SpscRing.
From S2P Require Import Queue.
From S2P Require Import Text.
From S2P Require Import OrderManager.
From S2P Require Import AsyncLogger.
From S2P Require Import Persister.
From S2P Require Import Config.
From S2P Require Import MarketMaker.
From S2P Require Import MarketMakerFacts.
From S2P Require Import StrategySteps.
From S2P Require Import StrategyProps.
From S2P Require Import FixApp.
From S2P Require Import FixProps.
From S2P Require Import Main.
From S2P Require Import System.
From S2P Require Import MockExchange.
From S2P Require Import OrderFlow.
From Stdlib Require Import Ascii.

(** ** QuickFIX on the wire *)

Class FixWire {QF : QuickFix} := {
  to_wire : FixOut -> chars;                  (* the text of an outbound message *)
  from_wire : chars -> option FixMessage;     (* an application message, or none *)
  double_text : double -> chars               (* a price or quantity field *)
}.

(** The value of a tag of a message text. *)
Definition tag (raw : chars) (k : string) : option chars := get (p_dict (parse raw)) (lit k).

(** A message is written with its type and fields, and a report is read with the
    values it has; texts with a separator in them excepted. *)
Class FixWireLaws {QF : QuickFix} {FW : FixWire} : Prop := {
  wire_new : forall id side ty acc sym ex qty px tif,
    no_soh id -> no_soh [side] -> no_soh [ty] -> no_soh acc -> no_soh sym -> no_soh ex -> no_soh [tif] ->
    let raw := to_wire (NewOrderSingle id side ty acc sym ex qty px tif) in
    tag raw "35" = Some (lit "D") /\ tag raw "11" = Some id /\ tag raw "55" = Some sym /\
    tag raw "54" = Some [side] /\ tag raw "38" = Some (double_text qty) /\ tag raw "44" = Some (double_text px);
  wire_cancel : forall id side orig acc sym ex qty,
    no_soh id -> no_soh [side] -> no_soh orig -> no_soh acc -> no_soh sym -> no_soh ex ->
    let raw := to_wire (OrderCancelRequest id side orig acc sym ex qty) in
    tag raw "35" = Some (lit "F") /\ tag raw "11" = Some id /\ tag raw "55" = Some sym /\ tag raw "41" = Some orig;
  wire_subscribe : forall id ty depth upd agg types rel,
    tag (to_wire (MarketDataRequest id ty depth upd agg types rel)) "35" = Some (lit "V");
  wire_report : forall raw m, from_wire raw = Some (ExecutionReport m) ->
    tag raw "35" = Some (lit "8") /\ er_cl_ord_id m = tag raw "11" /\ er_symbol m = tag raw "55" /\
    (forall c, tag raw "150" = Some [c] -> er_exec_type m = Some (Ok c)) /\
    (forall c, tag raw "39" = Some [c] -> er_ord_status m = Some (Ok c))
}.

Section Loop.
Context {QO : QueueOps} {QL : QueueLaws} {QF : QuickFix} {LO : LmdbOps} {FW : FixWire}.
Context (cfg : EngineConfig) (fclock sclock : nat -> Z).
Context (sendToTarget : FixOut -> option SessionID -> Res bool) (log_open : bool) (db : Db).
Context (now_ts : stamp -> chars).

Abbreviation start := (system_init cfg sclock log_open db).
Abbreviation sending := (chars * dict)%type.

(** ** The state *)

(** What the engine has handed to its session. *)
Inductive Request := RqOrder (c : OrderCmd) | RqSubscribe.

Definition request_msg (r : Request) : FixOut :=
  match r with
  | RqOrder c => message_of cfg (sy_fix start) c
  | RqSubscribe => market_data_request cfg (sy_fix start)
  end.

Definition requests_of (l : sys_label) : list Request :=
  match l with
  | SLogon => [RqSubscribe]
  | SSend c true => [RqOrder c]
  | _ => []
  end.

(** An order the exchange works, in the texts of the message that brought it. *)
Record BookOrder := mkBookOrder { bo_id : chars; bo_symbol : chars; bo_side : chars; bo_px : chars; bo_qty : chars }.

(** The engine; the requests on their way; the session of the exchange and what
    its main thread has still to send; the texts on their way back; and the
    orders the exchange works (the simulator keeps no book: the orders are what
    it has read and answered). *)
Record Loop := mkLoop {
  lp_sys : System;
  lp_to : list Request;
  lp_session : Session;
  lp_todo : list sending;
  lp_from : list chars;
  lp_book : list BookOrder
}.

Definition loop_init : Loop := mkLoop start [] session_init [] [] [].

(** The book after a message and its answers: an order acknowledged as new and
    not filled at once is in it, as it was read; one whose cancel is acknowledged is
    not. *)
Definition says (et : string) (m : sending) : bool :=
  bool_decide (fst m = lit "8") && bool_decide (get (snd m) (lit "150") = Some (lit et)).

Definition read_order (m : Parsed) : BookOrder :=
  let g k := get_or (p_dict m) (lit k) [] in mkBookOrder (g "11") (g "55") (g "54") (g "44") (g "38").

Definition book_after (m : Parsed) (replies : list sending) (book : list BookOrder) : list BookOrder :=
  if existsb (says "0") replies then if existsb (says "F") replies then book else book ++ [read_order m]
  else if existsb (says "4") replies then filter (fun o => bo_id o <> get_or (p_dict m) (lit "41") []) book
  else book.

(** Messages of the session layer: everything but orders and cancels. *)
Definition session_level (raw : chars) : Prop :=
  tag raw "35" <> Some (lit "D") /\ tag raw "35" <> Some (lit "F").

(** What of a message gets on the socket. *)
Definition written (sent : bool) (raw : chars) : list chars := if sent then [raw] else [].

(** ** The steps *)

Inductive loop_step : Loop -> option sys_label -> Loop -> Prop :=
| lo_engine s s' l to x todo from book :       (* a thread of the engine, but for the reader *)
    sys_step cfg fclock sclock sendToTarget s l s' -> (forall msg, l <> SMsg msg) ->
    loop_step (mkLoop s to x todo from book) (Some l) (mkLoop s' (to ++ requests_of l) x todo from book)
| lo_deliver s s' to x todo raw from book msg :  (* the reader, on the next text *)
    from_wire raw = Some msg -> sys_step cfg fclock sclock sendToTarget s (SMsg msg) s' ->
    loop_step (mkLoop s to x todo (raw :: from) book) (Some (SMsg msg)) (mkLoop s' to x todo from book)
| lo_handle s r to x x' replies from book :    (* the exchange's loop, on the next request *)
    let m := parse (to_wire (request_msg r)) in
    handle now_ts m x = (replies, x') ->
    loop_step (mkLoop s (r :: to) x [] from book) None (mkLoop s to x' replies from (book_after m replies book))
| lo_session s to x x' raw replies from book : (* the same, on a message of the session layer *)
    session_level raw -> handle now_ts (parse raw) x = (replies, x') ->
    loop_step (mkLoop s to x [] from book) None (mkLoop s to x' replies from (book_after (parse raw) replies book))
| lo_reply s to x x' sent m todo raw from book :   (* [send_msg] of the main thread *)
    send_msg now_ts sent m x = (raw, x') ->
    loop_step (mkLoop s to x (m :: todo) from book) None (mkLoop s to x' todo (from ++ written sent raw) book)
| lo_stream s to x x' req syms sent m wide todo raw from book :  (* [send_msg] of [md_stream] *)
    md_thread x = Some (req, syms) -> m ∈ md_round req syms wide -> send_msg now_ts sent m x = (raw, x') ->
    loop_step (mkLoop s to x todo from book) None (mkLoop s to x' todo (from ++ written sent raw) book)
| lo_lose s to to' x todo from from' book :    (* messages lost *)
    to' `sublist_of` to -> from' `sublist_of` from ->
    loop_step (mkLoop s to x todo from book) None (mkLoop s to' x todo from' book)
| lo_reconnect s to x todo from book :         (* a new connection, a new session *)
    loop_step (mkLoop s to x todo from book) None (mkLoop s [] session_init [] [] book).

Definition loop_run := run loop_step.

(** The engine's part of a trace. *)
Definition engine_trace (tr : list (option sys_label)) : list sys_label := omap (fun l => l) tr.

(** ** The flow of orders in it *)

Definition report_kind (t o : ascii) : ExecKind :=
  if decide (exec_kind_of t = ExFilled /\ o = OrdStatus_PARTIALLY_FILLED) then ExPartFill else exec_kind_of t.

(** The instrument a command is for, as the engine reads it back. *)
Definition symbol_text (c : OrderCmd) : chars := default [] (zget (symbols_ (sy_fix start)) (c_symbol_id c)).
Definition wire_symbol (c : OrderCmd) : Z := symbol_id (sy_fix start) (symbol_text c).

(** What a report says, from its tags. *)
Definition item_at (g : string -> option chars) : option Item :=
  match g "150", g "39", g "11", g "55" with
  | Some [t], Some [o], Some id, Some sym =>
      Some (mkItem (report_kind t o) (strtoull (c_str id)) (symbol_id (sy_fix start) sym))
  | _, _, _, _ => None
  end.

Definition sending_items (m : sending) : list Item :=
  if decide (fst m = lit "8") then option_list (item_at (fun k => get (snd m) (lit k))) else [].
Definition raw_items (raw : chars) : list Item :=
  if decide (tag raw "35" = Some (lit "8")) then option_list (item_at (tag raw)) else [].

Definition orders_of (l : list Request) : list OrderCmd :=
  omap (fun r => match r with RqOrder c => Some c | RqSubscribe => None end) l.

(** The reports the strategy has not handled yet: queued, in a text on its way,
    or still to be sent. *)
Definition in_transit (p : Loop) : list Item :=
  map exec_item (q_contents (exec_ (sy_engine (lp_sys p)))) ++
  flat_map raw_items (lp_from p) ++ flat_map sending_items (lp_todo p).

(** The texts the exchange reads of a New command. *)
Definition order_entry (c : OrderCmd) : BookOrder :=
  mkBookOrder (id_text (c_cl_ord_id c)) (symbol_text c) [side_char (c_side c)]
    (double_text (c_price c)) (double_text (c_qty c)).

(** The flow, with the commands [B] of the orders in the book. *)
Definition flow_of (evs : list event) (B : list OrderCmd) (p : Loop) : Flow :=
  mkFlow evs (orders_of (lp_to p) ++ out_cmds (sy_engine (lp_sys p))) (in_transit p) B.

(** A report of the exchange is well-formed. *)
Definition sending_ok (m : sending) : Prop :=
  no_soh (fst m) /\
  (fst m = lit "8" -> clean_fields (snd m) /\ exists x, item_at (fun k => get (snd m) (lit k)) = Some x).
Definition raw_ok (raw : chars) : Prop := tag raw "35" = Some (lit "8") -> exists x, item_at (tag raw) = Some x.
Definition session_ok (x : Session) : Prop := 0 <= seq_no x /\ 0 <= order_no x /\ no_soh (user x).
End Loop.

(** The texts of the configuration that go into messages have no separator. *)
Class CleanConfig (cfg : EngineConfig) : Prop := {
  clean_account : no_soh (account cfg);
  clean_symbols : Forall no_soh (symbols cfg)
}.

Class CleanClock (now_ts : stamp -> chars) : Prop := clean_now : forall n, no_soh (now_ts n).

(** ** Facts: tags *)

Lemma get_none l k : Forall (fun f => fst f <> k) l -> get l k = None.
Proof. induction 1 as [|[k' v] l Hk Hl IH]; [done|]. cbn [get]. by rewrite decide_False. Qed.

(** The tags [build] writes itself. *)
Definition framing_tags : list chars :=
  [lit "8"; lit "9"; lit "35"; lit "34"; lit "49"; lit "52"; lit "56"; lit "10"].

Lemma tag_type mt seq sender target now fields :
  no_soh mt -> tag (build mt seq sender target now fields) "35" = Some mt.
Proof.
  intros Hm. unfold tag. rewrite parse_get, build_text. unfold wire_fields, body_fields. cbn [app].
  unfold fields_text. cbn [map concat]. rewrite !pieces_field by (apply clean_lit; auto with wire lia). reflexivity.
Qed.

Lemma tag_field mt seq sender target now fields k :
  0 <= seq -> no_soh mt -> no_soh sender -> no_soh target -> no_soh now -> clean_fields fields ->
  lit k ∉ framing_tags -> tag (build mt seq sender target now fields) k = get fields (lit k).
Proof.
  intros Hs Hm Hsd Ht Hn Hf Hk. unfold tag.
  destruct (parse_build mt seq sender target now fields Hs Hm Hsd Ht Hn Hf) as [-> _].
  assert (Hne : forall t, t ∈ framing_tags -> t <> lit k) by (by intros t Hin ->).
  unfold wire_fields, body_fields. rewrite !get_app.
  rewrite (get_none [_; _]), (get_none [_; _; _; _; _]), (get_none [_]);
    [by destruct (get fields (lit k))|..].
  all: repeat apply Forall_cons_2; try apply Forall_nil; cbn [fst]; apply Hne; unfold framing_tags; rewrite !elem_of_cons; tauto.
Qed.

(** Values cut out of a text have no separator. *)
Lemma split_on_no_sep sep s : Forall (Forall (fun c => c <> sep)) (split_on sep s).
Proof.
  induction s as [|c s IH]; cbn [split_on]; [repeat constructor|].
  destruct (decide (c = sep)) as [->|Hc]; [by constructor|].
  destruct (split_on sep s) as [|x l]; [by repeat constructor|]. apply Forall_cons_iff in IH as [Hx Hl].
  constructor; [by constructor|done].
Qed.

Lemma split_eq_clean s k v : no_soh s -> split_eq s = Some (k, v) -> no_soh v.
Proof.
  intros H. revert k. induction H as [|c s Hc Hs IH]; intros k; cbn [split_eq]; [done|].
  case_decide; [by intros [= _ <-]|]. destruct (split_eq s) as [[k' v']|]; [|done]. intros [= _ <-]. by eapply IH.
Qed.

Lemma pieces_clean raw k v : (k, v) ∈ pieces raw -> no_soh v.
Proof.
  unfold pieces. rewrite list_elem_of_omap. intros (s & Hs & E). eapply split_eq_clean; [|exact E].
  pose proof (split_on_no_sep SOH raw) as H. rewrite List.Forall_forall in H. by apply H, list_elem_of_In.
Qed.

Lemma get_elem l k v : get l k = Some v -> (k, v) ∈ l.
Proof.
  induction l as [|[k' v'] l IH]; [done|]. cbn [get]. case_decide as E; [|intros; right; auto].
  intros [= ->]. subst. left.
Qed.

Lemma parsed_clean raw k v : get (p_dict (parse raw)) k = Some v -> no_soh v.
Proof. rewrite parse_get. intros H%get_elem. by eapply pieces_clean. Qed.

Lemma parsed_or_clean raw k d : no_soh d -> no_soh (get_or (p_dict (parse raw)) k d).
Proof. intros Hd. unfold get_or. destruct (get _ k) eqn:E; [by eapply parsed_clean|done]. Qed.

Lemma parsed_symbols_clean raw : Forall no_soh (p_symbols (parse raw)).
Proof.
  apply List.Forall_forall. intros v Hv%list_elem_of_In. unfold parse in Hv. cbn [p_symbols] in Hv.
  apply list_elem_of_omap in Hv as ([k w] & Hin & E). case_decide; [|done]. injection E as <-. by eapply pieces_clean.
Qed.

Lemma no_soh_app a b : no_soh a -> no_soh b -> no_soh (a ++ b).
Proof. intros. by apply Forall_app. Qed.
#[export] Hint Resolve no_soh_app : wire.

(** ** Facts: the exchange *)
Section ExchangeFacts.
Context {QO : QueueOps} {QL : QueueLaws} {QF : QuickFix} {LO : LmdbOps}.
Context (cfg : EngineConfig) (sclock : nat -> Z) (log_open : bool) (db : Db).
Context (now_ts : stamp -> chars) {HN : CleanClock now_ts}.
Abbreviation f0 := (sy_fix (system_init cfg sclock log_open db)).
Abbreviation item_at := (item_at cfg sclock log_open db).
Abbreviation sending_items := (sending_items cfg sclock log_open db).
Abbreviation raw_items := (raw_items cfg sclock log_open db).
Abbreviation sending_ok := (sending_ok cfg sclock log_open db).
Abbreviation raw_ok := (raw_ok cfg sclock log_open db).
Abbreviation sending := (chars * dict)%type.

Ltac get_lit := cbn [get]; repeat first [rewrite decide_True by reflexivity | rewrite decide_False by discriminate].

Lemma report_fields raw et os leaves cum last x :
  0 <= order_no x -> no_soh et -> no_soh os -> no_soh leaves -> no_soh cum ->
  match last with Some (px, qty) => no_soh px /\ no_soh qty | None => True end ->
  let m := parse raw in
  let '(r, x') := exec_report now_ts m et os leaves cum last x in
  fst r = lit "8" /\ clean_fields (snd r) /\ seq_no x' = seq_no x /\ order_no x' = order_no x + 1 /\ user x' = user x /\
  get (snd r) (lit "150") = Some et /\ get (snd r) (lit "39") = Some os /\
  get (snd r) (lit "11") = Some (get_or (p_dict m) (lit "11") []) /\
  get (snd r) (lit "55") = Some (get_or (p_dict m) (lit "55") (match p_symbols m with [] => [] | s :: _ => s end)).
Proof.
  intros Hx He Ho Hl Hc Hlast. cbv zeta. unfold exec_report. cbn [fst snd seq_no order_no user].
  split; [done|]. split; [|do 3 (split; [done|]); rewrite !get_app; split; [|split; [|split]]; by get_lit].
  assert (Hs : no_soh (match p_symbols (parse raw) with [] => [] | s :: _ => s end)).
  { pose proof (parsed_symbols_clean raw) as H. destruct (p_symbols (parse raw)); [constructor|]. by apply Forall_cons_iff in H as [? _]. }
  assert (Hn : no_soh (zero_pad 6 (py_str (order_no x + 1)))) by (apply zero_pad_clean, py_str_clean; lia).
  assert (Ht : no_soh (now_ts (TransactTime (order_no x + 1)))) by apply HN.
  unfold clean_fields. rewrite !Forall_app. split; [split|].
  - repeat apply Forall_cons_2; try apply Forall_nil; apply clean_lit; auto with wire.
    all: apply parsed_or_clean; auto with wire.
  - destruct (get _ (lit "44")) as [[|c px]|] eqn:E; try constructor; [|constructor].
    apply clean_lit; [reflexivity|]. by eapply parsed_clean.
  - destruct last as [[px qty]|]; [|constructor]. destruct Hlast.
    repeat apply Forall_cons_2; try apply Forall_nil; apply clean_lit; try done; reflexivity.
Qed.

(** A report of the exchange, as an item. *)
Lemma report_item raw et os leaves cum last x id sym t o :
  session_ok x -> no_soh et -> no_soh os -> no_soh leaves -> no_soh cum ->
  match last with Some (px, qty) => no_soh px /\ no_soh qty | None => True end ->
  tag raw "11" = Some id -> tag raw "55" = Some sym -> et = [t] -> os = [o] ->
  exists r x', exec_report now_ts (parse raw) et os leaves cum last x = (r, x') /\
    sending_items r = [mkItem (report_kind t o) (strtoull (c_str id)) (symbol_id f0 sym)] /\ sending_ok r /\ session_ok x' /\
    order_no x' = order_no x + 1 /\ forall s, says s r = bool_decide (et = lit s).
Proof.
  intros (Hs & Hx & Hu) He Ho Hl Hc Hlast Hid Hsy Et Eo.
  pose proof (report_fields raw et os leaves cum last x Hx He Ho Hl Hc Hlast) as H. cbv zeta in H.
  destruct (exec_report _ _ _ _ _ _ _ _) as [r x'] eqn:E. destruct H as (H1 & H2 & H3 & H4 & H5 & H6 & H7 & H8 & H9).
  assert (Hi : item_at (fun k => get (snd r) (lit k)) =
    Some (mkItem (report_kind t o) (strtoull (c_str id)) (symbol_id f0 sym))).
  { unfold ClosedLoop.item_at. rewrite H6, H7, H8, H9, Et, Eo. unfold get_or. unfold tag in *. by rewrite Hid, Hsy. }
  exists r, x'. split; [done|]. split; [unfold ClosedLoop.sending_items; by rewrite decide_True, Hi|].
  split; [|split; [|split; [done|]]].
  - split; [rewrite H1; by apply no_sohb_ok|]. intros _. eauto.
  - split; [lia|]. split; [lia|]. by rewrite H5.
  - intros s. unfold says. rewrite H1, H6, (bool_decide_eq_true_2 (lit "8" = lit "8")) by done. cbn [andb].
    apply bool_decide_ext. split; congruence.
Qed.

Lemma handle_new raw id sym x :
  session_ok x -> tag raw "35" = Some (lit "D") -> tag raw "11" = Some id -> tag raw "55" = Some sym ->
  exists fill replies x', handle now_ts (parse raw) x = (replies, x') /\
    flat_map sending_items replies =
      mkItem ExNew (strtoull (c_str id)) (symbol_id f0 sym) ::
      (if (fill : bool) then [mkItem ExFilled (strtoull (c_str id)) (symbol_id f0 sym)] else []) /\
    (forall book, book_after (parse raw) replies book = if fill then book else book ++ [read_order (parse raw)]) /\
    Forall sending_ok replies /\ session_ok x'.
Proof.
  intros Hx Ht Hid Hsy. unfold handle. unfold tag in Ht. rewrite Ht.
  rewrite !decide_False, decide_True by (discriminate || done). unfold on_new_order.
  set (qty := get_or _ (lit "38") (lit "1")).
  assert (Hq : no_soh qty) by (apply parsed_or_clean; auto with wire).
  destruct (report_item raw (lit "0") (lit "0") qty (lit "0") None x id sym (chr 48) (chr 48))
    as (r & x1 & -> & Hi & Hok & Hx1 & Hn & Hf); try done; auto with wire.
  destruct (order_no x1 mod 5 =? 0).
  - destruct (report_item raw (lit "F") (lit "2") (lit "0") qty (Some (get_or (p_dict (parse raw)) (lit "44") (lit "0"), qty))
      x1 id sym (chr 70) (chr 50)) as (r2 & x2 & -> & Hi2 & Hok2 & Hx2 & _ & Hf2); try done; auto with wire.
    { split; [apply parsed_or_clean; auto with wire|done]. }
    exists true, [r; r2], x2. split; [done|]. split; [|split; [|split; [repeat (apply Forall_cons_2; [done|]); constructor|done]]].
    + cbn [flat_map]. by rewrite Hi, Hi2.
    + intros book. unfold book_after. cbn [existsb]. by rewrite !Hf, !Hf2.
  - exists false, [r], x1. split; [done|]. split; [|split; [|split; [repeat (apply Forall_cons_2; [done|]); constructor|done]]].
    + cbn [flat_map]. by rewrite Hi.
    + intros book. unfold book_after. cbn [existsb]. by rewrite !Hf.
Qed.

Lemma handle_cancel raw id sym x :
  session_ok x -> tag raw "35" = Some (lit "F") -> tag raw "11" = Some id -> tag raw "55" = Some sym ->
  exists replies x', handle now_ts (parse raw) x = (replies, x') /\
    flat_map sending_items replies = [mkItem ExCanceled (strtoull (c_str id)) (symbol_id f0 sym)] /\
    (forall book, book_after (parse raw) replies book =
       filter (fun o => bo_id o <> get_or (p_dict (parse raw)) (lit "41") []) book) /\
    Forall sending_ok replies /\ session_ok x'.
Proof.
  intros Hx Ht Hid Hsy. unfold handle. unfold tag in Ht. rewrite Ht.
  rewrite !decide_False, decide_True by (discriminate || done). unfold on_cancel_request.
  destruct (report_item raw (lit "4") (lit "4") (lit "0") (lit "0") None x id sym (chr 52) (chr 52))
    as (r & x1 & -> & Hi & Hok & Hx1 & _ & Hf); try done; auto with wire.
  exists [r], x1. split; [done|]. split; [cbn [flat_map]; by rewrite Hi|].
  split; [intros book; unfold book_after; cbn [existsb]; by rewrite !Hf|]. split; [by apply Forall_cons_2; [|constructor]|done].
Qed.

Lemma no_items m : no_soh (fst m) -> fst m <> lit "8" -> sending_ok m /\ sending_items m = [].
Proof. intros H Hn. split; [split; [done|by intros ?]|]. unfold ClosedLoop.sending_items. by rewrite decide_False. Qed.

Lemma handle_other raw x :
  session_ok x -> session_level raw ->
  exists replies x', handle now_ts (parse raw) x = (replies, x') /\
    flat_map sending_items replies = [] /\ Forall sending_ok replies /\ session_ok x'.
Proof.
  intros Hx [HD HF]. unfold tag in *. unfold handle.
  assert (H1 : forall m, no_soh (fst m) -> fst m <> lit "8" -> forall x', session_ok x' -> exists replies x1,
    ([m], x') = (replies, x1) /\ flat_map sending_items replies = [] /\ Forall sending_ok replies /\ session_ok x1).
  { intros m Hm Hn x' Hx'. destruct (no_items m Hm Hn) as [Hok Hi]. exists [m], x'. cbn [flat_map]. rewrite Hi.
    split; [done|]. split; [done|]. split; [by apply Forall_cons_2; [|constructor]|done]. }
  assert (H0 : forall x', session_ok x' -> exists replies x1,
    (([] : list sending), x') = (replies, x1) /\ flat_map sending_items replies = [] /\ Forall sending_ok replies /\ session_ok x1).
  { intros x' Hx'. exists [], x'. split; [done|]. split; [done|]. by split; [constructor|]. }
  repeat case_decide; try done.
  - apply H1; [apply no_sohb_ok; reflexivity|done|]. destruct Hx as (? & ? & ?).
    split; [done|]. split; [done|]. cbn [user set_user]. apply parsed_or_clean. auto with wire.
  - by apply H0.
  - apply H1; [apply no_sohb_ok; reflexivity|done|done].
  - apply H1; [apply no_sohb_ok; reflexivity|done|done].
  - unfold on_md_request. destruct (md_thread x); apply H0; done.
  - by apply H0.
Qed.

(** Without reports among the answers the book stays. *)
Lemma silent_replies rs m book :
  Forall sending_ok rs -> flat_map sending_items rs = [] -> book_after m rs book = book.
Proof.
  intros Hok Hit. assert (Hno : forall et, existsb (says et) rs = false); [|unfold book_after; by rewrite !Hno].
  intros et. induction Hok as [|r rs [_ H8] Hok IH]; [done|]. cbn [flat_map existsb] in *.
  apply app_eq_nil in Hit as [Hr Hrs]. rewrite IH, orb_false_r by done. unfold says.
  unfold ClosedLoop.sending_items in Hr. destruct (decide (fst r = lit "8")) as [E|E]; [|by rewrite bool_decide_false].
  destruct (H8 E) as [_ [i Hi]]. by rewrite Hi in Hr.
Qed.

(** What is sent says what was to be sent. *)
Lemma send_msg_items sent m x raw x' :
  sending_ok m -> session_ok x -> send_msg now_ts sent m x = (raw, x') ->
  raw_items raw = sending_items m /\ raw_ok raw /\ session_ok x'.
Proof.
  intros [Hm H8] (Hs & Ho & Hu) E. unfold send_msg in E. apply pair_equal_spec in E as [<- <-]. unfold ClosedLoop.raw_items, ClosedLoop.raw_ok, ClosedLoop.sending_items. cbn [seq_no user].
  rewrite (tag_type _ _ _ _ _ _ Hm).
  destruct (decide (fst m = lit "8")) as [E|E].
  - rewrite decide_True by congruence. destruct (H8 E) as [Hc Hi].
    assert (Ht : forall k, lit k ∉ framing_tags ->
      tag (build (fst m) (seq_no x + 1) (lit "ROFX") (user x) (now_ts (SendingTime (seq_no x + 1))) (snd m)) k = get (snd m) (lit k)).
    { intros k Hk. apply tag_field; auto with wire; first [lia|apply HN]. }
    assert (Hf : item_at (tag (build (fst m) (seq_no x + 1) (lit "ROFX") (user x) (now_ts (SendingTime (seq_no x + 1))) (snd m)))
      = item_at (fun k => get (snd m) (lit k))).
    { unfold ClosedLoop.item_at. rewrite !Ht by (unfold framing_tags; rewrite !elem_of_cons, elem_of_nil; intros Hd; decompose [or] Hd; done). done. }
    rewrite Hf. split; [done|]. split; [done|]. repeat split; cbn; [lia|done|done].
  - rewrite decide_False by congruence. split; [done|]. split; [congruence|]. repeat split; cbn; [lia|done|done].
Qed.
End ExchangeFacts.

(** ** Every step is a move of the flow of orders *)
Section Simulation.
Context {QO : QueueOps} {QL : QueueLaws} {QF : QuickFix} {QFL : QuickFixLaws} {LO : LmdbOps}.
Context {FW : FixWire} {FWL : FixWireLaws}.
Context (cfg : EngineConfig) (fclock sclock : nat -> Z).
Context {HF : ClockOk fclock} {HK : ClockOk sclock} {HI : IntervalOk cfg} {HC : CleanConfig cfg}.
Context (sendToTarget : FixOut -> option SessionID -> Res bool) (log_open : bool) (db : Db).
Context (now_ts : stamp -> chars) {HN : CleanClock now_ts}.

Abbreviation start := (system_init cfg sclock log_open db).
Abbreviation step := (loop_step cfg fclock sclock sendToTarget log_open db now_ts).
Abbreviation f0 := (sy_fix start).
Abbreviation raw_items := (raw_items cfg sclock log_open db).
Abbreviation sending_ok := (sending_ok cfg sclock log_open db).
Abbreviation raw_ok := (raw_ok cfg sclock log_open db).
Abbreviation flow_of := (flow_of cfg sclock log_open db).
Abbreviation order_entry := (order_entry cfg sclock log_open db).
Abbreviation flow_move := (flow_move (wire_symbol cfg sclock log_open db)).

Lemma id_text_clean id : in_u64 id -> no_soh (id_text id).
Proof.
  intros Hid. rewrite (proj1 (id_text_fits id Hid)). apply digits_no_soh, to_digits_digit. apply Hid.
Qed.

Lemma symbol_clean i : no_soh (default [] (zget (symbols_ (sy_fix start)) i)).
Proof.
  destruct (zget _ i) as [s|] eqn:E; [|constructor]. cbn [default]. unfold default, id.
  unfold zget in E. case_match; [|done]. cbn [sy_fix system_init fix_init symbols_] in E. unfold symbols_array in E.
  apply lookup_take_Some in E as [E _]. apply list_elem_of_lookup_2 in E.
  destruct (clean_symbols : Forall _ (symbols cfg)) as [|x l Hx Hl]; cbn [app] in E.
  - apply elem_of_replicate in E as [-> _]. constructor.
  - apply elem_of_cons in E as [->|E]; [done|]. apply elem_of_app in E as [E|E].
    + rewrite List.Forall_forall in Hl. by apply Hl, list_elem_of_In.
    + apply elem_of_replicate in E as [-> _]. constructor.
Qed.

Lemma rofx_clean : no_soh rofx.
Proof. apply no_sohb_ok. reflexivity. Qed.

Lemma side_clean s : no_soh [side_char s].
Proof. by destruct s; apply no_sohb_ok. Qed.

Lemma read_order_tags raw id sym side px qty :
  tag raw "11" = Some id -> tag raw "55" = Some sym -> tag raw "54" = Some side ->
  tag raw "44" = Some px -> tag raw "38" = Some qty -> read_order (parse raw) = mkBookOrder id sym side px qty.
Proof. unfold tag, read_order, get_or. by intros -> -> -> -> ->. Qed.

(** The text of an order, as the exchange reads it. *)
Lemma request_tags c :
  in_u64 (c_cl_ord_id c) -> (c_type c = CmdCancel -> in_u64 (c_orig_cl_ord_id c)) ->
  let raw := to_wire (request_msg cfg sclock log_open db (RqOrder c)) in
  tag raw "35" = Some (match c_type c with CmdNew => lit "D" | CmdCancel => lit "F" end) /\
  tag raw "11" = Some (id_text (c_cl_ord_id c)) /\ tag raw "55" = Some (symbol_text cfg sclock log_open db c) /\
  match c_type c with
  | CmdNew => read_order (parse raw) = order_entry c
  | CmdCancel => tag raw "41" = Some (id_text (c_orig_cl_ord_id c))
  end.
Proof.
  intros H1 H2. cbn [request_msg]. unfold message_of, order_message. destruct (c_type c).
  - destruct (wire_new (id_text (c_cl_ord_id c)) (side_char (c_side c)) OrdType_LIMIT (account cfg)
      (symbol_text cfg sclock log_open db c) rofx (c_qty c) (c_price c) TimeInForce_DAY)
      as (T1 & T2 & T3 & T4 & T5 & T6);
      [by apply id_text_clean|apply side_clean|by apply no_sohb_ok|apply clean_account|apply symbol_clean|apply rofx_clean|by apply no_sohb_ok|].
    do 3 (split; [done|]). by apply read_order_tags.
  - destruct (wire_cancel (id_text (c_cl_ord_id c)) (side_char (c_side c)) (id_text (c_orig_cl_ord_id c)) (account cfg)
      (symbol_text cfg sclock log_open db c) rofx (c_qty c)) as (T1 & T2 & T3 & T4);
      [by apply id_text_clean|apply side_clean|by apply id_text_clean, H2|apply clean_account|apply symbol_clean|apply rofx_clean|done].
Qed.

(** A report that is read says what the text says. *)
Lemma delivered_item raw m t e :
  from_wire raw = Some (ExecutionReport m) -> raw_ok raw -> exec_parse f0 m t = Ok e -> raw_items raw = [exec_item e].
Proof.
  intros Hw Hok Hp. destruct (wire_report raw m Hw) as (H8 & Hid & Hsy & Het & Hos). destruct (Hok H8) as [x Hx].
  unfold ClosedLoop.raw_items. rewrite decide_True, Hx by done. cbn. f_equal.
  apply exec_parse_id in Hp as (Ei & Ek & Es). unfold item_at in Hx. rewrite Hid in Ei. rewrite Hsy in Es.
  destruct (tag raw "150") as [[|c [|]]|]; try done. destruct (tag raw "39") as [[|o [|]]|]; try done.
  destruct (tag raw "11") as [id|]; [|done]. destruct (tag raw "55") as [sym|]; [|done].
  injection Hx as <-. unfold exec_item. rewrite Ei, Es. f_equal.
  unfold exec_kind in Ek. rewrite (Het c eq_refl), (Hos o eq_refl) in Ek. cbn [res_bind] in Ek. unfold report_kind.
  destruct (decide (exec_kind_of c = ExFilled)) as [E|E].
  - injection Ek as <-. rewrite E. destruct (decide (o = _)); [by rewrite decide_True|by rewrite decide_False by (by intros [_ ?])].
  - injection Ek as <-. rewrite decide_False; [done|]. by intros [? _].
Qed.

(** The wire part of the state is well-formed. *)
Record wire_ok (p : Loop) : Prop := {
  wo_session : session_ok (lp_session p);
  wo_todo : Forall sending_ok (lp_todo p);
  wo_from : Forall raw_ok (lp_from p)
}.

(** The ids of the requests on their way are in range. *)
Definition requests_ok (p : Loop) : Prop :=
  forall c, c ∈ orders_of (lp_to p) -> in_u64 (c_cl_ord_id c) /\ (c_type c = CmdCancel -> in_u64 (c_orig_cl_ord_id c)).

(** A thread of the engine moves. *)
Lemma engine_moves tr s l s' to x todo from book B :
  sys_inv cfg sclock log_open db tr s -> sys_step cfg fclock sclock sendToTarget s l s' -> (forall msg, l <> SMsg msg) ->
  flow_move (flow_of (emitted tr) B (mkLoop s to x todo from book))
    (flow_of (emitted (tr ++ [l])) B (mkLoop s' (to ++ requests_of l) x todo from book)).
Proof.
  intros Hi Hst Hm. unfold ClosedLoop.flow_of, in_transit. cbn [lp_sys lp_to lp_from lp_todo lp_book]. rewrite emitted_snoc.
  destruct l as [msg| | | |l|c b| |]; try (by destruct (Hm msg)).
  4: { inversion Hst as [| | | |? ? p e Hl Hs| | |]; subst. cbn [sy_engine strat_label requests_of]. rewrite app_nil_r.
    destruct (strat_step_effect _ _ _ _ _ _ _ (si_engine _ _ _ _ _ _ Hi) Hl Hs) as [_ Hx _ Ho _]. rewrite Hx, Ho.
    destruct l as [|ex|ev cmds|]; cbn [events_of handled app map] in *; [| | |done].
    - change (commands []) with (@nil OrderCmd). rewrite !app_nil_r. by apply fm_lose.
    - change (commands [EvExec ex]) with (@nil OrderCmd). rewrite app_nil_r. apply fm_report.
    - rewrite commands_cmds, (app_assoc (orders_of to)). apply fm_emit. }
  all: destruct (step_other_effect cfg fclock sclock sendToTarget log_open db tr s _ s' Hi Hst eq_refl) as [_ _ _ _ _ (l & Hl & Hno) Ho _].
  all: assert (l = []) as -> by (destruct l as [|e l]; [done|]; destruct (Hno e) as (? & ? & ? & _); [left|done]).
  all: rewrite Hl, Ho; cbn [strat_label events_of popped omap list_omap requests_of app]; rewrite !app_nil_r.
  all: unfold orders_of; rewrite ?omap_app; cbn [omap list_omap]; rewrite ?app_nil_r; try by apply fm_lose.
  apply fm_lose; [|done]. destruct b; cbn [omap list_omap app].
  - by rewrite <- app_assoc.
  - rewrite app_nil_r. apply submseteq_skips_l. by apply submseteq_cons.
Qed.

(** The reader takes the next text. *)
Lemma deliver_moves tr s s' to x todo raw from book B msg :
  sys_inv cfg sclock log_open db tr s -> from_wire raw = Some msg -> raw_ok raw ->
  sys_step cfg fclock sclock sendToTarget s (SMsg msg) s' ->
  flow_move (flow_of (emitted tr) B (mkLoop s to x todo (raw :: from) book))
    (flow_of (emitted (tr ++ [SMsg msg])) B (mkLoop s' to x todo from book)).
Proof.
  intros Hi Hw Hok Hst. inversion Hst as [? ? f Hf| | | | | | |]; subst. pose proof Hi as []. pose proof si_engine as [].
  destruct (fromApp_effect fclock msg (fix_view s)) as (f' & Hf' & []); [|done..|].
  { apply (same_shape (sy_fix start)); [|apply f0_shape]. eapply same_trans; [exact si_same|apply view_same]. }
  rewrite Hf in Hf'. injection Hf' as <-. destruct fe_exec as (l & Hl & Hlen & He).
  unfold ClosedLoop.flow_of, in_transit, out_cmds. cbn [lp_sys lp_to lp_from lp_todo lp_book put_fix sy_engine exec_ out_ set_metrics set_exec set_md].
  rewrite emitted_snoc, Hl. cbn [strat_label events_of]. rewrite app_nil_r. apply fm_lose; [done|].
  rewrite map_app. cbn [flat_map]. rewrite <- !app_assoc. apply submseteq_skips_l, submseteq_skips_r.
  destruct l as [|e [|]]; cbn [length] in Hlen; [apply submseteq_nil_l| |lia].
  destruct (He e) as (m & t & -> & Hp); [left|].
  rewrite (exec_parse_same f0) in Hp by (eapply same_trans; [exact si_same|apply view_same]).
  by rewrite (delivered_item raw m _ e Hw Hok Hp).
Qed.

(** What is written of a message, as items. *)
Lemma written_ok sent raw l :
  raw_ok raw -> Forall raw_ok l -> Forall raw_ok (l ++ written sent raw).
Proof. intros Hr Hl. apply Forall_app. split; [done|]. by destruct sent; [apply Forall_cons_2; [|constructor]|constructor]. Qed.

Lemma written_items sent raw : flat_map raw_items (written sent raw) ⊆+ raw_items raw.
Proof. destruct sent; cbn; [by rewrite app_nil_r|apply submseteq_nil_l]. Qed.

(** The texts of ids are told apart. *)
Lemma id_text_inj a b : in_u64 a -> in_u64 b -> id_text a = id_text b -> a = b.
Proof. intros Ha Hb E. by rewrite <- (id_text_reads a Ha), E, id_text_reads. Qed.

Lemma entries_without id B :
  in_u64 id -> (forall c, c ∈ B -> in_u64 (c_cl_ord_id c)) ->
  filter (fun o => bo_id o <> id_text id) (map order_entry B) = map order_entry (book_without id B).
Proof.
  intros Hid. unfold book_without. induction B as [|c B IH]; intros HB; [done|]. cbn [map].
  rewrite !filter_cons, IH by (intros d Hd; apply HB; by right). cbn [order_entry bo_id].
  destruct (decide (c_cl_ord_id c = id)) as [E|E].
  - by rewrite !decide_False by (rewrite E; tauto).
  - rewrite !decide_True; [done|done|]. intros E'. apply E, id_text_inj; [apply HB; left|done|done].
Qed.

(** The exchange takes the next request: its book holds the texts of the commands
    whose flow has them working. *)
Lemma handle_moves evs s r to x x' replies from B :
  let m := parse (to_wire (request_msg cfg sclock log_open db r)) in
  let p := mkLoop s (r :: to) x [] from (map order_entry B) in
  session_ok x -> requests_ok p -> (forall c, c ∈ B -> in_u64 (c_cl_ord_id c)) ->
  handle now_ts m x = (replies, x') ->
  exists B', book_after m replies (map order_entry B) = map order_entry B' /\
    flow_move (flow_of evs B p) (flow_of evs B' (mkLoop s to x' replies from (map order_entry B'))) /\
    session_ok x' /\ Forall sending_ok replies.
Proof.
  cbv zeta. intros Hx Hr HB Hh. unfold ClosedLoop.flow_of, in_transit. cbn [lp_sys lp_to lp_from lp_todo lp_book flat_map].
  destruct r as [c|]; cbn [orders_of omap list_omap].
  - destruct (Hr c) as [H1 H2]; [left|]. destruct (request_tags c H1 H2) as (Ht & Hid & Hsy & Hbk).
    cbn [orders_of omap list_omap app]. destruct (c_type c) eqn:Ec.
    + destruct (handle_new cfg sclock log_open db now_ts _ _ _ x Hx Ht Hid Hsy) as (fill & rs & y & Hh' & Hit & Hf & Hok & Hy).
      rewrite Hh in Hh'. injection Hh' as -> ->. exists (if fill then B else B ++ [c]).
      split; [rewrite Hf, Hbk; destruct fill; [done|by rewrite map_app]|]. split; [|done].
      rewrite Hit, id_text_reads, app_nil_r, app_assoc by done. by apply fm_new.
    + destruct (handle_cancel cfg sclock log_open db now_ts _ _ _ x Hx Ht Hid Hsy) as (rs & y & Hh' & Hit & Hf & Hok & Hy).
      rewrite Hh in Hh'. injection Hh' as -> ->. exists (book_without (c_orig_cl_ord_id c) B).
      split; [rewrite Hf; unfold get_or; unfold tag in Hbk; rewrite Hbk; by apply entries_without; [apply H2|]|].
      split; [|done]. rewrite Hit, id_text_reads, app_nil_r, app_assoc by done. by apply fm_cancel.
  - destruct (handle_other cfg sclock log_open db now_ts (to_wire (request_msg cfg sclock log_open db RqSubscribe)) x Hx)
      as (rs & y & Hh' & Hit & Hok & Hy).
    { cbn [request_msg]. unfold session_level, market_data_request. by rewrite wire_subscribe. }
    rewrite Hh in Hh'. injection Hh' as -> ->. exists B.
    split; [by apply (silent_replies cfg sclock log_open db)|]. split; [|done]. rewrite Hit. by apply fm_lose.
Qed.
End Simulation.
