(* ===== verification/ClosedLoopDemo.v ===== *)
(** * The engine against the local exchange: a run

    A scheduler for the closed loop, a concrete QuickFIX wire, and a scripted
    run: both sides are quoted, acknowledged, canceled when the market locks,
    and never quoted again. *)
From S2P Require Import Prelude.
From S2P Require Import Double.
From S2P Require Import Events.
From S2P Require Import SpscRing.
From S2P Require Import Queue.
From S2P Require Import Text.
From S2P Require Import OrderManager.
From S2P Require Import AsyncLogger.
From S2P Require Import Persister.
From S2P Require Import Config.
From S2P Require Import MarketMaker.
From S2P Require Import MarketMakerFacts.
From S2P Require Import StrategySteps.
From S2P Require Import StrategyProps.
From S2P Require Import StrategyDemo.
From S2P Require Import FixApp.
From S2P Require Import FixProps.
From S2P Require Import Main.
From S2P Require Import System.
From S2P Require Import SystemProps.
From S2P Require Import MockExchange.
From S2P Require Import OrderFlow.
From S2P Require Import ClosedLoop.
From Stdlib Require Import Ascii.

(** ** Playing a script *)
Section Play.
Context {QO : QueueOps} {QL : QueueLaws} {QF : QuickFix} {LO : LmdbOps} {FW : FixWire}.
Context (cfg : EngineConfig) (fclock sclock : nat -> Z).
Context (sendToTarget : FixOut -> option SessionID -> Res bool) (log_open : bool) (db : Db).
Context (now_ts : stamp -> chars).

Inductive loop_action :=
| LEngine (a : sys_action)
| LDeliver
| LHandle
| LReply
| LStream (i : nat) (wide : bool).

Definition is_msg (a : sys_action) : bool := match a with PMsg _ => true | _ => false end.

Definition loop_act (a : loop_action) (p : Loop) : option (option sys_label * Loop) :=
  let '(mkLoop s to x todo from book) := p in
  match a with
  | LEngine a =>
      if is_msg a then None
      else match sys_act cfg fclock sclock sendToTarget a s with
           | Some (l, s') => Some (Some l, mkLoop s' (to ++ requests_of l) x todo from book)
           | None => None
           end
  | LDeliver =>
      match from with
      | raw :: from =>
          match from_wire raw with
          | Some msg =>
              match sys_act cfg fclock sclock sendToTarget (PMsg msg) s with
              | Some (_, s') => Some (Some (SMsg msg), mkLoop s' to x todo from book)
              | None => None
              end
          | None => None
          end
      | [] => None
      end
  | LHandle =>
      match to, todo with
      | r :: to, [] =>
          let m := parse (to_wire (request_msg cfg sclock log_open db r)) in
          let '(replies, x') := handle now_ts m x in
          Some (None, mkLoop s to x' replies from (book_after m replies book))
      | _, _ => None
      end
  | LReply =>
      match todo with
      | m :: todo => let '(raw, x') := send_msg now_ts true m x in Some (None, mkLoop s to x' todo (from ++ written true raw) book)
      | [] => None
      end
  | LStream i wide =>
      match md_thread x with
      | Some (req, syms) =>
          match md_round req syms wide !! i with
          | Some m => let '(raw, x') := send_msg now_ts true m x in Some (None, mkLoop s to x' todo (from ++ written true raw) book)
          | None => None
          end
      | None => None
      end
  end.

Fixpoint loop_play (script : list loop_action) (p : Loop) : option (list (option sys_label) * Loop) :=
  match script with
  | [] => Some ([], p)
  | a :: script =>
      match loop_act a p with
      | Some (l, p) => match loop_play script p with Some (tr, p') => Some (l :: tr, p') | None => None end
      | None => None
      end
  end.

Lemma sys_act_msg a s l s' msg :
  sys_act cfg fclock sclock sendToTarget a s = Some (l, s') -> is_msg a = false -> l <> SMsg msg.
Proof. destruct a; cbn [sys_act is_msg]; intros H Hm; repeat case_match; congruence. Qed.

Lemma loop_act_sound a p l p' :
  loop_act a p = Some (l, p') -> loop_step cfg fclock sclock sendToTarget log_open db now_ts p l p'.
Proof.
  destruct p as [s to x todo from book]. destruct a as [a| | | |i wide]; cbn [loop_act].
  - destruct (is_msg a) eqn:Em; [done|]. destruct (sys_act _ _ _ _ a s) as [[l0 s']|] eqn:E; [|done].
    intros [= <- <-]. apply lo_engine; [by eapply sys_act_sound|]. intros msg. by eapply sys_act_msg.
  - destruct from as [|raw from]; [done|]. destruct (from_wire raw) as [msg|] eqn:Ew; [|done].
    destruct (sys_act _ _ _ _ _ s) as [[l0 s']|] eqn:E; [|done]. intros [= <- <-].
    apply lo_deliver with (raw := raw); [done|]. pose proof (sys_act_sound _ _ _ _ _ _ _ _ E) as Hs.
    cbn [sys_act] in E. destruct (fromApp _ _ _); [|done]. by injection E as <- _.
  - destruct to as [|r to]; [done|]. destruct todo; [|done]. destruct (handle _ _ _) as [replies x'] eqn:E.
    intros [= <- <-]. by apply lo_handle.
  - destruct todo as [|m todo]; [done|]. destruct (send_msg _ _ _) as [raw x'] eqn:E. intros [= <- <-].
    change [raw] with (written true raw). by eapply lo_reply.
  - destruct (md_thread x) as [[req syms]|] eqn:Et; [|done]. destruct (md_round _ _ _ !! i) as [m|] eqn:Em; [|done].
    destruct (send_msg _ _ _) as [raw x'] eqn:E. intros [= <- <-].
    change [raw] with (written true raw). eapply lo_stream; [exact Et|eapply list_elem_of_lookup_2, Em|exact E].
Qed.

Lemma loop_play_sound script p tr p' :
  loop_play script p = Some (tr, p') -> loop_run cfg fclock sclock sendToTarget log_open db now_ts p tr p'.
Proof.
  revert p tr. induction script as [|a script IH]; intros p tr; cbn [loop_play].
  - intros [= <- <-]. constructor.
  - destruct (loop_act a p) as [[l q]|] eqn:E; [|done].
    destruct (loop_play script q) as [[t q']|] eqn:E2; [|done]. intros [= <- <-].
    change (l :: t) with ([l] ++ t). eapply run_app; [apply run_one; by apply (loop_act_sound a)|by apply IH].
Qed.
End Play.

(** ** A concrete wire *)

(** Messages as the fields of their text; a repeating group starts at its
    delimiter tag. *)
Fixpoint groups (delim : chars) (l : dict) : list dict :=
  match l with
  | [] => []
  | f :: l =>
      let gs := groups delim l in
      if decide (fst f = delim) then
        (f :: match gs with [] => l | _ => take (length l - length (concat gs)) l end) :: gs
      else gs
  end.

Definition parsed_field {A} (parse : chars -> option A) (v : chars) : Res A :=
  match parse v with Some a => Ok a | None => Err (Throw FieldNotFound) end.
Definition wire_char (v : chars) : option ascii := match v with [c] => Some c | _ => None end.
Definition wire_double (v : chars) : option double := match stod v with Ok x => Some x | Err _ => None end.
Definition wire_int (v : chars) : option Z := match stoi v with Ok x => Some x | Err _ => None end.
Definition opt_parsed {A} (parse : chars -> option A) (o : option chars) : option (Res A) := option_map (parsed_field parse) o.
Definition req_parsed {A} (parse : chars -> option A) (o : option chars) : Res A :=
  match o with Some v => parsed_field parse v | None => Err (Throw FieldNotFound) end.

Definition wire_qf : QuickFix := {|
  SessionID := unit; MdMsg := dict; MdGroup := dict; ErMsg := dict;
  md_symbol := fun m => req_parsed Some (get m (lit "55"));
  md_no_entries := fun m => req_parsed wire_int (get m (lit "268"));
  md_get_group := fun m i => field (zget (groups (lit "269") m) (i - 1));
  g_entry_type := fun g => req_parsed wire_char (get g (lit "269"));
  g_entry_px := fun g => opt_parsed wire_double (get g (lit "270"));
  g_entry_size := fun g => opt_parsed wire_double (get g (lit "271"));
  er_cl_ord_id := fun m => get m (lit "11");
  er_exec_type := fun m => opt_parsed wire_char (get m (lit "150"));
  er_ord_status := fun m => opt_parsed wire_char (get m (lit "39"));
  er_side := fun m => opt_parsed wire_char (get m (lit "54"));
  er_symbol := fun m => get m (lit "55");
  er_last_px := fun m => opt_parsed wire_double (get m (lit "31"));
  er_last_qty := fun m => opt_parsed wire_double (get m (lit "32"));
  er_leaves_qty := fun m => opt_parsed wire_double (get m (lit "151"));
  er_order_id := fun m => get m (lit "37")
|}.

Lemma parsed_throws {A} (parse : chars -> option A) v : throws_only (parsed_field parse v).
Proof. unfold parsed_field. intros k. by destruct (parse v). Qed.

Lemma req_throws {A} (parse : chars -> option A) o : throws_only (req_parsed parse o).
Proof. destruct o; [apply parsed_throws|by intros k]. Qed.

Lemma opt_throws {A} (parse : chars -> option A) o r : opt_parsed parse o = Some r -> throws_only r.
Proof. destruct o; [|done]. intros [= <-]. apply parsed_throws. Qed.

Lemma wire_qf_laws : @QuickFixLaws wire_qf.
Proof.
  split; cbn; intros; first [apply req_throws | apply field_throws | eapply opt_throws; eassumption].
Qed.

(** The text of an outbound message. *)
Definition wire_text (mt : string) (fields : dict) : chars := build (lit mt) 1 (lit "CLIENT") (lit "ROFX") [] fields.

Definition wire_decimal (d : double) : chars := fmt_fixed 1 d.

Definition wire_out (m : @FixOut) : chars :=
  match m with
  | NewOrderSingle id side ty acc sym ex qty px tif =>
      wire_text "D" [(lit "11", id); (lit "55", sym); (lit "1", acc); (lit "38", wire_decimal qty); (lit "40", [ty]);
        (lit "44", wire_decimal px); (lit "54", [side]); (lit "59", [tif]); (lit "207", ex)]
  | OrderCancelRequest id side orig acc sym ex qty =>
      wire_text "F" [(lit "11", id); (lit "55", sym); (lit "1", acc); (lit "38", wire_decimal qty); (lit "41", orig);
        (lit "54", [side]); (lit "207", ex)]
  | MarketDataRequest id ty depth upd agg types rel =>
      wire_text "V" ([(lit "262", id); (lit "263", [ty]); (lit "264", py_str depth); (lit "265", py_str upd);
        (lit "266", if agg then lit "Y" else lit "N"); (lit "267", py_str (Z.of_nat (length types)))] ++
        map (fun t => (lit "269", [t])) types ++ [(lit "146", py_str (Z.of_nat (length rel)))] ++
        flat_map (fun '(s, e) => [(lit "55", s); (lit "207", e)]) rel)
  end.

Definition wire_in (raw : chars) : option (@FixMessage wire_qf) :=
  let mt := tag raw "35" in
  if decide (mt = Some (lit "8")) then Some (@ExecutionReport wire_qf (p_dict (parse raw)))
  else if decide (mt = Some (lit "W")) then Some (@MarketDataSnapshotFullRefresh wire_qf (pieces raw))
  else None.

Definition demo_wire : @FixWire wire_qf := {| to_wire := wire_out; from_wire := wire_in; double_text := wire_decimal |}.

Lemma wire_text_type mt fields : no_soh (lit mt) -> tag (wire_text mt fields) "35" = Some (lit mt).
Proof. unfold wire_text. apply tag_type. Qed.

Lemma fmt_scaled_clean prec n : 0 <= prec -> 0 <= n -> no_soh (fmt_scaled prec n).
Proof.
  intros Hp Hn. assert (0 < 10 ^ prec) by (apply Z.pow_pos_nonneg; lia). unfold fmt_scaled.
  apply no_soh_app; [|apply no_soh_app]; [|by apply no_sohb_ok|apply zero_pad_clean]; apply digits_no_soh, to_digits_digit.
  - by apply Z.div_pos.
  - by apply Z.mod_pos_bound.
Qed.

Lemma wire_decimal_clean d : no_soh (wire_decimal d).
Proof.
  unfold wire_decimal. destruct d as [s|s| |s m e]; cbn [fmt_fixed]; [| |by apply no_sohb_ok|].
  all: apply no_soh_app; [by destruct s; apply no_sohb_ok|].
  - by apply fmt_scaled_clean.
  - by apply no_sohb_ok.
  - by apply fmt_scaled_clean, scaled_nonneg.
Qed.
#[export] Hint Resolve wire_decimal_clean : wire.

(** The fields of a message are the values of their tags. *)
Lemma wire_text_tag mt fields k :
  no_soh (lit mt) -> clean_fields fields -> lit k ∉ framing_tags -> tag (wire_text mt fields) k = get fields (lit k).
Proof.
  intros Hm Hf Hk. unfold wire_text. apply tag_field; [lia|exact Hm|by apply no_sohb_ok|by apply no_sohb_ok|constructor|exact Hf|exact Hk].
Qed.

Ltac wire_tag :=
  rewrite wire_text_tag;
    [reflexivity
    |auto with wire
    |repeat apply Forall_cons_2; try apply Forall_nil; apply clean_lit; auto with wire
    |unfold framing_tags; rewrite !elem_of_cons, elem_of_nil; intros Hd; decompose [or] Hd; done].

Lemma demo_wire_laws : @FixWireLaws wire_qf demo_wire.
Proof.
  split; cbn [to_wire from_wire demo_wire wire_out double_text].
  - intros. split; [apply wire_text_type; auto with wire|]. repeat split; wire_tag.
  - intros. split; [apply wire_text_type; auto with wire|]. repeat split; wire_tag.
  - intros. apply wire_text_type; auto with wire.
  - intros raw m. unfold wire_in. case_decide as H8; [|by case_decide]. intros [= <-]. split; [done|]. split; [done|]. split; [done|].
    split; intros c E; exact (f_equal (opt_parsed wire_char) E).
Qed.

(** ** A run *)

#[export] Existing Instance wire_qf.
#[export] Existing Instance wire_qf_laws.
#[export] Existing Instance demo_wire.
#[export] Existing Instance demo_wire_laws.
#[export] Existing Instance list_ops.
#[export] Existing Instance list_laws.

Definition demo_now (n : stamp) : chars := lit "20260101-00:00:00.000".
#[export] Instance demo_now_clean : CleanClock demo_now.
Proof. intros n. by apply no_sohb_ok. Qed.
#[export] Instance demo_config_clean : CleanConfig demo_fix_config.
Proof. split; [by apply no_sohb_ok|repeat constructor; discriminate]. Qed.

Definition wire_send : @FixOut -> option (@SessionID wire_qf) -> Res bool := fun _ _ => Ok true.
Definition wire_start : @Loop list_ops wire_qf map_db := loop_init demo_fix_config demo_clock true ∅.
Definition wire_play := loop_play demo_fix_config demo_clock demo_clock wire_send true ∅ demo_now.

(** A message of the market is streamed, delivered and handled. *)
Definition tick_market (wide : bool) : list loop_action := [LStream 1 wide; LDeliver; LEngine PStrat; LEngine PStrat].
(** A command is sent, handled, answered, and the answer delivered and handled. *)
Definition round_trip : list loop_action := [LEngine PSend; LHandle; LReply; LDeliver; LEngine PStrat].

(** Both sides are quoted, and cross the wire. *)
Definition quoting_script : list loop_action :=
  [LEngine (PCreate tt); LEngine PLogon; LHandle] ++ tick_market true ++ round_trip ++ round_trip.

(** The market locks: both quotes are canceled. *)
Definition cancel_script : list loop_action := tick_market false.

(** The cancels are acknowledged, and the market is wide again, twice. *)
Definition dark_script : list loop_action := round_trip ++ round_trip ++ tick_market true ++ tick_market true.

Definition play_labels (script : list loop_action) (p : Loop) : list (option sys_label) :=
  match wire_play script p with Some (tr, _) => tr | None => [] end.
Definition play_loop (script : list loop_action) (p : Loop) : Loop :=
  match wire_play script p with Some (_, p') => p' | None => p end.

Lemma wire_play_ok script p :
  loop_run demo_fix_config demo_clock demo_clock wire_send true ∅ demo_now p (play_labels script p) (play_loop script p).
Proof.
  unfold play_labels, play_loop. destruct (wire_play script p) as [[tr p']|] eqn:E; [|constructor].
  by eapply loop_play_sound.
Qed.

Definition quoted : Loop := play_loop quoting_script wire_start.
Definition canceling : Loop := play_loop (quoting_script ++ cancel_script) wire_start.
Definition dark : Loop := play_loop dark_script canceling.

(** The orders of the book, as their texts on the wire. *)
Example quoted_book :
  map (fun o => (bo_id o, bo_side o, bo_px o, bo_qty o)) (lp_book quoted) =
  [(lit "5000", lit "1", lit "1479.5", lit "1.0"); (lit "5001", lit "2", lit "1480.5", lit "1.0")].
Proof. vm_compute. reflexivity. Qed.

Definition waiting_quote : Quote := default Quote_zero (slot_at (oms_ (sy_engine (lp_sys canceling))) 1 Buy).

(** The exchange has acknowledged both cancels (ClOrdIDs 5002 and 5003) and works
    nothing; the engine has handled the acknowledgements. *)
Example dark_handled : map it_id (handled_items (emitted (engine_trace (play_labels dark_script canceling)))) = [5002; 5003] /\
  lp_book dark = [] /\ q_cl_ord_id waiting_quote = 5000.
Proof. vm_compute. auto. Qed.

