(* ===== verification/ClosedLoopProps.v ===== *)
(** * The engine against the local exchange: properties

    What the two programs do together, for every interleaving of their threads
    and whatever the connection loses: the exchange never works two orders for
    one instrument and side, and a quote that has been canceled never comes
    back. *)
From S2P Require Import Prelude.
From S2P Require Import Double.
From S2P Require Import Events.
From S2P Require Import SpscRing.
From S2P Require Import Queue.
From S2P Require Import Text.
From S2P Require Import OrderManager.
From S2P Require Import AsyncLogger.
From S2P Require Import Persister.
From S2P Require Import Config.
From S2P Require Import MarketMaker.
From S2P Require Import MarketMakerFacts.
From S2P Require Import StrategySteps.
From S2P Require Import StrategyProps.
From S2P Require Import FixApp.
From S2P Require Import FixProps.
From S2P Require Import Main.
From S2P Require Import System.
From S2P Require Import SystemProps.
From S2P Require Import StrategyDemo.
From S2P Require Import MockExchange.
From S2P Require Import OrderFlow.
From S2P Require Import ClosedLoop.
From S2P Require Import ClosedLoopDemo.
From Stdlib Require Import Ascii.

Section Properties.
Context {QO : QueueOps} {QL : QueueLaws} {QF : QuickFix} {QFL : QuickFixLaws} {LO : LmdbOps}.
Context {FW : FixWire} {FWL : FixWireLaws}.
Context (cfg : EngineConfig) (fclock sclock : nat -> Z).
Context {HF : ClockOk fclock} {HK : ClockOk sclock} {HI : IntervalOk cfg} {HC : CleanConfig cfg}.
Context (sendToTarget : FixOut -> option SessionID -> Res bool) (log_open : bool) (db : Db).
Context (now_ts : stamp -> chars) {HN : CleanClock now_ts}.

Abbreviation start := (system_init cfg sclock log_open db).
Abbreviation init := (loop_init cfg sclock log_open db).
Abbreviation step := (loop_step cfg fclock sclock sendToTarget log_open db now_ts).
Abbreviation lrun := (loop_run cfg fclock sclock sendToTarget log_open db now_ts).
Abbreviation erun := (sys_run cfg fclock sclock sendToTarget start).
Abbreviation flow_of := (flow_of cfg sclock log_open db).
Abbreviation flow_inv := (flow_inv (wire_symbol cfg sclock log_open db)).
Abbreviation flow_move := (flow_move (wire_symbol cfg sclock log_open db)).
Abbreviation wire_ok := (wire_ok cfg sclock log_open db).
Abbreviation order_entry := (order_entry cfg sclock log_open db).
Abbreviation symbol_text := (symbol_text cfg sclock log_open db).

(** ** The ids of a run of the engine *)

(** Short of 2^62 steps the counter of ClOrdIDs does not wrap. *)
Definition short (n : nat) : Prop := 2 * Z.of_nat n < 2 ^ 63.

Lemma seed_range : 0 <= cl_ord_seed_ (engine_init sclock log_open) < 2 ^ 63.
Proof.
  cbn [engine_init cl_ord_seed_]. pose proof (HK 0%nat) as Hc.
  assert (H : 0 <= Z.quot (sclock 0%nat) 1000000 <= sclock 0%nat / 1000000) by (rewrite Z.quot_div_nonneg by lia; split; [apply Z.div_pos; lia|lia]).
  assert (Hd : sclock 0%nat / 1000000 < 2 ^ 43) by (apply Z.div_lt_upper_bound; lia).
  assert (H2 : 0 <= Z.quot (sclock 0%nat) 1000000 < 2 ^ 43) by lia.
  rewrite (u64_id (Z.quot _ _)) by (unfold in_u64; lia).
  rewrite u64_id; unfold in_u64; lia.
Qed.

Lemma run_ids tr s :
  erun tr s -> short (length tr) ->
  cmds_ok (emitted tr) /\ unique_ids (emitted tr) /\
  forall c, c ∈ commands (emitted tr) -> in_u64 (c_cl_ord_id c) /\ cl_ord_seed_ (engine_init sclock log_open) <= c_cl_ord_id c.
Proof.
  intros Hrun Hs. apply sys_reach in Hrun as []; try done.
  destruct (reach_inv cfg sclock log_open _ _ si_run) as (_ & _ & Hok).
  pose proof seed_range as Hr. unfold short in Hs.
  destruct (ids_run cfg sclock log_open _ _ si_run) as [Hseed [Hsort Hran _]]; [rewrite length_map; lia|].
  rewrite cmd_ids_commands in Hsort, Hran. split; [done|]. split; [by apply sorted_NoDup|].
  intros c Hc%elem_ids. rewrite List.Forall_forall in Hran. apply list_elem_of_In in Hc. specialize (Hran _ Hc).
  rewrite length_map in Hseed. cbn [snd] in *. unfold in_u64. lia.
Qed.

(** ** The invariant of the loop

    [B] are the commands of the orders in the book. *)

Record loop_inv (tr : list (option sys_label)) (B : list OrderCmd) (p : Loop) : Prop := {
  li_run : erun (engine_trace tr) (lp_sys p);
  li_flow : flow_inv (flow_of (emitted (engine_trace tr)) B p);
  li_book : lp_book p = map order_entry B;
  li_wire : wire_ok p
}.

Lemma engine_trace_snoc tr l : engine_trace (tr ++ [l]) = engine_trace tr ++ option_list l.
Proof. unfold engine_trace. rewrite omap_app. by destruct l. Qed.

Lemma engine_trace_length tr : (length (engine_trace tr) <= length tr)%nat.
Proof. induction tr as [|[l|] tr IH]; cbn in *; unfold engine_trace in *; lia. Qed.

Lemma loop_inv_init : loop_inv [] [] init.
Proof.
  split; [apply run_nil| |done|].
  - unfold ClosedLoop.flow_of, in_transit. cbn [loop_init lp_sys lp_to lp_from lp_todo lp_book system_init sy_engine engine_init exec_ flat_map].
    unfold out_cmds. cbn [out_ engine_init]. rewrite !q_init_empty by (exact kExecCap_legal || exact kOrdCap_legal).
    apply flow_inv_init.
  - split; [|constructor|constructor]. split; [done|]. split; [done|]. by apply no_sohb_ok.
Qed.

Lemma pending_ok tr B p :
  loop_inv tr B p -> short (length tr) -> requests_ok p /\ forall c, c ∈ B -> in_u64 (c_cl_ord_id c).
Proof.
  intros [Hrun Hf _ _] Hs.
  destruct (run_ids _ _ Hrun) as (Hok & _ & Hu); [unfold short in *; pose proof (engine_trace_length tr); lia|].
  split; [|intros c Hc; apply Hu, (fi_book _ _ Hf c Hc)]. intros c Hc.
  assert (Hin : c ∈ commands (emitted (engine_trace tr))).
  { apply (fi_pending _ _ Hf). cbn [flow_of fl_pending]. apply elem_of_app. by left. }
  split; [by apply Hu|]. intros Ht. apply elem_commands, list_elem_of_split in Hin as (pre & post & E).
  destruct (Hok _ _ _ E) as [_ H]. rewrite Ht in H.
  destruct H as [[->|(c' & Hc' & _ & _ & <-)] _]; [by unfold in_u64|].
  apply Hu, elem_commands. rewrite E. apply elem_of_app. by left.
Qed.

(** A step, as a move of the flow of orders. *)
Lemma loop_step_moves tr B p l p' :
  loop_inv tr B p -> short (length tr) -> step p l p' ->
  erun (engine_trace (tr ++ [l])) (lp_sys p') /\ wire_ok p' /\ exists B', lp_book p' = map order_entry B' /\
  flow_move (flow_of (emitted (engine_trace tr)) B p) (flow_of (emitted (engine_trace (tr ++ [l]))) B' p').
Proof.
  intros Hi0 Hs0 Hst. destruct (pending_ok tr B p Hi0 Hs0) as [Hreq HB]. destruct Hi0 as [Hrun Hf Hbk [Hx Ht Hfr]]. rewrite engine_trace_snoc.
  pose proof (sys_reach cfg fclock sclock sendToTarget log_open db _ _ Hrun) as Hi.
  destruct Hst as [s s' l to x todo from book Hs Hm|s s' to x todo raw from book msg Hw Hs
    |s r to x x' replies from book Hh|s to x x' raw replies from book Hsl Hh|s to x x' sent m todo raw from book Hs
    |s to x x' req syms sent m wide todo raw from book Hmt Hm Hs|s to to' x todo from from' book Hto Hfrom|s to x todo from book];
    cbn [option_list option_rect lp_sys lp_session lp_todo lp_from lp_book] in *; rewrite ?app_nil_r.
  - split; [by eapply run_snoc|]. split; [by split|]. exists B. split; [done|]. by apply (engine_moves cfg fclock sclock sendToTarget log_open db).
  - apply Forall_cons_iff in Hfr as [Hr Hfr]. split; [by eapply run_snoc|]. split; [by split|]. exists B. split; [done|]. by apply (deliver_moves cfg fclock sclock sendToTarget log_open db).
  - split; [done|]. subst book.
    destruct (handle_moves cfg sclock log_open db now_ts (emitted (engine_trace tr)) s r to x x' replies from B)
      as (B' & Hb' & Hmv & Hx' & Hok); [done..|]. split; [by split|]. by exists B'.
  - split; [done|]. destruct (handle_other cfg sclock log_open db now_ts raw x Hx Hsl) as (rs & y & Hh' & Hit & Hok & Hy).
    rewrite Hh in Hh'. injection Hh' as -> ->. split; [by split|]. exists B.
    split; [by rewrite (silent_replies cfg sclock log_open db)|]. unfold ClosedLoop.flow_of, in_transit.
    cbn [lp_sys lp_to lp_from lp_todo lp_book flat_map]. rewrite Hit. by apply fm_lose.
  - split; [done|]. apply Forall_cons_iff in Ht as [Hm Ht].
    destruct (send_msg_items cfg sclock log_open db now_ts sent m x raw x' Hm Hx Hs) as (Hit & Hr & Hx').
    split; [split; [done..|by apply written_ok]|]. exists B. split; [done|].
    unfold ClosedLoop.flow_of, in_transit. cbn [lp_sys lp_to lp_from lp_todo lp_book flat_map].
    rewrite flat_map_app, <- !app_assoc, <- Hit. apply fm_lose; [done|].
    apply submseteq_skips_l, submseteq_skips_l, submseteq_skips_r, written_items.
  - split; [done|]. assert (Hf8 : fst m = lit "W").
    { unfold md_round in Hm. apply list_elem_of_In, in_map_iff in Hm as ([i sym] & <- & _). done. }
    destruct (no_items cfg sclock log_open db m) as [Hok Hno]; [rewrite Hf8; by apply no_sohb_ok|by rewrite Hf8|].
    destruct (send_msg_items cfg sclock log_open db now_ts sent m x raw x' Hok Hx Hs) as (Hit & Hr & Hx').
    split; [split; [done..|by apply written_ok]|]. exists B. split; [done|].
    unfold ClosedLoop.flow_of, in_transit. cbn [lp_sys lp_to lp_from lp_todo lp_book].
    rewrite Hno in Hit. pose proof (written_items cfg sclock log_open db sent raw) as Hwi. rewrite Hit in Hwi.
    rewrite flat_map_app, <- !app_assoc. apply fm_lose; [done|].
    apply submseteq_skips_l, submseteq_skips_l. by apply (submseteq_skips_r _ _ []).
  - apply sublist_submseteq in Hto. apply sublist_submseteq in Hfrom. split; [done|]. split.
    + split; [done..|]. cbn [lp_from]. apply List.Forall_forall. intros raw Hin%list_elem_of_In.
      rewrite List.Forall_forall in Hfr. by apply Hfr, list_elem_of_In, (elem_of_submseteq _ _ _ Hin).
    + exists B. split; [done|]. unfold ClosedLoop.flow_of, in_transit. cbn [lp_sys lp_to lp_from lp_todo lp_book]. apply fm_lose.
      * apply submseteq_skips_r. by apply submseteq_omap.
      * apply submseteq_skips_l, submseteq_skips_r. by apply submseteq_flat_map.
  - split; [done|]. split.
    + split; [|constructor|constructor]. split; [done|]. split; [done|]. by apply no_sohb_ok.
    + exists B. split; [done|]. unfold ClosedLoop.flow_of, in_transit. cbn [lp_sys lp_to lp_from lp_todo lp_book flat_map]. apply fm_lose.
      * apply submseteq_skips_r, submseteq_nil_l.
      * apply submseteq_skips_l, submseteq_nil_l.
Qed.

Lemma loop_inv_step tr B p l p' :
  loop_inv tr B p -> short (length (tr ++ [l])) -> step p l p' -> exists B', loop_inv (tr ++ [l]) B' p' /\
  flow_move (flow_of (emitted (engine_trace tr)) B p) (flow_of (emitted (engine_trace (tr ++ [l]))) B' p').
Proof.
  intros Hi Hs Hst. assert (Hs0 : short (length tr)) by (unfold short in *; rewrite length_app in Hs; lia).
  destruct (loop_step_moves tr B p l p' Hi Hs0 Hst) as (Hrun & Hw & B' & Hb & Hm).
  exists B'. split; [|done]. split; [done| |done|done].
  destruct (run_ids _ _ Hrun) as (Hok & Hu & _); [unfold short in *; pose proof (engine_trace_length (tr ++ [l])); lia|].
  eapply flow_inv_move; [exact Hok|exact Hu|exact Hm|apply Hi].
Qed.

Lemma loop_inv_run tr B p tr' p' :
  loop_inv tr B p -> lrun p tr' p' -> short (length (tr ++ tr')) -> exists B', loop_inv (tr ++ tr') B' p'.
Proof.
  intros Hi H. induction H as [p|p t q l p' H IH Hst]; intros Hs; [rewrite app_nil_r; by exists B|].
  rewrite app_assoc in *. destruct IH as [B' Hi']; [done|unfold short in *; rewrite length_app in Hs; lia|].
  destruct (loop_inv_step _ B' q l p' Hi' Hs Hst) as (B2 & ? & _). by exists B2.
Qed.

(** An order of the book is the one its slot holds. *)
Lemma book_held tr B p c :
  loop_inv tr B p -> short (length tr) -> c ∈ B ->
  real_side (c_side c) /\ first_named (sy_fix start) (c_symbol_id c) /\
  exists q, slot_at (oms_ (sy_engine (lp_sys p))) (c_symbol_id c) (c_side c) = Some q /\
    q_state q <> QsNone /\ q_cl_ord_id q = c_cl_ord_id c.
Proof.
  intros [He Hf _ _] Hs Hc.
  destruct (run_ids _ _ He) as (Hok & _); [unfold short in *; pose proof (engine_trace_length tr); lia|].
  destruct (fi_book _ _ Hf c Hc) as (Hin & _ & _ & _ & Hw). cbn [flow_of fl_events] in *.
  apply sys_reach in He as Hi; [|done..]. destruct Hi.
  destruct (reach_inv cfg sclock log_open _ _ si_run) as (Heok & Ho & _). cbn [snd] in *.
  rewrite List.Forall_forall in si_known. destruct (si_known c) as [Hr Hfirst]; [by apply list_elem_of_In|].
  assert (Hside : real_side (c_side c)).
  { apply elem_commands, list_elem_of_split in Hin as (pre & post & E). by destruct (Hok _ _ _ E). }
  split; [done|]. split; [done|].
  destruct (slot_at_ok (oms_ (sy_engine (lp_sys p))) (c_symbol_id c) (c_side c) (eo_oms _ Heok) Hr) as [q Hq].
  exists q. split; [done|]. exact (oi_working _ _ Ho _ _ q _ Hside Hq Hw).
Qed.

(** The texts of two orders name the same slot only if the orders do. *)
Lemma entry_slot c c' :
  first_named (sy_fix start) (c_symbol_id c) -> first_named (sy_fix start) (c_symbol_id c') ->
  real_side (c_side c) -> real_side (c_side c') ->
  symbol_text c = symbol_text c' -> side_char (c_side c) = side_char (c_side c') ->
  c_symbol_id c = c_symbol_id c' /\ c_side c = c_side c'.
Proof.
  intros [_ E] [_ E'] Hs Hs' Ht Hc. split.
  - rewrite <- E, <- E'. unfold ClosedLoop.symbol_text in Ht. by rewrite Ht.
  - by destruct Hs as [Hs|Hs], Hs' as [Hs'|Hs']; rewrite Hs, Hs' in *.
Qed.

(** *** A slot no report is coming for *)

Lemma emitted_app tr tr' : emitted (tr ++ tr') = emitted tr ++ emitted tr'.
Proof. unfold emitted, events. by rewrite map_app, flat_map_app. Qed.

Lemma emitted_label l : emitted (option_list l) = match l with Some l => events_of (strat_label l) | None => [] end.
Proof. destruct l; [|done]. unfold emitted, events. cbn. apply app_nil_r. Qed.

Lemma loop_step_engine p l p' :
  step p l p' ->
  match l with
  | Some l => sys_step cfg fclock sclock sendToTarget (lp_sys p) l (lp_sys p')
  | None => lp_sys p' = lp_sys p
  end.
Proof. by destruct 1. Qed.

Lemma sys_step_stuck tr s l s' sym side q :
  sys_inv cfg sclock log_open db tr s -> sys_step cfg fclock sclock sendToTarget s l s' ->
  real_side side -> in_flight q -> slot_stuck sym side q (sy_engine s) ->
  (forall e, EvExec e ∈ events_of (strat_label l) -> x_cl_ord_id e <> q_cl_ord_id q) ->
  slot_stuck sym side q (sy_engine s') /\ forall c, EvCmd c ∈ events_of (strat_label l) -> ~ cmd_for sym side c.
Proof.
  intros Hi Hst Hr Hq Hat Hx. destruct l.
  5: { inversion Hst as [| | | |? ? p e Hl Hs| | |]; subst. cbn [strat_label sy_engine] in *.
    apply (stuck_step cfg sclock (sy_pc s, sy_engine s) l (p, e) sym side q (si_engine _ _ _ _ _ _ Hi) Hs Hr Hq Hat).
    intros x Hin _. by apply Hx. }
  all: destruct (step_other_effect cfg fclock sclock sendToTarget log_open db tr s _ s' Hi Hst eq_refl) as [_ _ Henv _ _ _ _ _].
  all: unfold slot_stuck in *; rewrite (es_oms _ _ Henv).
  all: split; [done|]; intros d Hd; by apply elem_of_nil in Hd.
Qed.

(** The book plays no part in what is still to be said of an order. *)
Definition hushed (id : Z) (tr : list (option sys_label)) (p : Loop) : Prop :=
  silent id (flow_of (emitted (engine_trace tr)) [] p).

(** A step leaves such a slot alone. *)
Lemma loop_step_stuck tr B p l p' sym side q :
  loop_inv tr B p -> short (length (tr ++ [l])) -> step p l p' ->
  real_side side -> in_flight q -> slot_stuck sym side q (sy_engine (lp_sys p)) ->
  hushed (q_cl_ord_id q) tr p ->
  slot_stuck sym side q (sy_engine (lp_sys p')) /\
  hushed (q_cl_ord_id q) (tr ++ [l]) p' /\
  forall c, EvCmd c ∈ emitted (option_list l) -> ~ cmd_for sym side c.
Proof.
  intros Hi Hs Hst Hr Hq Hat Hsil.
  assert (Hs0 : short (length tr)) by (unfold short in *; rewrite length_app in Hs; lia).
  destruct (loop_step_moves tr B p l p' Hi Hs0 Hst) as (Hrun & _ & B' & _ & Hm).
  destruct (run_ids _ _ Hrun) as (_ & Hu & _); [unfold short in *; pose proof (engine_trace_length (tr ++ [l])); lia|].
  destruct (silent_move _ (flow_of (emitted (engine_trace tr)) B p) (flow_of (emitted (engine_trace (tr ++ [l]))) B' p')
    _ Hu Hm Hsil) as [Hsil' Hx].
  assert (Hnew : forall e, EvExec e ∈ emitted (option_list l) -> x_cl_ord_id e <> q_cl_ord_id q).
  { intros e. apply Hx. cbn [flow_of fl_events]. by rewrite engine_trace_snoc, emitted_app. }
  pose proof (loop_step_engine p l p' Hst) as He. rewrite emitted_label in *. destruct l as [l|].
  - pose proof (sys_reach cfg fclock sclock sendToTarget log_open db _ _ (li_run _ _ _ Hi)) as Hsi.
    destruct (sys_step_stuck _ _ _ _ sym side q Hsi He Hr Hq Hat Hnew) as [H1 H2]. done.
  - rewrite He. split; [done|]. split; [done|]. intros c Hc. by apply elem_of_nil in Hc.
Qed.

Lemma loop_run_stuck tr B p tr' p' sym side q :
  loop_inv tr B p -> lrun p tr' p' -> short (length (tr ++ tr')) ->
  real_side side -> in_flight q -> slot_stuck sym side q (sy_engine (lp_sys p)) ->
  hushed (q_cl_ord_id q) tr p ->
  slot_stuck sym side q (sy_engine (lp_sys p')) /\
  forall c, EvCmd c ∈ emitted (engine_trace tr') -> ~ cmd_for sym side c.
Proof.
  intros Hi H Hs Hr Hq Hat Hsil.
  enough (slot_stuck sym side q (sy_engine (lp_sys p')) /\
    hushed (q_cl_ord_id q) (tr ++ tr') p' /\
    forall c, EvCmd c ∈ emitted (engine_trace tr') -> ~ cmd_for sym side c) by tauto.
  induction H as [p|p t b l p' H IH Hst].
  - rewrite app_nil_r. split; [done|]. split; [done|]. intros c Hc. by apply elem_of_nil in Hc.
  - rewrite app_assoc in Hs |- *. assert (Hs0 : short (length (tr ++ t))) by (unfold short in *; rewrite length_app in Hs; lia).
    destruct (IH Hi Hs0 Hat Hsil) as (H1 & H2 & H3). destruct (loop_inv_run _ _ _ _ _ Hi H Hs0) as [Bt Hit].
    destruct (loop_step_stuck (tr ++ t) Bt b l p' sym side q Hit Hs Hst Hr Hq H1 H2) as (H4 & H5 & H6).
    split; [done|]. split; [done|]. rewrite engine_trace_snoc, emitted_app. intros c [Hc|Hc]%elem_of_app; auto.
Qed.

(** ** Properties *)

(** C2: one working order at the exchange.  However the threads of the engine
    and of the exchange interleave, and whatever the connection loses between
    them, the exchange never works two orders of the engine for the same
    instrument and side, as it has read them from tags 55 and 54, and every order it
    works is the one the engine holds in the slot of that instrument and side, under
    the text of its ClOrdID.  The run is shorter than 2^62 steps. *)
Theorem exchange_one_working_order (tr : list (option sys_label)) (p : Loop) :
  lrun init tr p -> 2 * Z.of_nat (length tr) < 2 ^ 63 ->
  NoDup (map (fun o => (bo_symbol o, bo_side o)) (lp_book p)) /\
  forall o, o ∈ lp_book p -> exists sym side q,
    (side = Buy \/ side = Sell) /\ slot_at (oms_ (sy_engine (lp_sys p))) sym side = Some q /\ q_state q <> QsNone /\
    bo_id o = id_text (q_cl_ord_id q) /\ bo_symbol o = default [] (zget (symbols_ (sy_fix start)) sym) /\
    bo_side o = [side_char side].
Proof.
  intros Hrun Hs. destruct (loop_inv_run [] [] _ tr p loop_inv_init Hrun Hs) as [B Hi]. cbn [app] in Hi.
  pose proof Hi as [He Hf -> _]. split.
  - destruct (run_ids _ _ He) as (_ & Hu & _); [unfold short in *; pose proof (engine_trace_length tr); lia|].
    rewrite map_map. apply (NoDup_map_coarser (fun c => (c_symbol_id c, c_side c)));
      [|exact (book_slots_distinct _ (flow_of (emitted (engine_trace tr)) B p) Hu Hf)].
    intros c c' Hc Hc' [= Ht Hsd]. destruct (book_held tr B p c Hi Hs Hc) as (H1 & H2 & _).
    destruct (book_held tr B p c' Hi Hs Hc') as (H3 & H4 & _). by destruct (entry_slot c c' H2 H4 H1 H3 Ht Hsd) as [-> ->].
  - intros o (c & <- & Hc%list_elem_of_In)%list_elem_of_In%in_map_iff.
    destruct (book_held tr B p c Hi Hs Hc) as (H1 & _ & q & Hq & Hn & Hid).
    exists (c_symbol_id c), (c_side c), q. cbn. by rewrite Hid.
Qed.

(** C6: a canceled quote never comes back.  The exchange acknowledges a cancel
    under the ClOrdID of the request, the engine looks for that of the order:
    once a quote waits for its cancel, and unless a fill of it is already on its
    way, its slot keeps waiting in every continuation of the run, and the
    engine sends nothing more for that instrument and side. *)
Theorem canceled_side_goes_dark (tr tr' : list (option sys_label)) (p p' : Loop) (sym : Z) (side : OrdSide) (q : Quote) :
  lrun init tr p -> lrun p tr' p' -> 2 * Z.of_nat (length tr + length tr') < 2 ^ 63 ->
  side = Buy \/ side = Sell -> slot_at (oms_ (sy_engine (lp_sys p))) sym side = Some q -> q_state q = PendingCancel ->
  (forall x, x ∈ in_transit cfg sclock log_open db p -> it_kind x = ExFilled -> it_id x <> q_cl_ord_id q) ->
  slot_at (oms_ (sy_engine (lp_sys p'))) sym side = Some q /\
  forall c, EvCmd c ∈ emitted (engine_trace tr') -> ~ (c_symbol_id c = sym /\ c_side c = side).
Proof.
  intros Hrun Hrun' Hs Hr Hat Hq Hno. rewrite <- length_app in Hs.
  assert (Hs0 : short (length tr)) by (unfold short; rewrite length_app in Hs; lia).
  destruct (loop_inv_run [] [] _ tr p loop_inv_init Hrun Hs0) as [B Hi]. cbn [app] in Hi. pose proof Hi as [He Hf _ _].
  destruct (run_ids _ _ He) as (_ & Hu & _); [unfold short in *; pose proof (engine_trace_length tr); lia|].
  pose proof (sys_reach cfg fclock sclock sendToTarget log_open db _ _ He) as [].
  destruct (reach_inv cfg sclock log_open _ _ si_run) as (_ & Ho & _). cbn [snd] in *.
  apply (loop_run_stuck tr B p tr' p' sym side q); [done|done|done|done|by right|done|].
  change (silent (q_cl_ord_id q) (flow_of (emitted (engine_trace tr)) B p)).
  eapply acked_silent; [done|exact Hf| |done]. apply (oi_acked _ _ Ho sym side q Hr Hat). by right.
Qed.
End Properties.

(** ** Witnesses *)

Lemma exchange_one_working_order_witness :
  NoDup (map (fun o => (bo_symbol o, bo_side o)) (lp_book quoted)) /\ length (lp_book quoted) = 2%nat.
Proof.
  split; [|vm_compute; reflexivity].
  apply (exchange_one_working_order demo_fix_config demo_clock demo_clock wire_send true ∅ demo_now
    (play_labels quoting_script wire_start) quoted (wire_play_ok quoting_script wire_start)).
  vm_compute. reflexivity.
Defined.

Lemma canceled_side_goes_dark_witness :
  slot_at (oms_ (sy_engine (lp_sys dark))) 1 Buy = Some waiting_quote /\ q_state waiting_quote = PendingCancel.
Proof.
  split; [|vm_compute; reflexivity].
  apply (canceled_side_goes_dark demo_fix_config demo_clock demo_clock wire_send true ∅ demo_now
    (play_labels (quoting_script ++ cancel_script) wire_start) (play_labels dark_script canceling)
    canceling dark 1 Buy waiting_quote (wire_play_ok _ _) (wire_play_ok _ _)); [..|].
  - vm_compute. reflexivity.
  - by left.
  - vm_compute. reflexivity.
  - vm_compute. reflexivity.
  - assert (E : in_transit demo_fix_config demo_clock true ∅ canceling = []) by (vm_compute; reflexivity).
    intros x Hx. rewrite E in Hx. destruct (not_elem_of_nil _ Hx).
Defined.
