(* ===== verification/Agreement.v ===== *)
(** * The engine's slots and the exchange's book

    The order manager is the engine's picture of what the exchange works for it.
    Here: when no message is lost and none is under way, the picture is right.
    A Live slot is an order of the book with the same id, instrument, side, price
    and quantity, as the texts the exchange has read; no slot is left PendingNew;
    an empty slot and one left PendingCancel have no order there. *)
From S2P Require Import Prelude.
From S2P Require Import Double.
From S2P Require Import Events.
From S2P Require Import SpscRing.
From S2P Require Import Queue.
From S2P Require Import Text.
From S2P Require Import OrderBook.
From S2P Require Import OrderManager.
From S2P Require Import AsyncLogger.
From S2P Require Import Persister.
From S2P Require Import Config.
From S2P Require Import MarketMaker.
From S2P Require Import MarketMakerFacts.
From S2P Require Import StrategySteps.
From S2P Require Import StrategyProps.
From S2P Require Import FixApp.
From S2P Require Import FixProps.
From S2P Require Import Main.
From S2P Require Import System.
From S2P Require Import SystemProps.
From S2P Require Import StrategyDemo.
From S2P Require Import MockExchange.
From S2P Require Import OrderFlow.
From S2P Require Import ClosedLoop.
From S2P Require Import ClosedLoopDemo.
From S2P Require Import ClosedLoopProps.

(** ** The slots against the trace *)

(** A slot in use holds the order of a command, and its state says how far the
    order has come. *)
Definition stage (evs : list event) (q : Quote) : Prop :=
  match q_state q with
  | QsNone => False
  | PendingNew => forall e, EvExec e ∈ evs -> x_cl_ord_id e <> q_cl_ord_id q
  | Live => forall d, d ∈ commands evs -> c_type d = CmdCancel -> c_orig_cl_ord_id d <> q_cl_ord_id q
  | PendingCancel => exists d, d ∈ commands evs /\ c_type d = CmdCancel /\ c_orig_cl_ord_id d = q_cl_ord_id q
  end.

Record holds (evs : list event) (sym : Z) (side : OrdSide) (q : Quote) (c : OrderCmd) : Prop := {
  ho_sent : c ∈ commands evs;
  ho_new : c_type c = CmdNew;
  ho_slot : cmd_for sym side c;
  ho_id : q_cl_ord_id q = c_cl_ord_id c;
  ho_price : q_price q = c_price c;
  ho_qty : q_qty q = c_qty c;
  ho_works : works evs c;
  ho_stage : stage evs q
}.

Definition slot_empty (q : Quote) : Prop := q_cl_ord_id q = 0 /\ q_state q = QsNone.

Record slots_inv (o : OrderManager) (evs : list event) : Prop := {
  so_reports : forall e, EvExec e ∈ evs -> x_cl_ord_id e ∈ ids (commands evs);
  so_slots : forall sym side q, real_side side -> slot_at o sym side = Some q ->
    slot_empty q \/ exists c, holds evs sym side q c
}.

Lemma slots_init : slots_inv oms_init [].
Proof. split; [intros e He; by apply elem_of_nil in He|]. intros sym side q _ H. left. by rewrite (oms_init_slot _ _ _ H). Qed.

(** One order is in one slot. *)
Lemma holds_eq evs sym side q c sym' side' q' c' :
  unique_ids evs -> holds evs sym side q c -> holds evs sym' side' q' c' -> q_cl_ord_id q = q_cl_ord_id q' ->
  c' = c /\ sym' = sym /\ side' = side.
Proof.
  intros Hu [] [] E. assert (c' = c) as -> by (apply (unique_eq evs); [done..|congruence]).
  destruct ho_slot0 as [<- <-], ho_slot1 as [<- <-]. done.
Qed.

Lemma cancel_acked evs d :
  cmds_ok evs -> d ∈ commands evs -> c_type d = CmdCancel -> acked (c_orig_cl_ord_id d) evs.
Proof.
  intros Hok Hd Ht. apply elem_commands, list_elem_of_split in Hd as (pre & post & E).
  destruct (Hok _ _ _ E) as [_ H]. rewrite Ht in H. rewrite E. by apply acked_app, H.
Qed.

(** *** A report *)

(** [on_exec] finds the slot that holds the id, if no other does. *)
Lemma on_exec_hit e o o' side q :
  oms_shape o -> on_exec e o = Ok o' -> real_side side -> slot_at o (x_symbol_id e) side = Some q ->
  q_cl_ord_id q = x_cl_ord_id e ->
  (forall side' q', real_side side' -> slot_at o (x_symbol_id e) side' = Some q' ->
     q_cl_ord_id q' = x_cl_ord_id e -> side' = side) ->
  slot_at o' (x_symbol_id e) side = Some (exec_quote e q).
Proof.
  intros Hs He Hr Hq Hid Hone. pose proof (on_exec_range e o o' Hs He) as Hrg.
  destruct (on_exec_cases e o Hs Hrg) as (b & s & Hb & Hs' & [(Hc & Ho)|[(Hn & Hc & Ho)|(Hn & Hn' & Ho)]]);
    rewrite Ho in He; injection He as <-.
  - rewrite <- (Hone Buy b (or_introl eq_refl) Hb Hc) in *. rewrite Hb in Hq. injection Hq as <-. by apply slot_at_set_eq.
  - rewrite <- (Hone Sell s (or_intror eq_refl) Hs' Hc) in *. rewrite Hs' in Hq. injection Hq as <-. by apply slot_at_set_eq.
  - destruct Hr as [-> | ->]; congruence.
Qed.

Section Report.
(** The report answers a command, and is the first of its kind. *)
Context (e : ExecEvent) (c : OrderCmd) (evs : list event) (o o' : OrderManager).
Context (Hok : cmds_ok evs) (Hu : unique_ids evs) (Hc : c ∈ commands evs) (Hpos : c_cl_ord_id c <> 0).
Context (Hid : c_cl_ord_id c = x_cl_ord_id e) (Hsym : c_symbol_id c = x_symbol_id e).
Context (Hkind : match c_type c with
                 | CmdNew => x_kind e = ExNew \/ x_kind e = ExFilled
                 | CmdCancel => x_kind e = ExCanceled
                 end).
Context (Hfirst : x_kind e = ExNew -> ~ acked (x_cl_ord_id e) evs).
Context (Hsh : oms_shape o) (Hx : on_exec e o = Ok o').

(** The slot that holds the order of the report. *)
Lemma reported_slot sym side q d :
  holds evs sym side q d -> q_cl_ord_id q = x_cl_ord_id e ->
  slot_empty (exec_quote e q) \/ holds (evs ++ [EvExec e]) sym side (exec_quote e q) d.
Proof.
  intros [] E. assert (d = c) as -> by (apply (unique_eq evs); [done..|congruence]).
  rewrite ho_new0 in Hkind. unfold exec_quote. destruct Hkind as [Hk|Hk]; rewrite Hk; [right|by left].
  split; cbn; rewrite ?commands_exec; try done.
  - apply works_exec; [|done]. by rewrite Hk.
  - unfold stage. cbn [q_state q_cl_ord_id]. intros d Hd Ht E'.
    apply (Hfirst Hk). rewrite <- E, <- E'. by apply cancel_acked.
Qed.

(** Any other slot in use. *)
Lemma unreported_slot sym side q d :
  holds evs sym side q d -> q_cl_ord_id q <> x_cl_ord_id e -> holds (evs ++ [EvExec e]) sym side q d.
Proof.
  intros [] E. split; rewrite ?commands_exec; try done.
  - apply works_exec; [|done]. congruence.
  - unfold stage in *. destruct (q_state q); rewrite ?commands_exec; try done.
    intros x [Hin|[= ->]%list_elem_of_singleton]%elem_of_app; [auto|congruence].
Qed.

Lemma slots_exec : slots_inv o evs -> slots_inv o' (evs ++ [EvExec e]).
Proof.
  intros [Hr Hs]. split.
  - rewrite commands_exec. intros x [Hin|[= ->]%list_elem_of_singleton]%elem_of_app; [auto|].
    rewrite <- Hid. by apply elem_ids.
  - intros sym side q' Hside Hq'.
    destruct (on_exec_slot e o o' sym side q' Hsh Hx Hq') as (q & Hq & Hcase).
    destruct (Hs sym side q Hside Hq) as [Hfree|(d & Hd)].
    + left. destruct Hcase as [-> |(_ & E & _)]; [done|]. destruct Hfree as [Hz _]. congruence.
    + destruct (decide (q_cl_ord_id q = x_cl_ord_id e)) as [E|E].
      * assert (sym = x_symbol_id e) as ->.
        { destruct Hd. destruct ho_slot0 as [<- _]. assert (d = c) as -> by (apply (unique_eq evs); [done..|congruence]). done. }
        rewrite (on_exec_hit e o o' side q) in Hq'; [|done..|].
        -- injection Hq' as <-. destruct (reported_slot _ _ _ _ Hd E) as [|H]; [by left|right]. by exists d.
        -- intros side2 q2 Hside2 Hq2 E2. destruct (Hs _ side2 q2 Hside2 Hq2) as [[Hz _]|(d2 & Hd2)]; [congruence|].
           apply (holds_eq evs _ _ _ _ _ _ _ _ Hu Hd Hd2). congruence.
      * right. exists d. destruct Hcase as [-> |(_ & ? & _)]; [|done]. by apply unreported_slot.
Qed.
End Report.

(** *** A command *)

Lemma stage_cmd evs q c :
  stage evs q -> (c_type c = CmdCancel -> c_orig_cl_ord_id c <> q_cl_ord_id q) -> stage (evs ++ [EvCmd c]) q.
Proof.
  unfold stage. rewrite commands_snoc. intros H Hc. destruct (q_state q); [done|..].
  - intros e [He|He%list_elem_of_singleton]%elem_of_app; [auto|done].
  - intros d [Hd| ->%list_elem_of_singleton]%elem_of_app; auto.
  - destruct H as (d & Hd & ? & ?). exists d. split; [apply elem_of_app; by left|done].
Qed.

Lemma holds_cmd evs sym side q d c :
  cmd_ok evs c -> holds evs sym side q d -> (c_type c = CmdCancel -> c_orig_cl_ord_id c <> q_cl_ord_id q) ->
  holds (evs ++ [EvCmd c]) sym side q d.
Proof.
  intros Hok [] Hc. split; try done; [|by apply works_cmd|by apply stage_cmd].
  rewrite commands_snoc. apply elem_of_app. by left.
Qed.

Section Command.
Context (sym : Z) (side : OrdSide) (q : Quote) (c : OrderCmd) (seed : Z) (evs : list event) (o o' : OrderManager).
Context (Hside : real_side side) (Hq : slot_at o sym side = Some q) (Hint : intent_ok sym side q seed c).
Context (Hslot : slot_at o' sym side = Some (slot_after q (Some c))).
Context (Hframe : forall sym' side', (sym, side_index side) <> (sym', side_index side') ->
          slot_at o' sym' side' = slot_at o sym' side').
Context (Hok : cmd_ok evs c) (Hu : unique_ids (evs ++ [EvCmd c])).

(** The slot it is for. *)
Lemma commanded_slot :
  slots_inv o evs -> exists d, holds (evs ++ [EvCmd c]) sym side (slot_after q (Some c)) d.
Proof.
  intros [Hr Hs]. destruct Hint as (Hfor & _ & Hty). unfold slot_after. destruct (c_type c) eqn:Ht.
  - exists c. split; cbn; try done.
    + rewrite commands_snoc. apply elem_of_app. right. by apply list_elem_of_singleton.
    + unfold works. by apply working_cmd.
    + intros e [He|He%list_elem_of_singleton]%elem_of_app; [|done]. intros E.
      apply (unique_fresh evs c []); [by rewrite app_nil_r|]. rewrite <- E. by apply Hr.
  - destruct Hty as [Hl Ho]. destruct (Hs sym side q Hside Hq) as [[_ ?]|(d & [])]; [congruence|].
    exists d. split; cbn; try done.
    + rewrite commands_snoc. apply elem_of_app. by left.
    + by apply works_cmd.
    + exists c. rewrite commands_snoc. split; [|done]. apply elem_of_app. right. by apply list_elem_of_singleton.
Qed.

Lemma slots_cmd : slots_inv o evs -> slots_inv o' (evs ++ [EvCmd c]).
Proof.
  intros Hi. pose proof Hi as [Hr Hs]. split.
  - intros e [He|He%list_elem_of_singleton]%elem_of_app; [|done]. rewrite commands_snoc, map_app. apply elem_of_app. left. auto.
  - intros sym' side' q' Hside' Hq'.
    destruct (decide ((sym, side_index side) = (sym', side_index side'))) as [E|E].
    + injection E as <- E. assert (side' = side) as -> by (by destruct Hside as [-> | ->], Hside' as [-> | ->]).
      rewrite Hslot in Hq'. injection Hq' as <-. right. by apply commanded_slot.
    + rewrite Hframe in Hq' by done. destruct (Hs sym' side' q' Hside' Hq') as [?|(d & Hd)]; [by left|right].
      exists d. apply holds_cmd; [done|done|]. intros Ht Ho. destruct Hint as (_ & _ & Hty). rewrite Ht in Hty.
      destruct Hty as [Hl Ho']. destruct (Hs sym side q Hside Hq) as [[_ ?]|(d2 & Hd2)]; [congruence|].
      assert (Hu' : unique_ids evs).
      { unfold unique_ids in *. rewrite commands_snoc, map_app in Hu. by apply list.NoDup_app in Hu as (? & _ & _). }
      destruct (holds_eq evs _ _ _ _ _ _ _ _ Hu' Hd2 Hd) as (_ & -> & ->); [congruence|done].
Qed.
End Command.

(** *** The strategy's steps *)
Section Steps.
Context {QO : QueueOps} {QL : QueueLaws} (cfg : EngineConfig) (clock : nat -> Z).
Context {HK : ClockOk clock} {HI : IntervalOk cfg}.

Lemma cmds_ok_prefix evs evs' : cmds_ok (evs ++ evs') -> cmds_ok evs.
Proof. intros H pre c post ->. apply (H pre c (post ++ evs')). by rewrite <- app_assoc. Qed.

Lemma unique_ids_prefix evs evs' : unique_ids (evs ++ evs') -> unique_ids evs.
Proof. unfold unique_ids. rewrite commands_app, map_app. by intros (? & _ & _)%list.NoDup_app. Qed.

Lemma slots_side d sym side t_md q s s' evs :
  real_side side -> slot_at (oms_ s) sym side = Some q -> side_run cfg clock d sym side t_md q s s' ->
  (cmds_ok evs -> unique_ids evs -> slots_inv (oms_ s) evs) ->
  exists cmds, out_cmds s' = out_cmds s ++ cmds /\
    (cmds_ok (evs ++ map EvCmd cmds) -> unique_ids (evs ++ map EvCmd cmds) -> slots_inv (oms_ s') (evs ++ map EvCmd cmds)).
Proof.
  intros Hside Hq [_ Hout Hslot Hframe _ _ _ _ _ _ _] Hi. eexists. split; [exact Hout|].
  destruct (sent cfg s _) as [c|] eqn:Es; cbn [option_list option_rect map]; intros Hok Hu.
  - apply sent_inv, intent_side_ok in Es.
    apply (slots_cmd sym side q c (cl_ord_seed_ s) evs (oms_ s)); try done.
    + by apply (Hok evs c []).
    + apply Hi; [by eapply cmds_ok_prefix|by eapply unique_ids_prefix].
  - rewrite app_nil_r in *. destruct (Hi Hok Hu) as [Hr Hs]. split; [done|]. intros sym' side' q' Hside'.
    destruct (decide ((sym, side_index side) = (sym', side_index side'))) as [E|E]; [|rewrite Hframe by done; by apply Hs].
    injection E as <- E. rewrite <- (slot_at_side _ _ _ _ E), Hslot. intros [= <-]. apply Hs; [done|].
    by rewrite <- (slot_at_side _ _ _ _ E).
Qed.

(** A report that the flow of orders lets through. *)
Lemma slots_report sym_of f e evs o o' :
  flow_inv sym_of f -> fl_events f = evs ++ [EvExec e] -> cmds_ok evs -> unique_ids evs ->
  (forall c, c ∈ commands evs -> sym_of c = c_symbol_id c /\ c_cl_ord_id c <> 0) ->
  oms_shape o -> on_exec e o = Ok o' -> slots_inv o evs -> slots_inv o' (evs ++ [EvExec e]).
Proof.
  intros Hf Hevs Hok Hu Hc Hsh Hx Hi. pose proof (fi_items _ _ Hf) as Hit. pose proof (fi_new_once _ _ Hf) as Hn.
  unfold all_items in Hit, Hn. rewrite Hevs, (commands_exec evs e), ?handled_exec, <- ?app_assoc in Hit. rewrite Hevs, handled_exec, <- app_assoc in Hn.
  destruct (Hit (exec_item e)) as (c & Hcin & _ & Hid & Hsym & Hk); [apply elem_of_app; right; by left|].
  destruct (Hc c Hcin) as [Hs Hpos]. cbn [exec_item it_id it_sym it_kind] in *.
  apply (slots_exec e c evs o); try done; [congruence|].
  intros Hnew (e0 & He0 & Hid0 & Ht0).
  assert (Hin0 : exec_item e0 ∈ handled_items evs) by (unfold handled_items; apply list_elem_of_omap; by exists (EvExec e0)).
  destruct (Hit (exec_item e0)) as (c0 & Hcin0 & _ & Hid' & _ & Hk0); [apply elem_of_app; by left|].
  cbn [exec_item it_id it_kind] in *. assert (c0 = c) as -> by (apply (unique_eq evs); [done..|congruence]).
  destruct (c_type c); [|congruence]. destruct Hk0 as [Hk0|Hk0]; [|by rewrite Hk0 in Ht0].
  unfold new_ids in Hn. rewrite omap_app in Hn. apply list.NoDup_app in Hn as (_ & Hn & _). apply (Hn (x_cl_ord_id e)).
  - apply list_elem_of_omap. exists (exec_item e0). split; [done|]. cbn. by rewrite Hk0, Hid0.
  - cbn. rewrite Hnew. left.
Qed.

Lemma slots_strat_step sym_of f ps l ps' evs :
  strat_inv ps evs -> strat_step cfg clock ps l ps' ->
  flow_inv sym_of f -> fl_events f = evs ++ events_of l -> cmds_ok (evs ++ events_of l) -> unique_ids (evs ++ events_of l) ->
  (forall c, c ∈ commands (evs ++ events_of l) -> sym_of c = c_symbol_id c /\ c_cl_ord_id c <> 0) ->
  slots_inv (oms_ (snd ps)) evs -> slots_inv (oms_ (snd ps')) (evs ++ events_of l).
Proof.
  intros (Heok & _) Hst Hf Hevs Hok Hu Hc Hi.
  destruct Hst as [s e s1 s2 Hp Hx|s s1 Hp|s ev s1 s2 cmds Hp Hev Hx Hout|s s1 Hp|p s s' He]; cbn [snd events_of] in *; rewrite ?app_nil_r.
  - destruct (pop_exec_spec s Heok) as (q & Hp' & Hok1 & _). rewrite Hp in Hp'. injection Hp' as _ ->.
    destruct (handle_exec_inv e _ s2 Hok1 Hx) as [_ _ Hx' _ _ _ _].
    apply (slots_report sym_of f e evs (oms_ (set_exec s q))); try done;
      [by eapply cmds_ok_prefix|by eapply unique_ids_prefix| |apply Hok1].
    intros c Hin. apply Hc. by rewrite commands_exec.
  - destruct (pop_exec_spec s Heok) as (q & Hp' & _). rewrite Hp in Hp'. by injection Hp' as _ ->.
  - destruct (pop_md_spec s Heok) as (q & Hp' & Hok1 & _). rewrite Hp in Hp'. injection Hp' as _ ->.
    destruct (handle_md_inv cfg clock HK HI ev _ s2 Hok1 Hev Hx) as (ob0 & _ & E).
    apply (md_effect_ind cfg clock (fun s evs => cmds_ok evs -> unique_ids evs -> slots_inv (oms_ s) evs)
      ev (apply_snapshot ev (book_depth cfg) ob0) (set_md s q)); [| |exact E|exact Hout|done..].
    + intros s0 s3 evs0 Hq H0. by rewrite (qu_oms _ _ Hq).
    + intros side q0 s0 s3 evs0 Hr Hq Hrun H0. by eapply slots_side.
  - destruct (pop_md_spec s Heok) as (q & Hp' & _). rewrite Hp in Hp'. by injection Hp' as _ ->.
  - by rewrite (es_oms _ _ He).
Qed.
End Steps.

(** ** When nothing is under way *)

(** The slot and the commands of the orders in the book agree. *)
Definition commanded (book : list OrderCmd) (sym : Z) (side : OrdSide) (q : Quote) : Prop :=
  match q_state q with
  | Live => exists c, c ∈ book /\ cmd_for sym side c /\
      q_cl_ord_id q = c_cl_ord_id c /\ q_price q = c_price c /\ q_qty q = c_qty c
  | PendingNew => False
  | QsNone | PendingCancel => forall c, c ∈ book -> ~ cmd_for sym side c
  end.

Lemma quiet_commanded sym_of f o sym side q :
  flow_inv sym_of f -> kept_inv sym_of f -> cmds_ok (fl_events f) -> unique_ids (fl_events f) -> slots_inv o (fl_events f) ->
  (forall c, c ∈ commands (fl_events f) -> sym_of c = c_symbol_id c /\ c_cl_ord_id c <> 0) ->
  (forall c q, c ∈ fl_book f -> cmd_for sym side c -> slot_at o sym side = Some q -> q_cl_ord_id q = c_cl_ord_id c) ->
  fl_pending f = [] -> fl_reports f = [] -> real_side side -> slot_at o sym side = Some q ->
  commanded (fl_book f) sym side q.
Proof.
  intros Hf Hk Hok Hu [Hr Hs] Hc Hheld HP HQ Hside Hq. destruct f as [evs P Q B].
  cbn [fl_events fl_pending fl_reports fl_book] in *. subst P Q.
  pose proof (fi_book _ _ Hf) as Hb. pose proof (ki_taken _ _ Hk) as Ht. pose proof (ki_book _ _ Hk) as Hcb. pose proof (ki_filled _ _ Hk) as Hfl.
  unfold all_items in *. cbn [fl_events fl_pending fl_reports fl_book map] in *.
  rewrite app_nil_r in *.
  assert (Hnil : forall i : Z, i ∉ []) by (intros i; apply not_elem_of_nil).
  destruct (Hs sym side q Hside Hq) as [[Hz Hn]|(c & Hd)].
  - unfold commanded. rewrite Hn. intros c Hin Hfor. destruct (Hb c Hin) as (Hcin & _).
    destruct (Hc c Hcin) as [_ H0]. apply H0. by rewrite <- (Hheld c q Hin Hfor Hq).
  - destruct Hd as [Hcin Hty Hfor Hid Hpx Hqty Hw Hst]. destruct (Ht c Hcin Hty (Hnil _)) as [Hack Hwhere].
    unfold commanded, stage in *. destruct (q_state q) eqn:Eq; [done| | |].
    + unfold handled_items in Hack. apply list_elem_of_omap in Hack as ([e|] & He & [=]).
      apply (Hst e He). congruence.
    + exists c. destruct Hwhere as [HcB|[Hfi|(d & Hd & Hdt & Ho & _)]].
      * done.
      * destruct (Hfl c Hcin Hty Hfi Hw).
      * destruct (Hst d Hd Hdt). congruence.
    + destruct Hst as (d & Hd & Hdt & Ho). intros c' Hc' Hfor'. apply (Hnil (c_cl_ord_id d)).
      apply (Hcb c' d Hc' Hd Hdt). rewrite Ho. by apply Hheld.
Qed.

(** ** The closed loop *)
Section Loop.
Context {QO : QueueOps} {QL : QueueLaws} {QF : QuickFix} {QFL : QuickFixLaws} {LO : LmdbOps}.
Context {FW : FixWire} {FWL : FixWireLaws}.
Context (cfg : EngineConfig) (fclock sclock : nat -> Z).
Context {HF : ClockOk fclock} {HK : ClockOk sclock} {HI : IntervalOk cfg} {HC : CleanConfig cfg}.
Context (sendToTarget : FixOut -> option SessionID -> Res bool) (log_open : bool) (db : Db).
Context (now_ts : stamp -> chars) {HN : CleanClock now_ts}.

Abbreviation start := (system_init cfg sclock log_open db).
Abbreviation f0 := (sy_fix start).
Abbreviation init := (loop_init cfg sclock log_open db).
Abbreviation step := (loop_step cfg fclock sclock sendToTarget log_open db now_ts).
Abbreviation lrun := (loop_run cfg fclock sclock sendToTarget log_open db now_ts).
Abbreviation flow_of := (flow_of cfg sclock log_open db).
Abbreviation loop_inv := (loop_inv cfg fclock sclock sendToTarget log_open db).
Abbreviation wire_symbol := (wire_symbol cfg sclock log_open db).
Abbreviation order_entry := (order_entry cfg sclock log_open db).
Abbreviation symbol_text := (symbol_text cfg sclock log_open db).

(** Commands and reports between the two order books. *)
Definition under_way (p : Loop) : nat :=
  length (orders_of (lp_to p) ++ out_cmds (sy_engine (lp_sys p))) + length (in_transit cfg sclock log_open db p).

(** A step loses no message: no fewer are under way after it, but for the reports
    it hands to the strategy. *)
Definition loses_nothing (p : Loop) (l : option sys_label) (p' : Loop) : Prop :=
  (under_way p <= under_way p' + length (handled_items (emitted (option_list l))))%nat.

Definition lossless_run := run (fun p l p' => step p l p' /\ loses_nothing p l p').

Lemma lossless_loop_run p tr p' : lossless_run p tr p' -> lrun p tr p'.
Proof. induction 1 as [|a t b l c H IH [Hs _]]; [constructor|by eapply run_snoc]. Qed.

(** What the loop keeps when it loses nothing. *)
Record agree_inv (tr : list (option sys_label)) (B : list OrderCmd) (p : Loop) : Prop := {
  ai_loop : loop_inv tr B p;
  ai_kept : kept_inv wire_symbol (flow_of (emitted (engine_trace tr)) B p);
  ai_slots : slots_inv (oms_ (sy_engine (lp_sys p))) (emitted (engine_trace tr))
}.

Lemma agree_inv_init : agree_inv [] [] init.
Proof.
  split; [by apply loop_inv_init| |apply slots_init].
  unfold ClosedLoop.flow_of, in_transit. cbn [loop_init lp_sys lp_to lp_from lp_todo lp_book system_init sy_engine engine_init exec_ flat_map].
  unfold out_cmds. cbn [out_ engine_init]. rewrite !q_init_empty by (exact kExecCap_legal || exact kOrdCap_legal).
  apply kept_inv_init.
Qed.

Section Kept.
Context (Hclock : 1000000 <= sclock 0%nat).

Lemma seed_pos : 0 < cl_ord_seed_ (engine_init sclock log_open).
Proof.
  cbn [engine_init cl_ord_seed_]. pose proof (HK 0%nat) as Hc. rewrite Z.quot_div_nonneg by lia.
  assert (1 <= sclock 0%nat / 1000000 < 2 ^ 43) by (split; [apply Z.div_le_lower_bound; lia|apply Z.div_lt_upper_bound; lia]).
  rewrite (u64_id (_ / _)) by (unfold in_u64; lia). rewrite u64_id by (unfold in_u64; lia). lia.
Qed.

Lemma commands_known tr s c :
  sys_run cfg fclock sclock sendToTarget start tr s -> short (length tr) -> c ∈ commands (emitted tr) ->
  wire_symbol c = c_symbol_id c /\ c_cl_ord_id c <> 0.
Proof.
  intros Hrun Hs Hc. split.
  - apply sys_reach in Hrun as []; [|done..]. rewrite List.Forall_forall in si_known.
    by destruct (si_known c) as [_ [_ ?]]; [apply list_elem_of_In|].
  - destruct (run_ids cfg fclock sclock sendToTarget log_open db tr s Hrun Hs) as (_ & _ & Hid).
    destruct (Hid c Hc) as [_ Hge]. pose proof seed_pos. lia.
Qed.

(** The slots, over one step of the loop. *)
Lemma slots_step tr B p l B' p' :
  agree_inv tr B p -> loop_inv (tr ++ [l]) B' p' -> short (length (tr ++ [l])) -> step p l p' ->
  slots_inv (oms_ (sy_engine (lp_sys p'))) (emitted (engine_trace (tr ++ [l]))).
Proof.
  intros [Hi _ Hslots] Hi' Hs Hst. pose proof (loop_step_engine cfg fclock sclock sendToTarget log_open db now_ts p l p' Hst) as He.
  destruct Hi' as [Hrun' Hf' _ _]. destruct Hi as [Hrun _ _ _].
  destruct (run_ids cfg fclock sclock sendToTarget log_open db _ _ Hrun') as (Hok & Hu & _);
    [unfold short in *; pose proof (engine_trace_length (tr ++ [l])); lia|].
  assert (Hc : forall c, c ∈ commands (emitted (engine_trace (tr ++ [l]))) -> wire_symbol c = c_symbol_id c /\ c_cl_ord_id c <> 0).
  { intros c. apply (commands_known _ _ _ Hrun'). unfold short in *. pose proof (engine_trace_length (tr ++ [l])). lia. }
  pose proof (sys_reach cfg fclock sclock sendToTarget log_open db _ _ Hrun) as Hsi.
  rewrite engine_trace_snoc, emitted_app, emitted_label in *. destruct l as [l|].
  2: { rewrite He, app_nil_r. exact Hslots. }
  destruct l.
  5: { inversion He as [| | | |? ? p0 e Hl Hss| | |]; subst. cbn [strat_label] in *.
    pose proof (reach_inv cfg sclock log_open _ _ (si_run _ _ _ _ _ _ Hsi)) as Hsinv.
    apply (slots_strat_step cfg sclock wire_symbol _ _ _ _ _ Hsinv Hss Hf'); done. }
  all: destruct (step_other_effect cfg fclock sclock sendToTarget log_open db _ _ _ _ Hsi He eq_refl) as [_ _ Henv _ _ _ _ _].
  all: cbn [strat_label events_of] in *; rewrite app_nil_r, (es_oms _ _ Henv); exact Hslots.
Qed.

Lemma traffic_of evs B p : traffic (flow_of evs B p) = (length (handled_items evs) + under_way p)%nat.
Proof.
  unfold traffic, all_items, under_way, ClosedLoop.flow_of. cbn [fl_pending fl_events fl_reports]. rewrite !length_app. lia.
Qed.

Lemma agree_inv_step tr B p l p' :
  agree_inv tr B p -> short (length (tr ++ [l])) -> step p l p' -> loses_nothing p l p' ->
  exists B', agree_inv (tr ++ [l]) B' p'.
Proof.
  intros Ha Hs Hst Hn. pose proof Ha as [Hi Hk _].
  assert (Hs0 : short (length tr)) by (unfold short in *; rewrite length_app in Hs; lia).
  destruct (loop_inv_step cfg fclock sclock sendToTarget log_open db now_ts tr B p l p' Hi Hs Hst) as (B' & Hi' & Hm).
  exists B'. split; [exact Hi'| |by eapply slots_step].
  destruct (run_ids cfg fclock sclock sendToTarget log_open db _ _ (li_run _ _ _ _ _ _ _ _ _ Hi')) as (Hok & Hu & _);
    [unfold short in *; pose proof (engine_trace_length (tr ++ [l])); lia|].
  apply (kept_inv_move wire_symbol (flow_of (emitted (engine_trace tr)) B p)); [exact Hok|exact Hu| |exact Hm| |apply Hi|exact Hk].
  - intros c Hc. apply (commands_known _ _ _ (li_run _ _ _ _ _ _ _ _ _ Hi)); [|exact Hc].
    unfold short in *. pose proof (engine_trace_length tr). lia.
  - rewrite !traffic_of, engine_trace_snoc, emitted_app. unfold handled_items at 2. rewrite omap_app, length_app.
    fold (handled_items (emitted (engine_trace tr))). fold (handled_items (emitted (option_list l))).
    unfold loses_nothing in Hn. lia.
Qed.

Lemma agree_inv_run tr p : lossless_run init tr p -> short (length tr) -> exists B, agree_inv tr B p.
Proof.
  intros H. remember init as p0 eqn:E. induction H as [q|a t b l c H IH [Hst Hn]]; intros Hs; [subst; exists []; apply agree_inv_init|].
  destruct IH as [B HB]; [done|unfold short in *; rewrite length_app in Hs; lia|]. by eapply agree_inv_step.
Qed.

(** The commands, when nothing is under way. *)
Lemma quiet_book tr B p sym side q :
  agree_inv tr B p -> short (length tr) -> under_way p = 0%nat -> real_side side ->
  slot_at (oms_ (sy_engine (lp_sys p))) sym side = Some q -> commanded B sym side q.
Proof.
  intros [Hi Hk Hslots] Hs Hq Hside Hat. pose proof Hi as [He Hf _ _].
  assert (Hse : short (length (engine_trace tr))) by (unfold short in *; pose proof (engine_trace_length tr); lia).
  destruct (run_ids cfg fclock sclock sendToTarget log_open db _ _ He Hse) as (Hok & Hu & _). unfold under_way in Hq.
  apply (quiet_commanded wire_symbol (flow_of (emitted (engine_trace tr)) B p) (oms_ (sy_engine (lp_sys p)))); try done.
  - intros c. by apply (commands_known _ _ _ He).
  - intros c q' Hc [<- <-] Hq'.
    destruct (book_held cfg fclock sclock sendToTarget log_open db tr B p c Hi Hs Hc) as (_ & _ & q2 & Hq2 & _ & <-). congruence.
  - apply nil_length_inv. cbn [flow_of fl_pending]. lia.
  - apply nil_length_inv. cbn [flow_of fl_reports]. lia.
Qed.
End Kept.

(** The slot and the texts of the orders in the book agree. *)
Definition agrees (book : list BookOrder) (name : chars) (side : OrdSide) (q : Quote) : Prop :=
  match q_state q with
  | Live => mkBookOrder (id_text (q_cl_ord_id q)) name [side_char side] (double_text (q_price q)) (double_text (q_qty q)) ∈ book
  | PendingNew => False
  | QsNone | PendingCancel => forall o, o ∈ book -> ~ (bo_symbol o = name /\ bo_side o = [side_char side])
  end.

Lemma commanded_agrees tr B p sym side q :
  loop_inv tr B p -> short (length tr) -> first_named f0 sym -> real_side side ->
  commanded B sym side q -> agrees (lp_book p) (default [] (zget (symbols_ f0) sym)) side q.
Proof.
  intros Hi Hs Hsym Hside Hc. rewrite (li_book _ _ _ _ _ _ _ _ _ Hi). unfold commanded, agrees in *.
  assert (Hno : (forall c, c ∈ B -> ~ cmd_for sym side c) -> forall o, o ∈ map order_entry B ->
    ~ (bo_symbol o = default [] (zget (symbols_ f0) sym) /\ bo_side o = [side_char side])).
  { intros Hn o (c & <- & Hin%list_elem_of_In)%list_elem_of_In%in_map_iff [E1 [= E2]]. apply (Hn c Hin).
    destruct (book_held cfg fclock sclock sendToTarget log_open db tr B p c Hi Hs Hin) as (H1 & [_ H2] & _).
    split; [|by destruct H1 as [H1|H1], Hside as [H3|H3]; rewrite H1, H3 in *].
    destruct Hsym as [_ Hsym]. rewrite <- Hsym, <- H2. cbn in E1. unfold ClosedLoop.symbol_text in E1. by rewrite E1. }
  destruct (q_state q); [by apply Hno|done| |by apply Hno].
  destruct Hc as (c & Hin & [<- <-] & -> & -> & ->). apply list_elem_of_In, in_map_iff. exists c.
  split; [done|by apply list_elem_of_In].
Qed.

(** C3: the engine's picture of its orders is right.  In a run that has lost no
    message, whenever none is under way, a Live slot is an order of the exchange's
    book with the same id, instrument, side, price and quantity: the exchange has
    read them, as texts, from tags 11, 55, 54, 44 and 38 of a NewOrderSingle.  An
    empty slot and one that waits for its cancel have no order there; and no slot
    waits for an acknowledgement.  The slot is that of an instrument whose name no
    earlier instrument of the configuration has; the clock has reached a
    millisecond when the engine starts (so that no ClOrdID is 0) and the run is
    shorter than 2^62 steps. *)
Theorem books_agree_when_quiet (tr : list (option sys_label)) (p : Loop) (sym : Z) (side : OrdSide) (q : Quote) :
  first_named f0 sym -> 1000000 <= sclock 0%nat ->
  lossless_run init tr p -> 2 * Z.of_nat (length tr) < 2 ^ 63 -> under_way p = 0%nat ->
  side = Buy \/ side = Sell -> slot_at (oms_ (sy_engine (lp_sys p))) sym side = Some q ->
  agrees (lp_book p) (default [] (zget (symbols_ f0) sym)) side q.
Proof.
  intros Hsym Hclock Hrun Hs Hq Hside Hat. destruct (agree_inv_run Hclock tr p Hrun Hs) as [B Ha].
  eapply commanded_agrees; [apply Ha|exact Hs|exact Hsym|exact Hside|]. by eapply quiet_book.
Qed.
End Loop.

(** ** Witness *)

(** Every step of a script loses nothing. *)
Fixpoint script_keeps (script : list loop_action) (p : Loop) : bool :=
  match script with
  | [] => true
  | a :: script =>
      match loop_act demo_fix_config demo_clock demo_clock wire_send true ∅ demo_now a p with
      | Some (l, p') =>
          (under_way demo_fix_config demo_clock true ∅ p <=?
           under_way demo_fix_config demo_clock true ∅ p' + length (handled_items (emitted (option_list l))))%nat &&
          script_keeps script p'
      | None => true
      end
  end.

Abbreviation demo_lossless := (lossless_run demo_fix_config demo_clock demo_clock wire_send true ∅ demo_now).

Lemma script_keeps_ok script p :
  script_keeps script p = true -> demo_lossless p (play_labels script p) (play_loop script p).
Proof.
  unfold play_labels, play_loop. destruct (wire_play script p) as [[tr p']|] eqn:E; [|constructor].
  unfold wire_play in E. revert p tr E. induction script as [|a script IH]; intros p tr; cbn [loop_play script_keeps].
  - intros [= <- <-] _. constructor.
  - destruct (loop_act _ _ _ _ _ _ _ a p) as [[l q]|] eqn:Ea; [|done].
    destruct (loop_play _ _ _ _ _ _ _ script q) as [[t q']|] eqn:Eq; [|done].
    intros [= <- <-] [Hk Hks]%andb_true_iff. change (l :: t) with ([l] ++ t). eapply run_app; [|by apply IH].
    apply run_one. split; [by apply (loop_act_sound _ _ _ _ _ _ _ a)|]. by apply Nat.leb_le.
Qed.

Definition quoted_slot (side : OrdSide) : Quote := default Quote_zero (slot_at (oms_ (sy_engine (lp_sys quoted))) 1 side).

Lemma books_agree_when_quiet_witness :
  agrees (lp_book quoted) (lit "DLR/JUL26") Buy (quoted_slot Buy) /\ q_state (quoted_slot Buy) = Live.
Proof.
  split; [|vm_compute; reflexivity].
  apply (books_agree_when_quiet demo_fix_config demo_clock demo_clock wire_send true ∅ demo_now
    (play_labels quoting_script wire_start) quoted 1 Buy (quoted_slot Buy)).
  - split; vm_compute; [by split|reflexivity].
  - apply Z.leb_le. vm_compute. reflexivity.
  - apply script_keeps_ok. vm_compute. reflexivity.
  - vm_compute. reflexivity.
  - vm_compute. reflexivity.
  - by left.
  - vm_compute. reflexivity.
Defined.
