(* ===== verification/Records.v ===== *)
(** * The whole engine: its records (src/src/main.cpp, live mode)

    What the engine leaves for a reader afterwards, in every reachable state of
    the threads together: the operations log (a line per command and fill) and
    the trade history in LMDB (a record per fill), each proved against the trace
    of what happened.  The history holds unless an LMDB call has failed in one
    of the persister's cycles ([cycle_failed]).  The registry of counters and histograms is in Registry. *)
From S2P Require Import Prelude.
From S2P Require Import Double.
From S2P Require Import Events.
From S2P Require Import SpscRing.
From S2P Require Import Queue.
From S2P Require Import Text.
From S2P Require Import LatencyHistogram.
From S2P Require Import Metrics.
From S2P Require Import OrderBook.
From S2P Require Import OrderManager.
From S2P Require Import AsyncLogger.
From S2P Require Import Persister.
From S2P Require Import Config.
From S2P Require Import MarketMaker.
From S2P Require Import MarketMakerFacts.
From S2P Require Import StrategySteps.
From S2P Require Import StrategyProps.
From S2P Require Import DecisionProps.
From S2P Require Import FixApp.
From S2P Require Import FixProps.
From S2P Require Import Main.
From S2P Require Import System.
From S2P Require Import Typing.
From S2P Require Import SystemTypes.
From S2P Require Import StrategyDemo.
From S2P Require Import SystemProps.
From S2P Require Import Ledger.

(** ** What the trace says should be recorded *)

(** The events that leave a line in the operations log: commands and fills. *)
Definition audited (ev : event) : bool :=
  match ev with EvCmd _ => true | EvExec e => is_fill e end.

(** The record of such an event. *)
Definition entry_of (ev : event) (r : LogRecord) : Prop :=
  match ev with EvCmd c => cmd_entry c r | EvExec e => r = fill_entry e end.

Definition audit_events (evs : list event) : list event := List.filter audited evs.

(** The fills the strategy has handled, in order. *)
Definition fills (evs : list event) : list ExecEvent :=
  omap (fun ev => match ev with EvExec e => if is_fill e then Some e else None | EvCmd _ => None end) evs.

Lemma audit_events_app a b : audit_events (a ++ b) = audit_events a ++ audit_events b.
Proof. apply List.filter_app. Qed.

Lemma fills_app a b : fills (a ++ b) = fills a ++ fills b.
Proof. unfold fills. by rewrite omap_app. Qed.

Lemma audit_cmds cmds : audit_events (map EvCmd cmds) = map EvCmd cmds.
Proof. induction cmds as [|c cmds IH]; [done|]. unfold audit_events in *. cbn. by rewrite IH. Qed.

Lemma fills_cmds cmds : fills (map EvCmd cmds) = [].
Proof. by induction cmds. Qed.

(** The ledger of a step records its events. *)
Lemma step_ledger_audit clock l ld :
  step_ledger clock l ld ->
  Forall2 entry_of (audit_events (events_of l)) (ld_recs ld) /\ ld_fills ld = fills (events_of l) /\
  (length (ld_snaps ld) <= 8)%nat.
Proof.
  destruct l as [|e|ev cmds|]; cbn [step_ledger events_of];
    [intros ->; repeat split; try constructor; cbn; lia| | |intros ->; repeat split; try constructor; cbn; lia].
  - unfold audit_events, fills. cbn. destruct (is_fill e); intros ->; cbn; repeat split;
      repeat constructor; lia.
  - intros [<- [Hr Hf Hs _ _]]. rewrite audit_cmds, fills_cmds. split; [|done].
    induction Hr; cbn; constructor; done.
Qed.

Section Records.
Context {QO : QueueOps} {QL : QueueLaws} {QF : QuickFix} {QFL : QuickFixLaws} {LO : LmdbOps}.
Context (cfg : EngineConfig) (fclock sclock : nat -> Z).
Context {HF : ClockOk fclock} {HK : ClockOk sclock} {HI : IntervalOk cfg}.
Context (sendToTarget : FixOut -> option SessionID -> Res bool) (log_open : bool) (db : Db).

Abbreviation start := (system_init cfg sclock log_open db).
Abbreviation sys := (sys_run cfg fclock sclock sendToTarget).
Abbreviation step := (sys_step cfg fclock sclock sendToTarget).

(** Rule induction over the reachable states, with what is known of them. *)
Lemma sys_induct (I : list sys_label -> System -> Prop) :
  I [] start ->
  (forall tr s l s', sys start tr s -> engine_ok (sy_engine s) -> I tr s -> step s l s' -> I (tr ++ [l]) s') ->
  forall tr s, sys start tr s -> I tr s.
Proof.
  intros H0 Hs tr s H. remember start as s0 eqn:E. induction H as [|a t b l d H IH Hst]; subst; [done|].
  eapply Hs; [exact H| |by apply IH|exact Hst].
  exact (si_engine _ _ _ _ _ _ (sys_reach cfg fclock sclock sendToTarget log_open db t b H)).
Qed.

(** The run has been through a state with the property. *)
Definition passed (P : System -> Prop) (tr : list sys_label) (s : System) : Prop :=
  exists tr1 s1 tr2, tr = tr1 ++ tr2 /\ sys start tr1 s1 /\ sys s1 tr2 s /\ P s1.

Lemma passed_now P tr s : sys start tr s -> P s -> passed P tr s.
Proof. intros H HP. exists tr, s, []. rewrite app_nil_r. do 2 (split; [done|]). split; [constructor|done]. Qed.

Lemma passed_step P tr s l s' : passed P tr s -> step s l s' -> passed P (tr ++ [l]) s'.
Proof.
  intros (t1 & s1 & t2 & -> & H1 & H2 & HP) Hst. exists t1, s1, (t2 ++ [l]).
  split; [by rewrite app_assoc|]. split; [done|]. split; [by eapply run_snoc|done].
Qed.

(** *** What the steps of the other threads leave alone *)

Lemma other_keeps_log s l s' :
  step s l s' -> (forall sl, l <> SStrat sl) -> l <> SLog -> log_ (sy_engine s') = log_ (sy_engine s).
Proof. intros Hst Hl Hn. destruct Hst; try done. by destruct (Hl l). Qed.

Lemma other_keeps_history s l s' :
  step s l s' -> (forall sl, l <> SStrat sl) -> l <> SPersist ->
  db_ (sy_engine s') = db_ (sy_engine s) /\ sy_db s' = sy_db s.
Proof. intros Hst Hl Hn. destruct Hst; try done. by destruct (Hl l). Qed.

Lemma strat_label_events s l s' :
  step s l s' -> (forall sl, l <> SStrat sl) -> events_of (strat_label l) = [].
Proof. intros Hst Hl. destruct Hst; try done. by destruct (Hl l). Qed.

(** ** The operations log *)

Definition log_full (s : System) : Prop := Z.of_nat (length (queued (log_ (sy_engine s)))) = kLogCap.

(** [kept] is what the ring accepted of the records that were due. *)
Record log_inv (tr : list sys_label) (s : System) : Prop := {
  li_lines : exists recs kept written,
    Forall2 entry_of (audit_events (emitted tr)) recs /\ kept `sublist_of` recs /\
    (kept = recs \/ passed log_full tr s) /\ kept = written ++ queued (log_ (sy_engine s)) /\
    f_ (log_ (sy_engine s)) = (if log_open then Some (csv_header :: map csv_row written) else None)
}.

Lemma log_inv_strat tr s l p e :
  sys start tr s -> engine_ok (sy_engine s) -> log_inv tr s -> l <> LEnv ->
  strat_step cfg sclock (sy_pc s, sy_engine s) l (p, e) ->
  log_inv (tr ++ [SStrat l]) (mkSystem p e (sy_fix s) (sy_db s)).
Proof.
  intros Hrun Hok [(recs & kept & written & HR & Hsub & Hfull & Hk & Hf)] Hl Hst.
  pose proof (sy_strat cfg fclock sclock sendToTarget s l p e Hl Hst) as Hs.
  destruct (strat_step_entered cfg sclock _ _ _ _ _ Hok Hl Hst) as (ld & Hld & He).
  destruct (step_ledger_audit _ _ _ Hld) as (Hr & _ & _).
  assert (Hcap : Z.of_nat (length (queued (log_ (sy_engine s)))) <= kLogCap) by (apply held_le, Hok).
  destruct (accept_split kLogCap (queued (log_ (sy_engine s))) (ld_recs ld)) as (new & Ha & Hp & Hn); [done|done|].
  split. exists (recs ++ ld_recs ld), (kept ++ new), written. cbn [sy_engine].
  rewrite (en_log _ _ _ He), (en_file _ _ _ He), emitted_snoc, audit_events_app, Ha.
  split; [by apply Forall2_app|]. split; [by apply sublist_app|].
  split; [|split; [by rewrite Hk, app_assoc|done]].
  destruct Hn as [-> | Hn].
  - destruct Hfull as [-> | Hfull]; [by left|right]. by eapply passed_step.
  - right. apply passed_now; [by eapply run_snoc|]. unfold log_full. cbn [sy_engine].
    by rewrite (en_log _ _ _ He).
Qed.

(** A drain moves the queued records to the file. *)
Lemma log_iter_lines lg lg' :
  logger_ok lg -> log_iter lg = Ok lg' ->
  queued lg' = [] /\ f_ lg' = option_map (fun lines => lines ++ map csv_row (queued lg)) (f_ lg).
Proof.
  intros Hok. unfold log_iter.
  destruct (q_drain_all write_row (log_ring_ lg) (f_ lg, 0) Hok) as (q' & Hq' & Hc & ->).
  rewrite write_rows. cbn [res_bind]. intros [= <-]. split; [exact Hc|]. cbn [f_]. by destruct (f_ lg).
Qed.

Lemma log_inv_same tr s l s' :
  log_inv tr s -> step s l s' -> events_of (strat_label l) = [] ->
  log_ (sy_engine s') = log_ (sy_engine s) -> log_inv (tr ++ [l]) s'.
Proof.
  intros [(recs & kept & written & HR & Hsub & Hfull & Hk & Hf)] Hst He Hlog. split.
  exists recs, kept, written. rewrite emitted_snoc, He, app_nil_r, Hlog. do 2 (split; [done|]). split; [|done].
  destruct Hfull as [-> | Hfull]; [by left|right]. by eapply passed_step.
Qed.

Lemma log_inv_drain tr s l s' lg :
  log_inv tr s -> step s l s' -> l = SLog -> logger_ok (log_ (sy_engine s)) ->
  log_iter (log_ (sy_engine s)) = Ok lg -> log_ (sy_engine s') = lg -> log_inv (tr ++ [l]) s'.
Proof.
  intros [(recs & kept & written & HR & Hsub & Hfull & Hk & Hf)] Hst -> Hok Hit Hlg. split.
  destruct (log_iter_lines _ _ Hok Hit) as [Hq Hf'].
  exists recs, kept, (written ++ queued (log_ (sy_engine s))).
  rewrite emitted_snoc, Hlg, Hq, Hf', Hf. cbn [strat_label events_of]. rewrite !app_nil_r, map_app.
  do 2 (split; [done|]). split; [|split; [done|by destruct log_open]].
  destruct Hfull as [-> | Hfull]; [by left|right]. by eapply passed_step.
Qed.

Lemma log_inv_reach tr s : sys start tr s -> log_inv tr s.
Proof.
  revert tr s. apply sys_induct.
  - split. exists [], [], []. cbn. unfold queued. cbn. rewrite (q_init_empty _ _ kLogCap_legal).
    do 2 (split; [constructor|]). split; [by left|]. split; [done|by destruct log_open].
  - intros tr s l s' Hrun Hok Hi Hst. pose proof Hst as Hst0. destruct Hst.
    5: by apply log_inv_strat.
    6: by eapply log_inv_drain; [exact Hi|exact Hst0|done|apply Hok|exact H|].
    all: by apply (log_inv_same tr s).
Qed.

(** C32: the operations log is complete.  In every reachable state of the
    engine whose log file could be opened, every order command and every fill
    since the start has had its record made, in the order they happened; the
    file holds its header and then one line for each record the log ring
    accepted but those still queued, in order; and every record was accepted
    unless the ring has been full at some moment of the run. *)
Theorem ops_log_complete (tr : list sys_label) (s : System) :
  sys start tr s -> log_open = true ->
  exists recs kept written,
    Forall2 entry_of (audit_events (emitted tr)) recs /\ kept `sublist_of` recs /\
    kept = written ++ queued (log_ (sy_engine s)) /\
    f_ (log_ (sy_engine s)) = Some (csv_header :: map csv_row written) /\
    (kept = recs \/ passed log_full tr s).
Proof.
  intros Hrun Ho. destruct (log_inv_reach tr s Hrun) as [(recs & kept & written & HR & Hs & Hf & Hk & Hl)].
  rewrite Ho in Hl. by exists recs, kept, written.
Qed.
(** ** The trade history *)

Lemma fills_le tr : (length (fills (emitted tr)) <= length tr)%nat.
Proof.
  induction tr as [|l tr IH] using rev_ind; [done|]. rewrite emitted_snoc, fills_app, !length_app. cbn [length].
  assert (length (fills (events_of (strat_label l))) <= 1)%nat; [|lia].
  destruct (strat_label l) as [|e|ev cmds|]; cbn [events_of]; rewrite ?fills_cmds; cbn; try lia.
  unfold fills. cbn. destruct (is_fill e); cbn; lia.
Qed.

Section History.
Context {LL : LmdbLaws}.

(** An LMDB call of a persister cycle of the run has failed: a begin, a put or a
    commit. *)
Definition cycle_failed (tr : list sys_label) (s : System) : Prop :=
  exists tr1 s1 tr2, tr = tr1 ++ SPersist :: tr2 /\ sys start tr1 s1 /\ sys s1 (SPersist :: tr2) s /\
    cycle_clean (db_ (sy_engine s1)) (sy_db s1) = false.

Lemma failed_step tr s l s' : cycle_failed tr s -> step s l s' -> cycle_failed (tr ++ [l]) s'.
Proof.
  intros (t1 & s1 & t2 & -> & H1 & H2 & H) Hst. exists t1, s1, (t2 ++ [l]). split; [by rewrite <- app_assoc|].
  split; [done|]. split; [|done]. by apply (run_snoc _ _ _ _ _ _ H2).
Qed.

Lemma failed_now tr s s' :
  sys start tr s -> step s SPersist s' -> cycle_clean (db_ (sy_engine s)) (sy_db s) = false -> cycle_failed (tr ++ [SPersist]) s'.
Proof. intros H Hst Hc. exists tr, s, []. do 2 (split; [done|]). split; [by apply run_one|done]. Qed.

Definition trades_full (s : System) : Prop := Z.of_nat (length (trades (db_ (sy_engine s)))) = kSnapCap.

(** A database with these fills in its trade history. *)
Definition has_trades (d : Db) (stored : list ExecEvent) : Prop :=
  forall i e, stored !! i = Some e -> mdb_get (trade_text (Z.of_nat i)) d = Some (BTrade e).

Record hist_inv (tr : list sys_label) (s : System) : Prop := {
  hi_trades : exists kept stored,
    kept `sublist_of` fills (emitted tr) /\ (kept = fills (emitted tr) \/ passed trades_full tr s) /\
    kept = stored ++ trades (db_ (sy_engine s)) /\
    trade_seq_ (db_ (sy_engine s)) = Z.of_nat (length stored) /\ has_trades (sy_db s) stored;
  hi_snaps : 0 <= snap_seq_ (db_ (sy_engine s)) /\
    snap_seq_ (db_ (sy_engine s)) + Z.of_nat (length (snaps (db_ (sy_engine s)))) <= 8 * Z.of_nat (length tr)
}.

Lemma hist_inv_strat tr s l p e :
  sys start tr s -> engine_ok (sy_engine s) -> hist_inv tr s -> l <> LEnv ->
  strat_step cfg sclock (sy_pc s, sy_engine s) l (p, e) ->
  hist_inv (tr ++ [SStrat l]) (mkSystem p e (sy_fix s) (sy_db s)).
Proof.
  intros Hrun Hok [(kept & stored & Hsub & Hfull & Hk & Hq & Hd) [Hs0 Hs]] Hl Hst.
  pose proof (sy_strat cfg fclock sclock sendToTarget s l p e Hl Hst) as Hstep.
  destruct (strat_step_entered cfg sclock _ _ _ _ _ Hok Hl Hst) as (ld & Hld & He).
  destruct (step_ledger_audit _ _ _ Hld) as (_ & Hfl & Hsl). destruct (en_seqs _ _ _ He) as [Hsq Htq].
  destruct (accept_split kSnapCap (trades (db_ (sy_engine s))) (ld_fills ld)) as (new & Ha & Hp & Hn);
    [done|apply held_le, Hok|].
  split; cbn [sy_engine sy_db].
  - exists (kept ++ new), stored. rewrite (en_trades _ _ _ He), emitted_snoc, fills_app, Ha, Htq.
    cbn [strat_label]. rewrite <- Hfl. split; [by apply sublist_app|].
    split; [|split; [by rewrite Hk, app_assoc|done]]. destruct Hn as [-> | Hn].
    + destruct Hfull as [-> | Hfull]; [by left|right]. by eapply passed_step.
    + right. apply passed_now; [by eapply run_snoc|]. unfold trades_full. cbn [sy_engine].
      by rewrite (en_trades _ _ _ He).
  - rewrite Hsq, (en_snaps _ _ _ He). split; [done|]. unfold accept.
    rewrite length_take, !length_app. cbn [length]. lia.
Qed.

Lemma hist_inv_same tr s l s' :
  hist_inv tr s -> step s l s' -> events_of (strat_label l) = [] ->
  db_ (sy_engine s') = db_ (sy_engine s) /\ sy_db s' = sy_db s -> hist_inv (tr ++ [l]) s'.
Proof.
  intros [(kept & stored & Hsub & Hfull & Hrest) Hs] Hst He [Hdb Hd]. split.
  - exists kept, stored. rewrite emitted_snoc, He, app_nil_r, Hdb, Hd. split; [done|]. split; [|done].
    destruct Hfull as [-> | Hfull]; [by left|right]. by eapply passed_step.
  - rewrite Hdb, length_app. cbn [length]. lia.
Qed.

(** The persister of a reachable state is one its cycle was proved for. *)
Lemma reached_persister tr s :
  sys start tr s -> hist_inv tr s -> Z.of_nat (length tr) < 2 ^ 60 -> persister_ok (db_ (sy_engine s)).
Proof.
  intros Hrun [(kept & stored & Hsub & _ & Hk & Hq & _) [Hs0 Hs]] Hlen.
  pose proof (sys_reach_typed cfg fclock sclock sendToTarget log_open db tr s Hrun) as (He & _).
  pose proof (engine_typed_ok _ He) as [].
  apply sublist_length in Hsub. pose proof (fills_le tr). rewrite Hk, length_app in Hsub.
  split; try done; [split; lia..|].
  destruct He as (_ & _ & _ & _ & (_ & _ & (_ & Ht) & _) & _).
  eapply Forall_impl; [|exact Ht]. intros b (_ & Hb & _). exact Hb.
Qed.

(** A cycle moves the queued fills behind the stored ones. *)
Lemma stored_has_trades p d d' stored :
  persister_ok p -> cycle_stored p d d' -> trade_seq_ p = Z.of_nat (length stored) ->
  has_trades d stored -> has_trades d' (stored ++ trades p).
Proof.
  intros Hp [_ Hct Hco _] Hq Hd i e Hi. pose proof (po_troom _ Hp) as [_ Hr].
  pose proof (lookup_lt_Some _ _ _ Hi) as Hlt. rewrite length_app in Hlt.
  apply lookup_app_Some in Hi as [Hi|[Hge Hi]].
  - pose proof (lookup_lt_Some _ _ _ Hi). rewrite Hco; [by apply Hd|..].
    + intros j b _ E. by apply snap_trade_ne in E.
    + intros j x Hj E. apply lookup_lt_Some in Hj. apply trade_text_inj in E; unfold in_u64; lia.
  - replace (Z.of_nat i) with (trade_seq_ p + Z.of_nat (i - length stored)) by lia. by apply Hct.
Qed.

Lemma hist_inv_persist tr s l s' p d :
  sys start tr s -> hist_inv tr s -> step s l s' -> l = SPersist -> Z.of_nat (length tr) < 2 ^ 60 ->
  cycle_clean (db_ (sy_engine s)) (sy_db s) = true ->
  persist_cycle (db_ (sy_engine s)) (sy_db s) = Ok (p, d) -> db_ (sy_engine s') = p -> sy_db s' = d ->
  hist_inv (tr ++ [l]) s'.
Proof.
  intros Hrun Hi Hst -> Hlen Hclean Hc Hp Hd. pose proof (reached_persister tr s Hrun Hi Hlen) as Hok.
  destruct Hi as [(kept & stored & Hsub & Hfull & Hk & Hq & Ht) [Hs0 Hs]].
  destruct (persist_cycle_stored _ _ Hok Hclean) as (p1 & d1 & H1 & Hst1 & _ & Hn1 & Hn2 & Hsq & Htq).
  rewrite H1 in Hc. injection Hc as -> ->. split; rewrite ?Hp, ?Hd.
  - exists kept, (stored ++ trades (db_ (sy_engine s))).
    rewrite emitted_snoc, Hn2, Htq, Hq, length_app. cbn [strat_label events_of]. rewrite !app_nil_r.
    split; [done|]. split; [|split; [done|split; [lia|by eapply stored_has_trades]]].
    destruct Hfull as [-> | Hfull]; [by left|right]. by eapply passed_step.
  - rewrite Hn1, Hsq, length_app. cbn [length]. lia.
Qed.

Lemma hist_inv_init : hist_inv [] start.
Proof.
  split.
  - exists [], []. unfold trades. cbn. rewrite (q_init_empty _ _ kSnapCap_legal).
    do 2 (split; [constructor; done|]). do 2 (split; [done|]). intros i e Hi. by rewrite lookup_nil in Hi.
  - unfold snaps. cbn. rewrite (q_init_empty _ _ kSnapCap_legal). cbn. lia.
Qed.

Lemma hist_inv_reach tr s :
  sys start tr s -> Z.of_nat (length tr) < 2 ^ 60 -> hist_inv tr s \/ cycle_failed tr s.
Proof.
  revert tr s. apply (sys_induct (fun tr s => Z.of_nat (length tr) < 2 ^ 60 -> hist_inv tr s \/ cycle_failed tr s)).
  - intros _. left. apply hist_inv_init.
  - intros tr s l s' Hrun Hok Hi Hst Hlen. rewrite length_app in Hlen. cbn [length] in Hlen.
    destruct Hi as [Hi|Hfail]; [lia| |right; by eapply failed_step]. pose proof Hst as Hst0. destruct Hst.
    5: left; by apply hist_inv_strat.
    7: { destruct (cycle_clean (db_ (sy_engine s)) (sy_db s)) eqn:Ec; [left|right; by eapply failed_now].
      eapply hist_inv_persist; [exact Hrun|exact Hi|exact Hst0|done|lia|exact Ec|exact H|done..]. }
    all: left; by apply (hist_inv_same tr s).
Qed.

(** C29: every fill reaches the trade history.  In every reachable state the fills
    the strategy has handled are, in the order they were handled, first those
    stored in the database, the i-th under trade key i with its content unchanged
    whatever has been written since, then those waiting in the trade ring; none is
    missing unless that ring has been full at some moment of the run.  The one
    exception is a run in which an LMDB call of a persister cycle (begin, put or
    commit) has failed, of which the persister looks at the first only. *)
Theorem fills_reach_history (tr : list sys_label) (s : System) :
  sys start tr s -> Z.of_nat (length tr) < 2 ^ 60 ->
  (exists kept stored,
    kept `sublist_of` fills (emitted tr) /\ kept = stored ++ trades (db_ (sy_engine s)) /\
    (forall i e, stored !! i = Some e -> mdb_get (trade_text (Z.of_nat i)) (sy_db s) = Some (BTrade e)) /\
    (kept = fills (emitted tr) \/ passed trades_full tr s)) \/
  cycle_failed tr s.
Proof.
  intros Hrun Hlen. destruct (hist_inv_reach tr s Hrun Hlen) as [[(kept & stored & H1 & H2 & H3 & _ & H4) _]|Hf]; [left|by right].
  by exists kept, stored.
Qed.
End History.
End Records.

(** ** Witnesses *)

Lemma ops_log_complete_witness :
  length (audit_events (emitted demo_labels)) = 4%nat /\
  exists recs, Forall2 entry_of (audit_events (emitted demo_labels)) recs /\ length recs = 4%nat.
Proof.
  assert (Hl : length (audit_events (emitted demo_labels)) = 4%nat) by (vm_compute; reflexivity).
  split; [exact Hl|].
  destruct (ops_log_complete demo_fix_config demo_clock demo_clock demo_send true ∅ demo_labels system_demo_state
    system_demo_run eq_refl) as (recs & kept & written & H & _).
  exists recs. split; [exact H|]. rewrite <- Hl. symmetry. exact (Forall2_length H).
Defined.

(** The demonstration run, then a cycle of the persister. *)
Definition persisted {QO : QueueOps} {LO : LmdbOps} {QF : QuickFix} (s : System) : System :=
  match persist_cycle (db_ (sy_engine s)) (sy_db s) with
  | Ok (p, d) => mkSystem (sy_pc s) (set_db (sy_engine s) p) (sy_fix s) d
  | Err _ => s
  end.
Definition persisted_state : @System spsc_ops demo_qf map_db := persisted system_demo_state.

Lemma persisted_run :
  sys_run demo_fix_config demo_clock demo_clock demo_send demo_system (demo_labels ++ [SPersist]) persisted_state.
Proof.
  eapply run_snoc; [exact system_demo_run|]. unfold persisted_state, persisted.
  pose proof (sys_reach_typed demo_fix_config demo_clock demo_clock demo_send true ∅ demo_labels system_demo_state
    system_demo_run) as ((_ & _ & _ & _ & Hdb & _) & _).
  destruct (persist_cycle_typed _ (sy_db system_demo_state) Hdb) as (p & d & Hp & _). rewrite Hp. by apply sy_persist.
Qed.

Lemma fills_reach_history_witness :
  length (fills (emitted (demo_labels ++ [SPersist]))) = 1%nat /\
  trades (db_ (sy_engine persisted_state)) = [] /\
  exists stored, stored `sublist_of` fills (emitted (demo_labels ++ [SPersist])) /\
    (forall i e, stored !! i = Some e ->
       mdb_get (trade_text (Z.of_nat i)) (sy_db persisted_state) = Some (BTrade e)).
Proof.
  assert (Ht : trades (db_ (sy_engine persisted_state)) = []) by (vm_compute; reflexivity).
  split; [vm_compute; reflexivity|]. split; [exact Ht|].
  pose proof map_db_laws as HL.
  destruct (fills_reach_history demo_fix_config demo_clock demo_clock demo_send true ∅ (LL := HL)
    (demo_labels ++ [SPersist]) persisted_state persisted_run)
    as [(kept & stored & H1 & H2 & H3 & _)|(t1 & s1 & t2 & _ & _ & _ & Hf)];
    [vm_compute; reflexivity| |rewrite map_db_clean in Hf; discriminate].
  rewrite Ht, app_nil_r in H2. subst kept. exists stored. split; [exact H1|exact H3].
Defined.
