(* ===== verification/Registry.v ===== *)
(** * The whole engine: its counters (src/src/metrics/metrics.hpp, metrics_server.hpp)

    In every reachable state of the threads together the global registry holds
    what the trace says: a counter per kind of traffic, a latency histogram per
    flow; and what the metrics thread exports is what the registry held at its
    last look. *)
From S2P Require Import Prelude.
From S2P Require Import Double.
From S2P Require Import Events.
From S2P Require Import SpscRing.
From S2P Require Import Queue.
From S2P Require Import Text.
From S2P Require Import LatencyHistogram.
From S2P Require Import Metrics.
From S2P Require Import OrderBook.
From S2P Require Import OrderManager.
From S2P Require Import AsyncLogger.
From S2P Require Import Persister.
From S2P Require Import Config.
From S2P Require Import MarketMaker.
From S2P Require Import MarketMakerFacts.
From S2P Require Import StrategySteps.
From S2P Require Import StrategyProps.
From S2P Require Import DecisionProps.
From S2P Require Import FixApp.
From S2P Require Import FixProps.
From S2P Require Import Main.
From S2P Require Import System.
From S2P Require Import Typing.
From S2P Require Import SystemTypes.
From S2P Require Import StrategyDemo.
From S2P Require Import SystemProps.
From S2P Require Import Ledger.

From S2P Require Import Records.
From S2P Require Import Dyadic.
From S2P Require Import MetricsServer.
Import HistogramFacts HistogramProps.

Section Registry.
Context {QO : QueueOps} {QL : QueueLaws} {QF : QuickFix} {QFL : QuickFixLaws} {LO : LmdbOps}.
Context (cfg : EngineConfig) (fclock sclock : nat -> Z).
Context {HF : ClockOk fclock} {HK : ClockOk sclock} {HI : IntervalOk cfg}.
Context (sendToTarget : FixOut -> option SessionID -> Res bool) (log_open : bool) (db : Db).

Abbreviation start := (system_init cfg sclock log_open db).
Abbreviation sys := (sys_run cfg fclock sclock sendToTarget).
Abbreviation step := (sys_step cfg fclock sclock sendToTarget).

(** ** What the trace says should be counted *)

(** The messages that become events, whenever they arrive. *)
Definition md_counted (f0 : FixApp) (l : sys_label) : bool :=
  match l with
  | SMsg (MarketDataSnapshotFullRefresh m) => match md_parse f0 m 0 0 with Ok (Some _) => true | _ => false end
  | _ => false
  end.
Definition exec_counted (f0 : FixApp) (l : sys_label) : bool :=
  match l with
  | SMsg (ExecutionReport m) => match exec_parse f0 m 0 with Ok _ => true | Err _ => false end
  | _ => false
  end.

Definition count (p : sys_label -> bool) (tr : list sys_label) : Z := Z.of_nat (length (List.filter p tr)).

(** The commands handed to the session, by type, and the snapshots the
    strategy has taken off its ring. *)
Definition forwarded (ty : OrdCmdType) (l : sys_label) : option OrderCmd :=
  match l with SSend c true => if decide (c_type c = ty) then Some c else None | _ => None end.
Definition taken (l : sys_label) : option MdEvent :=
  match l with SStrat (LMd ev _) => Some ev | _ => None end.

Lemma count_snoc p tr l : count p (tr ++ [l]) = count p tr + if p l then 1 else 0.
Proof. unfold count. rewrite List.filter_app, length_app. cbn. destruct (p l); cbn; lia. Qed.

Lemma omap_snoc {A B} (f : A -> option B) l x : omap f (l ++ [x]) = omap f l ++ option_list (f x).
Proof. rewrite omap_app. cbn. by destruct (f x). Qed.

(** *** Parsing does not look at the clock *)

Definition restamp (t seq : Z) (ev : MdEvent) : MdEvent :=
  mkMdEvent t (md_symbol_id ev) (md_n_bids ev) (md_n_asks ev) (md_bid_px ev) (md_bid_qty ev)
    (md_ask_px ev) (md_ask_qty ev) (md_last_px ev) seq.

Lemma add_entry_restamp t seq ev ty p q :
  add_entry (restamp t seq ev) ty p q = res_bind (add_entry ev ty p q) (fun e => Ok (restamp t seq e)).
Proof.
  unfold add_entry. cbn [md_n_bids md_n_asks restamp]. destruct (_ && _); [|destruct (_ && _); [|by destruct (bool_decide _)]].
  - unfold add_bid. cbn [md_bid_px md_bid_qty md_n_bids restamp].
    destruct (array_write (md_bid_px ev) _ _); [|done]. cbn [res_bind]. by destruct (array_write _ _ _).
  - unfold add_ask. cbn [md_ask_px md_ask_qty md_n_asks restamp].
    destruct (array_write (md_ask_px ev) _ _); [|done]. cbn [res_bind]. by destruct (array_write _ _ _).
Qed.

Lemma md_entries_restamp t seq n i msg ev :
  md_entries n i msg (restamp t seq ev) = res_bind (md_entries n i msg ev) (fun e => Ok (restamp t seq e)).
Proof.
  revert i ev. induction n as [|n IH]; intros i ev; [done|]. cbn [md_entries].
  destruct (md_get_group msg i) as [g|]; [|done]. cbn [res_bind]. destruct (g_entry_type g) as [ty|]; [|done].
  cbn [res_bind]. destruct (value_or dzero (g_entry_px g)) as [p|]; [|done]. cbn [res_bind].
  destruct (value_or dzero (g_entry_size g)) as [q|]; [|done]. cbn [res_bind]. rewrite add_entry_restamp.
  destruct (add_entry ev ty p q); [|done]. cbn [res_bind]. apply IH.
Qed.

Lemma md_parse_restamp f msg t seq t' seq' ev :
  md_parse f msg t seq = Ok (Some ev) -> md_parse f msg t' seq' = Ok (Some (restamp t' seq' ev)).
Proof.
  unfold md_parse. destruct (md_symbol msg) as [s|]; [|done]. cbn [res_bind]. destruct (_ =? _); [done|].
  destruct (md_no_entries msg) as [n|]; [|done]. cbn [res_bind]. intros E.
  apply res_bind_inv in E as (e & E & [= <-]).
  change (mkMdEvent t' ?id 0 0 zero_levels zero_levels zero_levels zero_levels dzero seq')
    with (restamp t' seq' (mkMdEvent t id 0 0 zero_levels zero_levels zero_levels zero_levels dzero seq)).
  rewrite md_entries_restamp, E. done.
Qed.

Lemma exec_parse_retime f msg t t' ev :
  exec_parse f msg t = Ok ev -> exists ev', exec_parse f msg t' = Ok ev'.
Proof.
  unfold exec_parse. intros E. do 5 (apply res_bind_inv in E as (? & -> & E); cbn [res_bind]). by eexists.
Qed.

Lemma md_parse_same f f' m t seq : same_session f f' -> md_parse f' m t seq = md_parse f m t seq.
Proof. intros [Hs Hn]. unfold md_parse, symbol_id. by rewrite Hs, Hn. Qed.

Lemma md_counted_parse f0 f m t seq :
  same_session f0 f ->
  md_counted f0 (SMsg (MarketDataSnapshotFullRefresh m)) =
  match md_parse f m t seq with Ok (Some _) => true | _ => false end.
Proof.
  intros Hs. cbn [md_counted]. rewrite (md_parse_same f0 f) by done.
  destruct (md_parse f0 m 0 0) as [[ev|]|] eqn:E; [by rewrite (md_parse_restamp _ _ _ _ t seq _ E)| |];
    destruct (md_parse f0 m t seq) as [[ev|]|] eqn:E'; try done;
    apply (md_parse_restamp _ _ _ _ 0 0) in E'; congruence.
Qed.

Lemma exec_counted_parse f0 f m t :
  same_session f0 f ->
  exec_counted f0 (SMsg (ExecutionReport m)) = match exec_parse f m t with Ok _ => true | Err _ => false end.
Proof.
  intros Hs. cbn [exec_counted]. rewrite (exec_parse_same f0 f) by done.
  destruct (exec_parse f0 m 0) as [ev|] eqn:E; destruct (exec_parse f0 m t) as [ev'|] eqn:E'; try done.
  - destruct (exec_parse_retime _ _ _ t _ E). congruence.
  - destruct (exec_parse_retime _ _ _ 0 _ E'). congruence.
Qed.

(** *** What a step does to the registry *)

Lemma put_metrics s f : metrics_ (sy_engine (put_fix s f)) = fix_metrics f.
Proof. done. Qed.

Lemma put_md s f : md_ (sy_engine (put_fix s f)) = md_ring_ f.
Proof. done. Qed.

(** A snapshot message: counted, then queued or counted as dropped. *)
Lemma onMessage_md_metrics m f r f' :
  q_ok (md_ring_ f) -> onMessage_md fclock m f = (r, f') ->
  match md_parse f m 0 0 with
  | Ok (Some _) => exists (ok : bool) l v, length l = (if ok then 1 else 0)%nat /\
      q_contents (md_ring_ f') = q_contents (md_ring_ f) ++ l /\
      fix_metrics f' = track_md_queue (if ok then inc_md_msgs (fix_metrics f) else inc_md_dropped (inc_md_msgs (fix_metrics f))) v
  | _ => fix_metrics f' = fix_metrics f /\ md_ring_ f' = md_ring_ f
  end.
Proof.
  intros Hq. unfold onMessage_md. set (f1 := fx_set_seq f _ _).
  assert (Hs : same_session f f1) by by split. rewrite (md_parse_same f f1 _ _ _ Hs).
  pose proof (md_counted_parse f f m 0 0 (ltac:(by split))) as H0.
  pose proof (md_counted_parse f f m (fclock (fix_now f)) (md_seq_ f1) (ltac:(by split))) as H1. rewrite H1 in H0.
  destruct (md_parse f m (fclock _) _) as [[ev|]|]; destruct (md_parse f m 0 0) as [[ev'|]|]; try done;
    try (by intros [= _ <-]).
  destruct (q_push_law _ _ (md_ring_ f1) ev kMdCap_legal Hq) as (q & -> & Hq' & Hc). intros [= _ <-].
  exists (Z.of_nat (length (q_contents (md_ring_ f1))) <? kMdCap), (if Z.of_nat (length (q_contents (md_ring_ f1))) <? kMdCap then [ev] else []), (q_size q).
  cbn [md_ring_ fix_metrics fx_set_md]. rewrite Hc. by destruct (_ <? _); rewrite ?app_nil_r.
Qed.

Lemma onMessage_exec_metrics m f r f' :
  q_ok (exec_ring_ f) -> onMessage_exec fclock m f = (r, f') ->
  md_ring_ f' = md_ring_ f /\
  fix_metrics f' = match exec_parse f m 0 with Ok _ => inc_execs (fix_metrics f) | Err _ => fix_metrics f end.
Proof.
  intros Hq. unfold onMessage_exec. set (f1 := fx_set_seq f _ _).
  assert (Hs : same_session f f1) by by split. rewrite (exec_parse_same f f1 _ _ Hs).
  pose proof (exec_counted_parse f f m 0 (ltac:(by split))) as H0.
  pose proof (exec_counted_parse f f m (fclock (fix_now f)) (ltac:(by split))) as H1. rewrite H1 in H0.
  destruct (exec_parse f m (fclock _)) as [ev|]; destruct (exec_parse f m 0) as [ev'|]; try done;
    try (by intros [= _ <-]).
  destruct (q_push_law _ _ (exec_ring_ f1) ev kExecCap_legal Hq) as (q & -> & _). by intros [= _ <-].
Qed.

(** A message, on the registry and the market-data ring. *)
Definition msg_traffic (f0 : FixApp) (msg : FixMessage) (f f' : FixApp) : Prop :=
  let md := md_counted f0 (SMsg msg) in
  let m := if exec_counted f0 (SMsg msg) then inc_execs (fix_metrics f) else fix_metrics f in
  if md then
    exists (ok : bool) l v, length l = (if ok then 1 else 0)%nat /\
      q_contents (md_ring_ f') = q_contents (md_ring_ f) ++ l /\
      fix_metrics f' = track_md_queue (if ok then inc_md_msgs m else inc_md_dropped (inc_md_msgs m)) v
  else fix_metrics f' = m /\ md_ring_ f' = md_ring_ f.

Lemma fromApp_traffic f0 msg f f' :
  same_session f0 f -> q_ok (md_ring_ f) -> q_ok (exec_ring_ f) -> fromApp fclock msg f = Ok f' ->
  msg_traffic f0 msg f f'.
Proof.
  intros Hs Hq1 Hq2 E. unfold fromApp in E.
  assert (exists r, crack fclock msg f = (r, f')) as (r & Hc).
  { destruct (crack fclock msg f) as [[|[|]] g]; [|done|]; injection E as <-; eauto. }
  unfold msg_traffic. destruct msg as [m|m|]; cbn [crack] in Hc.
  - rewrite (md_counted_parse f0 f m 0 0 Hs). change (exec_counted _ _) with false. cbv iota.
    pose proof (onMessage_md_metrics m f r f' Hq1 Hc) as H. destruct (md_parse f m 0 0) as [[ev|]|]; exact H.
  - change (md_counted _ _) with false. cbv iota. rewrite (exec_counted_parse f0 f m 0 Hs).
    destruct (onMessage_exec_metrics m f r f' Hq2 Hc) as [-> ->]. by destruct (exec_parse f m 0).
  - by injection Hc as _ <-.
Qed.

(** A command forwarded: counted by type; a New is a sample of F2. *)
Lemma send_traffic c f f' :
  send_order_cmd cfg fclock sendToTarget c f = Ok f' ->
  md_ring_ f' = md_ring_ f /\
  match c_type c with
  | CmdNew => exists ns h, lapse fclock (c_t_md_ns c) ns /\
      LatencyHistogram.record ns (tick_to_trade (fix_metrics f)) = Ok h /\
      fix_metrics f' = inc_orders_sent (set_tick_to_trade (fix_metrics f) h)
  | CmdCancel => fix_metrics f' = inc_cancels_sent (fix_metrics f)
  end.
Proof.
  intros H. unfold send_order_cmd in H. apply res_bind_inv in H as (sym & _ & H).
  apply res_bind_inv in H as (b & _ & H). destruct (c_type c).
  - apply res_bind_inv in H as (ns & Hns & H). apply res_bind_inv in H as (h & Hh & [= <-]).
    apply sub64_lapse in Hns. split; [done|]. by exists ns, h.
  - by injection H as <-.
Qed.

(** A step of the strategy, on the market-data ring. *)
Lemma strat_step_md p e l p' e' :
  engine_ok e -> l <> LEnv -> strat_step cfg sclock (p, e) l (p', e') ->
  q_contents (md_ e) = option_list (taken (SStrat l)) ++ q_contents (md_ e').
Proof.
  intros Hok Hl Hst.
  inversion Hst as [? x s1 ? Hpop Hh|? ? Hpop|? ev s1 ? cmds Hpop Hev Hh Hout|? ? Hpop|]; subst; clear Hst; [| | | |done].
  1, 2: destruct (pop_exec_spec e Hok) as (q & Hp & Hok1 & Hc); rewrite Hp in Hpop; injection Hpop as _ <-.
  3, 4: destruct (pop_md_spec e Hok) as (q & Hp & Hok1 & Hc); rewrite Hp in Hpop; injection Hpop as Hx <-.
  - by rewrite (xe_md _ _ _ (handle_exec_inv _ _ _ Hok1 Hh)).
  - done.
  - destruct (handle_md_inv cfg sclock clock_range interval_range _ _ _ Hok1 Hev Hh) as (ob0 & _ & E).
    rewrite (me_md _ _ _ _ _ _ E). cbn [md_ set_md taken option_list option_rect]. rewrite Hc.
    by destruct (q_contents (md_ e)); [|injection Hx as ->].
  - cbn [md_ set_md taken option_list option_rect app]. rewrite Hc. by destruct (q_contents (md_ e)).
Qed.

(** *** The invariant *)

Abbreviation f0 := (sy_fix start).

(** A sample is a reading of the clock minus the time of the snapshot. *)
Definition sample {A} (clk : nat -> Z) (t : A -> Z) (x : A) (ns : Z) : Prop := lapse clk (t x) ns.

(** A histogram that holds one such sample per element, recorded in order. *)
Definition measures {A} (clk : nat -> Z) (t : A -> Z) (xs : list A) (h : LatencyHistogram.t) : Prop :=
  exists ns, Forall2 (sample clk t) xs ns /\ LatencyHistogram.record_all ns LatencyHistogram.init = Ok h.

Record registry_inv (tr : list sys_label) (s : System) : Prop := {
  ri_md : md_msgs_total (metrics_ (sy_engine s)) = u64 (count (md_counted f0) tr);
  ri_dropped : exists dropped, 0 <= dropped /\
    md_dropped_total (metrics_ (sy_engine s)) = u64 dropped /\
    count (md_counted f0) tr =
      Z.of_nat (length (omap taken tr)) + Z.of_nat (length (q_contents (md_ (sy_engine s)))) + dropped;
  ri_exec : execs_total (metrics_ (sy_engine s)) = u64 (count (exec_counted f0) tr);
  ri_orders : orders_sent_total (metrics_ (sy_engine s)) = u64 (Z.of_nat (length (omap (forwarded CmdNew) tr)));
  ri_cancels : cancels_sent_total (metrics_ (sy_engine s)) = u64 (Z.of_nat (length (omap (forwarded CmdCancel) tr)));
  ri_f2 : measures fclock c_t_md_ns (omap (forwarded CmdNew) tr) (tick_to_trade (metrics_ (sy_engine s)));
  ri_wait : measures sclock md_t_recv_ns (omap taken tr) (queue_wait (metrics_ (sy_engine s)));
  ri_f1 : measures sclock md_t_recv_ns (omap taken tr) (md_processing (metrics_ (sy_engine s)))
}.

Lemma measures_snoc {A} clk t (xs l : list A) h h' ns :
  measures clk t xs h -> Forall2 (sample clk t) l ns -> LatencyHistogram.record_all ns h = Ok h' ->
  measures clk t (xs ++ l) h'.
Proof.
  intros (n0 & HR & H) Hl Hh. exists (n0 ++ ns). split; [by apply Forall2_app|]. by rewrite record_all_app, H.
Qed.

(** A step that is not traffic. *)
Lemma registry_same tr s l s' :
  registry_inv tr s -> md_counted f0 l = false -> exec_counted f0 l = false -> taken l = None ->
  forwarded CmdNew l = None -> forwarded CmdCancel l = None ->
  metrics_ (sy_engine s') = metrics_ (sy_engine s) -> md_ (sy_engine s') = md_ (sy_engine s) ->
  registry_inv (tr ++ [l]) s'.
Proof.
  intros [] H1 H2 H3 H4 H5 Hm Hq.
  split; rewrite ?count_snoc, ?omap_snoc, ?Hm, ?Hq, ?H1, ?H2, ?H3, ?H4, ?H5, ?Z.add_0_r, ?app_nil_r; done.
Qed.

Lemma registry_init : registry_inv [] start.
Proof.
  split; cbn; try done.
  - exists 0. rewrite (q_init_empty _ _ kMdCap_legal). done.
  - by exists [].
  - by exists [].
  - by exists [].
Qed.

(** An increment follows the count. *)
Lemma count_up (b : bool) c n : c = u64 n -> (if b then fetch_add1 c else c) = u64 (n + if b then 1 else 0).
Proof. intros ->. destruct b; [apply u64_add_l|by rewrite Z.add_0_r]. Qed.

Lemma msg_counts tr s msg f :
  registry_inv tr s -> msg_traffic f0 msg (fix_view s) f -> registry_inv (tr ++ [SMsg msg]) (put_fix s f).
Proof.
  intros [Hmd (d & Hd0 & Hd & Hacc) Hx Ho Hc Hf2 Hw Hf1] Ht. unfold msg_traffic in Ht.
  cbn [fix_metrics md_ring_ fix_view] in Ht.
  set (m := metrics_ (sy_engine s)) in *.
  assert (Hm : exists c1 c2, 0 <= c2 /\ md_msgs_total (fix_metrics f) = (if md_counted f0 (SMsg msg) then fetch_add1 (md_msgs_total m) else md_msgs_total m) /\
    md_dropped_total (fix_metrics f) = u64 (d + c2) /\ c1 + c2 = (if md_counted f0 (SMsg msg) then 1 else 0) /\
    Z.of_nat (length (q_contents (md_ring_ f))) = Z.of_nat (length (q_contents (md_ (sy_engine s)))) + c1 /\
    execs_total (fix_metrics f) = (if exec_counted f0 (SMsg msg) then fetch_add1 (execs_total m) else execs_total m) /\
    orders_sent_total (fix_metrics f) = orders_sent_total m /\ cancels_sent_total (fix_metrics f) = cancels_sent_total m /\
    tick_to_trade (fix_metrics f) = tick_to_trade m /\ queue_wait (fix_metrics f) = queue_wait m /\
    md_processing (fix_metrics f) = md_processing m).
  { destruct (md_counted f0 (SMsg msg)).
    - destruct Ht as (ok & l & v & Hl & Hq & Hm). exists (if ok then 1 else 0), (if ok then 0 else 1).
      rewrite Hq, length_app, Hm, Hl. destruct ok, (exec_counted f0 (SMsg msg)); cbn; rewrite ?Hd, ?Z.add_0_r; unfold fetch_add1; rewrite ?u64_add_l; repeat split; lia.
    - destruct Ht as [Hm Hq]. exists 0, 0. rewrite Hm, Hq, Z.add_0_r.
      destruct (exec_counted f0 (SMsg msg)); cbn; repeat split; (done || lia). }
  destruct Hm as (c1 & c2 & H0 & H1 & H2 & H3 & H4 & H5 & H6 & H7 & H8 & H9 & H10).
  split; rewrite ?put_metrics, ?put_md, ?count_snoc, ?omap_snoc; cbn [taken forwarded option_list option_rect];
    rewrite ?app_nil_r, ?H6, ?H7, ?H8, ?H9, ?H10; try done.
  - rewrite H1. by apply count_up.
  - exists (d + c2). split; [lia|]. split; [done|]. rewrite H4, Hacc. lia.
  - rewrite H5. by apply count_up.
Qed.

Lemma strat_counts tr s l p e :
  registry_inv tr s -> engine_ok (sy_engine s) -> l <> LEnv ->
  strat_step cfg sclock (sy_pc s, sy_engine s) l (p, e) ->
  registry_inv (tr ++ [SStrat l]) (mkSystem p e (sy_fix s) (sy_db s)).
Proof.
  intros [Hmd (d & Hd0 & Hd & Hacc) Hx Ho Hc Hf2 Hw Hf1] Hok Hl Hst.
  destruct (strat_step_entered cfg sclock _ _ _ _ _ Hok Hl Hst) as (ld & Hld & He).
  pose proof (strat_step_md _ _ _ _ _ Hok Hl Hst) as Hq.
  pose proof (en_totals _ _ _ He) as Ht. unfold totals in Ht. injection Ht as T1 T2 T3 T4 T5.
  assert (Hs : Forall2 (sample sclock md_t_recv_ns) (option_list (taken (SStrat l))) (ld_waits ld) /\
    Forall2 (sample sclock md_t_recv_ns) (option_list (taken (SStrat l))) (ld_procs ld)).
  { destruct l as [|x|ev cmds|]; cbn [step_ledger taken option_list option_rect] in *.
    - subst ld. by split.
    - destruct (is_fill x); subst ld; by split.
    - destruct Hld as [_ [_ _ _ (w & -> & Hw') (p' & -> & Hp')]]. split; by constructor.
    - done. }
  destruct Hs as [Hs1 Hs2].
  split; cbn [sy_engine]; rewrite ?count_snoc, ?omap_snoc; cbn [md_counted exec_counted forwarded option_list option_rect];
    rewrite ?app_nil_r, ?Z.add_0_r, ?T1, ?T2, ?T3, ?T4, ?T5, ?(en_f2 _ _ _ He); try done.
  - exists d. do 2 (split; [done|]). rewrite Hacc, Hq, !length_app. lia.
  - eapply measures_snoc; [exact Hw|exact Hs1|apply He].
  - eapply measures_snoc; [exact Hf1|exact Hs2|apply He].
Qed.

Lemma send_counts tr s c out f :
  registry_inv tr s -> sender_body cfg fclock sendToTarget c (fix_view s) = Ok f ->
  registry_inv (tr ++ [SSend c (logged_on_ (sy_fix s))])
    (put_fix (with_engine s (set_out (sy_engine s) out)) f).
Proof.
  intros Hi Hb. unfold sender_body in Hb. cbn [logged_on_ fix_view] in Hb.
  destruct (logged_on_ (sy_fix s)); [|injection Hb as <-; by apply (registry_same tr s)].
  destruct (send_traffic _ _ _ Hb) as [Hq Hm]. cbn [fix_metrics md_ring_ fix_view] in *.
  destruct Hi as [Hmd (d & Hd0 & Hd & Hacc) Hx Ho Hc Hf2 Hw Hf1].
  destruct (c_type c) eqn:Ec.
  - destruct Hm as (ns & h & Hns & Hh & Hm).
    split; rewrite ?put_metrics, ?put_md, ?count_snoc, ?omap_snoc, ?Hm, ?Hq; cbn [md_counted exec_counted taken forwarded];
      rewrite ?Ec, ?Z.add_0_r; cbn [option_list option_rect decide]; rewrite ?app_nil_r; try done.
    + exists d. done.
    + rewrite length_app, Nat2Z.inj_add. cbn. unfold fetch_add1. by rewrite Ho, u64_add_l.
    + apply (measures_snoc _ _ _ _ _ h [ns] Hf2); [|cbn; by rewrite Hh].
      by constructor.
  - split; rewrite ?put_metrics, ?put_md, ?count_snoc, ?omap_snoc, ?Hm, ?Hq; cbn [md_counted exec_counted taken forwarded];
      rewrite ?Ec, ?Z.add_0_r; cbn [option_list option_rect decide]; rewrite ?app_nil_r; try done.
    + exists d. done.
    + rewrite length_app, Nat2Z.inj_add. cbn. unfold fetch_add1. by rewrite Hc, u64_add_l.
Qed.

Lemma registry_reach tr s : sys start tr s -> registry_inv tr s.
Proof.
  revert tr s. apply (sys_induct cfg fclock sclock sendToTarget log_open db); [exact registry_init|].
  intros tr s l s' Hrun Hok Hi Hst.
  pose proof (si_same _ _ _ _ _ _ (sys_reach cfg fclock sclock sendToTarget log_open db tr s Hrun)) as Hss.
  destruct Hst; try by apply (registry_same tr s).
  - apply msg_counts; [done|]. destruct Hok. apply fromApp_traffic; try done.
    eapply same_trans; [exact Hss|apply view_same].
  - unfold onLogon, subscribe_market_data in H. apply res_bind_inv in H as (b & _ & [= <-]).
    by apply (registry_same tr s).
  - by apply strat_counts.
  - by apply send_counts.
Qed.

(** *** Every step counts at most one more of each *)

Definition bump (a b : Z) : Prop := b = a \/ b = fetch_add1 a.

Lemma bump_all_refl l : Forall2 bump l l.
Proof. induction l; constructor; [by left|done]. Qed.

Lemma step_totals s l s' :
  engine_ok (sy_engine s) -> same_session f0 (sy_fix s) -> step s l s' ->
  Forall2 bump (totals (metrics_ (sy_engine s))) (totals (metrics_ (sy_engine s'))).
Proof.
  intros Hok Hss Hst. destruct Hst; try apply bump_all_refl.
  - assert (H' : msg_traffic f0 msg (fix_view s) f).
    { destruct Hok. apply fromApp_traffic; try done. eapply same_trans; [exact Hss|apply view_same]. }
    unfold msg_traffic in H'. cbn [fix_metrics fix_view md_ring_] in H'. rewrite put_metrics.
    assert (Hx : exec_counted f0 (SMsg msg) = true -> md_counted f0 (SMsg msg) = false) by by destruct msg.
    destruct (md_counted f0 (SMsg msg)).
    + destruct H' as (ok & q & v & _ & _ & ->). destruct (exec_counted f0 (SMsg msg)); [by specialize (Hx eq_refl)|].
      destruct ok; repeat (constructor; [by (left + right)|]); constructor.
    + destruct H' as [-> _]. destruct (exec_counted f0 (SMsg msg)); repeat (constructor; [by (left + right)|]); constructor.
  - unfold onLogon, subscribe_market_data in H. apply res_bind_inv in H as (b & _ & [= <-]). apply bump_all_refl.
  - destruct (strat_step_entered cfg sclock _ _ _ _ _ Hok H H0) as (ld & _ & He). cbn [sy_engine].
    rewrite (en_totals _ _ _ He). apply bump_all_refl.
  - unfold sender_body in H0. cbn [logged_on_ fix_view] in H0. destruct (logged_on_ (sy_fix s)).
    + destruct (send_traffic _ _ _ H0) as [_ Hm]. rewrite put_metrics. cbn [fix_metrics fix_view] in Hm.
      destruct (c_type c); [destruct Hm as (ns & h & _ & _ & ->)|rewrite Hm];
        repeat (constructor; [by (left + right)|]); constructor.
    + injection H0 as <-. apply bump_all_refl.
Qed.
(** ** The registry tells the traffic *)

(** The percentiles of a list of samples, as a histogram reports them: the
    upper bound of the bucket of the order statistic, the exact maximum and
    the exact number. *)
Definition percentiles_of (ns : list Z) (p : LatencyHistogram.Percentiles) : Prop :=
  exists x50 x90 x99,
    LatencyHistogram.order_stat ns (rank 50 (Z.of_nat (length ns))) = Some x50 /\
    LatencyHistogram.order_stat ns (rank 90 (Z.of_nat (length ns))) = Some x90 /\
    LatencyHistogram.order_stat ns (rank 99 (Z.of_nat (length ns))) = Some x99 /\
    p = LatencyHistogram.mkPerc (LatencyHistogram.bucket_upper (LatencyHistogram.bucket_of x50))
          (LatencyHistogram.bucket_upper (LatencyHistogram.bucket_of x90))
          (LatencyHistogram.bucket_upper (LatencyHistogram.bucket_of x99))
          (fold_right Z.max 0 ns) (Z.of_nat (length ns)).

(** What a histogram answers for a flow: the percentiles of its latencies. *)
Definition reports {A} (clk : nat -> Z) (t : A -> Z) (xs : list A) (h : LatencyHistogram.t) : Prop :=
  xs <> [] -> exists ns, Forall2 (sample clk t) xs ns /\ percentiles_of ns (LatencyHistogram.snapshot h).

Lemma measures_reports {A} clk t (xs : list A) h :
  measures clk t xs h -> Z.of_nat (length xs) < 2 ^ 56 -> reports clk t xs h.
Proof.
  intros (ns & HR & Hh) Hlen Hne. exists ns. split; [done|]. pose proof (Forall2_length HR) as Hl.
  assert (Hr : Forall (fun n => n < 2 ^ 63) ns) by (clear -HR; induction HR as [|x n xs ns [_ Hx] HR IH]; by constructor).
  destruct (record_all_holds ns LatencyHistogram.init [] holds_init Hr) as (h' & Hh' & Hd); [cbn; lia|].
  rewrite Hh in Hh'. injection Hh' as <-. rewrite app_nil_r in Hd.
  apply (holds_perm h _ ns) in Hd; [|symmetry; apply Permutation_rev].
  destruct (snapshot_holds h ns) as (x50 & x90 & x99 & E); try done.
  - intros ->. apply Forall2_nil_inv_r in HR. done.
  - lia.
  - by exists x50, x90, x99.
Qed.

Lemma omap_le {A B} (f : A -> option B) l : (length (omap f l) <= length l)%nat.
Proof. induction l as [|x l IH]; [done|]. cbn. destruct (f x); cbn; lia. Qed.

Lemma count_le p tr : 0 <= count p tr <= Z.of_nat (length tr).
Proof. unfold count. pose proof (List.filter_length_le p tr). lia. Qed.

Lemma registry_exact (tr : list sys_label) (s : System) :
  sys start tr s -> Z.of_nat (length tr) < 2 ^ 56 ->
  let m := metrics_ (sy_engine s) in
  md_msgs_total m = count (md_counted f0) tr /\ execs_total m = count (exec_counted f0) tr /\
  orders_sent_total m = Z.of_nat (length (omap (forwarded CmdNew) tr)) /\
  cancels_sent_total m = Z.of_nat (length (omap (forwarded CmdCancel) tr)) /\
  0 <= md_dropped_total m /\
  md_msgs_total m = Z.of_nat (length (omap taken tr)) +
    Z.of_nat (length (q_contents (md_ (sy_engine s)))) + md_dropped_total m.
Proof.
  intros Hrun Hlen m. destruct (registry_reach tr s Hrun) as [Hmd (d & Hd0 & Hd & Hacc) Hx Ho Hc _ _ _].
  fold m in Hmd, Hd, Hx, Ho, Hc.
  pose proof (count_le (md_counted f0) tr). pose proof (count_le (exec_counted f0) tr).
  pose proof (omap_le (forwarded CmdNew) tr). pose proof (omap_le (forwarded CmdCancel) tr).
  rewrite Hmd, Hd, Hx, Ho, Hc, !u64_id by (unfold in_u64; lia). repeat split; lia.
Qed.

Lemma registry_reports (tr : list sys_label) (s : System) :
  sys start tr s -> Z.of_nat (length tr) < 2 ^ 56 ->
  let m := metrics_ (sy_engine s) in
  reports fclock c_t_md_ns (omap (forwarded CmdNew) tr) (tick_to_trade m) /\
  reports sclock md_t_recv_ns (omap taken tr) (queue_wait m) /\
  reports sclock md_t_recv_ns (omap taken tr) (md_processing m).
Proof.
  intros Hrun Hlen m. destruct (registry_reach tr s Hrun) as [_ _ _ _ _ Hf2 Hw Hf1].
  pose proof (omap_le (forwarded CmdNew) tr). pose proof (omap_le taken tr).
  split; [|split]; (apply measures_reports; [done|lia]).
Qed.

(** C20: the registry tells the traffic.  In every reachable state each counter
    is the number of its events in the trace: market-data messages of our
    instruments, reports, New orders and cancellations handed to the session;
    every counted snapshot was taken by the strategy, is still in the ring, or
    is counted as dropped; and the percentiles a reader of the three histograms
    gets are those of one latency per New order sent, and of one per snapshot
    the strategy took. *)
Theorem registry_counts_traffic (tr : list sys_label) (s : System) :
  sys start tr s -> Z.of_nat (length tr) < 2 ^ 56 ->
  let m := metrics_ (sy_engine s) in
  md_msgs_total m = count (md_counted f0) tr /\ execs_total m = count (exec_counted f0) tr /\
  orders_sent_total m = Z.of_nat (length (omap (forwarded CmdNew) tr)) /\
  cancels_sent_total m = Z.of_nat (length (omap (forwarded CmdCancel) tr)) /\
  md_msgs_total m = Z.of_nat (length (omap taken tr)) +
    Z.of_nat (length (q_contents (md_ (sy_engine s)))) + md_dropped_total m /\
  reports fclock c_t_md_ns (omap (forwarded CmdNew) tr) (tick_to_trade m) /\
  reports sclock md_t_recv_ns (omap taken tr) (queue_wait m) /\
  reports sclock md_t_recv_ns (omap taken tr) (md_processing m).
Proof.
  intros Hrun Hlen m. destruct (registry_exact tr s Hrun Hlen) as (H1 & H2 & H3 & H4 & _ & H5).
  do 5 (split; [done|]). exact (registry_reports tr s Hrun Hlen).
Qed.

(** ** The metrics thread beside the others *)
Section Dashboard.
Context {PR : Prometheus} {PL : PrometheusLaws}.

(** A run of the engine during which the metrics thread goes through its loop
    from time to time: between any two steps of the other threads. *)
Inductive watched : list sys_label -> System -> MetricsServer -> Prop :=
| wa_start : watched [] start server_init
| wa_step tr s st l s' : watched tr s st -> step s l s' -> watched (tr ++ [l]) s' st
| wa_iter tr s st : watched tr s st -> watched tr s (server_iter (metrics_ (sy_engine s)) st).

Lemma watched_run tr s st : watched tr s st -> sys start tr s.
Proof. induction 1; [constructor|by eapply run_snoc|done]. Qed.

Lemma totals_bounded tr s :
  sys start tr s -> Z.of_nat (length tr) < 2 ^ 53 ->
  Forall (fun x => 0 <= x < 2 ^ 53) (totals (metrics_ (sy_engine s))).
Proof.
  intros Hrun Hlen. destruct (registry_exact tr s Hrun ltac:(lia)) as (H1 & H2 & H3 & H4 & H5 & H6).
  pose proof (count_le (md_counted f0) tr). pose proof (count_le (exec_counted f0) tr).
  pose proof (omap_le (forwarded CmdNew) tr). pose proof (omap_le (forwarded CmdCancel) tr).
  unfold totals. repeat (constructor; [lia|]). constructor.
Qed.

Definition grows (a b : list Z) : Prop := Forall2 (fun x y => 0 <= x <= y /\ y < 2 ^ 53) a b.

Lemma grows_counters m m' : grows (totals m) (totals m') -> counters_grow m m'.
Proof.
  unfold grows, totals. intros H.
  do 5 (let Hx := fresh "Hx" in apply Forall2_cons_iff in H as [Hx H]). by split.
Qed.

Lemma bump_grows a b c :
  grows a b -> Forall2 bump b c -> Forall (fun x => 0 <= x < 2 ^ 53) c -> grows a c.
Proof.
  intros Hg. revert c. induction Hg as [|x y a b [Hxy Hy] Hg IH]; intros c Hb HB.
  - apply Forall2_nil_inv_l in Hb as ->. constructor.
  - apply list.Forall2_cons_inv_l in Hb as (z & c' & Hz & Hb & ->).
    apply Forall_cons_iff in HB as [Hz' HB]. constructor; [|by apply IH].
    destruct Hz as [-> | ->]; [lia|]. unfold fetch_add1 in *. rewrite u64_id in * by (unfold in_u64; lia). lia.
Qed.

Lemma grows_refl l : Forall (fun x => 0 <= x < 2 ^ 53) l -> grows l l.
Proof. induction 1; constructor; [lia|done]. Qed.

(** Between two looks the server shows the registry of the last one. *)
Lemma watched_shows tr s st :
  watched tr s st -> Z.of_nat (length tr) < 2 ^ 53 ->
  exists m0, shows_metrics st m0 /\ grows (totals m0) (totals (metrics_ (sy_engine s))).
Proof.
  induction 1 as [|tr s st l s' H IH Hst|tr s st H IH]; intros Hlen.
  - exists metrics_init. split; [split; cbn; try apply new_value; done|].
    apply grows_refl. unfold totals. cbn. repeat (constructor; [lia|]). constructor.
  - pose proof (watched_run _ _ _ H) as Hrun. rewrite length_app in Hlen. cbn [length] in Hlen.
    destruct (IH ltac:(lia)) as (m0 & Hs & Hg). exists m0. split; [done|].
    pose proof (sys_reach cfg fclock sclock sendToTarget log_open db tr s Hrun) as Hi.
    eapply bump_grows; [exact Hg|eapply step_totals; [apply Hi|apply Hi|exact Hst]|].
    apply (totals_bounded (tr ++ [l])); [by eapply run_snoc|rewrite length_app; cbn [length]; lia].
  - destruct (IH Hlen) as (m0 & Hs & Hg). exists (metrics_ (sy_engine s)).
    split; [|apply grows_refl; eapply totals_bounded; [by eapply watched_run|done]].
    exact (proj1 (server_iter_exports _ _ _ Hs (grows_counters _ _ Hg))).
Qed.

(** The latency gauges of a flow, at the percentiles of its samples. *)
Definition gauges_report {A} (clk : nat -> Z) (t : A -> Z) (xs : list A) (flow : string) (g : gmap chars double) : Prop :=
  xs <> [] -> exists ns p, Forall2 (sample clk t) xs ns /\ percentiles_of ns p /\
    g !! gauge_key flow "p50" = Some (double_of_Z (LatencyHistogram.p50 p)) /\
    g !! gauge_key flow "p90" = Some (double_of_Z (LatencyHistogram.p90 p)) /\
    g !! gauge_key flow "p99" = Some (double_of_Z (LatencyHistogram.p99 p)) /\
    g !! gauge_key flow "max" = Some (double_of_Z (LatencyHistogram.pmax p)).

(** C39: the dashboard shows the traffic.  Whenever the metrics thread has been
    through its loop, at any moments of any run of the other threads: after one
    more iteration every exported counter is exactly the number of its events
    since the start (2^53 steps at most, so that a double holds it), the
    snapshots dropped are those counted and neither taken nor queued, and the
    gauges of tick-to-trade and of market-data processing are the percentiles of
    one latency per New order sent and per snapshot taken. *)
Theorem dashboard_shows_traffic (tr : list sys_label) (s : System) (st : MetricsServer) :
  watched tr s st -> Z.of_nat (length tr) < 2 ^ 53 ->
  let st' := server_iter (metrics_ (sy_engine s)) st in
  c_value (c_md_ st') = double_of_Z (count (md_counted f0) tr) /\
  c_value (c_exec_ st') = double_of_Z (count (exec_counted f0) tr) /\
  c_value (c_orders_ st') = double_of_Z (Z.of_nat (length (omap (forwarded CmdNew) tr))) /\
  c_value (c_cxl_ st') = double_of_Z (Z.of_nat (length (omap (forwarded CmdCancel) tr))) /\
  c_value (c_drop_ st') = double_of_Z (count (md_counted f0) tr - Z.of_nat (length (omap taken tr)) -
    Z.of_nat (length (q_contents (md_ (sy_engine s))))) /\
  gauges_report fclock c_t_md_ns (omap (forwarded CmdNew) tr) "tick_to_trade" (gauges_ st') /\
  gauges_report sclock md_t_recv_ns (omap taken tr) "md_processing" (gauges_ st').
Proof.
  intros Hw Hlen st'. pose proof (watched_run _ _ _ Hw) as Hrun.
  destruct (watched_shows _ _ _ Hw Hlen) as (m0 & Hs & Hg).
  destruct (server_iter_exports _ _ _ Hs (grows_counters _ _ Hg)) as ([E1 E2 E3 E4 E5 _] & _ & _ & Hgauge).
  destruct (registry_exact tr s Hrun ltac:(lia)) as (H1 & H2 & H3 & H4 & _ & H5).
  destruct (registry_reports tr s Hrun ltac:(lia)) as (R1 & _ & R3).
  fold st' in E1, E2, E3, E4, E5. rewrite E1, E2, E3, E4, E5, H1, H2, H3, H4.
  do 4 (split; [done|]). split; [f_equal; lia|].
  split; intros Hne; [destruct (R1 Hne) as (ns & HR & HP)|destruct (R3 Hne) as (ns & HR & HP)];
    (eexists ns, _; split; [exact HR|split; [exact HP|]]; apply Hgauge; cbn; auto).
Qed.
End Dashboard.
End Registry.

(** ** Witnesses *)

(** Two orders sent, two snapshots and one report received. *)
Lemma registry_counts_traffic_witness :
  orders_sent_total (metrics_ (sy_engine system_demo_state)) = 2 /\
  md_msgs_total (metrics_ (sy_engine system_demo_state)) = 2 /\
  execs_total (metrics_ (sy_engine system_demo_state)) = 1.
Proof.
  destruct (registry_counts_traffic demo_fix_config demo_clock demo_clock demo_send true ∅ demo_labels
    system_demo_state system_demo_run) as (H1 & H2 & H3 & _); [vm_compute; reflexivity|].
  cbv zeta in *. rewrite H1, H2, H3. vm_compute. repeat split.
Defined.

Lemma demo_watched :
  @watched _ _ _ _ demo_fix_config demo_clock demo_clock demo_send true ∅ plain_prometheus
    demo_labels system_demo_state (@server_init plain_prometheus).
Proof.
  pose proof system_demo_run as H. unfold demo_system in H.
  remember (system_init demo_fix_config demo_clock true (∅ : @Db map_db)) as s0 eqn:E.
  induction H as [|a t b l d H IH Hs]; subst; [constructor|]. eapply wa_step; [by apply IH|exact Hs].
Qed.

Lemma dashboard_shows_traffic_witness :
  @c_value plain_prometheus (c_orders_ (server_iter (metrics_ (sy_engine system_demo_state)) (@server_init plain_prometheus)))
  = double_of_Z 2.
Proof.
  destruct (@dashboard_shows_traffic _ _ _ _ _ demo_fix_config demo_clock demo_clock _ _ _ demo_send true ∅
    plain_prometheus plain_prometheus_laws demo_labels system_demo_state (@server_init plain_prometheus) demo_watched)
    as (_ & _ & H & _); [vm_compute; reflexivity|].
  rewrite H. vm_compute. reflexivity.
Defined.
