(* ===== verification/Liveness.v ===== *)
(** * Liveness of the pipeline

    What happens when the exchange falls silent.  Every step the strategy takes
    on work decreases a measure of the backlog and every other step leaves it
    alone, so the backlog is worked off after a bounded number of strategy
    steps, whatever the other threads do in between; the sender then empties
    its ring.  Together with SystemProps (no thread is stuck) this is the
    absence of deadlock and livelock of the engine. *)
From S2P Require Import Prelude.
From S2P Require Import Double.
From S2P Require Import Events.
From S2P Require Import SpscRing.
From S2P Require Import Queue.
From S2P Require Import Text.
From S2P Require Import LatencyHistogram.
From S2P Require Import Metrics.
From S2P Require Import OrderBook.
From S2P Require Import OrderManager.
From S2P Require Import AsyncLogger.
From S2P Require Import Persister.
From S2P Require Import Config.
From S2P Require Import MarketMaker.
From S2P Require Import MarketMakerFacts.
From S2P Require Import StrategySteps.
From S2P Require Import StrategyProps.
From S2P Require Import DecisionProps.
From S2P Require Import FixApp.
From S2P Require Import FixProps.
From S2P Require Import Main.
From S2P Require Import System.
From S2P Require Import StrategyDemo.
From S2P Require Import SystemProps.

(** ** The backlog of the strategy *)
Section Strategy.
Context {QO : QueueOps} {QL : QueueLaws} (cfg : EngineConfig) (clock : nat -> Z).
Context {HK : ClockOk clock} {HI : IntervalOk cfg}.

(** Steps until both rings are empty: one per report, two per snapshot (the
    poll that handles it and the one that finds no report before it), and the
    move off a poll of the empty market-data ring. *)
Definition backlog (p : pc) (reports snapshots : nat) : nat :=
  match p, snapshots with
  | AtExec, k => reports + 2 * k
  | AtMd, O => if decide (reports = 0)%nat then 0 else S reports
  | AtMd, S k => reports + 2 * k + 1
  end.

Definition engine_backlog (p : pc) (e : Engine) : nat :=
  backlog p (length (q_contents (exec_ e))) (length (q_contents (md_ e))).

Lemma backlog_bound p r k : (backlog p r k <= r + 2 * k + 1)%nat.
Proof. unfold backlog. destruct p, k; try case_decide; lia. Qed.

Lemma backlog_empty p r k : backlog p r k = 0%nat <-> r = 0%nat /\ k = 0%nat.
Proof. unfold backlog. destruct p, k; try case_decide; lia. Qed.

Lemma length_tail {A} (l : list A) : length (tail l) = Nat.pred (length l).
Proof. by destruct l. Qed.

Lemma head_None {A} (l : list A) : head l = None -> length l = 0%nat.
Proof. by destruct l. Qed.

Lemma head_Some {A} (l : list A) x : head l = Some x -> length l <> 0%nat.
Proof. by destruct l. Qed.

(** A step on work: one unit less; a poll of two empty rings does nothing. *)
Lemma strat_step_backlog p e l p' e' :
  engine_ok e -> l <> LEnv -> strat_step cfg clock (p, e) l (p', e') ->
  engine_backlog p' e' = Nat.pred (engine_backlog p e).
Proof.
  intros Hok Hl Hst. unfold engine_backlog.
  inversion Hst as [? x s1 ? Hpop Hh|? ? Hpop|? ev s1 ? cmds Hpop Hev Hh Hout|? ? Hpop|]; subst; clear Hst; [| | | |done].
  1, 2: destruct (pop_exec_spec e Hok) as (q & Hp & Hok1 & Hc); rewrite Hp in Hpop; injection Hpop as Hx <-.
  3, 4: destruct (pop_md_spec e Hok) as (q & Hp & Hok1 & Hc); rewrite Hp in Hpop; injection Hpop as Hx <-.
  - destruct (handle_exec_inv _ _ _ Hok1 Hh) as [_ _ _ _ _ He Hm]. rewrite He, Hm.
    cbn [exec_ md_ set_exec]. rewrite Hc, length_tail. pose proof (head_Some _ _ Hx). unfold backlog. lia.
  - apply head_None in Hx. cbn [exec_ md_ set_exec]. rewrite Hc, length_tail, Hx. unfold backlog.
    destruct (length (q_contents (md_ e))); [by rewrite decide_True|lia].
  - destruct (handle_md_inv cfg clock clock_range interval_range _ _ _ Hok1 Hev Hh) as (ob0 & _ & E).
    rewrite (me_exec _ _ _ _ _ _ E), (me_md _ _ _ _ _ _ E). cbn [exec_ md_ set_md]. rewrite Hc, length_tail.
    pose proof (head_Some _ _ Hx). unfold backlog. destruct (length (q_contents (md_ e))); lia.
  - apply head_None in Hx. cbn [exec_ md_ set_md]. rewrite Hc, length_tail, Hx. unfold backlog.
    case_decide; lia.
Qed.

(** A snapshot yields two commands at most. *)
Lemma side_run_cmds_bound d sym side t q s s' :
  side_run cfg clock d sym side t q s s' -> (length (out_cmds s') <= S (length (out_cmds s)))%nat.
Proof.
  intros [_ Hout _ _ _ _ _ _ _ _ _]. rewrite Hout, length_app.
  destruct (sent _ _ _); cbn [option_list option_rect length]; lia.
Qed.

Lemma md_effect_cmds_bound ev ob s s' :
  md_effect cfg clock ev ob s s' -> (length (out_cmds s') <= 2 + length (out_cmds s))%nat.
Proof.
  intros [_ _ _ _ _ Hd]. destruct (has_bba ob).
  - destruct Hd as (qb & qs & sa & sb & sc & _ & _ & Hqa & Hb & Hs & Hqc).
    rewrite (quiet_out _ _ Hqc). apply side_run_cmds_bound in Hb, Hs. rewrite (quiet_out _ _ Hqa) in Hb. lia.
  - rewrite (quiet_out _ _ Hd). lia.
Qed.
End Strategy.

(** ** The engine *)
Section Engine.
Context {QO : QueueOps} {QL : QueueLaws} {QF : QuickFix} {QFL : QuickFixLaws} {LO : LmdbOps}.
Context (cfg : EngineConfig) (fclock sclock : nat -> Z).
Context {HF : ClockOk fclock} {HK : ClockOk sclock} {HI : IntervalOk cfg}.
Context (sendToTarget : FixOut -> option SessionID -> Res bool) (log_open : bool) (db : Db).

Abbreviation start := (system_init cfg sclock log_open db).
Abbreviation step := (sys_step cfg fclock sclock sendToTarget).
Abbreviation exec_run := (sys_run cfg fclock sclock sendToTarget).

(** The strategy steps of a trace, and a trace in which no message arrives. *)
Definition strat_steps (tr : list sys_label) : nat :=
  length (omap (fun l => match l with SStrat l => Some l | _ => None end) tr).

Definition is_message (l : sys_label) : bool := match l with SMsg _ => true | _ => false end.
Definition silent (tr : list sys_label) : Prop := Forall (fun l => is_message l = false) tr.

Definition sys_backlog (s : System) : nat := engine_backlog (sy_pc s) (sy_engine s).

Definition reports (s : System) : list ExecEvent := q_contents (exec_ (sy_engine s)).
Definition snapshots (s : System) : list MdEvent := q_contents (md_ (sy_engine s)).

Lemma sys_backlog_empty s : sys_backlog s = 0%nat <-> reports s = [] /\ snapshots s = [].
Proof.
  unfold sys_backlog, engine_backlog. rewrite backlog_empty. unfold reports, snapshots.
  by rewrite !length_zero_iff_nil.
Qed.

(** Without a message, only the strategy touches its input rings. *)
Lemma silent_step_rings s l s' :
  step s l s' -> metrics_ok (metrics_ (sy_engine s)) -> is_message l = false -> strat_label l = LEnv ->
  sys_backlog s' = sys_backlog s.
Proof.
  intros Hst Hm Hsil Hl. unfold sys_backlog, engine_backlog.
  destruct Hst as [|s sid|s f H'|s|s l p e Hne H'|s c out f Hp Hb|s lg H'|s p d H']; try done.
  - unfold onLogon, subscribe_market_data in H'. by apply res_bind_inv in H' as (b & _ & [= <-]).
  - unfold sender_body in Hb. destruct (logged_on_ _); [|by injection Hb as <-].
    apply send_order_cmd_inv in Hb as (_ & _ & E1 & E2 & _); [|done]. cbn. by rewrite E1, E2.
Qed.

Lemma strat_steps_snoc tr l :
  strat_steps (tr ++ [l]) = (strat_steps tr + match l with SStrat _ => 1 | _ => 0 end)%nat.
Proof. unfold strat_steps. rewrite omap_app, length_app. by destruct l. Qed.

(** One step, one unit, if it is the strategy's. *)
Lemma sys_step_backlog tr s l s' :
  sys_inv cfg sclock log_open db tr s -> step s l s' -> is_message l = false ->
  sys_backlog s' = (sys_backlog s - match l with SStrat _ => 1 | _ => 0 end)%nat.
Proof.
  intros [] Hst Hsil.
  destruct l; try done; try (rewrite Nat.sub_0_r; apply (silent_step_rings _ _ _ Hst); [apply si_engine|done..]).
  inversion Hst as [| | | |? ? p e Hl H'| | |]; subst. unfold sys_backlog. cbn [sy_pc sy_engine].
  rewrite (strat_step_backlog cfg sclock (sy_pc s) (sy_engine s) l p e si_engine Hl H'). lia.
Qed.

Lemma sys_run_backlog tr s tr' s' :
  exec_run start tr s -> exec_run s tr' s' -> silent tr' ->
  sys_backlog s' = (sys_backlog s - strat_steps tr')%nat.
Proof.
  intros Hrun H. unfold silent. induction H as [|s tr' s1 l s2 H IH Hst]; intros Hsil.
  - unfold strat_steps. cbn. lia.
  - apply Forall_app in Hsil as [Hsil [Hl _]%Forall_cons_iff].
    pose proof (sys_reach cfg fclock sclock sendToTarget log_open db _ _ (run_app _ _ _ _ _ _ Hrun H)) as Hi.
    rewrite (sys_step_backlog _ _ _ _ Hi Hst Hl), (IH Hrun Hsil), strat_steps_snoc. lia.
Qed.

(** With empty input rings the strategy sends nothing. *)
Lemma quiet_run_emits tr s tr' s' :
  exec_run start tr s -> exec_run s tr' s' -> silent tr' -> sys_backlog s = 0%nat ->
  commands (emitted tr') = [].
Proof.
  intros Hrun H. unfold silent. induction H as [|s tr' s1 l s2 H IH Hst]; intros Hsil H0; [done|].
  apply Forall_app in Hsil as [Hsil [Hl _]%Forall_cons_iff]. rewrite emitted_snoc, commands_app, (IH Hrun Hsil H0).
  pose proof (sys_run_backlog _ _ _ _ Hrun H Hsil) as Hb. rewrite H0 in Hb.
  apply sys_backlog_empty in Hb as [_ Hb]. unfold snapshots in Hb.
  pose proof (sys_reach cfg fclock sclock sendToTarget log_open db _ _ (run_app _ _ _ _ _ _ Hrun H)) as [].
  destruct Hst as [| | | |s1 l p e Hne Hst| | |]; try done.
  inversion Hst as [? x e1 ? Hpop Hh|? ? Hpop|? ev e1 ? cmds Hpop Hev Hh Hout|? ? Hpop|]; subst; try done.
  destruct (pop_md_spec _ si_engine) as (q & Hp & _). rewrite Hp in Hpop. by rewrite Hb in Hpop.
Qed.

(** Commands pushed and popped between two reachable states. *)
Lemma run_commands tr s tr' s' :
  exec_run start tr s -> exec_run s tr' s' ->
  out_cmds (sy_engine s) ++ commands (emitted tr') = popped tr' ++ out_cmds (sy_engine s').
Proof.
  intros Hrun H. pose proof (sys_reach cfg fclock sclock sendToTarget log_open db _ _ Hrun) as [].
  pose proof (sys_reach cfg fclock sclock sendToTarget log_open db _ _ (run_app _ _ _ _ _ _ Hrun H)) as [].
  rewrite popped_app in si_cmds0. unfold emitted in *. rewrite map_app in si_cmds0.
  unfold events in *. rewrite flat_map_app, commands_app, si_cmds, <- !app_assoc in si_cmds0.
  by apply app_inv_head in si_cmds0.
Qed.

(** C7: a silent exchange lets the pipeline drain.  From any reachable state,
    once no message arrives, every run with [reports + 2 * snapshots + 1]
    strategy steps in it, interleaved in any way with the sender, the logger,
    the persister and session events, has worked off both input rings; from
    then on the strategy sends nothing, so that the sender empties its ring
    with the commands that are in it. *)
Theorem pipeline_drains (tr tr' : list sys_label) (s s' : System) :
  exec_run start tr s -> exec_run s tr' s' -> silent tr' ->
  (length (reports s) + 2 * length (snapshots s) + 1 <= strat_steps tr')%nat ->
  reports s' = [] /\ snapshots s' = [] /\
  (forall tr2 s2, exec_run s' tr2 s2 -> silent tr2 ->
     commands (emitted tr2) = [] /\ out_cmds (sy_engine s') = popped tr2 ++ out_cmds (sy_engine s2)).
Proof.
  intros Hrun Hrun' Hsil Hn. pose proof (run_app _ _ _ _ _ _ Hrun Hrun') as Hr.
  assert (H0 : sys_backlog s' = 0%nat).
  { rewrite (sys_run_backlog _ _ _ _ Hrun Hrun' Hsil).
    pose proof (backlog_bound (sy_pc s) (length (reports s)) (length (snapshots s))).
    unfold sys_backlog, engine_backlog, reports, snapshots in *. lia. }
  pose proof H0 as [? ?]%sys_backlog_empty. split; [done|]. split; [done|]. intros tr2 s2 Hrun2 Hsil2.
  pose proof (quiet_run_emits _ _ _ _ Hr Hrun2 Hsil2 H0) as He. split; [exact He|].
  pose proof (run_commands _ _ _ _ Hr Hrun2) as Hc. by rewrite He, app_nil_r in Hc.
Qed.

(** *** A schedule that drains it *)

(** What is left to do: the backlog, the queued commands and those the
    queued snapshots may still yield. *)
Definition work (s : System) : nat :=
  (sys_backlog s + length (out_cmds (sy_engine s)) + 2 * length (snapshots s))%nat.

(** The strategy's next step is one unit of work, *)
Lemma strat_work tr s :
  Forall (label_ok (sy_fix start)) tr -> exec_run start tr s -> sys_backlog s <> 0%nat ->
  exists l s', step s (SStrat l) s' /\ (work s' < work s)%nat.
Proof.
  intros HL Hrun Hne. pose proof (sys_reach cfg fclock sclock sendToTarget log_open db _ _ Hrun) as Hi.
  destruct (strat_progress cfg fclock sclock sendToTarget log_open db tr s HL Hi) as (l & [p e] & Hl & Hst).
  exists l. eexists. split; [by apply sy_strat|]. pose proof Hi as [].
  pose proof (strat_step_backlog cfg sclock _ _ _ _ _ si_engine Hl Hst) as Hb.
  unfold work, sys_backlog, snapshots in *. cbn [sy_pc sy_engine]. rewrite Hb.
  assert (length (out_cmds e) + 2 * length (q_contents (md_ e)) <=
    length (out_cmds (sy_engine s)) + 2 * length (q_contents (md_ (sy_engine s))))%nat; [|lia].
  inversion Hst as [? x s1 ? Hpop Hh|? ? Hpop|? ev s1 ? cmds Hpop Hev Hh Hout|? ? Hpop|]; subst; [| | | |done].
  1, 2: destruct (pop_exec_spec _ si_engine) as (q & Hp & Hok1 & Hc); rewrite Hp in Hpop; injection Hpop as Hx <-.
  3, 4: destruct (pop_md_spec _ si_engine) as (q & Hp & Hok1 & Hc); rewrite Hp in Hpop; injection Hpop as Hx <-.
  - destruct (handle_exec_inv _ _ _ Hok1 Hh) as [_ Ho _ _ _ _ Hm]. unfold out_cmds. by rewrite Ho, Hm.
  - done.
  - destruct (handle_md_inv cfg sclock clock_range interval_range _ _ _ Hok1 Hev Hh) as (ob0 & _ & E).
    apply md_effect_cmds_bound in E as Hn. rewrite (me_md _ _ _ _ _ _ E). cbn [md_ set_md].
    change (out_cmds (set_md (sy_engine s) q)) with (out_cmds (sy_engine s)) in Hn.
    rewrite Hc, length_tail. apply head_Some in Hx. lia.
  - cbn [md_ set_md]. rewrite Hc, length_tail. change (out_cmds (set_md (sy_engine s) q)) with (out_cmds (sy_engine s)). lia.
Qed.

(** and so is the sender's. *)
Lemma send_work tr s :
  exec_run start tr s -> (forall m sid, exists b, sendToTarget m sid = Ok b) -> out_cmds (sy_engine s) <> [] ->
  exists c b s', step s (SSend c b) s' /\ (work s' < work s)%nat.
Proof.
  intros Hrun Hsend Hne. pose proof (sys_reach cfg fclock sclock sendToTarget log_open db _ _ Hrun) as Hi.
  destruct (out_cmds (sy_engine s)) as [|c cs] eqn:E; [done|].
  destruct (send_progress cfg fclock sclock sendToTarget log_open db tr s c cs Hi Hsend E) as (s' & Hst & Hc).
  exists c, (logged_on_ (sy_fix s)), s'. split; [exact Hst|].
  pose proof (sys_step_backlog _ _ _ _ Hi Hst eq_refl) as Hb. unfold work. rewrite Hb, Hc, E.
  assert (Hmd : snapshots s' = snapshots s); [|rewrite Hmd; cbn [length]; lia].
  inversion Hst as [| | | | |? ? out f Hp Hbody| |]; subst. unfold snapshots. cbn.
  unfold sender_body in Hbody. destruct (logged_on_ _); [|by injection Hbody as <-].
  apply send_order_cmd_inv in Hbody as (_ & _ & -> & _); [done|]. apply Hi.
Qed.

(** Nothing is left to do in the pipeline. *)
Definition drained (s : System) : Prop :=
  reports s = [] /\ snapshots s = [] /\ out_cmds (sy_engine s) = [].

Lemma work_step tr s :
  Forall (label_ok (sy_fix start)) tr -> exec_run start tr s ->
  (forall m sid, exists b, sendToTarget m sid = Ok b) ->
  drained s \/
  exists l s1, step s l s1 /\ is_message l = false /\ label_ok (sy_fix start) l /\ (work s1 < work s)%nat.
Proof.
  intros HL Hrun Hsend. destruct (decide (sys_backlog s = 0%nat)) as [H0|Hne].
  - destruct (out_cmds (sy_engine s)) eqn:E; [left|right].
    { by apply sys_backlog_empty in H0 as [? ?]. }
    destruct (send_work tr s Hrun Hsend) as (c & b & s1 & ? & ?); [by rewrite E|]. by exists (SSend c b), s1.
  - right. destruct (strat_work tr s HL Hrun Hne) as (l & s1 & ? & ?). by exists (SStrat l), s1.
Qed.

Lemma work_bound s :
  (work s <= length (reports s) + 4 * length (snapshots s) + length (out_cmds (sy_engine s)) + 1)%nat.
Proof.
  unfold work, sys_backlog, engine_backlog.
  pose proof (backlog_bound (sy_pc s) (length (reports s)) (length (snapshots s))).
  unfold reports, snapshots in *. lia.
Qed.

Lemma work_done n tr s :
  (work s <= n)%nat -> Forall (label_ok (sy_fix start)) tr -> exec_run start tr s ->
  (forall m sid, exists b, sendToTarget m sid = Ok b) ->
  exists tr' s', exec_run s tr' s' /\ silent tr' /\ (length tr' <= n)%nat /\ drained s'.
Proof.
  intros Hn HL Hrun Hsend. revert tr s Hn HL Hrun. induction n as [|n IH]; intros tr s Hn HL Hrun;
    destruct (work_step tr s HL Hrun Hsend) as [Hd|(l & s1 & Hst & Hm & Hl & Hlt)]; [|lia| |].
  1, 2: exists [], s; split; [constructor|]; split; [constructor|]; split; [cbn; lia|exact Hd].
  destruct (IH (tr ++ [l]) s1) as (tr' & s' & Hr & Hs & Hlen & Hd); [lia| |by eapply run_snoc|].
  { apply Forall_app. split; [done|by constructor]. }
  exists ([l] ++ tr'), s'. split; [eapply run_app; [by apply run_one|exact Hr]|].
  split; [by constructor|]. split; [cbn; lia|exact Hd].
Qed.

(** No deadlock.  From every reachable state, and for every session that
    does not throw, the strategy and the sender together reach a state with
    all three pipeline rings empty, in a number of steps bounded by the queued
    events: one per report and command, four per snapshot, and one. *)
Theorem pipeline_quiesces (tr : list sys_label) (s : System) :
  exec_run start tr s -> Forall (label_ok (sy_fix start)) tr ->
  (forall m sid, exists b, sendToTarget m sid = Ok b) ->
  exists tr' s', exec_run s tr' s' /\ silent tr' /\
    (length tr' <= length (reports s) + 4 * length (snapshots s) + length (out_cmds (sy_engine s)) + 1)%nat /\
    reports s' = [] /\ snapshots s' = [] /\ out_cmds (sy_engine s') = [].
Proof. intros Hrun HL Hsend. eapply work_done; [apply work_bound|exact HL|exact Hrun|exact Hsend]. Qed.
End Engine.

(** ** Witnesses *)

(** A snapshot is queued; then the strategy and the sender run. *)
Definition arrival : list sys_action := [PCreate tt; PLogon; PMsg wide_msg].
Definition draining : list sys_action := [PStrat; PStrat; PSend; PStrat; PSend].

Definition loaded : System := final_of arrival demo_system.

Lemma loaded_run : sys_run demo_fix_config demo_clock demo_clock demo_send demo_system (labels_of arrival demo_system) loaded.
Proof. exact (system_play_ok arrival demo_system). Qed.

Lemma silent_ok (tr : list sys_label) : forallb (fun l => negb (is_message l)) tr = true -> silent tr.
Proof.
  intros H. apply List.Forall_forall. intros l Hl. rewrite forallb_forall in H. specialize (H l Hl).
  by destruct (is_message l).
Qed.

Lemma loaded_labels_ok : Forall (label_ok (sy_fix demo_system)) (labels_of arrival demo_system).
Proof.
  apply List.Forall_forall. intros l Hl%list_elem_of_In. destruct l as [msg| | | | | | |]; try exact I.
  apply played_msgs in Hl. unfold arrival in Hl. rewrite !elem_of_cons in Hl.
  destruct Hl as [E|[E|[E|E]]]; [discriminate E|discriminate E| |by apply elem_of_nil in E].
  injection E as ->. exact I.
Qed.

Example loaded_queued : length (snapshots loaded) = 1%nat /\ reports loaded = [] /\ out_cmds (sy_engine loaded) = [].
Proof. vm_compute. done. Qed.

Lemma pipeline_drains_witness :
  length (snapshots loaded) = 1%nat /\ snapshots (final_of draining loaded) = [].
Proof.
  split; [apply loaded_queued|].
  apply (pipeline_drains demo_fix_config demo_clock demo_clock demo_send true ∅ (labels_of arrival demo_system)
    (labels_of draining loaded) loaded (final_of draining loaded) loaded_run (system_play_ok draining loaded)).
  - apply silent_ok. vm_compute. reflexivity.
  - destruct loaded_queued as (-> & -> & _). unfold strat_steps.
    replace (length (omap _ (labels_of draining loaded))) with 3%nat by (vm_compute; reflexivity). cbn. lia.
Defined.

Lemma pipeline_quiesces_witness :
  exists tr' s', sys_run demo_fix_config demo_clock demo_clock demo_send loaded tr' s' /\
    (length tr' <= 5)%nat /\ snapshots s' = [] /\ out_cmds (sy_engine s') = [].
Proof.
  destruct (pipeline_quiesces demo_fix_config demo_clock demo_clock demo_send true ∅ (labels_of arrival demo_system)
    loaded loaded_run loaded_labels_ok) as (tr' & s' & Hr & _ & Hlen & _ & Hs & Ho); [intros m sid; by exists true|].
  destruct loaded_queued as (E1 & E2 & E3). rewrite E1, E2, E3 in Hlen. exists tr', s'. done.
Defined.
