(* ===== verification/Shutdown.v ===== *)
(** * Shutdown (src/src/main.cpp, after initiator.stop())

    The last phase of live mode: the running flag is cleared, the reader is
    stopped, and main joins the threads in its order, each of which runs its
    loop to its next test of the flag (the logger and the persister until their
    rings are empty).  The threads still interleave: the strategy finishes the
    iteration it is in and may hand work to all the others.  The theorem is
    that every such run ends with all threads joined, unless a thread faults,
    which ends the program. *)
From S2P Require Import Prelude.
From S2P Require Import Double.
From S2P Require Import Events.
From S2P Require Import SpscRing.
From S2P Require Import Queue.
From S2P Require Import Text.
From S2P Require Import LatencyHistogram.
From S2P Require Import Metrics.
From S2P Require Import OrderBook.
From S2P Require Import OrderManager.
From S2P Require Import AsyncLogger.
From S2P Require Import Persister.
From S2P Require Import Config.
From S2P Require Import MarketMaker.
From S2P Require Import MarketMakerFacts.
From S2P Require Import StrategySteps.
From S2P Require Import StrategyProps.
From S2P Require Import DecisionProps.
From S2P Require Import FixApp.
From S2P Require Import FixProps.
From S2P Require Import Typing.
From S2P Require Import Storage.
From S2P Require Import Main.
From S2P Require Import System.
From S2P Require Import SystemTypes.
From S2P Require Import StrategyDemo.
From S2P Require Import SystemProps.
From S2P Require Import Liveness.
From S2P Require Import Startup.

(** ** The machine *)
Section Down.
Context {QO : QueueOps} {QL : QueueLaws} {QF : QuickFix} {LO : LmdbOps}.
Context (cfg : EngineConfig) (fclock sclock : nat -> Z).
Context (sendToTarget : FixOut -> option SessionID -> Res bool).

Abbreviation step := (sys_step cfg fclock sclock sendToTarget).
Abbreviation fault_at := (sys_fault cfg fclock sclock sendToTarget).

(** Where each thread is; None when it has returned.  The strategy is inside an
    iteration or at the test of the flag; the sender inside its inner loop or
    at the test. *)
Record Down := mkDown {
  dn_sys : System;
  dn_strat : option bool;     (* Some at_test *)
  dn_sender : option bool;    (* Some at_test *)
  dn_log : bool;              (* running? *)
  dn_db : bool;
  dn_metrics : bool;
  dn_joins : list Thread      (* main still has to join *)
}.

Definition with_sys (d : Down) (s : System) : Down :=
  mkDown s (dn_strat d) (dn_sender d) (dn_log d) (dn_db d) (dn_metrics d) (dn_joins d).
Definition set_strat (d : Down) (o : option bool) : Down :=
  mkDown (dn_sys d) o (dn_sender d) (dn_log d) (dn_db d) (dn_metrics d) (dn_joins d).
Definition set_sender (d : Down) (o : option bool) : Down :=
  mkDown (dn_sys d) (dn_strat d) o (dn_log d) (dn_db d) (dn_metrics d) (dn_joins d).

Definition returned (d : Down) (t : Thread) : Prop :=
  match t with
  | TStrat => dn_strat d = None
  | TSender => dn_sender d = None
  | TLog => dn_log d = false
  | TDb => dn_db d = false
  | TMetrics => dn_metrics d = false
  | TSink => True
  end.

Definition logged (s : System) : list LogRecord := q_contents (log_ring_ (log_ (sy_engine s))).
Definition unsaved (s : System) : nat := pending (db_ (sy_engine s)).

Inductive down_step : Down -> Down -> Prop :=
(* the strategy: the test is reached when the market-data poll is done *)
| dn_strat_step d l s' :
    dn_strat d = Some false -> step (dn_sys d) (SStrat l) s' ->
    down_step d (set_strat (with_sys d s') (Some (match sy_pc (dn_sys d) with AtMd => true | AtExec => false end)))
| dn_strat_exit d : dn_strat d = Some true -> down_step d (set_strat d None)
(* the sender: [while (out.try_pop(c)) ...], then the test *)
| dn_send d c b s' :
    dn_sender d = Some false -> step (dn_sys d) (SSend c b) s' -> down_step d (with_sys d s')
| dn_send_empty d :
    dn_sender d = Some false -> out_cmds (sy_engine (dn_sys d)) = [] -> down_step d (set_sender d (Some true))
| dn_send_exit d : dn_sender d = Some true -> down_step d (set_sender d None)
(* the logger and the persister: as long as their rings are not empty *)
| dn_log_step d s' :
    dn_log d = true -> logged (dn_sys d) <> [] -> step (dn_sys d) SLog s' -> down_step d (with_sys d s')
| dn_log_exit d :
    dn_log d = true -> logged (dn_sys d) = [] ->
    down_step d (mkDown (dn_sys d) (dn_strat d) (dn_sender d) false (dn_db d) (dn_metrics d) (dn_joins d))
| dn_db_step d s' :
    dn_db d = true -> unsaved (dn_sys d) <> 0%nat -> step (dn_sys d) SPersist s' -> down_step d (with_sys d s')
| dn_db_exit d :
    dn_db d = true -> unsaved (dn_sys d) = 0%nat ->
    down_step d (mkDown (dn_sys d) (dn_strat d) (dn_sender d) (dn_log d) false (dn_metrics d) (dn_joins d))
| dn_metrics_exit d :
    dn_metrics d = true ->
    down_step d (mkDown (dn_sys d) (dn_strat d) (dn_sender d) (dn_log d) (dn_db d) false (dn_joins d))
(* main *)
| dn_join d t l :
    dn_joins d = t :: l -> returned d t ->
    down_step d (mkDown (dn_sys d) (dn_strat d) (dn_sender d) (dn_log d) (dn_db d) (dn_metrics d) l).

(** A fault of a thread that is in its loop: the sender's exception reaches
    std::terminate, undefined behaviour ends the run as well. *)
Inductive down_fault (d : Down) : fault -> Prop :=
| df_strat e : dn_strat d = Some false -> fault_at (dn_sys d) Strategy e -> down_fault d e
| df_send e : dn_sender d = Some false -> fault_at (dn_sys d) Sender e -> down_fault d e
| df_log e : dn_log d = true -> logged (dn_sys d) <> [] -> fault_at (dn_sys d) Logger e -> down_fault d e
| df_db e : dn_db d = true -> unsaved (dn_sys d) <> 0%nat -> fault_at (dn_sys d) Persisting e -> down_fault d e.

(** The program: still going down, or dead. *)
Inductive Shutdown := Proceeding (d : Down) | Aborted (e : fault).

Inductive shut_step : Shutdown -> Shutdown -> Prop :=
| sh_step d d' : down_step d d' -> shut_step (Proceeding d) (Proceeding d')
| sh_fault d e : down_fault d e -> shut_step (Proceeding d) (Aborted e).

(** Every run is finite, and none stops before main has joined all, unless the
    program has aborted with a fault of the given kind. *)
Inductive ends_joined (P : fault -> Prop) : Shutdown -> Prop :=
| ends_aborted e : P e -> ends_joined P (Aborted e)
| ends_proceeding d :
    (dn_joins d = [] \/ exists x, shut_step (Proceeding d) x) ->
    (forall x, shut_step (Proceeding d) x -> ends_joined P x) -> ends_joined P (Proceeding d).

Lemma ends_weaken (P Q : fault -> Prop) x : (forall e, P e -> Q e) -> ends_joined P x -> ends_joined Q x.
Proof. intros HPQ H. induction H as [e He|d Hd _ IH]; [by apply ends_aborted, HPQ|by apply ends_proceeding]. Qed.

(** ** The measure: the strategy's steps first, then all others' *)

Definition strat_left (d : Down) : nat :=
  match dn_strat d with
  | None => 0
  | Some true => 1
  | Some false =>
      match sy_pc (dn_sys d) with
      | AtMd => 2
      | AtExec => 3 + length (reports (dn_sys d))
      end
  end.

Definition others_left (d : Down) : nat :=
  match dn_sender d with
  | None => 0
  | Some true => 1
  | Some false => 2 + length (out_cmds (sy_engine (dn_sys d)))
  end +
  (if dn_log d then 1 + length (logged (dn_sys d)) else 0) +
  (if dn_db d then 1 + unsaved (dn_sys d) else 0) +
  (if dn_metrics d then 1 else 0) + length (dn_joins d).

Definition less (d' d : Down) : Prop :=
  (strat_left d' < strat_left d \/
   (strat_left d' = strat_left d /\ others_left d' < others_left d))%nat.

Lemma less_wf : well_founded less.
Proof.
  intros d. remember (strat_left d) as n eqn:En. revert d En.
  induction n as [n IHn] using lt_wf_ind. intros d En.
  remember (others_left d) as m eqn:Em. revert d En Em.
  induction m as [m IHm] using lt_wf_ind. intros d -> ->.
  constructor. intros d' [H|[H1 H2]]; [by eapply IHn|by eapply IHm].
Qed.
End Down.

(** ** Facts *)
Section Facts.
Context {QO : QueueOps} {QL : QueueLaws} {QF : QuickFix} {QFL : QuickFixLaws} {LO : LmdbOps}.
Context (cfg : EngineConfig) (fclock sclock : nat -> Z).
Context {HF : ClockOk fclock} {HK : ClockOk sclock} {HI : IntervalOk cfg}.
Context (sendToTarget : FixOut -> option SessionID -> Res bool) (log_open : bool) (db : Db).

Abbreviation start := (system_init cfg sclock log_open db).
Abbreviation step := (sys_step cfg fclock sclock sendToTarget).

Abbreviation unknown := (unknown_report cfg sclock log_open db).
Context (tr0 : list sys_label).

(** A state the threads can have reached since main began to stop them: the
    messages are those received before. *)
Definition reached (s : System) : Prop :=
  exists tr, sys_run cfg fclock sclock sendToTarget start (tr0 ++ tr) s /\ Forall (fun l => is_message l = false) tr.

Lemma reached_inv s : reached s -> exists tr, sys_inv cfg sclock log_open db tr s.
Proof. intros (tr & H & _). exists (tr0 ++ tr). exact (sys_reach cfg fclock sclock sendToTarget log_open db _ s H). Qed.

Lemma reached_step s l s' : reached s -> step s l s' -> is_message l = false -> reached s'.
Proof.
  intros (tr & H & HL) Hst Hl. exists (tr ++ [l]). rewrite app_assoc. split; [by eapply run_snoc|].
  apply Forall_app. split; [done|]. by constructor.
Qed.

(** No report arrives any more. *)
Lemma unknown_before tr x : Forall (fun l => is_message l = false) tr -> unknown (tr0 ++ tr) x -> unknown tr0 x.
Proof.
  intros HL [(m & t & [Hin|Hin]%elem_of_app & Hp) E]; [split; [by exists m, t|done]|].
  rewrite List.Forall_forall in HL. by specialize (HL _ (proj1 (list_elem_of_In _ _) Hin)).
Qed.

(** *** What a step changes *)

Lemma strat_step_pc s l s' :
  reached s -> step s (SStrat l) s' -> sy_pc s = AtExec ->
  sy_pc s' = AtMd \/ (sy_pc s' = AtExec /\ length (reports s) = S (length (reports s'))).
Proof.
  intros [tr []]%reached_inv Hst Hpc. inversion Hst as [| | | |? ? p e Hl H| | |]; subst.
  unfold reports. cbn [sy_pc sy_engine]. rewrite Hpc in H.
  destruct (strat_step_effect cfg sclock _ _ _ _ _ si_engine Hl H) as [_ Hx _ _ _].
  inversion H as [? x s1 ? Hpop Hh|? ? Hpop| | |]; subst; [right|by left|done].
  split; [done|]. by rewrite Hx.
Qed.

(** The rings the other threads and the shutdown look at. *)
Definition same_rings (s s' : System) : Prop :=
  sy_pc s' = sy_pc s /\ reports s' = reports s.

Lemma send_changes s c b s' :
  reached s -> step s (SSend c b) s' ->
  same_rings s s' /\ length (out_cmds (sy_engine s)) = S (length (out_cmds (sy_engine s'))) /\
  logged s' = logged s /\ unsaved s' = unsaved s.
Proof.
  intros [tr Hi]%reached_inv Hst. pose proof Hi as [].
  inversion Hst as [| | | | |? ? out f Hp Hb| |]; subst.
  destruct (send_effect cfg fclock sclock sendToTarget log_open db tr s c out f Hi Hp Hb) as [_ Hpc _ _ _ _ Hout _].
  split; [|split; [by rewrite Hout|done]]. split; [done|]. unfold reports. cbn.
  unfold sender_body in Hb. destruct (logged_on_ _); [|by injection Hb as <-].
  apply send_order_cmd_inv in Hb as (_ & _ & _ & -> & _); [done|apply si_engine].
Qed.

Lemma log_changes s s' :
  reached s -> step s SLog s' ->
  same_rings s s' /\ out_cmds (sy_engine s') = out_cmds (sy_engine s) /\ logged s' = [] /\ unsaved s' = unsaved s.
Proof.
  intros [tr []]%reached_inv Hst. inversion Hst as [| | | | | |? lg H|]; subst.
  split; [done|]. split; [done|]. split; [|done]. unfold logged. cbn. unfold log_iter in H.
  destruct (q_drain_all write_row (log_ring_ (log_ (sy_engine s))) (f_ (log_ (sy_engine s)), 0)) as (q' & _ & Hc & E);
    [apply si_engine|].
  rewrite E, write_rows in H. cbn [res_bind] in H. by injection H as <-.
Qed.

Lemma persist_changes s s' :
  reached s -> step s SPersist s' ->
  same_rings s s' /\ out_cmds (sy_engine s') = out_cmds (sy_engine s) /\ logged s' = logged s /\
  (unsaved s' <= Nat.pred (unsaved s))%nat.
Proof.
  intros (tr & Hr & _) Hst. inversion Hst as [| | | | | | |? p d H]; subst.
  split; [done|]. split; [done|]. split; [done|]. unfold unsaved. cbn.
  pose proof (sys_reach_typed cfg fclock sclock sendToTarget log_open db _ s Hr) as ((_ & _ & _ & _ & Hdb & _) & _).
  by eapply persist_cycle_shrinks.
Qed.

(** *** Every step decreases the measure *)

Lemma down_step_reached d d' :
  reached (dn_sys d) -> down_step cfg fclock sclock sendToTarget d d' -> reached (dn_sys d').
Proof. intros H Hd. destruct Hd; try exact H; by eapply reached_step. Qed.

Lemma down_step_less d d' :
  reached (dn_sys d) -> down_step cfg fclock sclock sendToTarget d d' -> less d' d.
Proof.
  intros Hr Hd. unfold less, strat_left, others_left.
  destruct Hd as [d l s' Hs Hst|d Hs|d c b s' Hs Hst|d Hs Ho|d Hs|d s' Hl Hne Hst|d Hl He|d s' Hl Hne Hst|d Hl He|d Hm|d t l Hj Ht];
    cbn [dn_sys dn_strat dn_sender dn_log dn_db dn_metrics dn_joins set_strat set_sender with_sys].
  - left. rewrite Hs. destruct (sy_pc (dn_sys d)) eqn:E; [|lia].
    destruct (strat_step_pc _ _ _ Hr Hst E) as [->|[-> H]]; lia.
  - left. rewrite Hs. lia.
  - right. destruct (send_changes _ _ _ _ Hr Hst) as ((Hpc & Hre) & Ho & Hlo & Hun).
    rewrite Hpc, Hre, Hlo, Hun, Hs. destruct (dn_log d), (dn_db d), (dn_metrics d); split; lia.
  - right. rewrite Hs, Ho. cbn [length]. split; [done|lia].
  - right. rewrite Hs. split; [done|lia].
  - right. destruct (log_changes _ _ Hr Hst) as ((Hpc & Hre) & Ho & Hlo & Hun).
    rewrite Hpc, Hre, Hlo, Hun, Ho, Hl. destruct (logged (dn_sys d)); [done|]. cbn [length]. split; [done|lia].
  - right. rewrite Hl, He. cbn [length]. split; [done|lia].
  - right. destruct (persist_changes _ _ Hr Hst) as ((Hpc & Hre) & Ho & Hlo & Hun).
    rewrite Hpc, Hre, Hlo, Ho, Hl. split; [done|lia].
  - right. rewrite Hl, He. split; [done|lia].
  - right. rewrite Hm. split; [done|lia].
  - right. rewrite Hj. cbn [length]. split; [done|lia].
Qed.

(** *** Until all are joined, somebody can move *)

Lemma thread_moves d t :
  reached (dn_sys d) -> returned d t \/ exists x, shut_step cfg fclock sclock sendToTarget (Proceeding d) x.
Proof.
  intros (tr & Hrun & HL). pose proof (sys_reach cfg fclock sclock sendToTarget log_open db _ _ Hrun) as Hi.
  destruct t; cbn [returned]; [| | | | |by left].
  - destruct (dn_metrics d) eqn:E; [right|by left]. eexists. by apply sh_step, dn_metrics_exit.
  - destruct (dn_log d) eqn:E; [right|by left]. destruct (logged (dn_sys d)) eqn:El.
    + eexists. by apply sh_step, dn_log_exit.
    + destruct (log_progress cfg fclock sclock sendToTarget log_open db _ _ Hi) as [s' Hs].
      eexists. apply sh_step, dn_log_step; [done|by rewrite El|exact Hs].
  - destruct (dn_db d) eqn:E; [right|by left]. destruct (decide (unsaved (dn_sys d) = 0%nat)).
    + eexists. by apply sh_step, dn_db_exit.
    + destruct (persist_progress cfg fclock sclock sendToTarget log_open db _ _ Hrun) as [s' Hs].
      eexists. by apply sh_step, dn_db_step.
  - destruct (dn_strat d) as [[|]|] eqn:E; [right|right|by left].
    + eexists. by apply sh_step, dn_strat_exit.
    + destruct (strat_next cfg fclock sclock sendToTarget log_open db _ _ Hi) as [[(l & [p e] & Hl & Hst) _]|(_ & Hf & _)].
      * eexists. eapply sh_step, dn_strat_step; [done|]. by apply sy_strat.
      * eexists. by eapply sh_fault, df_strat.
  - destruct (dn_sender d) as [[|]|] eqn:E; [right|right|by left].
    + eexists. by apply sh_step, dn_send_exit.
    + destruct (out_cmds (sy_engine (dn_sys d))) as [|c cs] eqn:Eo.
      * eexists. by apply sh_step, dn_send_empty.
      * destruct (send_next cfg fclock sclock sendToTarget log_open db _ _ c cs Hi Eo) as [[(s' & Hs & _) _]|(_ & e & _ & Hf & _)].
        -- eexists. by eapply sh_step, dn_send.
        -- eexists. by eapply sh_fault, df_send.
Qed.

(** What the fault of a thread that is being joined can be. *)
Definition outside_fault (e : fault) : Prop :=
  (exists m sid, sendToTarget m sid = Err e) \/ (e = UB OutOfBounds /\ exists x, unknown tr0 x).

Lemma down_fault_outside d e : reached (dn_sys d) -> down_fault cfg fclock sclock sendToTarget d e -> outside_fault e.
Proof.
  intros (tr & Hrun & HL) Hf. unfold outside_fault.
  assert (exists th, sys_fault cfg fclock sclock sendToTarget (dn_sys d) th e) as [th H] by (destruct Hf; eauto).
  apply (fault_has_cause cfg fclock sclock sendToTarget log_open db _ _ _ _ Hrun) in H as [(_ & -> & x & Hx)|(_ & m & Hm)].
  - right. split; [done|]. exists x. by eapply unknown_before.
  - left. by exists m, (session_id_ (sy_fix (dn_sys d))).
Qed.

Lemma reached_ends d : reached (dn_sys d) -> ends_joined cfg fclock sclock sendToTarget outside_fault (Proceeding d).
Proof.
  induction (less_wf d) as [d _ IH]. intros Hr. constructor.
  - destruct (dn_joins d) as [|t l] eqn:Ej; [by left|right].
    destruct (thread_moves d t Hr) as [Ht|H]; [|exact H]. eexists. by eapply sh_step, dn_join.
  - intros x Hx. inversion Hx as [? d' Hd|? e Hf]; subst.
    + apply IH; [by apply down_step_less|by eapply down_step_reached].
    + apply ends_aborted. by eapply down_fault_outside.
Qed.

(** C9: the shutdown ends.  From any state the engine can reach, wherever each
    thread is in its loop (or has already returned), with the flag cleared and
    the session stopped: every interleaving of the threads is finite and none gets
    stuck; at the end main has joined all of them, whatever LMDB answers and
    whatever is still queued, or the program has aborted, with an exception that
    sendToTarget throws (the sender thread does not catch it) or out of bounds on a
    report received on an instrument that is not ours. *)
Theorem shutdown_joins_all (d : Down) :
  sys_run cfg fclock sclock sendToTarget start tr0 (dn_sys d) ->
  ends_joined cfg fclock sclock sendToTarget
    (fun e => (exists m sid, sendToTarget m sid = Err e) \/ (e = UB OutOfBounds /\ exists x, unknown tr0 x))
    (Proceeding d).
Proof.
  intros H. apply reached_ends. exists []. rewrite app_nil_r. by split.
Qed.
End Facts.

(** ** Witness *)

(** The engine of the demonstration, stopped with a command still queued. *)
Definition stopping : Down :=
  mkDown system_demo_state (Some false) (Some false) true true true live_joins.

Lemma shutdown_joins_all_witness :
  length (out_cmds (sy_engine (dn_sys stopping))) = 1%nat /\
  ends_joined demo_fix_config demo_clock demo_clock demo_send (fun _ => False) (Proceeding stopping).
Proof.
  split.
  - change (dn_sys stopping) with system_demo_state. by rewrite demo_waiting.
  - pose proof (shutdown_joins_all demo_fix_config demo_clock demo_clock demo_send true ∅ demo_labels stopping
      system_demo_run) as H.
    eapply ends_weaken; [|exact H]. intros e [(m & sid & He)|(_ & x & Hx)]; [discriminate He|].
    exact (no_unknown_report _ _ _ _ demo_labels x demo_labels_ok Hx).
Defined.
