(* ===== verification/Layout.v ===== *)
(** * The bytes of a stored struct

    lmdb_persister.hpp stores the structs of common/events.hpp as they are in
    memory, and scripts/dump_lmdb.py reads them back with Python's [struct]
    module.  Here: the layout a C++ compiler gives such a struct on x86-64
    (natural alignment, little-endian, IEEE binary64), [struct.unpack_from] with
    the script's formats, and that each reads what the other wrote. *)
From S2P Require Import Prelude.
From S2P Require Import Double.
From S2P Require Import Dyadic.
From S2P Require Import Events.
From S2P Require Import Text.
From S2P Require Import Typing.
From S2P Require Import Persister.
From Stdlib Require Import Ascii.

(** ** Integers *)

Fixpoint le_bytes (n : nat) (z : Z) : chars :=
  match n with
  | O => []
  | S n => chr (z mod 256) :: le_bytes n (z / 256)
  end.

Fixpoint le_value (l : chars) : Z :=
  match l with
  | [] => 0
  | c :: l => code c + 256 * le_value l
  end.

Lemma le_bytes_length n z : length (le_bytes n z) = n.
Proof. revert z. induction n as [|n IH]; intros z; cbn; [done|by rewrite IH]. Qed.

Lemma le_roundtrip n z : 0 <= z < 256 ^ Z.of_nat n -> le_value (le_bytes n z) = z.
Proof.
  revert z. induction n as [|n IH]; intros z Hz; cbn [le_bytes le_value].
  - change (256 ^ Z.of_nat 0) with 1 in Hz. lia.
  - rewrite Nat2Z.inj_succ, Z.pow_succ_r in Hz by lia.
    rewrite IH, code_chr by (split; [apply Z.div_pos|apply Z.div_lt_upper_bound]; lia) || (pose proof (Z.mod_pos_bound z 256); lia).
    pose proof (Z.div_mod z 256). lia.
Qed.

(** Two's complement. *)
Definition to_signed (v : Z) : Z := if v <? 2 ^ 63 then v else v - 2 ^ 64.

Lemma signed_roundtrip z : in_i64 z -> to_signed (z mod 2 ^ 64) = z.
Proof.
  unfold in_i64, to_signed. intros H. destruct (Z.ltb_spec (z mod 2 ^ 64) (2 ^ 63)) as [L|L].
  - destruct (Z_lt_le_dec z 0) as [N|N]; [|apply Z.mod_small; lia].
    rewrite <- (Z_mod_plus_full z 1) in L. rewrite Z.mod_small in L by lia. lia.
  - destruct (Z_lt_le_dec z 0) as [N|N]; [|rewrite Z.mod_small in L by lia; lia].
    rewrite <- (Z_mod_plus_full z 1), Z.mod_small by lia. lia.
Qed.

(** ** Doubles *)

(** The encoding of binary64: sign, 11 bits of biased exponent, 52 bits of
    fraction.  A NaN is one of the encodings with all exponent bits set. *)
Definition double_bits (d : double) : Z :=
  let sign (s : bool) := if s then 2 ^ 63 else 0 in
  match d with
  | S754_zero s => sign s
  | S754_infinity s => sign s + 2047 * 2 ^ 52
  | S754_nan => 2047 * 2 ^ 52 + 2 ^ 51
  | S754_finite s m e =>
      if Zpos m <? 2 ^ 52 then sign s + Zpos m
      else sign s + (e + 1075) * 2 ^ 52 + (Zpos m - 2 ^ 52)
  end.

Definition double_of_bits (v : Z) : double :=
  let s := 2 ^ 63 <=? v in
  let r := v mod 2 ^ 63 in
  let ex := r / 2 ^ 52 in
  let fr := r mod 2 ^ 52 in
  if ex =? 2047 then (if fr =? 0 then S754_infinity s else S754_nan)
  else if ex =? 0 then (match fr with Zpos m => S754_finite s m (-1074) | _ => S754_zero s end)
  else match fr + 2 ^ 52 with Zpos m => S754_finite s m (ex - 1075) | _ => S754_nan end.

(** A value of the type [double]: its mantissa and exponent are the canonical
    ones. *)
Definition is_binary64 (d : double) : Prop := valid_binary prec64 emax64 d = true.

Lemma digits_bounds m : 2 ^ (Zpos (digits2_pos m) - 1) <= Zpos m < 2 ^ Zpos (digits2_pos m).
Proof.
  rewrite digits2_log2. replace (Z.log2 (Zpos m) + 1 - 1) with (Z.log2 (Zpos m)) by lia.
  pose proof (Z.log2_spec (Zpos m) eq_refl). by rewrite <- Z.add_1_r in *.
Qed.

(** Either normal, with 53 bits, or subnormal, with the least exponent. *)
Lemma binary64_cases s m e :
  is_binary64 (S754_finite s m e) ->
  (2 ^ 52 <= Zpos m < 2 ^ 53 /\ -1074 <= e <= 971) \/ (Zpos m < 2 ^ 52 /\ e = -1074).
Proof.
  unfold is_binary64. cbn [valid_binary]. unfold bounded, canonical_mantissa, fexp, emin, prec64, emax64.
  rewrite andb_true_iff. intros [E%Z.eqb_eq H%Z.leb_le].
  pose proof (digits_bounds m) as [Hlo Hhi]. set (d := Zpos (digits2_pos m)) in *.
  destruct (Z_lt_le_dec d 53) as [L|L].
  - right. assert (Zpos m < 2 ^ 52); [|lia]. eapply Z.lt_le_trans; [exact Hhi|]. apply Z.pow_le_mono_r; lia.
  - left. assert (d = 53) as Hd by lia. rewrite Hd in *. change (53 - 1) with 52 in Hlo. lia.
Qed.

Lemma bits_split (s : bool) ex fr :
  0 <= ex < 2048 -> 0 <= fr < 2 ^ 52 ->
  let v := (if s then 2 ^ 63 else 0) + (ex * 2 ^ 52 + fr) in
  (2 ^ 63 <=? v) = s /\ v mod 2 ^ 63 / 2 ^ 52 = ex /\ v mod 2 ^ 63 mod 2 ^ 52 = fr.
Proof.
  intros Hex Hfr v. assert (Hr : 0 <= ex * 2 ^ 52 + fr < 2 ^ 63) by lia.
  assert (Hm : v mod 2 ^ 63 = ex * 2 ^ 52 + fr).
  { unfold v. destruct s; [rewrite Z.add_comm; change (2 ^ 63) with (1 * 2 ^ 63) at 1; rewrite Z_mod_plus_full|];
      rewrite ?Z.add_0_l; by apply Z.mod_small. }
  rewrite Hm. split.
  - unfold v. destruct s; [apply Z.leb_le|apply Z.leb_gt]; lia.
  - rewrite Z.div_add_l, Z.div_small, Z.add_0_r by lia. split; [done|].
    rewrite Z.add_comm, Z_mod_plus_full. by apply Z.mod_small.
Qed.

Lemma double_bits_roundtrip d : is_binary64 d -> double_of_bits (double_bits d) = d.
Proof.
  assert (Hgo : forall (s : bool) ex fr, 0 <= ex < 2048 -> 0 <= fr < 2 ^ 52 ->
    double_of_bits ((if s then 2 ^ 63 else 0) + (ex * 2 ^ 52 + fr)) =
    (if ex =? 2047 then (if fr =? 0 then S754_infinity s else S754_nan)
     else if ex =? 0 then (match fr with Zpos m => S754_finite s m (-1074) | _ => S754_zero s end)
     else match fr + 2 ^ 52 with Zpos m => S754_finite s m (ex - 1075) | _ => S754_nan end)).
  { intros s ex fr Hex Hfr. destruct (bits_split s ex fr Hex Hfr) as (H1 & H2 & H3).
    unfold double_of_bits. by rewrite H1, H2, H3. }
  intros Hd. destruct d as [s|s| |s m e]; unfold double_bits.
  - rewrite <- (Z.add_0_r (if s then _ else _)). exact (Hgo s 0 0 ltac:(lia) ltac:(lia)).
  - exact (Hgo s 2047 0 ltac:(lia) ltac:(lia)).
  - exact (Hgo false 2047 (2 ^ 51) ltac:(lia) ltac:(lia)).
  - destruct (binary64_cases s m e Hd) as [[Hm He]|[Hm ->]].
    + rewrite (proj2 (Z.ltb_ge _ _)) by lia. rewrite <- Z.add_assoc, Hgo by lia.
      rewrite (proj2 (Z.eqb_neq (e + 1075) 2047)), (proj2 (Z.eqb_neq (e + 1075) 0)) by lia.
      replace (Zpos m - 2 ^ 52 + 2 ^ 52) with (Zpos m) by lia. f_equal. lia.
    + rewrite (proj2 (Z.ltb_lt _ _)) by lia. exact (Hgo s 0 (Zpos m) ltac:(lia) ltac:(lia)).
Qed.

Lemma double_bits_range d : is_binary64 d -> 0 <= double_bits d < 2 ^ 64.
Proof.
  intros Hd. destruct d as [[]|[]| |s m e]; cbn [double_bits]; try lia.
  destruct (binary64_cases s m e Hd) as [[Hm He]|[Hm ->]]; destruct s; destruct (Z.ltb_spec (Zpos m) (2 ^ 52)); lia.
Qed.

(** ** Structs *)

Inductive cty := I64 | U64 | U32 | U16 | U8 | F64 | Chars (n : nat).
Inductive cval := VInt (z : Z) | VDouble (d : double) | VChars (s : chars).

Definition cty_size (t : cty) : nat :=
  match t with I64 | U64 | F64 => 8 | U32 => 4 | U16 => 2 | U8 => 1 | Chars n => n end.
Definition cty_align (t : cty) : nat :=
  match t with Chars _ => 1 | t => cty_size t end.

Definition field_bytes (t : cty) (v : cval) : chars :=
  match v with
  | VInt z => le_bytes (cty_size t) (z mod 2 ^ 64)
  | VDouble d => le_bytes 8 (double_bits d)
  | VChars s => s
  end.

(** Bytes skipped to reach the next multiple of [a]. *)
Definition padding (off a : nat) : nat := ((a - off mod a) mod a)%nat.

(** The members from offset [off] on, each at a multiple of its alignment. *)
Fixpoint members (off : nat) (l : list (cty * cval)) : chars :=
  match l with
  | [] => []
  | (t, v) :: l =>
      let p := padding off (cty_align t) in
      replicate p zero ++ field_bytes t v ++ members (off + p + cty_size t) l
  end.

(** The size is a multiple of the largest alignment. *)
Definition struct_bytes (l : list (cty * cval)) : chars :=
  let s := members 0 l in
  s ++ replicate (padding (length s) (foldr (fun f a => Nat.max (cty_align (fst f)) a) 1%nat l)) zero.

(** *** Python: [struct] with the prefix [<], no alignment *)

Definition calcsize (fmt : list cty) : nat := sum_list_with cty_size fmt.

Definition unpack_field (t : cty) (s : chars) : cval :=
  match t with
  | I64 => VInt (to_signed (le_value s))
  | U64 | U32 | U16 | U8 => VInt (le_value s)
  | F64 => VDouble (double_of_bits (le_value s))
  | Chars _ => VChars s
  end.

Fixpoint unpack (fmt : list cty) (s : chars) : list cval :=
  match fmt with
  | [] => []
  | t :: fmt => unpack_field t (take (cty_size t) s) :: unpack fmt (drop (cty_size t) s)
  end.

(** [unpack_from]: an error on a short buffer, the rest of a long one ignored. *)
Definition unpack_from (fmt : list cty) (s : chars) : option (list cval) :=
  if (calcsize fmt <=? length s)%nat then Some (unpack fmt s) else None.

(** *** What is written is read *)

Definition fits (t : cty) (v : cval) : Prop :=
  match t, v with
  | I64, VInt z => in_i64 z
  | U64, VInt z => in_u64 z
  | U32, VInt z => in_u32 z
  | U16, VInt z => in_u16 z
  | U8, VInt z => 0 <= z < 256
  | F64, VDouble d => is_binary64 d
  | Chars n, VChars s => length s = n
  | _, _ => False
  end.

Lemma field_length t v : fits t v -> length (field_bytes t v) = cty_size t.
Proof. destruct t, v; cbn [fits field_bytes]; try done; intros _; apply le_bytes_length. Qed.

Lemma field_roundtrip t v : fits t v -> unpack_field t (field_bytes t v) = v.
Proof.
  assert (Hm : forall z, 0 <= z < 2 ^ 64 -> z mod 2 ^ 64 = z) by (intros; by apply Z.mod_small).
  destruct t, v; cbn [fits field_bytes unpack_field cty_size]; try done; intros H; f_equal.
  1: rewrite le_roundtrip by (change (256 ^ Z.of_nat 8) with (2 ^ 64); apply Z.mod_pos_bound; lia); by apply signed_roundtrip.
  5: rewrite le_roundtrip by (change (256 ^ Z.of_nat 8) with (2 ^ 64); by apply double_bits_range); by apply double_bits_roundtrip.
  all: unfold in_u64, in_u32, in_u16 in H; rewrite Hm by lia; apply le_roundtrip;
    first [change (256 ^ Z.of_nat 8) with (2 ^ 64)|change (256 ^ Z.of_nat 4) with (2 ^ 32)
          |change (256 ^ Z.of_nat 2) with (2 ^ 16)|change (256 ^ Z.of_nat 1) with 256]; lia.
Qed.

(** No member needs padding. *)
Fixpoint packed_at (off : nat) (fmt : list cty) : bool :=
  match fmt with
  | [] => (padding off 8 =? 0)%nat
  | t :: fmt => (padding off (cty_align t) =? 0)%nat && packed_at (off + cty_size t) fmt
  end.

Definition all_fit (l : list (cty * cval)) : Prop := Forall (fun f => fits (fst f) (snd f)) l.

Lemma members_packed off l :
  packed_at off (map fst l) = true -> all_fit l -> length (members off l) = calcsize (map fst l) /\
  padding (off + length (members off l)) 8 = 0%nat /\
  forall s, unpack (map fst l) (members off l ++ s) = map snd l.
Proof.
  revert off. induction l as [|[t v] l IH]; intros off Hp Hf; cbn [members map fst snd packed_at] in *.
  - apply Nat.eqb_eq in Hp. split; [done|]. cbn [length]. by rewrite Nat.add_0_r.
  - apply andb_true_iff in Hp as [E%Nat.eqb_eq Hp]. apply Forall_cons_iff in Hf as [Hv Hf]. cbn [fst snd] in Hv.
    rewrite E, Nat.add_0_r. cbn [replicate app]. destruct (IH (off + cty_size t)%nat Hp Hf) as (H1 & H2 & H3).
    rewrite length_app, (field_length t v Hv), H1. unfold calcsize. cbn [sum_list_with]. fold (calcsize (map fst l)).
    split; [done|]. split; [by rewrite Nat.add_assoc, <- H1|]. intros s. cbn [unpack]. rewrite <- app_assoc.
    rewrite take_app_length', drop_app_length' by (by rewrite (field_length t v Hv)).
    by rewrite (field_roundtrip t v Hv), H3.
Qed.

(** A struct without padding, of a size that is a multiple of 8, is read back. *)
Lemma struct_roundtrip l :
  packed_at 0 (map fst l) = true -> (foldr (fun f a => Nat.max (cty_align (fst f)) a) 1 l = 8)%nat -> all_fit l ->
  length (struct_bytes l) = calcsize (map fst l) /\ unpack_from (map fst l) (struct_bytes l) = Some (map snd l).
Proof.
  intros Hp Ha Hf. destruct (members_packed 0 l Hp Hf) as (H1 & H2 & H3). unfold struct_bytes. rewrite Ha.
  cbn [Nat.add] in H2. rewrite H2. cbn [replicate]. rewrite app_nil_r. split; [done|].
  unfold unpack_from. rewrite (proj2 (Nat.leb_le _ _)) by lia. by rewrite <- (app_nil_r (members 0 l)), H3.
Qed.

(** ** The stored structs *)

(** ExecEvent: [_pad] is 0, as [ExecEvent ev{}] leaves it. *)
Definition exec_members (e : ExecEvent) : list (cty * cval) :=
  [(I64, VInt (x_t_recv_ns e)); (U64, VInt (x_cl_ord_id e)); (U8, VInt (ExecKind_code (x_kind e)));
   (U8, VInt (OrdSide_code (x_side e))); (U16, VInt 0); (U32, VInt (x_symbol_id e));
   (F64, VDouble (x_last_px e)); (F64, VDouble (x_last_qty e)); (F64, VDouble (x_leaves_qty e));
   (Chars 24, VChars (x_order_id e))].

Definition snap_members (s : BookSnapshot) : list (cty * cval) :=
  [(I64, VInt (s_t_ns s)); (U32, VInt (s_symbol_id s)); (U16, VInt (s_n_bids s)); (U16, VInt (s_n_asks s))] ++
  map (fun d => (F64, VDouble d)) (s_bid_px s ++ s_bid_qty s ++ s_ask_px s ++ s_ask_qty s).

(** The value [put] stores: [sizeof] bytes from the address of the struct. *)
Definition blob_bytes (b : blob) : chars :=
  struct_bytes (match b with BSnap s => snap_members s | BTrade e => exec_members e end).

(** The formats of the script. *)
Definition SNAP_FMT : list cty := [I64; U32; U16; U16] ++ replicate (4 * 5) F64.
Definition EXEC_FMT : list cty := [I64; U64; U8; U8; U16; U32; F64; F64; F64; Chars 24].

Example formats_sizes : calcsize SNAP_FMT = 176%nat /\ calcsize EXEC_FMT = 72%nat.
Proof. done. Qed.

Definition exec_doubles (e : ExecEvent) : Prop :=
  is_binary64 (x_last_px e) /\ is_binary64 (x_last_qty e) /\ is_binary64 (x_leaves_qty e).
Definition snap_doubles (s : BookSnapshot) : Prop :=
  Forall is_binary64 (s_bid_px s ++ s_bid_qty s ++ s_ask_px s ++ s_ask_qty s).

Lemma exec_read e :
  typed e -> exec_doubles e ->
  unpack_from EXEC_FMT (blob_bytes (BTrade e)) = Some (map snd (exec_members e)).
Proof.
  intros (Ht & Hc & Hs & Ho) (H1 & H2 & H3). apply (struct_roundtrip (exec_members e)); [done|done|].
  unfold exec_members, all_fit. repeat (apply Forall_cons_2; [cbn [fst snd fits]; try done|]); [..|constructor].
  - by destruct (x_kind e).
  - by destruct (x_side e).
Qed.

Lemma snap_read s :
  typed s -> snap_doubles s ->
  length (blob_bytes (BSnap s)) = 176%nat /\ unpack_from SNAP_FMT (blob_bytes (BSnap s)) = Some (map snd (snap_members s)).
Proof.
  intros (Ht & Hs & Hb & Ha & L1 & L2 & L3 & L4) Hd. unfold levels_ok in *.
  assert (E : map fst (snap_members s) = SNAP_FMT).
  { unfold snap_members, SNAP_FMT. rewrite map_app, map_map. cbn [map fst app]. do 4 f_equal.
    rewrite map_const, !length_app, L1, L2, L3, L4. done. }
  rewrite <- E. change 176%nat with (calcsize SNAP_FMT). rewrite <- E. apply struct_roundtrip; [by rewrite E| |].
  - unfold snap_members. cbn [app foldr fst]. induction (s_bid_px s ++ _) as [|d l IH]; cbn in *; lia.
  - unfold snap_members, all_fit. apply Forall_app. split.
    + repeat (apply Forall_cons_2; [done|]). constructor.
    + apply Forall_map. eapply Forall_impl; [|exact Hd]. done.
Qed.
