(* ===== verification/Dump.v ===== *)
(** * Reading the history back (src/scripts/dump_lmdb.py)

    The script walks over the database in key order, unpacks the stored structs
    and prints a line per record.  Here it meets the engine: after a run on a
    fresh database in which no LMDB call of the persister has failed, the trades it
    lists are the fills the strategy has handled, in the order they were handled. *)
From stdpp Require Import sorting.
From S2P Require Import Prelude.
From S2P Require Import Double.
From S2P Require Import Events.
From S2P Require Import SpscRing.
From S2P Require Import Queue.
From S2P Require Import Text.
From S2P Require Import MockExchange.
From S2P Require Import Persister.
From S2P Require Import Config.
From S2P Require Import MarketMaker.
From S2P Require Import MarketMakerFacts.
From S2P Require Import StrategySteps.
From S2P Require Import StrategyProps.
From S2P Require Import DecisionProps.
From S2P Require Import FixApp.
From S2P Require Import FixProps.
From S2P Require Import Main.
From S2P Require Import System.
From S2P Require Import Typing.
From S2P Require Import SystemTypes.
From S2P Require Import StrategyDemo.
From S2P Require Import SystemProps.
From S2P Require Import Ledger.
From S2P Require Import Records.
From S2P Require Import Layout.
From Stdlib Require Import Ascii Sorted.

(** ** The script *)

(** [b.decode("ascii", "replace")], as code points. *)
Definition decode_ascii (s : chars) : list Z :=
  map (fun c => if code c <? 128 then code c else 65533) s.

Definition startswith (key : list Z) (p : string) : bool :=
  bool_decide (take (length (lit p)) key = decode_ascii (lit p)).

(** [D.get(k, k)]. *)
Inductive label := Name (s : string) | Number (z : Z).

Fixpoint label_of (d : list (Z * string)) (k : Z) : label :=
  match d with
  | [] => Number k
  | (k', s) :: d => if k =? k' then Name s else label_of d k
  end.

Definition EXEC_KIND : list (Z * string) :=
  [(0, "New"); (1, "Canceled"); (2, "Filled"); (3, "PartFill"); (4, "Rejected"); (5, "Replaced"); (6, "Other")]%string.
Definition SIDE : list (Z * string) := [(0, "Buy"); (1, "Sell")]%string.

(** What a printed line shows, before it is formatted. *)
Record ObRow := mkObRow {
  ob_key : list Z; ob_t : Z; ob_sym : Z; ob_bids : Z; ob_asks : Z; ob_bb : double; ob_ba : double
}.
Record TrRow := mkTrRow {
  tr_key : list Z; tr_t : Z; tr_sym : Z; tr_kind : label; tr_side : label;
  tr_px : double; tr_qty : double; tr_leaves : double; tr_clordid : Z; tr_orderid : list Z
}.
Inductive row := ROb (r : ObRow) | RTr (r : TrRow).

(** The lines of an unpacked record. *)
Definition ob_line (key : list Z) (f : list cval) : list row :=
  match f with
  | VInt t :: VInt sym :: VInt nb :: VInt na :: d =>
      match d !! 0%nat, d !! Z.to_nat (2 * kMaxDepth) with
      | Some (VDouble b), Some (VDouble a) =>
          [ROb (mkObRow key t sym nb na (if nb =? 0 then dnan else b) (if na =? 0 then dnan else a))]
      | _, _ => []
      end
  | _ => []
  end.

Definition tr_line (key : list Z) (f : list cval) : list row :=
  match f with
  | [VInt t; VInt cl; VInt kind; VInt side; VInt pad; VInt sym; VDouble px; VDouble qty; VDouble leaves; VChars oid] =>
      [RTr (mkTrRow key t sym (label_of EXEC_KIND kind) (label_of SIDE side) px qty leaves cl (decode_ascii (c_str oid)))]
  | _ => []
  end.

Record Dump := mkDump { n_ob : Z; n_tr : Z; tot_ob : Z; tot_tr : Z; printed : list row }.

Section Script.
Context (show_ob show_tr : bool) (limit : Z).

(** One record of the cursor. *)
Definition dump_record (kv : chars * chars) (st : Dump) : Dump :=
  let '(mkDump no nt tob ttr out) := st in
  let key := decode_ascii (fst kv) in
  if startswith key "ob|" then
    match (if show_ob && (no <? limit) then unpack_from SNAP_FMT (snd kv) else None) with
    | Some f => mkDump (no + 1) nt (tob + 1) ttr (out ++ ob_line key f)
    | None => mkDump no nt (tob + 1) ttr out
    end
  else if startswith key "tr|" then
    match (if show_tr && (nt <? limit) then unpack_from EXEC_FMT (snd kv) else None) with
    | Some f => mkDump no (nt + 1) tob (ttr + 1) (out ++ tr_line key f)
    | None => mkDump no nt tob (ttr + 1) out
    end
  else st.

(** [for k, v in txn.cursor()]. *)
Fixpoint dump_records (kvs : list (chars * chars)) (st : Dump) : Dump :=
  match kvs with
  | [] => st
  | kv :: kvs => dump_records kvs (dump_record kv st)
  end.

Definition dump (kvs : list (chars * chars)) : Dump := dump_records kvs (mkDump 0 0 0 0 []).
End Script.

(** The options: without [--ob] and [--tr] both kinds are shown. *)
Definition dump_main (ob tr : bool) (limit : Z) (kvs : list (chars * chars)) : Dump :=
  let both := negb (ob || tr) in dump (ob || both) (tr || both) limit kvs.

(** ** The database, as the script sees it *)

(** A cursor yields the committed records by increasing key (memcmp, a prefix
    first). *)
Class LmdbCursor {LO : LmdbOps} := db_records : Db -> list (chars * blob).

Definition key_lt (a b : chars * blob) : Prop := bytes_lt (fst a) (fst b) = true.

Class LmdbCursorLaws {LO : LmdbOps} {LC : LmdbCursor} : Prop := {
  records_sorted : forall d, StronglySorted key_lt (db_records d);
  records_get : forall d k v, (k, v) ∈ db_records d <-> mdb_get k d = Some v
}.

Definition stored_bytes (kv : chars * blob) : chars * chars := (fst kv, blob_bytes (snd kv)).

(** What the line of a fill should name: its kind. *)
Definition kind_label (k : ExecKind) : label :=
  match k with
  | ExNew => Name "New"
  | ExCanceled => Name "Canceled"
  | ExFilled => Name "Filled"
  | ExPartFill => Name "PartFill"
  | ExRejected => Name "Rejected"
  | ExReplaced => Name "Replaced"
  | ExOther => Name "Other"
  end.

(** And what it shows for the side.  common/events.hpp numbers Buy 1 and Sell 2,
    the script 0 and 1: a Buy is listed as a Sell, a Sell as the number 2, and a
    report without a side as a Buy. *)
Definition side_shown (s : OrdSide) : label :=
  match s with
  | Buy => Name "Sell"
  | Sell => Number 2
  | SideZero => Name "Buy"
  end.

(** The line of a stored trade. *)
Definition trade_row (key : chars) (e : ExecEvent) : TrRow :=
  mkTrRow (decode_ascii key) (x_t_recv_ns e) (x_symbol_id e)
    (kind_label (x_kind e)) (side_shown (x_side e))
    (x_last_px e) (x_last_qty e) (x_leaves_qty e) (x_cl_ord_id e) (decode_ascii (c_str (x_order_id e))).

Definition tr_rows (l : list row) : list TrRow := omap (fun r => match r with RTr r => Some r | ROb _ => None end) l.

(** ** The walk over the records *)

Lemma tr_rows_app a b : tr_rows (a ++ b) = tr_rows a ++ tr_rows b.
Proof. unfold tr_rows. by rewrite omap_app. Qed.

Lemma ob_line_no_trades key f : tr_rows (ob_line key f) = [].
Proof. unfold ob_line. by repeat case_match. Qed.

Lemma trade_line k e : tr_line (decode_ascii k) (map snd (exec_members e)) = [RTr (trade_row k e)].
Proof. destruct e as [t cl [] [] sym px qty lv oid]; reflexivity. Qed.

(** The kind of a record shows in its key. *)
Definition well_keyed (kv : chars * blob) : Prop :=
  match snd kv with
  | BTrade e => startswith (decode_ascii (fst kv)) "ob|" = false /\ startswith (decode_ascii (fst kv)) "tr|" = true /\
                typed e /\ exec_doubles e
  | BSnap _ => startswith (decode_ascii (fst kv)) "ob|" = true
  end.

Definition trade_rows (l : list (chars * blob)) : list TrRow :=
  omap (fun kv => match snd kv with BTrade e => Some (trade_row (fst kv) e) | BSnap _ => None end) l.

Lemma dump_records_trades show_ob limit l st :
  Forall well_keyed l -> 0 <= n_tr st ->
  let st' := dump_records show_ob true limit (map stored_bytes l) st in
  tr_rows (printed st') = tr_rows (printed st) ++ take (Z.to_nat (limit - n_tr st)) (trade_rows l) /\
  tot_tr st' = tot_tr st + Z.of_nat (length (trade_rows l)).
Proof.
  intros Hl. revert st. induction Hl as [|[k b] l Hb Hl IH]; intros [no nt tob ttr out] Hn; cbn [map dump_records].
  - cbn. rewrite take_nil, app_nil_r. split; [done|lia].
  - unfold well_keyed in Hb. cbn [fst snd] in Hb. change (stored_bytes (k, b)) with (k, blob_bytes b).
    unfold dump_record. cbn [fst snd]. destruct b as [s|e].
    + rewrite Hb. cbn [n_tr printed tot_tr] in *. change (trade_rows ((k, BSnap s) :: l)) with (trade_rows l).
      destruct (if show_ob && _ then _ else _) as [f|].
      * destruct (IH (mkDump (no + 1) nt (tob + 1) ttr (out ++ ob_line (decode_ascii k) f)) Hn) as [H1 H2].
        cbn [n_tr printed tot_tr] in *. split; [|exact H2]. by rewrite H1, tr_rows_app, ob_line_no_trades, app_nil_r.
      * exact (IH (mkDump no nt (tob + 1) ttr out) Hn).
    + destruct Hb as (-> & -> & Ht & Hd). cbn [andb n_tr printed tot_tr] in *.
      change (trade_rows ((k, BTrade e) :: l)) with (trade_row k e :: trade_rows l). cbn [length].
      destruct (Z.ltb_spec nt limit) as [L|L].
      * rewrite (exec_read e Ht Hd), trade_line.
        destruct (IH (mkDump no (nt + 1) tob (ttr + 1) (out ++ [RTr (trade_row k e)]))) as [H1 H2]; [cbn; lia|].
        cbn [n_tr printed tot_tr] in *. split; [|rewrite H2; lia]. rewrite H1, tr_rows_app, <- app_assoc. f_equal.
        replace (Z.to_nat (limit - nt)) with (S (Z.to_nat (limit - (nt + 1)))) by lia. done.
      * destruct (IH (mkDump no nt tob (ttr + 1) out) Hn) as [H1 H2]. cbn [n_tr printed tot_tr] in *.
        split; [|rewrite H2; lia]. rewrite H1. by replace (Z.to_nat (limit - nt)) with 0%nat by lia.
Qed.

(** ** The trades of a database, in the order of their keys *)

Lemma bytes_lt_irrefl a : bytes_lt a a = false.
Proof. induction a as [|c a IH]; [done|]. cbn. by rewrite Z.ltb_irrefl, Z.eqb_refl, IH. Qed.

Lemma bytes_lt_asym a b : bytes_lt a b = true -> bytes_lt b a = false.
Proof.
  revert b. induction a as [|c a IH]; intros [|d b]; cbn; try done.
  intros [H%Z.ltb_lt|[->%Z.eqb_eq H]%andb_true_iff]%orb_true_iff.
  - apply orb_false_iff. split; [apply Z.ltb_ge; lia|]. apply andb_false_iff. left. apply Z.eqb_neq. lia.
  - rewrite Z.ltb_irrefl, Z.eqb_refl. by apply IH.
Qed.

(** The fills [l] under the numbers from [n] on. *)
Fixpoint numbered (n : nat) (l : list ExecEvent) : list (chars * blob) :=
  match l with
  | [] => []
  | e :: l => (trade_text (Z.of_nat n), BTrade e) :: numbered (S n) l
  end.

Lemma elem_numbered n l k v :
  (k, v) ∈ numbered n l <-> exists i e, l !! i = Some e /\ k = trade_text (Z.of_nat (n + i)) /\ v = BTrade e.
Proof.
  revert n. induction l as [|x l IH]; intros n; cbn [numbered].
  - rewrite elem_of_nil. split; [done|]. intros (i & e & H & _). by rewrite lookup_nil in H.
  - rewrite elem_of_cons, IH. split.
    + intros [[= -> ->]|(i & e & H & -> & ->)]; [exists 0%nat, x; by rewrite Nat.add_0_r|].
      exists (S i), e. by rewrite Nat.add_succ_r.
    + intros ([|i] & e & H & -> & ->); [injection H as ->; left; by rewrite Nat.add_0_r|right].
      exists i, e. by rewrite Nat.add_succ_r.
Qed.

Lemma numbered_sorted n l :
  Z.of_nat (n + length l) <= 10 ^ 10 -> StronglySorted key_lt (numbered n l).
Proof.
  revert n. induction l as [|x l IH]; intros n Hn; cbn [numbered length] in *; constructor; [apply IH; lia|].
  apply List.Forall_forall. intros [k v] Hin%list_elem_of_In. apply elem_numbered in Hin as (i & e & Hi & -> & _).
  apply lookup_lt_Some in Hi. unfold key_lt, trade_text. cbn [fst]. rewrite bytes_lt_app. apply padded_lt; lia.
Qed.

Lemma trade_rows_numbered n l :
  trade_rows (numbered n l) = imap (fun i e => trade_row (trade_text (Z.of_nat (n + i))) e) l.
Proof.
  revert n. induction l as [|x l IH]; intros n; [done|]. cbn [numbered].
  change (trade_rows ((trade_text (Z.of_nat n), BTrade x) :: numbered (S n) l))
    with (trade_row (trade_text (Z.of_nat n)) x :: trade_rows (numbered (S n) l)).
  rewrite IH. cbn [imap]. rewrite Nat.add_0_r. f_equal. apply imap_ext. intros i e _. cbn. by rewrite Nat.add_succ_r.
Qed.

Definition is_trade (kv : chars * blob) : bool := match snd kv with BTrade _ => true | BSnap _ => false end.

Lemma trade_rows_filter l : trade_rows (List.filter is_trade l) = trade_rows l.
Proof. induction l as [|[k [s|e]] l IH]; [done|exact IH|]. cbn. unfold trade_rows in *. cbn. by f_equal. Qed.

Lemma sorted_filter (f : chars * blob -> bool) l : StronglySorted key_lt l -> StronglySorted key_lt (List.filter f l).
Proof.
  induction 1 as [|x l Hs IH Hx]; cbn; [constructor|]. destruct (f x); [|done]. constructor; [done|].
  rewrite List.Forall_forall in *. intros y [Hy _]%filter_In. by apply Hx.
Qed.

Lemma key_lt_NoDup l : StronglySorted key_lt l -> NoDup l.
Proof.
  induction 1 as [|x l Hs IH Hx]; [constructor|]. apply list.NoDup_cons. split; [|done]. intros Hin%list_elem_of_In.
  rewrite List.Forall_forall in Hx. specialize (Hx x Hin). unfold key_lt in Hx. by rewrite bytes_lt_irrefl in Hx.
Qed.

Lemma sorted_trades l fills :
  StronglySorted key_lt l -> Z.of_nat (length fills) <= 10 ^ 10 ->
  (forall k e, (k, BTrade e) ∈ l <-> exists i, fills !! i = Some e /\ k = trade_text (Z.of_nat i)) ->
  trade_rows l = imap (fun i e => trade_row (trade_text (Z.of_nat i)) e) fills.
Proof.
  intros Hs Hn Hin. rewrite <- trade_rows_filter.
  assert (Hn' : StronglySorted key_lt (numbered 0 fills)) by (by apply numbered_sorted).
  enough (List.filter is_trade l = numbered 0 fills) as ->; [by apply trade_rows_numbered|].
  apply (StronglySorted_unique_strong key_lt); [|by apply sorted_filter|done|].
  - intros x y _ _ H1 H2. unfold key_lt in *. rewrite (bytes_lt_asym _ _ H1) in H2. done.
  - apply NoDup_Permutation; [by apply key_lt_NoDup, sorted_filter|by apply key_lt_NoDup|]. intros [k v].
    rewrite list_elem_of_In, filter_In, <- list_elem_of_In, elem_numbered. split.
    + intros [Hl Ht]. destruct v as [s|e]; [done|]. apply Hin in Hl as (i & Hi & ->). by exists i, e.
    + intros (i & e & Hi & -> & ->). split; [|done]. apply Hin. by exists i.
Qed.

(** ** What the engine leaves in a fresh database *)

Section Engine.
Context {QO : QueueOps} {QL : QueueLaws} {QF : QuickFix} {QFL : QuickFixLaws}.
Context {LO : LmdbOps} {LL : LmdbLaws} {LC : LmdbCursor} {LCL : LmdbCursorLaws}.
Context (cfg : EngineConfig) (fclock sclock : nat -> Z).
Context {HF : ClockOk fclock} {HK : ClockOk sclock} {HI : IntervalOk cfg}.
Context (sendToTarget : FixOut -> option SessionID -> Res bool) (log_open : bool) (db : Db).

Abbreviation start := (system_init cfg sclock log_open db).
Abbreviation sys := (sys_run cfg fclock sclock sendToTarget).
Abbreviation trades_full := (trades_full (LO := LO)).
Abbreviation cycle_failed := (cycle_failed cfg fclock sclock sendToTarget log_open db).

(** The records are those of the cycles of this run. *)
Definition db_inv (s : System) : Prop :=
  forall k v, mdb_get k (sy_db s) = Some v ->
    match v with
    | BTrade _ => exists i, 0 <= i < trade_seq_ (db_ (sy_engine s)) /\ k = trade_text i
    | BSnap b => exists n, k = snap_text (s_symbol_id b) n
    end.

Lemma cycle_db_inv s p d :
  persister_ok (db_ (sy_engine s)) -> cycle_clean (db_ (sy_engine s)) (sy_db s) = true -> db_inv s ->
  persist_cycle (db_ (sy_engine s)) (sy_db s) = Ok (p, d) ->
  db_inv (mkSystem (sy_pc s) (set_db (sy_engine s) p) (sy_fix s) d).
Proof.
  intros Hok Hcl Hi Hc k v Hk. cbn [sy_db sy_engine db_ set_db] in *.
  destruct (persist_cycle_stored _ _ Hok Hcl) as (p1 & d1 & H1 & [_ _ _ Honly] & _ & _ & _ & _ & Htq).
  rewrite Hc in H1. injection H1 as <- <-. rewrite Htq. destruct (po_troom _ Hok).
  apply Honly in Hk as [Hk|[(i & b & Hin & -> & ->)|(i & e & Hin & -> & ->)]].
  - specialize (Hi k v Hk). destruct v as [b|e]; [done|]. destruct Hi as (i & Hi & ->). exists i. split; [lia|done].
  - by eexists.
  - apply lookup_lt_Some in Hin. eexists. split; [|done]. lia.
Qed.

(** The fills of a run are values of their type. *)
Lemma fills_typed tr s : sys start tr s -> Forall typed (fills (emitted tr)).
Proof.
  revert tr s. apply (sys_induct cfg fclock sclock sendToTarget log_open db (fun tr _ => Forall typed (fills (emitted tr)))); [constructor|].
  intros tr s l s' Hrun Hok IH Hst. rewrite emitted_snoc, fills_app. apply Forall_app. split; [done|].
  destruct l as [| | | |l| | |]; try constructor. inversion Hst as [| | | |? ? p e Hl Hs| | |]; subst. cbn [strat_label].
  inversion Hs as [s0 x s1 s2 Hp Hx| |s0 ev s1 s2 cmds Hp Hev Hx Hout| |]; subst; cbn [events_of]; rewrite ?fills_cmds; try constructor.
  destruct (pop_exec_spec _ Hok) as (q & Hp' & _). rewrite Hp in Hp'. injection Hp' as Hx' _.
  pose proof (sys_reach_typed cfg fclock sclock sendToTarget log_open db tr s Hrun) as ((_ & (_ & Hex) & _) & _).
  unfold fills. cbn. destruct (is_fill x); [|constructor]. constructor; [|constructor].
  destruct (q_contents (exec_ (sy_engine s))) as [|y l]; [done|]. injection Hx' as ->. by apply Forall_cons_iff in Hex as [? _].
Qed.

Section Fresh.
Context (fresh : forall k, mdb_get k db = None).

Lemma db_inv_reach tr s : sys start tr s -> Z.of_nat (length tr) < 2 ^ 60 -> db_inv s \/ cycle_failed tr s.
Proof.
  revert tr s. apply (sys_induct cfg fclock sclock sendToTarget log_open db
    (fun tr s => Z.of_nat (length tr) < 2 ^ 60 -> db_inv s \/ cycle_failed tr s)).
  - intros _. left. intros k v Hk. cbn [system_init sy_db] in Hk. by rewrite fresh in Hk.
  - intros tr s l s' Hrun Hok IH Hst Hlen. rewrite length_app in Hlen. cbn [length] in Hlen.
    destruct (hist_inv_reach cfg fclock sclock sendToTarget log_open db tr s Hrun) as [Hh|Hf];
      [lia| |right; by eapply failed_step].
    destruct IH as [IH|Hf]; [lia| |right; by eapply failed_step].
    assert (Hsame : sy_db s' = sy_db s -> trade_seq_ (db_ (sy_engine s')) = trade_seq_ (db_ (sy_engine s)) ->
      db_inv s' \/ cycle_failed (tr ++ [l]) s').
    { intros E1 E2. left. intros k v. rewrite E1, E2. apply IH. }
    pose proof Hst as Hst0. destruct Hst as [| | | |s l p e Hl Hs| | |s p d Hc]; try by apply Hsame.
    + apply Hsame; [done|]. cbn [sy_engine].
      destruct (strat_step_entered cfg sclock _ _ _ _ _ Hok Hl Hs) as (ld & _ & He). by destruct (en_seqs _ _ _ He).
    + destruct (cycle_clean (db_ (sy_engine s)) (sy_db s)) eqn:Ec; [left|right; by eapply failed_now].
      apply cycle_db_inv; [|done..].
      apply (reached_persister cfg fclock sclock sendToTarget log_open db tr s Hrun Hh). lia.
Qed.

(** The trades of the database are the fills stored so far. *)
Lemma stored_trades s stored :
  db_inv s -> trade_seq_ (db_ (sy_engine s)) = Z.of_nat (length stored) -> has_trades (sy_db s) stored ->
  forall k e, (k, BTrade e) ∈ db_records (sy_db s) <-> exists i, stored !! i = Some e /\ k = trade_text (Z.of_nat i).
Proof.
  intros Hi Hq Hd k e. rewrite records_get. split; [|intros (i & Hi' & ->); by apply Hd].
  intros Hk. destruct (Hi k _ Hk) as (i & Hr & ->).
  destruct (lookup_lt_is_Some_2 stored (Z.to_nat i)) as [e' He']; [lia|].
  exists (Z.to_nat i). rewrite Z2Nat.id by lia. split; [|done].
  specialize (Hd _ _ He'). rewrite Z2Nat.id, Hk in Hd by lia. by injection Hd as ->.
Qed.

(** Every record tells its kind by its key. *)
Lemma records_keyed s stored :
  db_inv s ->
  (forall k e, (k, BTrade e) ∈ db_records (sy_db s) <-> exists i, stored !! i = Some e /\ k = trade_text (Z.of_nat i)) ->
  Forall (fun e => typed e /\ exec_doubles e) stored -> Forall well_keyed (db_records (sy_db s)).
Proof.
  intros Hi Hst Hty. apply List.Forall_forall. intros [k v] Hin%list_elem_of_In. unfold well_keyed. cbn [fst snd].
  destruct v as [b|e].
  - apply records_get, Hi in Hin as (n & ->). reflexivity.
  - apply Hst in Hin as (i & Hx & ->). split; [reflexivity|]. split; [reflexivity|]. exact (Forall_lookup_1 _ _ _ _ Hty Hx).
Qed.
End Fresh.

(** C19: the history can be read back.  After a run on a fresh database,
    dump_lmdb.py counts the stored fills and lists the first [limit] of them, in
    the order in which the strategy handled them, each with the time, instrument,
    kind, prices, quantities and ids it had and with the side as [side_shown] has
    it, a Buy under the name of a Sell; none is missing but those still in the
    trade ring, unless that ring has been full, or an LMDB call of a persister
    cycle has failed. *)
Theorem dump_lists_fills (tr : list sys_label) (s : System) (ob trd : bool) (limit : Z) :
  (forall k, mdb_get k db = None) -> sys start tr s -> Z.of_nat (length tr) <= 10 ^ 10 ->
  (forall e, e ∈ fills (emitted tr) -> exec_doubles e) -> ob = false \/ trd = true ->
  let d := dump_main ob trd limit (map stored_bytes (db_records (sy_db s))) in
  (exists kept stored,
    kept `sublist_of` fills (emitted tr) /\ kept = stored ++ trades (db_ (sy_engine s)) /\
    (kept = fills (emitted tr) \/ passed cfg fclock sclock sendToTarget log_open db trades_full tr s) /\
    tot_tr d = Z.of_nat (length stored) /\
    tr_rows (printed d) = take (Z.to_nat limit) (imap (fun i e => trade_row (trade_text (Z.of_nat i)) e) stored)) \/
  cycle_failed tr s.
Proof.
  intros Hfresh Hrun Hlen Hdb Hopt d. assert (Hl60 : Z.of_nat (length tr) < 2 ^ 60) by lia.
  destruct (hist_inv_reach cfg fclock sclock sendToTarget log_open db tr s Hrun Hl60)
    as [[(kept & stored & Hsub & Hfull & Hk & Hq & Hd) _]|Hf]; [|by right].
  destruct (db_inv_reach Hfresh tr s Hrun Hl60) as [Hi|Hf]; [left|by right].
  exists kept, stored. do 3 (split; [done|]).
  assert (Hs : stored `sublist_of` fills (emitted tr)) by (etrans; [|exact Hsub]; rewrite Hk; by apply sublist_inserts_r).
  pose proof (stored_trades s stored Hi Hq Hd) as Hst.
  assert (Hty : Forall (fun e => typed e /\ exec_doubles e) stored).
  { apply List.Forall_forall. intros e He%list_elem_of_In. apply sublist_submseteq in Hs.
    eapply elem_of_submseteq in Hs; [|exact He]. split; [|by apply Hdb].
    pose proof (fills_typed tr s Hrun) as Ht. rewrite List.Forall_forall in Ht. by apply Ht, list_elem_of_In. }
  assert (Hn : Z.of_nat (length stored) <= 10 ^ 10) by (apply sublist_length in Hs; pose proof (fills_le tr); lia).
  destruct (dump_records_trades (ob || negb (ob || trd)) limit (db_records (sy_db s)) (mkDump 0 0 0 0 [])
    (records_keyed s stored Hi Hst Hty)) as [H1 H2]; [done|].
  rewrite (sorted_trades _ stored (records_sorted _) Hn Hst) in H1, H2. rewrite length_imap in H2.
  cbn [printed tr_rows omap list_omap app n_tr tot_tr] in H1, H2. rewrite Z.sub_0_r in H1.
  assert (E : d = dump_records (ob || negb (ob || trd)) true limit (map stored_bytes (db_records (sy_db s))) (mkDump 0 0 0 0 [])).
  { unfold d, dump_main, dump. by destruct Hopt as [-> | ->]; destruct trd || destruct ob. }
  rewrite E. split; [exact H2|exact H1].
Qed.
End Engine.

(** ** Witness: a cursor over the finite map *)

Definition key_le (a b : chars * blob) : Prop := bytes_lt (fst b) (fst a) = false.

#[export] Instance key_le_dec : RelDecision key_le.
Proof. intros a b. unfold key_le. apply _. Defined.

Lemma bytes_lt_total a b : bytes_lt a b = true \/ a = b \/ bytes_lt b a = true.
Proof.
  revert b. induction a as [|c a IH]; intros [|d b]; cbn; auto.
  destruct (Z.lt_trichotomy (code c) (code d)) as [H|[H|H]].
  - left. by rewrite (proj2 (Z.ltb_lt _ _) H).
  - rewrite H, Z.ltb_irrefl, Z.eqb_refl. cbn. assert (c = d) as -> by (by rewrite <- (chr_code c), <- (chr_code d), H).
    destruct (IH b) as [?|[-> |?]]; auto.
  - right. right. by rewrite (proj2 (Z.ltb_lt _ _) H).
Qed.

Lemma bytes_lt_trans a b c : bytes_lt a b = true -> bytes_lt b c = true -> bytes_lt a c = true.
Proof.
  revert b c. induction a as [|x a IH]; intros [|y b] [|z c]; cbn; try done.
  rewrite !orb_true_iff, !andb_true_iff, !Z.ltb_lt, !Z.eqb_eq. intros [H|[-> H]] [H'|[<- H']]; try (left; lia).
  right. split; [done|by eapply IH].
Qed.

#[export] Instance key_le_trans : Transitive key_le.
Proof.
  intros [a x] [b y] [c z]. unfold key_le. cbn [fst]. intros H1 H2. apply not_true_is_false. intros H3.
  destruct (bytes_lt_total a b) as [H|[-> |H]]; [|congruence..].
  pose proof (bytes_lt_trans _ _ _ H3 H). congruence.
Qed.

#[export] Instance key_le_total : Total key_le.
Proof.
  intros [a x] [b y]. unfold key_le. cbn [fst]. destruct (bytes_lt b a) eqn:E; [right; by apply bytes_lt_asym|by left].
Qed.

#[export] Instance map_cursor : @LmdbCursor map_db := fun d : gmap chars blob => merge_sort key_le (map_to_list d).

Lemma strictly_sorted (l : list (chars * blob)) :
  NoDup (map fst l) -> StronglySorted key_le l -> StronglySorted key_lt l.
Proof.
  intros Hn Hs. induction Hs as [|x l Hs IH Hx]; [constructor|]. cbn [map] in Hn.
  apply list.NoDup_cons in Hn as [Hx' Hn]. constructor; [by apply IH|].
  rewrite List.Forall_forall in *. intros y Hy. specialize (Hx y Hy). unfold key_le, key_lt in *.
  destruct (bytes_lt_total (fst x) (fst y)) as [H|[H|H]]; [done| |congruence].
  destruct Hx'. rewrite H. by apply list_elem_of_In, in_map.
Qed.

#[export] Instance map_cursor_laws : @LmdbCursorLaws map_db map_cursor.
Proof.
  split; unfold db_records, map_cursor.
  - intros d. apply strictly_sorted; [|apply StronglySorted_merge_sort; apply _].
    rewrite (Permutation_map fst (merge_sort_Permutation key_le (map_to_list d))). apply (NoDup_fst_map_to_list (d : gmap chars blob)).
  - intros d k v. rewrite merge_sort_Permutation. apply (elem_of_map_to_list (d : gmap chars blob)).
Qed.

(** The demonstration run, persisted, then dumped. *)
Definition dumped : Dump := dump_main false false 20 (map stored_bytes (@db_records map_db map_cursor (sy_db persisted_state))).

Lemma dump_lists_fills_witness :
  tot_tr dumped = 1 /\ (exists stored, tr_rows (printed dumped) =
    take 20 (imap (fun i e => trade_row (trade_text (Z.of_nat i)) e) stored) /\ length stored = 1%nat).
Proof.
  assert (H1 : tot_tr dumped = 1) by (vm_compute; reflexivity). split; [exact H1|].
  assert (Hd : Forall exec_doubles (fills (emitted (demo_labels ++ [SPersist])))).
  { assert (E : forallb (fun e => valid_binary prec64 emax64 (x_last_px e) && valid_binary prec64 emax64 (x_last_qty e) &&
        valid_binary prec64 emax64 (x_leaves_qty e)) (fills (emitted (demo_labels ++ [SPersist]))) = true) by (vm_compute; reflexivity).
    rewrite forallb_forall in E. apply List.Forall_forall. intros e He.
    apply E, andb_true_iff in He as [[H2 H3]%andb_true_iff H4]. exact (conj H2 (conj H3 H4)). }
  rewrite List.Forall_forall in Hd. pose proof map_db_laws as HL.
  destruct (dump_lists_fills demo_fix_config demo_clock demo_clock demo_send true ∅ (LL := HL)
    (demo_labels ++ [SPersist]) persisted_state false false 20
    (fun k => lookup_empty k) persisted_run) as [(kept & stored & _ & _ & _ & Ht & Hr)|(t1 & s1 & t2 & _ & _ & _ & Hf)].
  - apply Z.leb_le. vm_compute. reflexivity.
  - intros e He. exact (Hd e (proj1 (list_elem_of_In _ _) He)).
  - by left.
  - exists stored. split; [exact Hr|]. fold dumped in Ht. rewrite H1 in Ht. lia.
  - rewrite map_db_clean in Hf. discriminate.
Defined.
